(** * libshardcache: the KePaxos replication engine and the ARC cache

    A shallow embedding of [src/kepaxos.c] and [src/arc.c].  Machine integers
    are [Z] with the wrap-around written out, byte buffers are lists of
    [Z] in [0, 256), the command table, the persistent log and the hash index
    are finite maps, and callbacks are return-code oracles whose invocations
    are recorded in a ghost event trace. *)

From Stdlib Require Import ZArith List Lia Bool.
From stdpp Require Import gmap.

Local Open Scope Z_scope.

(** ** Machine integers *)

Definition uint8_t (z : Z) : Z := z mod 2 ^ 8.
Definition uint16_t (z : Z) : Z := z mod 2 ^ 16.
Definition uint32_t (z : Z) : Z := z mod 2 ^ 32.
Definition uint64_t (z : Z) : Z := z mod 2 ^ 64.

(** [MAX] and [MIN] of kepaxos.c and arc.c, on operands already converted to
    a common unsigned type. *)
Definition MAX (a b : Z) : Z := if a >? b then a else b.
Definition MIN (a b : Z) : Z := if a <? b then a else b.

Abbreviation bytes := (list Z).

Module Kepaxos.

(** ** Ballots *)

Definition BALLOT_VALUE (b : Z) : Z := Z.shiftr b 8.
Definition BALLOT2NODEINDEX (b : Z) : Z := Z.land b 255.

(** Modelled from the spec: the macro [ATOMIC_SET_IF(v, <, n, uint64_t)] of
    atomic_defs.h, which is not among the sources ("CAS local ballot upward
    ... only if strictly greater"): [v] becomes [n] when [v < n]. *)
Definition ATOMIC_SET_IF_lt (v n : Z) : Z := if v <? n then n else v.

(** ** Wire format *)

Inductive kepaxos_msg_type_t :=
| KEPAXOS_MSG_TYPE_PRE_ACCEPT
| KEPAXOS_MSG_TYPE_PRE_ACCEPT_RESPONSE
| KEPAXOS_MSG_TYPE_ACCEPT
| KEPAXOS_MSG_TYPE_ACCEPT_RESPONSE
| KEPAXOS_MSG_TYPE_COMMIT.

Definition mtype_code (t : kepaxos_msg_type_t) : Z :=
  match t with
  | KEPAXOS_MSG_TYPE_PRE_ACCEPT => 1
  | KEPAXOS_MSG_TYPE_PRE_ACCEPT_RESPONSE => 2
  | KEPAXOS_MSG_TYPE_ACCEPT => 3
  | KEPAXOS_MSG_TYPE_ACCEPT_RESPONSE => 4
  | KEPAXOS_MSG_TYPE_COMMIT => 5
  end.

(** [kepaxos_msg_t].  [msg_peer] is the C string the [peer] pointer denotes
    (without its terminating NUL); [msg_key] and [msg_data] are the [klen] and
    [dlen] bytes behind the pointers, the empty list for [NULL]. *)
Record kepaxos_msg_t := {
  msg_peer : bytes;
  msg_ballot : Z;
  msg_seq : Z;
  msg_mtype : Z;
  msg_ctype : Z;
  msg_committed : Z;
  msg_key : bytes;
  msg_klen : Z;
  msg_data : bytes;
  msg_dlen : Z
}.

(** [KEPAXOS_MSGLEN_MIN = 3 + sizeof(uint32_t) * 6 + sizeof(uint16_t)]. *)
Definition KEPAXOS_MSGLEN_MIN : Z := 3 + 4 * 6 + 2.

(** [htons]/[htonl] followed by [memcpy]: the big-endian bytes. *)
Definition be16 (z : Z) : bytes :=
  [Z.land (Z.shiftr z 8) 255; Z.land z 255].
Definition be32 (z : Z) : bytes :=
  [Z.land (Z.shiftr z 24) 255; Z.land (Z.shiftr z 16) 255;
   Z.land (Z.shiftr z 8) 255; Z.land z 255].

(** A byte of a buffer; the model reads 0 past the end. *)
Definition byte_at (buf : bytes) (off : Z) : Z := nth (Z.to_nat off) buf 0.

(** [ntohs] of the 16 bits and [ntohl] of the 32 bits at offset [off]. *)
Definition rd16 (buf : bytes) (off : Z) : Z :=
  Z.lor (Z.shiftl (byte_at buf off) 8) (byte_at buf (off + 1)).
Definition rd32 (buf : bytes) (off : Z) : Z :=
  Z.lor (Z.lor (Z.lor (Z.shiftl (byte_at buf off) 24)
                      (Z.shiftl (byte_at buf (off + 1)) 16))
               (Z.shiftl (byte_at buf (off + 2)) 8))
        (byte_at buf (off + 3)).

(** The [n] bytes of a buffer from offset [off] on. *)
Definition slice (buf : bytes) (off n : Z) : bytes :=
  firstn (Z.to_nat n) (skipn (Z.to_nat off) buf).

(** The C string that starts at offset [off]. *)
Fixpoint cstring (buf : bytes) : bytes :=
  match buf with
  | [] => []
  | b :: rest => if b =? 0 then [] else b :: cstring rest
  end.

(** [kepaxos_build_message]: the buffer and the returned [msglen].  [sender]
    is a C string (no NUL inside), [key] and [data] are the buffers the
    pointers denote. *)
Definition kepaxos_build_message (sender : bytes) (mtype : kepaxos_msg_type_t)
    (ctype ballot : Z) (key : bytes) (klen : Z) (data : bytes) (dlen : Z)
    (seq committed : Z) : bytes * Z :=
  let sender_len := Z.of_nat (length sender) + 1 in
  let msglen := KEPAXOS_MSGLEN_MIN + klen + dlen + sender_len in
  let committed_byte := if committed =? 0 then 0 else 1 in
  let mtype_byte := uint8_t (mtype_code mtype) in
  let ctype_byte := uint8_t ctype in
  let slen_nbo := be16 (uint16_t sender_len) in
  let ballot_low := Z.land ballot 4294967295 in
  let ballot_high := uint32_t (Z.shiftr ballot 32) in
  let seq_low := Z.land seq 4294967295 in
  let seq_high := uint32_t (Z.shiftr seq 32) in
  (slen_nbo ++ (sender ++ [0])
     ++ be32 ballot_high ++ be32 ballot_low
     ++ be32 seq_high ++ be32 seq_low
     ++ [mtype_byte; ctype_byte; committed_byte]
     ++ be32 klen ++ (if klen =? 0 then [] else slice key 0 klen)
     ++ be32 dlen ++ (if dlen =? 0 then [] else slice data 0 dlen),
   msglen).

(** [kepaxos_parse_message]: [None] is the return code -1, [Some m] is the
    return code 0 with the filled structure. *)
Definition kepaxos_parse_message (msg : bytes) (msglen : Z) : option kepaxos_msg_t :=
  let expected_len := KEPAXOS_MSGLEN_MIN in
  if msglen <? expected_len then None else
  let sender_len := rd16 msg 0 in
  let p := 2 in
  let peer := cstring (skipn (Z.to_nat p) msg) in
  let p := p + sender_len in
  let expected_len := expected_len + sender_len in
  if msglen <? expected_len then None else
  let ballot_high := rd32 msg p in
  let p := p + 4 in
  let ballot_low := rd32 msg p in
  let p := p + 4 in
  let ballot := Z.lor (uint64_t (Z.shiftl ballot_high 32)) ballot_low in
  let seq_high := rd32 msg p in
  let p := p + 4 in
  let seq_low := rd32 msg p in
  let p := p + 4 in
  let seq := Z.lor (uint64_t (Z.shiftl seq_high 32)) seq_low in
  let mtype := byte_at msg p in
  let ctype := byte_at msg (p + 1) in
  let committed := byte_at msg (p + 2) in
  let p := p + 3 in
  let klen := rd32 msg p in
  let expected_len := expected_len + klen in
  if msglen <? expected_len then None else
  let p := p + 4 in
  let key := if klen =? 0 then [] else slice msg p klen in
  let p := if klen =? 0 then p else p + klen in
  let dlen := rd32 msg p in
  let expected_len := expected_len + dlen in
  if msglen <? expected_len then None else
  let data := if dlen =? 0 then [] else slice msg (p + 4) dlen in
  Some {| msg_peer := peer; msg_ballot := ballot; msg_seq := seq;
          msg_mtype := mtype; msg_ctype := ctype; msg_committed := committed;
          msg_key := key; msg_klen := klen; msg_data := data; msg_dlen := dlen |}.

(** ** Commands, votes and the engine *)

Inductive kepaxos_cmd_status_t :=
| KEPAXOS_CMD_STATUS_NONE
| KEPAXOS_CMD_STATUS_PRE_ACCEPTED
| KEPAXOS_CMD_STATUS_ACCEPTED
| KEPAXOS_CMD_STATUS_COMMITTED.

#[global] Instance kepaxos_cmd_status_eq_dec : EqDecision kepaxos_cmd_status_t.
Proof. solve_decision. Defined.

(** [kepaxos_vote_t]; its [key] and [klen] fields are never written. *)
Record kepaxos_vote_t := {
  vote_peer : bytes;
  vote_ballot : Z;
  vote_seq : Z
}.

(** [struct __kepaxos_cmd_s].  [cmd_addr] is ghost: the address [calloc]
    returned, which the code compares commands by.  [cmd_votes] is the array
    behind [votes], [NULL] being the empty list. *)
Record kepaxos_cmd_t := {
  cmd_addr : Z;
  cmd_type : Z;
  cmd_status : kepaxos_cmd_status_t;
  cmd_seq : Z;
  cmd_key : bytes;
  cmd_data : bytes;
  cmd_votes : list kepaxos_vote_t;
  cmd_num_votes : Z;
  cmd_max_seq : Z;
  cmd_max_seq_committed : Z;
  cmd_max_voter : option bytes;
  cmd_ballot : Z;
  cmd_timestamp : Z;
  cmd_timeout : Z;
  cmd_waiting : Z
}.

Definition set_cmd_status (c : kepaxos_cmd_t) (v : kepaxos_cmd_status_t) :=
  {| cmd_addr := cmd_addr c; cmd_type := cmd_type c; cmd_status := v;
     cmd_seq := cmd_seq c; cmd_key := cmd_key c; cmd_data := cmd_data c;
     cmd_votes := cmd_votes c; cmd_num_votes := cmd_num_votes c;
     cmd_max_seq := cmd_max_seq c;
     cmd_max_seq_committed := cmd_max_seq_committed c;
     cmd_max_voter := cmd_max_voter c; cmd_ballot := cmd_ballot c;
     cmd_timestamp := cmd_timestamp c; cmd_timeout := cmd_timeout c;
     cmd_waiting := cmd_waiting c |}.

Definition set_cmd_seq (c : kepaxos_cmd_t) (v : Z) :=
  {| cmd_addr := cmd_addr c; cmd_type := cmd_type c; cmd_status := cmd_status c;
     cmd_seq := v; cmd_key := cmd_key c; cmd_data := cmd_data c;
     cmd_votes := cmd_votes c; cmd_num_votes := cmd_num_votes c;
     cmd_max_seq := cmd_max_seq c;
     cmd_max_seq_committed := cmd_max_seq_committed c;
     cmd_max_voter := cmd_max_voter c; cmd_ballot := cmd_ballot c;
     cmd_timestamp := cmd_timestamp c; cmd_timeout := cmd_timeout c;
     cmd_waiting := cmd_waiting c |}.

Definition set_cmd_votes (c : kepaxos_cmd_t) (vs : list kepaxos_vote_t) (n : Z) :=
  {| cmd_addr := cmd_addr c; cmd_type := cmd_type c; cmd_status := cmd_status c;
     cmd_seq := cmd_seq c; cmd_key := cmd_key c; cmd_data := cmd_data c;
     cmd_votes := vs; cmd_num_votes := n;
     cmd_max_seq := cmd_max_seq c;
     cmd_max_seq_committed := cmd_max_seq_committed c;
     cmd_max_voter := cmd_max_voter c; cmd_ballot := cmd_ballot c;
     cmd_timestamp := cmd_timestamp c; cmd_timeout := cmd_timeout c;
     cmd_waiting := cmd_waiting c |}.

Definition set_cmd_max_seq (c : kepaxos_cmd_t) (v : Z) :=
  {| cmd_addr := cmd_addr c; cmd_type := cmd_type c; cmd_status := cmd_status c;
     cmd_seq := cmd_seq c; cmd_key := cmd_key c; cmd_data := cmd_data c;
     cmd_votes := cmd_votes c; cmd_num_votes := cmd_num_votes c;
     cmd_max_seq := v;
     cmd_max_seq_committed := cmd_max_seq_committed c;
     cmd_max_voter := cmd_max_voter c; cmd_ballot := cmd_ballot c;
     cmd_timestamp := cmd_timestamp c; cmd_timeout := cmd_timeout c;
     cmd_waiting := cmd_waiting c |}.

Definition set_cmd_max_seq_committed (c : kepaxos_cmd_t) (v : Z) :=
  {| cmd_addr := cmd_addr c; cmd_type := cmd_type c; cmd_status := cmd_status c;
     cmd_seq := cmd_seq c; cmd_key := cmd_key c; cmd_data := cmd_data c;
     cmd_votes := cmd_votes c; cmd_num_votes := cmd_num_votes c;
     cmd_max_seq := cmd_max_seq c;
     cmd_max_seq_committed := v;
     cmd_max_voter := cmd_max_voter c; cmd_ballot := cmd_ballot c;
     cmd_timestamp := cmd_timestamp c; cmd_timeout := cmd_timeout c;
     cmd_waiting := cmd_waiting c |}.

Definition set_cmd_max_voter (c : kepaxos_cmd_t) (v : option bytes) :=
  {| cmd_addr := cmd_addr c; cmd_type := cmd_type c; cmd_status := cmd_status c;
     cmd_seq := cmd_seq c; cmd_key := cmd_key c; cmd_data := cmd_data c;
     cmd_votes := cmd_votes c; cmd_num_votes := cmd_num_votes c;
     cmd_max_seq := cmd_max_seq c;
     cmd_max_seq_committed := cmd_max_seq_committed c;
     cmd_max_voter := v; cmd_ballot := cmd_ballot c;
     cmd_timestamp := cmd_timestamp c; cmd_timeout := cmd_timeout c;
     cmd_waiting := cmd_waiting c |}.

Definition set_cmd_ballot (c : kepaxos_cmd_t) (v : Z) :=
  {| cmd_addr := cmd_addr c; cmd_type := cmd_type c; cmd_status := cmd_status c;
     cmd_seq := cmd_seq c; cmd_key := cmd_key c; cmd_data := cmd_data c;
     cmd_votes := cmd_votes c; cmd_num_votes := cmd_num_votes c;
     cmd_max_seq := cmd_max_seq c;
     cmd_max_seq_committed := cmd_max_seq_committed c;
     cmd_max_voter := cmd_max_voter c; cmd_ballot := v;
     cmd_timestamp := cmd_timestamp c; cmd_timeout := cmd_timeout c;
     cmd_waiting := cmd_waiting c |}.

Definition set_cmd_time (c : kepaxos_cmd_t) (stamp tmo : Z) :=
  {| cmd_addr := cmd_addr c; cmd_type := cmd_type c; cmd_status := cmd_status c;
     cmd_seq := cmd_seq c; cmd_key := cmd_key c; cmd_data := cmd_data c;
     cmd_votes := cmd_votes c; cmd_num_votes := cmd_num_votes c;
     cmd_max_seq := cmd_max_seq c;
     cmd_max_seq_committed := cmd_max_seq_committed c;
     cmd_max_voter := cmd_max_voter c; cmd_ballot := cmd_ballot c;
     cmd_timestamp := stamp; cmd_timeout := tmo;
     cmd_waiting := cmd_waiting c |}.

Definition set_cmd_waiting (c : kepaxos_cmd_t) (v : Z) :=
  {| cmd_addr := cmd_addr c; cmd_type := cmd_type c; cmd_status := cmd_status c;
     cmd_seq := cmd_seq c; cmd_key := cmd_key c; cmd_data := cmd_data c;
     cmd_votes := cmd_votes c; cmd_num_votes := cmd_num_votes c;
     cmd_max_seq := cmd_max_seq c;
     cmd_max_seq_committed := cmd_max_seq_committed c;
     cmd_max_voter := cmd_max_voter c; cmd_ballot := cmd_ballot c;
     cmd_timestamp := cmd_timestamp c; cmd_timeout := cmd_timeout c;
     cmd_waiting := v |}.

(** What [calloc(1, sizeof(kepaxos_cmd_t))] returns at address [a], with the
    key copied in. *)
Definition calloc_cmd (a : Z) (key : bytes) : kepaxos_cmd_t :=
  {| cmd_addr := a; cmd_type := 0; cmd_status := KEPAXOS_CMD_STATUS_NONE;
     cmd_seq := 0; cmd_key := key; cmd_data := [];
     cmd_votes := []; cmd_num_votes := 0; cmd_max_seq := 0;
     cmd_max_seq_committed := 0; cmd_max_voter := None; cmd_ballot := 0;
     cmd_timestamp := 0; cmd_timeout := 0; cmd_waiting := 0 |}.

(** The user callbacks, as return-code oracles. *)
Record kepaxos_callbacks_t := {
  cb_send : list bytes -> Z -> bytes -> Z -> Z;
  cb_commit : Z -> bytes -> bytes -> Z -> Z;
  cb_recover : option bytes -> bytes -> Z -> Z -> Z
}.

(** Ghost trace of what the engine did to the outside: callback invocations,
    [pthread_cond_broadcast] on a command ([kepaxos_command_destroy]) and
    [kepaxos_command_free], each command named by its address. *)
Inductive kepaxos_event :=
| EvSend (recipients : list bytes) (n : Z) (msg : bytes) (msglen : Z)
| EvCommit (type : Z) (key data : bytes) (leader : Z)
| EvRecover (peer : option bytes) (key : bytes) (seq ballot : Z)
| EvBroadcast (cmd : Z)
| EvFree (cmd : Z).

(** [kepaxos_diff_item_t] of kepaxos_log.h. *)
Record kepaxos_diff_item_t := {
  diff_key : bytes;
  diff_ballot : Z;
  diff_seq : Z
}.

(** Modelled from the spec: the persistent log, kepaxos_log.c, is not among
    the sources.  "A mapping key -> (ballot, seq) with operations
    last_seq_for_key(key) -> (seq, ballot), set_last_seq_for_key(key, ballot,
    seq), max_ballot() -> u64, diff_from_ballot(b) -> items[]"; "the engine
    assumes writes are visible immediately after return".  The engine is
    written against this interface; the two laws say that a write is what the
    next read of the key returns and that it leaves other keys alone. *)
Class kepaxos_log_ops (L : Type) := {
  kepaxos_last_seq_for_key : L -> bytes -> Z * Z;
  kepaxos_set_last_seq_for_key : L -> bytes -> Z -> Z -> L;
  kepaxos_max_ballot : L -> Z;
  kepaxos_diff_from_ballot : L -> Z -> Z * list kepaxos_diff_item_t;
  last_seq_set_eq : forall l k b s,
    kepaxos_last_seq_for_key (kepaxos_set_last_seq_for_key l k b s) k = (s, b);
  last_seq_set_ne : forall l k k' b s, k <> k' ->
    kepaxos_last_seq_for_key (kepaxos_set_last_seq_for_key l k' b s) k
    = kepaxos_last_seq_for_key l k
}.

(** Modelled from the spec: a log held in memory, the finite map
    key -> (ballot, seq); a key never written reads as seq 0 and ballot 0,
    the maximum ballot is the greatest one stored, and the diff lists the
    keys whose ballot exceeds the argument. *)
Definition mem_log_last_seq (l : gmap bytes (Z * Z)) (k : bytes) : Z * Z :=
  match l !! k with
  | Some (b, s) => (s, b)
  | None => (0, 0)
  end.

Definition mem_log_max_ballot (l : gmap bytes (Z * Z)) : Z :=
  foldr (fun kv acc => Z.max (fst (snd kv)) acc) 0 (map_to_list l).

Definition mem_log_diff (l : gmap bytes (Z * Z)) (ballot : Z)
    : Z * list kepaxos_diff_item_t :=
  (0, omap (fun kv : bytes * (Z * Z) =>
              if ballot <? fst (snd kv)
              then Some {| diff_key := fst kv; diff_ballot := fst (snd kv);
                           diff_seq := snd (snd kv) |}
              else None) (map_to_list l)).

#[global] Program Instance mem_log : kepaxos_log_ops (gmap bytes (Z * Z)) := {|
  kepaxos_last_seq_for_key := mem_log_last_seq;
  kepaxos_set_last_seq_for_key l k b s := <[k := (b, s)]> l;
  kepaxos_max_ballot := mem_log_max_ballot;
  kepaxos_diff_from_ballot := mem_log_diff
|}.
Next Obligation.
  intros l k b s. unfold mem_log_last_seq. now rewrite lookup_insert_eq.
Qed.
Next Obligation.
  intros l k k' b s Hne. unfold mem_log_last_seq.
  now rewrite lookup_insert_ne by congruence.
Qed.

(** [struct __kepaxos_s].  [ke_next_addr] (the next address [calloc] hands
    out) and [ke_events] (newest first) are ghost. *)
Record kepaxos_t (L : Type) := {
  ke_log : L;
  ke_commands : gmap bytes kepaxos_cmd_t;
  ke_peers : list bytes;
  ke_num_peers : Z;
  ke_my_index : Z;
  ke_callbacks : kepaxos_callbacks_t;
  ke_ballot : Z;
  ke_timeout : Z;
  ke_next_addr : Z;
  ke_events : list kepaxos_event
}.

Arguments ke_log {L} _.
Arguments ke_commands {L} _.
Arguments ke_peers {L} _.
Arguments ke_num_peers {L} _.
Arguments ke_my_index {L} _.
Arguments ke_callbacks {L} _.
Arguments ke_ballot {L} _.
Arguments ke_timeout {L} _.
Arguments ke_next_addr {L} _.
Arguments ke_events {L} _.

Section Engine.
Context {L : Type} `{!kepaxos_log_ops L}.

Definition set_ke_log (ke : kepaxos_t L) (v : L) : kepaxos_t L :=
  {| ke_log := v; ke_commands := ke_commands ke; ke_peers := ke_peers ke;
     ke_num_peers := ke_num_peers ke; ke_my_index := ke_my_index ke;
     ke_callbacks := ke_callbacks ke; ke_ballot := ke_ballot ke;
     ke_timeout := ke_timeout ke; ke_next_addr := ke_next_addr ke;
     ke_events := ke_events ke |}.

Definition set_ke_commands (ke : kepaxos_t L) (v : gmap bytes kepaxos_cmd_t)
    : kepaxos_t L :=
  {| ke_log := ke_log ke; ke_commands := v; ke_peers := ke_peers ke;
     ke_num_peers := ke_num_peers ke; ke_my_index := ke_my_index ke;
     ke_callbacks := ke_callbacks ke; ke_ballot := ke_ballot ke;
     ke_timeout := ke_timeout ke; ke_next_addr := ke_next_addr ke;
     ke_events := ke_events ke |}.

Definition set_ke_ballot (ke : kepaxos_t L) (v : Z) : kepaxos_t L :=
  {| ke_log := ke_log ke; ke_commands := ke_commands ke; ke_peers := ke_peers ke;
     ke_num_peers := ke_num_peers ke; ke_my_index := ke_my_index ke;
     ke_callbacks := ke_callbacks ke; ke_ballot := v;
     ke_timeout := ke_timeout ke; ke_next_addr := ke_next_addr ke;
     ke_events := ke_events ke |}.

Definition set_ke_next_addr (ke : kepaxos_t L) (v : Z) : kepaxos_t L :=
  {| ke_log := ke_log ke; ke_commands := ke_commands ke; ke_peers := ke_peers ke;
     ke_num_peers := ke_num_peers ke; ke_my_index := ke_my_index ke;
     ke_callbacks := ke_callbacks ke; ke_ballot := ke_ballot ke;
     ke_timeout := ke_timeout ke; ke_next_addr := v;
     ke_events := ke_events ke |}.

Definition emit (ke : kepaxos_t L) (e : kepaxos_event) : kepaxos_t L :=
  {| ke_log := ke_log ke; ke_commands := ke_commands ke; ke_peers := ke_peers ke;
     ke_num_peers := ke_num_peers ke; ke_my_index := ke_my_index ke;
     ke_callbacks := ke_callbacks ke; ke_ballot := ke_ballot ke;
     ke_timeout := ke_timeout ke; ke_next_addr := ke_next_addr ke;
     ke_events := e :: ke_events ke |}.

(** A command changed in place: the table entry that points to it shows the
    change. *)
Definition store_cmd (ke : kepaxos_t L) (key : bytes) (c : kepaxos_cmd_t)
    : kepaxos_t L :=
  set_ke_commands ke (<[key := c]> (ke_commands ke)).

(** [ke->peers[i]], [NULL]-like [None] out of range. *)
Definition peer_at (ke : kepaxos_t L) (i : Z) : option bytes :=
  if i <? 0 then None else ke_peers ke !! Z.to_nat i.

Definition BALLOT2NODE (ke : kepaxos_t L) (b : Z) : option bytes :=
  peer_at ke (BALLOT2NODEINDEX b).

Definition IS_MY_BALLOT (ke : kepaxos_t L) (b : Z) : bool :=
  ke_my_index ke =? Z.land b 255.

(** The sender name [ke->peers[ke->my_index]]. *)
Definition my_name (ke : kepaxos_t L) : bytes :=
  default [] (peer_at ke (ke_my_index ke)).

(** [kepaxos_command_destroy]: broadcast on the command's condition. *)
Definition kepaxos_command_destroy (ke : kepaxos_t L) (c : kepaxos_cmd_t)
    : kepaxos_t L :=
  emit ke (EvBroadcast (cmd_addr c)).

Definition kepaxos_command_free (ke : kepaxos_t L) (c : kepaxos_cmd_t)
    : kepaxos_t L :=
  emit ke (EvFree (cmd_addr c)).

(** [kepaxos_reset_ballot]: the body is a TODO between lock and unlock. *)
Definition kepaxos_reset_ballot (ke : kepaxos_t L) : kepaxos_t L := ke.

(** [update_ballot]: the engine afterwards and the ballot it returns. *)
Definition update_ballot (ke : kepaxos_t L) (ballot : Z) : kepaxos_t L * Z :=
  let real_ballot := BALLOT_VALUE ballot in
  let updated_ballot := uint64_t (real_ballot + 1) in
  let ke' :=
    if real_ballot =? 0 then kepaxos_reset_ballot ke
    else if updated_ballot =? 0 then set_ke_ballot ke (ke_my_index ke)
    else set_ke_ballot ke
           (ATOMIC_SET_IF_lt (ke_ballot ke)
              (Z.lor (uint64_t (Z.shiftl updated_ballot 8)) (ke_my_index ke))) in
  (ke', ke_ballot ke').

(** The loop that collects every peer but [my_index], over the first
    [num_peers] entries of [peers]. *)
Definition receivers (ke : kepaxos_t L) : list bytes :=
  omap (fun i : nat =>
          if Z.of_nat i =? ke_my_index ke then None else ke_peers ke !! i)
       (seq 0 (Z.to_nat (ke_num_peers ke))).

(** The three senders build a message and hand it to the [send] callback
    with [num_peers - 1] recipients.  The [size_t] lengths are converted to
    the [uint32_t] parameters of [kepaxos_build_message]. *)
Definition send_message (ke : kepaxos_t L) (mtype : kepaxos_msg_type_t)
    (ctype ballot : Z) (key data : bytes) (seq committed : Z) : Z * kepaxos_t L :=
  let '(msg, msglen) :=
    kepaxos_build_message (my_name ke) mtype ctype ballot
      key (uint32_t (Z.of_nat (length key)))
      data (uint32_t (Z.of_nat (length data))) seq committed in
  let rc := cb_send (ke_callbacks ke) (receivers ke) (ke_num_peers ke - 1) msg msglen in
  (rc, emit ke (EvSend (receivers ke) (ke_num_peers ke - 1) msg msglen)).

Definition kepaxos_send_preaccept (ke : kepaxos_t L) (ballot : Z) (key : bytes)
    (seq : Z) : Z * kepaxos_t L :=
  send_message ke KEPAXOS_MSG_TYPE_PRE_ACCEPT 0 ballot key [] seq 0.

Definition kepaxos_send_accept (ke : kepaxos_t L) (ballot : Z) (key : bytes)
    (seq : Z) : Z * kepaxos_t L :=
  send_message ke KEPAXOS_MSG_TYPE_ACCEPT 0 ballot key [] seq 0.

Definition kepaxos_send_commit (ke : kepaxos_t L) (cmd : kepaxos_cmd_t)
    : Z * kepaxos_t L :=
  send_message ke KEPAXOS_MSG_TYPE_COMMIT (cmd_type cmd) (cmd_ballot cmd)
    (cmd_key cmd) (cmd_data cmd) (cmd_seq cmd) 1.

(** [kepaxos_command_create] at time [now]: the engine afterwards and the
    new command (as the table holds it). *)
Definition kepaxos_command_create (ke : kepaxos_t L) (now seq type : Z)
    (key data : bytes) : kepaxos_t L * kepaxos_cmd_t :=
  let seq := uint64_t (seq + 1) in
  let cmd :=
    {| cmd_addr := ke_next_addr ke; cmd_type := type;
       cmd_status := KEPAXOS_CMD_STATUS_PRE_ACCEPTED;
       cmd_seq := seq; cmd_key := key; cmd_data := data;
       cmd_votes := []; cmd_num_votes := 0; cmd_max_seq := 0;
       cmd_max_seq_committed := 0; cmd_max_voter := None;
       cmd_ballot := ke_ballot ke;
       cmd_timestamp := now; cmd_timeout := ke_timeout ke;
       cmd_waiting := 0 |} in
  let ke := set_ke_next_addr ke (ke_next_addr ke + 1) in
  match ke_commands ke !! key with
  | Some prev_cmd =>
      let interfering_seq := cmd_seq prev_cmd in
      let cmd := set_cmd_seq cmd (MAX seq (uint64_t (interfering_seq + 1))) in
      (kepaxos_command_destroy (store_cmd ke key cmd) prev_cmd, cmd)
  | None => (store_cmd ke key cmd, cmd)
  end.

(** [kepaxos_commit], the leader's commit. *)
Definition kepaxos_commit (ke : kepaxos_t L) (cmd : kepaxos_cmd_t)
    : Z * kepaxos_t L :=
  let rc := cb_commit (ke_callbacks ke) (cmd_type cmd) (cmd_key cmd) (cmd_data cmd) 1 in
  let ke := emit ke (EvCommit (cmd_type cmd) (cmd_key cmd) (cmd_data cmd) 1) in
  let '(rc, ke) :=
    if rc =? 0 then
      let ke := set_ke_log ke
                  (kepaxos_set_last_seq_for_key (ke_log ke) (cmd_key cmd)
                     (cmd_ballot cmd) (cmd_seq cmd)) in
      kepaxos_send_commit ke cmd
    else (rc, ke) in
  (rc, kepaxos_command_destroy ke cmd).

(** [kepaxos_run_command].  The calling thread gives up the engine lock
    twice: around the [send] callback and while it waits on the command's
    condition; [during_send] and [during_wait] are what the rest of the
    system did to the engine meanwhile. *)
Definition kepaxos_run_command (ke : kepaxos_t L) (now type : Z)
    (key data : bytes) (during_send during_wait : kepaxos_t L -> kepaxos_t L)
    : Z * kepaxos_t L :=
  let last_seq := fst (kepaxos_last_seq_for_key (ke_log ke) key) in
  let '(ke, cmd) := kepaxos_command_create ke now last_seq type key data in
  let seq := cmd_seq cmd in
  let ballot := cmd_ballot cmd in
  let '(rc, ke) := kepaxos_send_preaccept ke ballot key seq in
  let ke := during_send ke in
  let ke :=
    if rc >=? 0 then
      match ke_commands ke !! key with
      | Some now_cmd =>
          if cmd_addr now_cmd =? cmd_addr cmd then
            let ke := store_cmd ke key (set_cmd_waiting now_cmd 1) in
            let ke := during_wait ke in
            kepaxos_command_free ke cmd
          else ke
      | None => ke
      end
    else ke in
  let current_seq := fst (kepaxos_last_seq_for_key (ke_log ke) key) in
  (if current_seq >=? seq then 0 else -1, ke).

(** The vote of a response, appended: [realloc] to [num_votes + 1] entries,
    the new one written at index [num_votes], and the 16-bit [num_votes]
    incremented. *)
Definition append_vote (cmd : kepaxos_cmd_t) (msg : kepaxos_msg_t) : kepaxos_cmd_t :=
  set_cmd_votes cmd
    (take (Z.to_nat (cmd_num_votes cmd)) (cmd_votes cmd)
       ++ [{| vote_peer := msg_peer msg; vote_ballot := msg_ballot msg;
              vote_seq := msg_seq msg |}])
    (uint16_t (cmd_num_votes cmd + 1)).

(** [free(cmd->votes)] and the fields reset with it. *)
Definition reset_votes (cmd : kepaxos_cmd_t) : kepaxos_cmd_t :=
  set_cmd_max_voter (set_cmd_max_seq (set_cmd_votes cmd [] 0) 0) None.

(** The loop of [kepaxos_handle_accept_response] that counts the votes whose
    seq and ballot are the response's. *)
Definition count_ok (cmd : kepaxos_cmd_t) (msg : kepaxos_msg_t) : Z :=
  Z.of_nat (length (filter
    (fun v => vote_seq v = msg_seq msg /\ vote_ballot v = msg_ballot msg)
    (take (Z.to_nat (cmd_num_votes cmd)) (cmd_votes cmd)))).

(** [ht_delete] of the key with the deleted pointer handed back, then the
    commit when it is the command at hand. *)
Definition delete_and_commit (ke : kepaxos_t L) (key : bytes) (cmd : kepaxos_cmd_t)
    : Z * kepaxos_t L :=
  let cmd_ptr := ke_commands ke !! key in
  let ke := set_ke_commands ke (delete key (ke_commands ke)) in
  match cmd_ptr with
  | Some c => if cmd_addr c =? cmd_addr cmd then kepaxos_commit ke cmd else (-1, ke)
  | None => (-1, ke)
  end.

(** [kepaxos_handle_preaccept] at time [now]: return code, engine, and the
    response when one was built. *)
Definition kepaxos_handle_preaccept (ke : kepaxos_t L) (now : Z)
    (msg : kepaxos_msg_t) : Z * kepaxos_t L * option (bytes * Z) :=
  let '(local_seq, local_ballot) :=
    kepaxos_last_seq_for_key (ke_log ke) (msg_key msg) in
  if (local_seq =? msg_seq msg) && (local_ballot =? msg_ballot msg)
  then (-1, ke, None)
  else
    let found :=
      match ke_commands ke !! msg_key msg with
      | Some cmd =>
          if msg_ballot msg <? cmd_ballot cmd then None
          else
            let cmd := set_cmd_ballot cmd (MAX (msg_ballot msg) (cmd_ballot cmd)) in
            Some (ke, cmd, cmd_seq cmd)
      | None =>
          let cmd :=
            set_cmd_time
              (set_cmd_ballot
                 (set_cmd_seq (calloc_cmd (ke_next_addr ke) (msg_key msg))
                    (msg_seq msg))
                 (msg_ballot msg))
              now (ke_timeout ke) in
          Some (set_ke_next_addr ke (ke_next_addr ke + 1), cmd, 0)
      end in
    match found with
    | None => (-1, ke, None)
    | Some (ke, cmd, interfering_seq) =>
        let interfering_seq := MAX local_seq interfering_seq in
        let max_seq := MAX (msg_seq msg) interfering_seq in
        let '(ke, cmd) :=
          if msg_seq msg >=? interfering_seq then
            let ke :=
              if bool_decide (cmd_status cmd = KEPAXOS_CMD_STATUS_ACCEPTED)
                 && negb (IS_MY_BALLOT ke (cmd_ballot cmd))
              then emit ke (EvRecover (BALLOT2NODE ke (cmd_ballot cmd))
                              (msg_key msg) (cmd_seq cmd) (cmd_ballot cmd))
              else ke in
            (ke, set_cmd_seq
                   (set_cmd_status cmd KEPAXOS_CMD_STATUS_PRE_ACCEPTED)
                   interfering_seq)
          else (ke, cmd) in
        let committed := if max_seq =? local_seq then 1 else 0 in
        let ballot := cmd_ballot cmd in
        let ke := store_cmd ke (msg_key msg) cmd in
        (0, ke,
         Some (kepaxos_build_message (my_name ke)
                 KEPAXOS_MSG_TYPE_PRE_ACCEPT_RESPONSE 0 ballot
                 (msg_key msg) (msg_klen msg) [] 0 max_seq committed))
    end.

(** The lines of [kepaxos_handle_preaccept_response] under the command's
    lock: the vote is appended and [max_seq], [max_seq_committed] and
    [max_voter] are brought up to date. *)
Definition preaccept_vote (cmd : kepaxos_cmd_t) (msg : kepaxos_msg_t) : kepaxos_cmd_t :=
  let cmd := append_vote cmd msg in
  let cmd :=
    if negb (msg_seq msg =? cmd_max_seq cmd) then
      let cmd := set_cmd_max_seq cmd (MAX (cmd_max_seq cmd) (msg_seq msg)) in
      set_cmd_max_seq_committed cmd
        (if negb (msg_committed msg =? 0) && (cmd_max_seq cmd =? msg_seq msg)
         then 1 else 0)
    else if negb (msg_committed msg =? 0) then
      set_cmd_max_seq_committed cmd 1
    else cmd in
  if cmd_max_seq cmd =? msg_seq msg
  then set_cmd_max_voter cmd (Some (msg_peer msg))
  else cmd.

(** The test of the short path. *)
Definition fast_path (cmd : kepaxos_cmd_t) : bool :=
  (cmd_seq cmd >? cmd_max_seq cmd)
  || ((cmd_seq cmd =? cmd_max_seq cmd) && (cmd_max_seq_committed cmd =? 0)).

(** [kepaxos_handle_preaccept_response]. *)
Definition kepaxos_handle_preaccept_response (ke : kepaxos_t L)
    (msg : kepaxos_msg_t) : Z * kepaxos_t L :=
  match ke_commands ke !! msg_key msg with
  | Some cmd =>
      if msg_ballot msg <? cmd_ballot cmd then (-1, ke)
      else if negb (bool_decide (cmd_status cmd = KEPAXOS_CMD_STATUS_PRE_ACCEPTED))
      then (-1, ke)
      else
        let cmd := preaccept_vote cmd msg in
        let ke := store_cmd ke (msg_key msg) cmd in
        if cmd_num_votes cmd <? Z.quot (ke_num_peers ke) 2 then (0, ke)
        else if fast_path cmd
        then delete_and_commit ke (msg_key msg) cmd
        else
          let cmd := set_cmd_votes cmd [] 0 in
          let cmd := set_cmd_seq cmd (uint64_t (cmd_max_seq cmd + 1)) in
          let cmd := set_cmd_max_voter (set_cmd_max_seq cmd 0) None in
          let ballot := ke_ballot ke in
          let cmd := set_cmd_ballot cmd ballot in
          let new_seq := cmd_seq cmd in
          let cmd := set_cmd_status cmd KEPAXOS_CMD_STATUS_ACCEPTED in
          kepaxos_send_accept (store_cmd ke (msg_key msg) cmd) ballot
            (msg_key msg) new_seq
  | None => (0, ke)
  end.

(** [kepaxos_handle_accept] at time [now]. *)
Definition kepaxos_handle_accept (ke : kepaxos_t L) (now : Z)
    (msg : kepaxos_msg_t) : Z * kepaxos_t L * option (bytes * Z) :=
  let accepted_ballot := msg_ballot msg in
  let accepted_seq := msg_seq msg in
  let '(local_seq, local_ballot) :=
    kepaxos_last_seq_for_key (ke_log ke) (msg_key msg) in
  let found :=
    match ke_commands ke !! msg_key msg with
    | Some cmd =>
        if msg_ballot msg <? cmd_ballot cmd then None
        else if msg_seq msg <? cmd_seq cmd
        then Some (ke, cmd, cmd_ballot cmd, cmd_seq cmd)
        else Some (ke, cmd, accepted_ballot, accepted_seq)
    | None =>
        Some (set_ke_next_addr ke (ke_next_addr ke + 1),
              calloc_cmd (ke_next_addr ke) (msg_key msg),
              accepted_ballot, accepted_seq)
    end in
  match found with
  | None => (0, ke, None)
  | Some (ke, cmd, accepted_ballot, accepted_seq) =>
      let '(cmd, accepted_ballot, accepted_seq) :=
        if msg_seq msg >=? cmd_seq cmd then
          (set_cmd_time
             (set_cmd_status
                (set_cmd_ballot (set_cmd_seq cmd (msg_seq msg)) (msg_ballot msg))
                KEPAXOS_CMD_STATUS_ACCEPTED)
             now (ke_timeout ke),
           msg_ballot msg, msg_seq msg)
        else (cmd, accepted_ballot, accepted_seq) in
      let committed := if accepted_seq =? local_seq then 1 else 0 in
      let ke := store_cmd ke (msg_key msg) cmd in
      (0, ke,
       Some (kepaxos_build_message (my_name ke)
               KEPAXOS_MSG_TYPE_ACCEPT_RESPONSE 0 accepted_ballot
               (msg_key msg) (msg_klen msg) [] 0 accepted_seq committed))
  end.

(** [kepaxos_handle_accept_response]. *)
Definition kepaxos_handle_accept_response (ke : kepaxos_t L)
    (msg : kepaxos_msg_t) : Z * kepaxos_t L :=
  match ke_commands ke !! msg_key msg with
  | Some cmd =>
      if msg_ballot msg <? cmd_ballot cmd then (-1, ke)
      else if negb (bool_decide (cmd_status cmd = KEPAXOS_CMD_STATUS_ACCEPTED))
      then (-1, ke)
      else if (cmd_seq cmd =? msg_seq msg) && negb (msg_committed msg =? 0) then
        let new_ballot := ke_ballot ke in
        let cmd := set_cmd_seq cmd (uint64_t (cmd_seq cmd + 1)) in
        let cmd := set_cmd_ballot cmd new_ballot in
        let cmd := reset_votes cmd in
        let new_seq := cmd_seq cmd in
        kepaxos_send_accept (store_cmd ke (msg_key msg) cmd) new_ballot
          (msg_key msg) new_seq
      else
        let cmd := append_vote cmd msg in
        let cmd := set_cmd_max_seq cmd (MAX (cmd_max_seq cmd) (msg_seq msg)) in
        let cmd :=
          if cmd_max_seq cmd =? msg_seq msg
          then set_cmd_max_voter cmd (Some (msg_peer msg))
          else cmd in
        if count_ok cmd msg <? Z.quot (ke_num_peers ke) 2 then
          if cmd_num_votes cmd >=? Z.quot (ke_num_peers ke) 2 then
            let cmd :=
              if cmd_seq cmd <=? cmd_max_seq cmd
              then set_cmd_seq cmd (uint64_t (cmd_seq cmd + 1))
              else cmd in
            let new_ballot := ke_ballot ke in
            let cmd := set_cmd_ballot cmd new_ballot in
            let cmd := reset_votes cmd in
            let new_seq := cmd_seq cmd in
            kepaxos_send_accept (store_cmd ke (msg_key msg) cmd) new_ballot
              (msg_key msg) new_seq
          else (0, store_cmd ke (msg_key msg) cmd)
        else delete_and_commit (store_cmd ke (msg_key msg) cmd) (msg_key msg) cmd
  | None => (0, ke)
  end.

(** [kepaxos_handle_commit], the acceptor's commit. *)
Definition kepaxos_handle_commit (ke : kepaxos_t L) (msg : kepaxos_msg_t)
    : Z * kepaxos_t L :=
  let cmd := ke_commands ke !! msg_key msg in
  if match cmd with
     | Some c => (cmd_seq c =? msg_seq msg) && (cmd_ballot c >? msg_ballot msg)
     | None => false
     end
  then (-1, ke)
  else
    let last_recorded_seq :=
      fst (kepaxos_last_seq_for_key (ke_log ke) (msg_key msg)) in
    if msg_seq msg <? last_recorded_seq then (0, ke)
    else
      let ke := emit ke (EvCommit (msg_ctype msg) (msg_key msg) (msg_data msg) 0) in
      let ke := set_ke_log ke
                  (kepaxos_set_last_seq_for_key (ke_log ke) (msg_key msg)
                     (msg_ballot msg) (msg_seq msg)) in
      let ke :=
        match cmd with
        | Some c =>
            if cmd_seq c <=? msg_seq msg then
              let waiting := cmd_waiting c in
              let ke := set_ke_commands ke (delete (msg_key msg) (ke_commands ke)) in
              let ke := kepaxos_command_destroy ke c in
              if waiting =? 0 then kepaxos_command_free ke c else ke
            else ke
        | None => ke
        end in
      (0, ke).

(** [kepaxos_received_response]. *)
Definition kepaxos_received_response (ke : kepaxos_t L) (res : bytes)
    (reslen : Z) : Z * kepaxos_t L :=
  if reslen <? 4 * 4 then (-1, ke)
  else
    match kepaxos_parse_message res reslen with
    | None => (-1, ke)
    | Some msg =>
        let ke := fst (update_ballot ke (msg_ballot msg)) in
        if msg_mtype msg =? mtype_code KEPAXOS_MSG_TYPE_PRE_ACCEPT_RESPONSE
        then kepaxos_handle_preaccept_response ke msg
        else if msg_mtype msg =? mtype_code KEPAXOS_MSG_TYPE_ACCEPT_RESPONSE
        then kepaxos_handle_accept_response ke msg
        else (-1, ke)
    end.

(** [kepaxos_received_command] at time [now]. *)
Definition kepaxos_received_command (ke : kepaxos_t L) (now : Z) (cmd : bytes)
    (cmdlen : Z) : Z * kepaxos_t L * option (bytes * Z) :=
  if cmdlen <? 4 * 4 then (-1, ke, None)
  else
    match kepaxos_parse_message cmd cmdlen with
    | None => (-1, ke, None)
    | Some msg =>
        let ke := fst (update_ballot ke (msg_ballot msg)) in
        if msg_mtype msg =? mtype_code KEPAXOS_MSG_TYPE_PRE_ACCEPT
        then kepaxos_handle_preaccept ke now msg
        else if msg_mtype msg =? mtype_code KEPAXOS_MSG_TYPE_ACCEPT
        then kepaxos_handle_accept ke now msg
        else if msg_mtype msg =? mtype_code KEPAXOS_MSG_TYPE_COMMIT
        then let '(rc, ke) := kepaxos_handle_commit ke msg in (rc, ke, None)
        else (-1, ke, None)
    end.

(** [kepaxos_recovered]. *)
Definition kepaxos_recovered (ke : kepaxos_t L) (key : bytes) (ballot seq : Z)
    : Z * kepaxos_t L :=
  let '(last_seq, last_ballot) := kepaxos_last_seq_for_key (ke_log ke) key in
  if (seq >=? last_seq) && (ballot >=? last_ballot)
  then (0, set_ke_log ke (kepaxos_set_last_seq_for_key (ke_log ke) key ballot seq))
  else (-1, ke).

(** The calls [kepaxos_get_diff] makes into the log. *)
Inductive log_call :=
| CallMaxBallot
| CallDiffFromBallot (ballot : Z).

(** [kepaxos_get_diff]: the return code, the items written through [items]
    and [num_items] ([None]: the out-parameters were not written), and the
    log calls made, in order. *)
Definition kepaxos_get_diff (ke : kepaxos_t L) (ballot : Z)
    : Z * option (list kepaxos_diff_item_t) * list log_call :=
  if BALLOT_VALUE ballot >=? BALLOT_VALUE (kepaxos_max_ballot (ke_log ke))
  then (-1, None, [CallMaxBallot])
  else
    let '(rc, items) := kepaxos_diff_from_ballot (ke_log ke) ballot in
    (rc, Some items, [CallMaxBallot; CallDiffFromBallot ballot]).

Definition kepaxos_seq (ke : kepaxos_t L) (key : bytes) : Z :=
  fst (kepaxos_last_seq_for_key (ke_log ke) key).

(** [kepaxos_context_create] over an opened log (the expirer thread is not
    part of the model). *)
Definition kepaxos_context_create (log : L) (peers : list bytes)
    (num_peers my_index timeout : Z) (callbacks : kepaxos_callbacks_t)
    : kepaxos_t L :=
  let ke :=
    {| ke_log := log; ke_commands := ∅; ke_peers := peers;
       ke_num_peers := num_peers; ke_my_index := uint8_t my_index;
       ke_callbacks := callbacks;
       ke_ballot := Z.lor (Z.shiftl 1 8) (uint8_t my_index);
       ke_timeout := if timeout >? 0 then timeout else 30;
       ke_next_addr := 1; ke_events := [] |} in
  fst (update_ballot ke (uint64_t (BALLOT_VALUE (kepaxos_max_ballot log) + 1))).

(** [kepaxos_ballot]. *)
Definition kepaxos_ballot (ke : kepaxos_t L) : Z := ke_ballot ke.

(** The test of [kepaxos_expire_command]: the command has a timeout and the
    clock is past it. *)
Definition expired (now : Z) (cmd : kepaxos_cmd_t) : bool :=
  (cmd_timeout cmd >? 0) && (now >? cmd_timestamp cmd + cmd_timeout cmd).

(** [kepaxos_expire_command] when [time(NULL)] is [now]: the return code
    for the table's iterator and the engine afterwards. *)
Definition kepaxos_expire_command (ke : kepaxos_t L) (now : Z) (key : bytes)
    (cmd : kepaxos_cmd_t) : Z * kepaxos_t L :=
  if expired now cmd then
    (-1,
     if (bool_decide (cmd_status cmd = KEPAXOS_CMD_STATUS_PRE_ACCEPTED)
         || bool_decide (cmd_status cmd = KEPAXOS_CMD_STATUS_ACCEPTED))
        && negb (IS_MY_BALLOT ke (cmd_ballot cmd))
     then emit ke (EvRecover (BALLOT2NODE ke (cmd_ballot cmd)) key
                     (cmd_seq cmd) (cmd_ballot cmd))
     else ke)
  else (1, ke).

(** Modelled from the spec: [ht_foreach_pair] of hashtable.h, which is not
    among the sources ("for each cmd whose timestamp + timeout < now ...
    Remove the entry"; the callback's own comment: "if expired we want to
    remove this item from the table").  The iterator calls the callback on
    every pair; on -1 the pair leaves the table and the table's free-item
    callback, [kepaxos_command_destroy], runs on the command. *)
Definition expire_step (now : Z) (ke : kepaxos_t L) (kc : bytes * kepaxos_cmd_t)
    : kepaxos_t L :=
  let '(rc, ke) := kepaxos_expire_command ke now (fst kc) (snd kc) in
  if rc =? -1
  then kepaxos_command_destroy
         (set_ke_commands ke (delete (fst kc) (ke_commands ke))) (snd kc)
  else ke.

(** One round of the loop of [kepaxos_expire_commands], at time [now]. *)
Definition kepaxos_expire_commands (ke : kepaxos_t L) (now : Z) : kepaxos_t L :=
  foldl (expire_step now) ke (map_to_list (ke_commands ke)).


End Engine.

(** ** Concrete values of the test suite (test/kepaxos_test.c) *)

(** The peer names "node1", "node2", ... of a cluster of [n], the key
    "test_key" and the value "test_value". *)
Definition node (i : Z) : bytes := [110; 111; 100; 101; 48 + i].
Definition node1 : bytes := node 1.
Definition cluster (n : nat) : list bytes :=
  map (fun i => node (Z.of_nat i)) (seq 1 n).
Definition nodes : list bytes := cluster 5.
Definition test_key : bytes := [116; 101; 115; 116; 95; 107; 101; 121].
Definition test_value : bytes :=
  [116; 101; 115; 116; 95; 118; 97; 108; 117; 101].

(** A sender name of 65535 letters: with its NUL it is one byte longer than
    the 2-byte [sender_len] field can say. *)
Definition long_sender : bytes := repeat 65 (Z.to_nat 65535).

(** The callbacks of the test: each returns 0. *)
Definition test_callbacks : kepaxos_callbacks_t :=
  {| cb_send := fun _ _ _ _ => 0;
     cb_commit := fun _ _ _ _ => 0;
     cb_recover := fun _ _ _ _ => 0 |}.

(** Replica [i] of a cluster of [n] (five in the test), over a log held in
    memory. *)
Definition replica_of (n : nat) (i : Z) (log : gmap bytes (Z * Z))
    : kepaxos_t (gmap bytes (Z * Z)) :=
  kepaxos_context_create log (cluster n) (Z.of_nat n) i 1 test_callbacks.

Definition replica := replica_of 5.

(** The number of commit callbacks in a trace. *)
Definition is_commit (e : kepaxos_event) : bool :=
  match e with EvCommit _ _ _ _ => true | _ => false end.

Definition commit_count (evs : list kepaxos_event) : Z :=
  Z.of_nat (length (List.filter is_commit evs)).

(** A response from [peer] for "test_key". *)
Definition response (peer : bytes) (mtype : kepaxos_msg_type_t)
    (ballot seq committed : Z) : kepaxos_msg_t :=
  {| msg_peer := peer; msg_ballot := ballot; msg_seq := seq;
     msg_mtype := mtype_code mtype; msg_ctype := 0; msg_committed := committed;
     msg_key := test_key; msg_klen := 8; msg_data := []; msg_dlen := 0 |}.

(** An engine after [kepaxos_command_create] (at time 0, from the log's seq
    for "test_key", as [kepaxos_run_command] calls it), the new command set
    to the status given. *)
Definition with_command (ke : kepaxos_t (gmap bytes (Z * Z)))
    (st : kepaxos_cmd_status_t) : kepaxos_t (gmap bytes (Z * Z)) :=
  let '(ke, cmd) :=
    kepaxos_command_create ke 0 (kepaxos_seq ke test_key) 0 test_key test_value in
  store_cmd ke test_key (set_cmd_status cmd st).

(** The command in flight for "test_key", the zeroed one when there is none. *)
Definition in_flight (ke : kepaxos_t (gmap bytes (Z * Z))) : kepaxos_cmd_t :=
  default (calloc_cmd 0 []) (ke_commands ke !! test_key).

(** Five replicas; replica 0 has sent Accept for seq 1 at ballot 256 and
    node2 has answered with the same seq and ballot. *)
Definition accept_vote (i : Z) : kepaxos_msg_t :=
  response (node i) KEPAXOS_MSG_TYPE_ACCEPT_RESPONSE 256 1 0.

Definition accepted_once : kepaxos_t (gmap bytes (Z * Z)) :=
  snd (kepaxos_handle_accept_response
         (with_command (replica 0 ∅) KEPAXOS_CMD_STATUS_ACCEPTED) (accept_vote 2)).

(** Seven replicas; the log of replica 0 has "test_key" at seq 4. *)
Definition originator : kepaxos_t (gmap bytes (Z * Z)) :=
  replica_of 7 0 {[test_key := (256, 4)]}.

(** [kepaxos_run_command] at replica 0 up to its wait: the command is
    created (seq 5, ballot 256), PreAccept is sent, the caller waits. *)
Definition preaccept_sent : kepaxos_t (gmap bytes (Z * Z)) :=
  let '(ke, cmd) :=
    kepaxos_command_create originator 0 (kepaxos_seq originator test_key) 0
      test_key test_value in
  let '(_, ke) := kepaxos_send_preaccept ke (cmd_ballot cmd) test_key (cmd_seq cmd) in
  store_cmd ke test_key (set_cmd_waiting cmd 1).

(** The PreAccept responses as they come off the wire: node2 answers with
    seq 5 marked committed, node3 with seq 3 not committed, node4 with seq 3
    again. *)
Definition preaccept_replies : list (bytes * Z) :=
  [kepaxos_build_message (node 2) KEPAXOS_MSG_TYPE_PRE_ACCEPT_RESPONSE 0 256
     test_key 8 [] 0 5 1;
   kepaxos_build_message (node 3) KEPAXOS_MSG_TYPE_PRE_ACCEPT_RESPONSE 0 256
     test_key 8 [] 0 3 0;
   kepaxos_build_message (node 4) KEPAXOS_MSG_TYPE_PRE_ACCEPT_RESPONSE 0 256
     test_key 8 [] 0 3 0].

Definition receive (ke : kepaxos_t (gmap bytes (Z * Z))) (res : bytes * Z)
    : kepaxos_t (gmap bytes (Z * Z)) :=
  snd (kepaxos_received_response ke (fst res) (snd res)).

Definition after_preaccept_votes (k : nat) : kepaxos_t (gmap bytes (Z * Z)) :=
  foldl receive preaccept_sent (take k preaccept_replies).

(** A PreAccept of node1 for "test_key" at seq 1 that carries the last
    ballot there is, all 64 bits set. *)
Definition last_ballot_preaccept : bytes * Z :=
  kepaxos_build_message node1 KEPAXOS_MSG_TYPE_PRE_ACCEPT 0 (2 ^ 64 - 1)
    test_key 8 [] 0 1 0.

(** Replica 1 of five, whose log has "test_key" at seq 5 under ballot 261;
    a Commit for the same seq under ballot 517. *)
Definition replica1_at_seq5 : kepaxos_t (gmap bytes (Z * Z)) :=
  replica 1 {[test_key := (261, 5)]}.

Definition commit_seq5 : kepaxos_msg_t :=
  {| msg_peer := node 3; msg_ballot := 517; msg_seq := 5;
     msg_mtype := mtype_code KEPAXOS_MSG_TYPE_COMMIT; msg_ctype := 0;
     msg_committed := 1; msg_key := test_key; msg_klen := 8;
     msg_data := test_value; msg_dlen := 10 |}.

Definition commit_seq6 : kepaxos_msg_t :=
  {| msg_peer := node 3; msg_ballot := 517; msg_seq := 6;
     msg_mtype := mtype_code KEPAXOS_MSG_TYPE_COMMIT; msg_ctype := 0;
     msg_committed := 1; msg_key := test_key; msg_klen := 8;
     msg_data := test_value; msg_dlen := 10 |}.

(** Replica 0 of five, its log at seq 2 for "test_key", after the Accept of
    node3 for seq 7 under ballot 514 arrived at time 0: a placeholder
    command with seq 7 is in flight. *)
Definition replica0_with_placeholder : kepaxos_t (gmap bytes (Z * Z)) :=
  snd (fst (kepaxos_received_command (replica 0 {[test_key := (256, 2)]}) 0
              (fst (kepaxos_build_message (node 3) KEPAXOS_MSG_TYPE_ACCEPT 0 514
                      test_key 8 [] 0 7 0))
              (snd (kepaxos_build_message (node 3) KEPAXOS_MSG_TYPE_ACCEPT 0 514
                      test_key 8 [] 0 7 0)))).

(** While the originator waits, the Commit of node3 for seq 8 under ballot
    1026 is handled. *)
Definition commit_seq8_arrives (ke : kepaxos_t (gmap bytes (Z * Z)))
    : kepaxos_t (gmap bytes (Z * Z)) :=
  snd (kepaxos_handle_commit ke
         {| msg_peer := node 3; msg_ballot := 1026; msg_seq := 8;
            msg_mtype := mtype_code KEPAXOS_MSG_TYPE_COMMIT; msg_ctype := 0;
            msg_committed := 1; msg_key := test_key; msg_klen := 8;
            msg_data := test_value; msg_dlen := 10 |}).

(** The same replica when the Accept of node3 carries the last seq there
    is, [2^64 - 1]: the placeholder in flight has that seq. *)
Definition replica0_with_last_placeholder : kepaxos_t (gmap bytes (Z * Z)) :=
  snd (fst (kepaxos_received_command (replica 0 {[test_key := (256, 2)]}) 0
              (fst (kepaxos_build_message (node 3) KEPAXOS_MSG_TYPE_ACCEPT 0 514
                      test_key 8 [] 0 (2 ^ 64 - 1) 0))
              (snd (kepaxos_build_message (node 3) KEPAXOS_MSG_TYPE_ACCEPT 0 514
                      test_key 8 [] 0 (2 ^ 64 - 1) 0)))).

(** Replica 0 of five, its log at the last seq, [2^64 - 1], for "test_key". *)
Definition replica0_at_last_seq : kepaxos_t (gmap bytes (Z * Z)) :=
  replica 0 {[test_key := (514, 2 ^ 64 - 1)]}.

(** A log whose greatest ballot has the value part 1000 (from replica 3). *)
Definition used_log : gmap bytes (Z * Z) := {[test_key := (256003, 7)]}.


(** The Commit of node3 for "test_key" at seq 8 under ballot 1026. *)
Definition commit_seq8 : kepaxos_msg_t :=
  {| msg_peer := node 3; msg_ballot := 1026; msg_seq := 8;
     msg_mtype := mtype_code KEPAXOS_MSG_TYPE_COMMIT; msg_ctype := 0;
     msg_committed := 1; msg_key := test_key; msg_klen := 8;
     msg_data := test_value; msg_dlen := 10 |}.

(** A Commit message as the builder writes it. *)
Definition commit_wire : bytes * Z :=
  kepaxos_build_message node1 KEPAXOS_MSG_TYPE_COMMIT 2 261 test_key 8
    test_value 10 7 1.

End Kepaxos.

Module Arc.

(** ** Objects, lists and the cache *)

(** The four [struct __arc_state] members of the cache, which the [state]
    pointer of an object is compared with. *)
Inductive arc_state_id := MRUG | MRU | MFU | MFUG.

#[global] Instance arc_state_id_eq_dec : EqDecision arc_state_id.
Proof. solve_decision. Defined.

(** [sizeof(arc_object_t)], the packed structure on LP64 Linux: two pointers
    for the list head, [state], [size], [ptr], [key], [klen] and [node] of 8
    bytes each, the 32-byte [buf], the 40-byte mutex and the 4-byte [async]. *)
Definition sizeof_arc_object_t : Z := 140.

(** [arc_object_t].  The list linkage [head] is the position of the object's
    address in the lists of the cache; [obj_ptr] says whether [ptr] is not
    [NULL]; [obj_refs] is the count of the object's reference-counter node. *)
Record arc_object_t := {
  obj_state : option arc_state_id;
  obj_size : Z;
  obj_ptr : bool;
  obj_key : bytes;
  obj_async : Z;
  obj_refs : Z
}.

(** [ARC_OBJ_BASE_SIZE]: the key lives in [buf] when it has at most 32
    bytes. *)
Definition ARC_OBJ_BASE_SIZE (o : arc_object_t) : Z :=
  sizeof_arc_object_t
  + (if Z.of_nat (length (obj_key o)) <=? 32 then 0 else Z.of_nat (length (obj_key o))).

(** [arc_state_t]: the summed size and the objects' addresses, the one
    after the list head (most recently used) first. *)
Record arc_state_t := {
  st_size : Z;
  st_list : list Z
}.

(** The backing store ([struct __arc_ops]) as oracles: [fetch] gives the
    return code and the size written through its second argument, for the
    object at an address with a key. *)
Record arc_ops_t := {
  op_fetch : Z -> bytes -> Z * Z
}.

(** Ghost trace of the backing-store callbacks and of the release of an
    object's memory, newest first. *)
Inductive arc_event :=
| EvCreate (key : bytes) (async : Z) (obj : Z)
| EvFetch (obj : Z) (rc size : Z)
| EvEvict (obj : Z)
| EvDestroy (obj : Z)
| EvFreeObject (obj : Z).

(** [struct __arc].  [arc_heap] holds the objects by address, [arc_next] is
    the next address [calloc] hands out, [arc_events] is the trace: the three
    are ghost. *)
Record arc_t := {
  arc_ops : arc_ops_t;
  arc_hash : gmap bytes Z;
  arc_c : Z;
  arc_p : Z;
  arc_cos : Z;
  arc_mrug : arc_state_t;
  arc_mru : arc_state_t;
  arc_mfu : arc_state_t;
  arc_mfug : arc_state_t;
  arc_needs_rebalance : Z;
  arc_num_items : Z;
  arc_heap : gmap Z arc_object_t;
  arc_next : Z;
  arc_events : list arc_event
}.

Definition state_of (c : arc_t) (s : arc_state_id) : arc_state_t :=
  match s with
  | MRUG => arc_mrug c
  | MRU => arc_mru c
  | MFU => arc_mfu c
  | MFUG => arc_mfug c
  end.

Definition set_state (c : arc_t) (s : arc_state_id) (v : arc_state_t) : arc_t :=
  {| arc_ops := arc_ops c; arc_hash := arc_hash c; arc_c := arc_c c;
     arc_p := arc_p c; arc_cos := arc_cos c;
     arc_mrug := match s with MRUG => v | _ => arc_mrug c end;
     arc_mru := match s with MRU => v | _ => arc_mru c end;
     arc_mfu := match s with MFU => v | _ => arc_mfu c end;
     arc_mfug := match s with MFUG => v | _ => arc_mfug c end;
     arc_needs_rebalance := arc_needs_rebalance c;
     arc_num_items := arc_num_items c; arc_heap := arc_heap c;
     arc_next := arc_next c; arc_events := arc_events c |}.

Definition set_hash (c : arc_t) (v : gmap bytes Z) : arc_t :=
  {| arc_ops := arc_ops c; arc_hash := v; arc_c := arc_c c;
     arc_p := arc_p c; arc_cos := arc_cos c;
     arc_mrug := arc_mrug c; arc_mru := arc_mru c; arc_mfu := arc_mfu c;
     arc_mfug := arc_mfug c;
     arc_needs_rebalance := arc_needs_rebalance c;
     arc_num_items := arc_num_items c; arc_heap := arc_heap c;
     arc_next := arc_next c; arc_events := arc_events c |}.

Definition set_p (c : arc_t) (v : Z) : arc_t :=
  {| arc_ops := arc_ops c; arc_hash := arc_hash c; arc_c := arc_c c;
     arc_p := v; arc_cos := arc_cos c;
     arc_mrug := arc_mrug c; arc_mru := arc_mru c; arc_mfu := arc_mfu c;
     arc_mfug := arc_mfug c;
     arc_needs_rebalance := arc_needs_rebalance c;
     arc_num_items := arc_num_items c; arc_heap := arc_heap c;
     arc_next := arc_next c; arc_events := arc_events c |}.

Definition set_needs_rebalance (c : arc_t) (v : Z) : arc_t :=
  {| arc_ops := arc_ops c; arc_hash := arc_hash c; arc_c := arc_c c;
     arc_p := arc_p c; arc_cos := arc_cos c;
     arc_mrug := arc_mrug c; arc_mru := arc_mru c; arc_mfu := arc_mfu c;
     arc_mfug := arc_mfug c;
     arc_needs_rebalance := v;
     arc_num_items := arc_num_items c; arc_heap := arc_heap c;
     arc_next := arc_next c; arc_events := arc_events c |}.

Definition set_num_items (c : arc_t) (v : Z) : arc_t :=
  {| arc_ops := arc_ops c; arc_hash := arc_hash c; arc_c := arc_c c;
     arc_p := arc_p c; arc_cos := arc_cos c;
     arc_mrug := arc_mrug c; arc_mru := arc_mru c; arc_mfu := arc_mfu c;
     arc_mfug := arc_mfug c;
     arc_needs_rebalance := arc_needs_rebalance c;
     arc_num_items := v; arc_heap := arc_heap c;
     arc_next := arc_next c; arc_events := arc_events c |}.

Definition set_heap (c : arc_t) (v : gmap Z arc_object_t) : arc_t :=
  {| arc_ops := arc_ops c; arc_hash := arc_hash c; arc_c := arc_c c;
     arc_p := arc_p c; arc_cos := arc_cos c;
     arc_mrug := arc_mrug c; arc_mru := arc_mru c; arc_mfu := arc_mfu c;
     arc_mfug := arc_mfug c;
     arc_needs_rebalance := arc_needs_rebalance c;
     arc_num_items := arc_num_items c; arc_heap := v;
     arc_next := arc_next c; arc_events := arc_events c |}.

Definition set_next (c : arc_t) (v : Z) : arc_t :=
  {| arc_ops := arc_ops c; arc_hash := arc_hash c; arc_c := arc_c c;
     arc_p := arc_p c; arc_cos := arc_cos c;
     arc_mrug := arc_mrug c; arc_mru := arc_mru c; arc_mfu := arc_mfu c;
     arc_mfug := arc_mfug c;
     arc_needs_rebalance := arc_needs_rebalance c;
     arc_num_items := arc_num_items c; arc_heap := arc_heap c;
     arc_next := v; arc_events := arc_events c |}.

Definition log_event (c : arc_t) (e : arc_event) : arc_t :=
  {| arc_ops := arc_ops c; arc_hash := arc_hash c; arc_c := arc_c c;
     arc_p := arc_p c; arc_cos := arc_cos c;
     arc_mrug := arc_mrug c; arc_mru := arc_mru c; arc_mfu := arc_mfu c;
     arc_mfug := arc_mfug c;
     arc_needs_rebalance := arc_needs_rebalance c;
     arc_num_items := arc_num_items c; arc_heap := arc_heap c;
     arc_next := arc_next c; arc_events := e :: arc_events c |}.

(** What [calloc] gives: all fields zero. *)
Definition zero_object : arc_object_t :=
  {| obj_state := None; obj_size := 0; obj_ptr := false; obj_key := [];
     obj_async := 0; obj_refs := 0 |}.

(** The object at an address; the model reads a zeroed object where none
    was allocated. *)
Definition get_obj (c : arc_t) (a : Z) : arc_object_t :=
  default zero_object (arc_heap c !! a).

Definition put_obj (c : arc_t) (a : Z) (o : arc_object_t) : arc_t :=
  set_heap c (<[a := o]> (arc_heap c)).

Definition with_state (o : arc_object_t) (v : option arc_state_id) :=
  {| obj_state := v; obj_size := obj_size o; obj_ptr := obj_ptr o;
     obj_key := obj_key o; obj_async := obj_async o; obj_refs := obj_refs o |}.
Definition with_size (o : arc_object_t) (v : Z) :=
  {| obj_state := obj_state o; obj_size := v; obj_ptr := obj_ptr o;
     obj_key := obj_key o; obj_async := obj_async o; obj_refs := obj_refs o |}.
Definition with_ptr (o : arc_object_t) (v : bool) :=
  {| obj_state := obj_state o; obj_size := obj_size o; obj_ptr := v;
     obj_key := obj_key o; obj_async := obj_async o; obj_refs := obj_refs o |}.
Definition with_async (o : arc_object_t) (v : Z) :=
  {| obj_state := obj_state o; obj_size := obj_size o; obj_ptr := obj_ptr o;
     obj_key := obj_key o; obj_async := v; obj_refs := obj_refs o |}.
Definition with_refs (o : arc_object_t) (v : Z) :=
  {| obj_state := obj_state o; obj_size := obj_size o; obj_ptr := obj_ptr o;
     obj_key := obj_key o; obj_async := obj_async o; obj_refs := v |}.

(** [ATOMIC_INCREASE] and [ATOMIC_DECREASE] on the [size_t] size of a list. *)
Definition increase_size (c : arc_t) (s : arc_state_id) (n : Z) : arc_t :=
  set_state c s {| st_size := uint64_t (st_size (state_of c s) + n);
                   st_list := st_list (state_of c s) |}.
Definition decrease_size (c : arc_t) (s : arc_state_id) (n : Z) : arc_t :=
  set_state c s {| st_size := uint64_t (st_size (state_of c s) - n);
                   st_list := st_list (state_of c s) |}.

(** [arc_list_remove]: the object leaves the list it is linked in. *)
Definition unlink_in (st : arc_state_t) (a : Z) : arc_state_t :=
  {| st_size := st_size st; st_list := filter (fun b => b <> a) (st_list st) |}.

Definition arc_list_remove (c : arc_t) (a : Z) : arc_t :=
  {| arc_ops := arc_ops c; arc_hash := arc_hash c; arc_c := arc_c c;
     arc_p := arc_p c; arc_cos := arc_cos c;
     arc_mrug := unlink_in (arc_mrug c) a; arc_mru := unlink_in (arc_mru c) a;
     arc_mfu := unlink_in (arc_mfu c) a; arc_mfug := unlink_in (arc_mfug c) a;
     arc_needs_rebalance := arc_needs_rebalance c;
     arc_num_items := arc_num_items c; arc_heap := arc_heap c;
     arc_next := arc_next c; arc_events := arc_events c |}.

(** [arc_list_prepend]: the object is linked right after the list's head. *)
Definition arc_list_prepend (c : arc_t) (a : Z) (s : arc_state_id) : arc_t :=
  set_state c s {| st_size := st_size (state_of c s);
                   st_list := a :: st_list (state_of c s) |}.

(** [arc_state_lru]: the object before the list's head, [None] when the
    list is empty (the C code then computes an address inside the cache
    structure). *)
Definition arc_state_lru (st : arc_state_t) : option Z := last (st_list st).

Definition ht_delete (c : arc_t) (key : bytes) : arc_t :=
  set_hash c (delete key (arc_hash c)).

(** Modelled from the spec: the reference counter, refcnt.c, is not among
    the sources.  "refcount: shared ownership counter; entry is destroyed when
    it reaches zero"; "final reference release runs the destroy callback and
    frees the entry".  A new node counts 1; [retain_ref] adds 1;
    [release_ref] takes 1 away and, at 0, runs [terminate_node_callback] and
    hands the object to [free_node_ptr_callback]. *)
Definition retain_ref (c : arc_t) (a : Z) : arc_t :=
  put_obj c a (with_refs (get_obj c a) (obj_refs (get_obj c a) + 1)).

(** [if (obj->ptr && cache->ops->destroy) cache->ops->destroy(...)]. *)
Definition destroy_payload (c : arc_t) (a : Z) : arc_t :=
  {| arc_ops := arc_ops c; arc_hash := arc_hash c; arc_c := arc_c c;
     arc_p := arc_p c; arc_cos := arc_cos c;
     arc_mrug := arc_mrug c; arc_mru := arc_mru c; arc_mfu := arc_mfu c;
     arc_mfug := arc_mfug c;
     arc_needs_rebalance := arc_needs_rebalance c;
     arc_num_items := arc_num_items c; arc_heap := arc_heap c;
     arc_next := arc_next c;
     arc_events := (if obj_ptr (get_obj c a) then [EvDestroy a] else [])
                   ++ arc_events c |}.

(** [terminate_node_callback]. *)
Definition terminate_node_callback (c : arc_t) (a : Z) : arc_t :=
  let c := ht_delete c (obj_key (get_obj c a)) in
  let c := destroy_payload c a in
  put_obj c a (with_state (with_ptr (get_obj c a) false) None).

Definition release_ref (c : arc_t) (a : Z) : arc_t :=
  let n := obj_refs (get_obj c a) - 1 in
  let c := put_obj c a (with_refs (get_obj c a) n) in
  if n =? 0 then log_event (terminate_node_callback c a) (EvFreeObject a) else c.

(** [if (obj->ptr) cache->ops->evict(obj->ptr, ...)]: the callback is all
    that happens, and only for an object with a payload. *)
Definition evict_payload (c : arc_t) (a : Z) : arc_t :=
  {| arc_ops := arc_ops c; arc_hash := arc_hash c; arc_c := arc_c c;
     arc_p := arc_p c; arc_cos := arc_cos c;
     arc_mrug := arc_mrug c; arc_mru := arc_mru c; arc_mfu := arc_mfu c;
     arc_mfug := arc_mfug c;
     arc_needs_rebalance := arc_needs_rebalance c;
     arc_num_items := arc_num_items c; arc_heap := arc_heap c;
     arc_next := arc_next c;
     arc_events := (if obj_ptr (get_obj c a) then [EvEvict a] else [])
                   ++ arc_events c |}.

Definition is_resident (s : option arc_state_id) : bool :=
  match s with Some MRU | Some MFU => true | _ => false end.

Definition is_ghost (s : arc_state_id) : bool :=
  match s with MRUG | MFUG => true | _ => false end.

(** [ATOMIC_CAS(cache->needs_rebalance, 0, 1)]. *)
Definition mark_rebalance (c : arc_t) : arc_t :=
  set_needs_rebalance c
    (if arc_needs_rebalance c =? 0 then 1 else arc_needs_rebalance c).

(** The movement of the marker [p] at the head of [arc_move], for an object
    that leaves the list [obj_state] for some list. *)
Definition adjust_p (c : arc_t) (obj_state : arc_state_id) : arc_t :=
  match obj_state with
  | MRUG =>
      set_p c (MIN (arc_c c)
                 (uint64_t (arc_p c
                    + MAX (if st_size (arc_mrug c) =? 0
                           then st_size (arc_mfug c) / 2
                           else st_size (arc_mfug c) / st_size (arc_mrug c)) 1)))
  | MFUG =>
      set_p c (MAX 0
                 (uint64_t (arc_p c
                    - MAX (if st_size (arc_mfug c) =? 0
                           then st_size (arc_mrug c) / 2
                           else st_size (arc_mrug c) / st_size (arc_mfug c)) 1)))
  | _ => c
  end.

(** [arc_move]: the return code and the cache afterwards.  [state = None] is
    the [NULL] target. *)
Definition arc_move (c : arc_t) (a : Z) (state : option arc_state_id) : Z * arc_t :=
  let obj_state := obj_state (get_obj c a) in
  let c :=
    match obj_state with
    | Some s =>
        let c := match state with Some _ => adjust_p c s | None => c end in
        let c := decrease_size c s (obj_size (get_obj c a)) in
        let c := arc_list_remove c a in
        put_obj c a (with_state (get_obj c a) None)
    | None => c
    end in
  match state with
  | None =>
      let c := release_ref c a in
      let c := if is_resident obj_state
               then set_num_items c (uint64_t (arc_num_items c - 1)) else c in
      (-1, c)
  | Some st =>
      if is_ghost st then
        let c := evict_payload c a in
        let c := put_obj c a (with_async (get_obj c a) 0) in
        let c := arc_list_prepend c a st in
        let c := put_obj c a (with_state (get_obj c a) (Some st)) in
        let c := increase_size c st (obj_size (get_obj c a)) in
        let c := if is_resident obj_state
                 then set_num_items c (uint64_t (arc_num_items c - 1)) else c in
        (0, c)
      else if negb (is_resident obj_state) then
        let '(rc, size) := op_fetch (arc_ops c) a (obj_key (get_obj c a)) in
        let c := log_event c (EvFetch a rc size) in
        if rc =? 1 then
          let c := ht_delete c (obj_key (get_obj c a)) in
          (0, release_ref c a)
        else if rc =? -1 then
          let c := ht_delete c (obj_key (get_obj c a)) in
          (-1, release_ref c a)
        else if size >=? arc_c c then
          let c := release_ref c a in
          (0, set_num_items c (uint64_t (arc_num_items c + 1)))
        else
          let c := put_obj c a
                     (with_size (get_obj c a)
                        (uint64_t (ARC_OBJ_BASE_SIZE (get_obj c a) + size))) in
          let c := arc_list_prepend c a st in
          let c := put_obj c a (with_state (get_obj c a) (Some st)) in
          let c := increase_size c st (obj_size (get_obj c a)) in
          let c := mark_rebalance c in
          (0, set_num_items c (uint64_t (arc_num_items c + 1)))
      else
        let c := arc_list_prepend c a st in
        let c := put_obj c a (with_state (get_obj c a) (Some st)) in
        let c := increase_size c st (obj_size (get_obj c a)) in
        (0, mark_rebalance c)
  end.

(** [arc_remove]. *)
Definition arc_remove (c : arc_t) (key : bytes) : arc_t :=
  let objptr := arc_hash c !! key in
  let c := ht_delete c key in
  match objptr with
  | Some a =>
      match obj_state (get_obj c a) with
      | Some _ => snd (arc_move c a None)
      | None => c
      end
  | None => c
  end.

(** The first loop of [arc_balance], at most [fuel] rounds; the flag says
    that the loop came to its end (the fuel sufficed and no LRU of an empty
    list was taken). *)
Fixpoint balance_resident (fuel : nat) (c : arc_t) (size : Z) : arc_t * bool :=
  if uint64_t (st_size (arc_mru c) + st_size (arc_mfu c) + size) >? arc_c c then
    match fuel with
    | O => (c, false)
    | S fuel =>
        if st_size (arc_mru c) >? arc_p c then
          match arc_state_lru (arc_mru c) with
          | Some a => balance_resident fuel (snd (arc_move c a (Some MRUG))) size
          | None => (c, false)
          end
        else if st_size (arc_mfu c) >? 0 then
          match arc_state_lru (arc_mfu c) with
          | Some a => balance_resident fuel (snd (arc_move c a (Some MFUG))) size
          | None => (c, false)
          end
        else (c, true)
    end
  else (c, true).

(** The second loop of [arc_balance]. *)
Fixpoint balance_ghosts (fuel : nat) (c : arc_t) : arc_t * bool :=
  if uint64_t (st_size (arc_mrug c) + st_size (arc_mfug c)) >? arc_c c then
    match fuel with
    | O => (c, false)
    | S fuel =>
        if st_size (arc_mfug c) >? arc_p c then
          match arc_state_lru (arc_mfug c) with
          | Some a => balance_ghosts fuel (arc_remove c (obj_key (get_obj c a)))
          | None => (c, false)
          end
        else if st_size (arc_mrug c) >? 0 then
          match arc_state_lru (arc_mrug c) with
          | Some a => balance_ghosts fuel (arc_remove c (obj_key (get_obj c a)))
          | None => (c, false)
          end
        else (c, true)
    end
  else (c, true).

(** [arc_balance], each of its loops run for at most [fuel] rounds; the
    flag says that it ran to completion. *)
Definition arc_balance (fuel : nat) (c : arc_t) (size : Z) : arc_t * bool :=
  if arc_needs_rebalance c =? 0 then (c, true)
  else
    let '(c, ok1) := balance_resident fuel c size in
    if ok1 then
      let '(c, ok2) := balance_ghosts fuel c in
      if ok2
      then (if arc_needs_rebalance c =? 1 then set_needs_rebalance c 0 else c, true)
      else (c, false)
    else (c, false).

(** [arc_object_create] at the next free address, then the [create]
    callback of the backing store. *)
Definition arc_object_create (c : arc_t) (key : bytes) : arc_t * Z :=
  let a := arc_next c in
  let obj := {| obj_state := None; obj_size := 0; obj_ptr := true;
                obj_key := key; obj_async := 0; obj_refs := 1 |} in
  let obj := with_size obj (ARC_OBJ_BASE_SIZE obj) in
  (set_next (put_obj c a obj) (a + 1), a).

(** [ht_set_if_not_exists]: 1 when the key is there, else the key is set
    and 0 returned. *)
Definition ht_set_if_not_exists (c : arc_t) (key : bytes) (a : Z) : Z * arc_t :=
  match arc_hash c !! key with
  | Some _ => (1, c)
  | None => (0, set_hash c (<[key := a]> (arc_hash c)))
  end.

(** [arc_lookup], with at most [retries] restarts after a lost race on the
    hash table and [fuel] rounds for each loop of the balancing: the handle
    ([None] for [NULL]), the cache afterwards, and whether the balancing
    (when there was one) ran to completion. *)
Fixpoint arc_lookup (retries fuel : nat) (c : arc_t) (key : bytes) (async : Z)
    : option Z * arc_t * bool :=
  match arc_hash c !! key with
  | Some a =>
      let c := retain_ref c a in
      if negb (async =? 0) && negb (obj_async (get_obj c a) =? 0)
      then (Some a, c, true)
      else
        let '(rc, c) := arc_move c a (Some MFU) in
        if negb (rc =? 0) then (None, release_ref c a, true)
        else
          let '(c, ok) := arc_balance fuel c (obj_size (get_obj c a)) in
          (Some a, c, ok)
  | None =>
      let '(c, a) := arc_object_create c key in
      let c := log_event c (EvCreate key async a) in
      let c := put_obj c a (with_async (get_obj c a) async) in
      let c := retain_ref c a in
      let '(rc, c) := ht_set_if_not_exists c key a in
      if rc =? 0 then
        let '(rc, c) := arc_move c a (Some MRU) in
        if rc =? 0 then
          let '(c, ok) := arc_balance fuel c (obj_size (get_obj c a)) in
          (Some a, c, ok)
        else
          let c := ht_delete c key in
          let c := release_ref c a in
          (None, release_ref c a, true)
      else if rc =? 1 then
        let c := release_ref c a in
        let c := release_ref c a in
        match retries with
        | O => (None, c, false)
        | S retries => arc_lookup retries fuel c key async
        end
      else
        let c := release_ref c a in
        (None, release_ref c a, true)
  end.

(** [arc_create]. *)
Definition arc_create (ops : arc_ops_t) (c cached_object_size : Z) : arc_t :=
  {| arc_ops := ops; arc_hash := ∅; arc_c := c; arc_p := Z.shiftr c 1;
     arc_cos := cached_object_size;
     arc_mrug := {| st_size := 0; st_list := [] |};
     arc_mru := {| st_size := 0; st_list := [] |};
     arc_mfu := {| st_size := 0; st_list := [] |};
     arc_mfug := {| st_size := 0; st_list := [] |};
     arc_needs_rebalance := 0; arc_num_items := 0;
     arc_heap := ∅; arc_next := 1; arc_events := [] |}.

(** [arc_size]. *)
Definition arc_size (c : arc_t) : Z :=
  uint64_t (st_size (arc_mru c) + st_size (arc_mfu c)).

(** ** Well-formed caches *)

(** The summed sizes of the objects at the addresses of a list. *)
Definition total_size (c : arc_t) (l : list Z) : Z :=
  foldr (fun a acc => obj_size (get_obj c a) + acc) 0 l.

(** The number of objects linked in the four lists. *)
Definition entries (c : arc_t) : nat :=
  (length (st_list (arc_mrug c)) + length (st_list (arc_mru c))
   + length (st_list (arc_mfu c)) + length (st_list (arc_mfug c)))%nat.

(** What the lists, the objects and the index have to do with each other:
    an object linked in a list has that list as its state (so it is in one
    list only) and is linked once, the size of a list is the sum of its
    objects' sizes, the index holds every linked object under its key, and
    the sizes of the four lists add up within [size_t]. *)
Record well_formed (c : arc_t) : Prop := {
  wf_state : forall s a, a ∈ st_list (state_of c s) -> obj_state (get_obj c a) = Some s;
  wf_nodup : forall s, NoDup (st_list (state_of c s));
  wf_size : forall s, st_size (state_of c s) = total_size c (st_list (state_of c s));
  wf_nonneg : forall s a, a ∈ st_list (state_of c s) -> 0 <= obj_size (get_obj c a);
  wf_index : forall s a, a ∈ st_list (state_of c s) ->
               arc_hash c !! obj_key (get_obj c a) = Some a;
  wf_total : st_size (arc_mrug c) + st_size (arc_mru c)
             + st_size (arc_mfu c) + st_size (arc_mfug c) < 2 ^ 64
}.

(** The same, as a test that computes. *)
Definition well_formed_b (c : arc_t) : bool :=
  bool_decide
    (Forall (fun s =>
               Forall (fun a => obj_state (get_obj c a) = Some s
                                /\ 0 <= obj_size (get_obj c a)
                                /\ arc_hash c !! obj_key (get_obj c a) = Some a)
                      (st_list (state_of c s))
               /\ NoDup (st_list (state_of c s))
               /\ st_size (state_of c s) = total_size c (st_list (state_of c s)))
            [MRUG; MRU; MFU; MFUG]
     /\ st_size (arc_mrug c) + st_size (arc_mru c)
        + st_size (arc_mfu c) + st_size (arc_mfug c) < 2 ^ 64).

(** Whether a trace holds a fetch that returned -1. *)
Definition is_fetch_error (e : arc_event) : bool :=
  match e with EvFetch _ rc _ => rc =? -1 | _ => false end.

Definition fetch_failed (evs : list arc_event) : bool := existsb is_fetch_error evs.

(** The events of [after] that [before] did not have yet. *)
Definition events_since (before after : arc_t) : list arc_event :=
  take (length (arc_events after) - length (arc_events before)) (arc_events after).

(** ** A small cache for the examples *)

(** A backing store whose fetch succeeds with a payload of size 0. *)
Definition empty_payloads : arc_ops_t := {| op_fetch := fun _ _ => (0, 0) |}.

(** A backing store whose fetch fails. *)
Definition failing_store : arc_ops_t := {| op_fetch := fun _ _ => (-1, 0) |}.

Definition key_A : bytes := [65].
Definition key_B : bytes := [66].

(** The lookups of a list of keys in turn (no async, 8 rounds of fuel,
    which these small caches never use up). *)
Definition lookups (c : arc_t) (keys : list bytes) : arc_t :=
  foldl (fun c key => snd (fst (arc_lookup 1 8 c key 0))) c keys.

(** A cache of capacity 300 over [empty_payloads]: every object weighs
    [sizeof_arc_object_t = 140], so one object is resident at a time once the
    balancing makes room for the next. *)
Definition small_cache : arc_t := arc_create empty_payloads 300 0.

(** A and B both made frequent (B in MFU, A in its ghost list), and the
    rebalance flag set as [arc_update_size] sets it. *)
Definition two_frequent : arc_t :=
  set_needs_rebalance (lookups small_cache [key_A; key_A; key_B; key_B]) 1.

(** A and B both made frequent, then looked up in turn [n] times each. *)
Definition alternating (n : nat) : list bytes :=
  [key_A; key_A; key_B; key_B] ++ concat (repeat [key_A; key_B] n).

(** ** Coherent caches *)

(** [arc_update_size]. *)
Definition arc_update_size (c : arc_t) (key : bytes) (size : Z) : arc_t :=
  match arc_hash c !! key with
  | Some a =>
      let c :=
        if is_resident (obj_state (get_obj c a)) then
          match obj_state (get_obj c a) with
          | Some s =>
              let c := decrease_size c s (obj_size (get_obj c a)) in
              let c := put_obj c a
                         (with_size (get_obj c a)
                            (uint64_t (ARC_OBJ_BASE_SIZE (get_obj c a) + size))) in
              increase_size c s (obj_size (get_obj c a))
          | None => c
          end
        else c in
      mark_rebalance c
  | None => c
  end.

(** The bytes accounted for in the four lists. *)
Definition sizes (c : arc_t) : Z :=
  st_size (arc_mrug c) + st_size (arc_mru c)
  + st_size (arc_mfu c) + st_size (arc_mfug c).

(** What the code relies on between two calls, on top of [well_formed]: an
    object whose [state] names a list is linked in it, the index holds an
    object under its own key only, the objects of the index were allocated
    before, and [p] and [c] are not negative. *)
Record coherent (c : arc_t) : Prop := {
  co_wf : well_formed c;
  co_linked : forall a s, obj_state (get_obj c a) = Some s ->
                a ∈ st_list (state_of c s);
  co_keys : forall k a, arc_hash c !! k = Some a -> obj_key (get_obj c a) = k;
  co_fresh : forall k a, arc_hash c !! k = Some a -> a < arc_next c;
  co_p : 0 <= arc_p c;
  co_c : 0 <= arc_c c
}.

(** The two list operations of [arc_move]: the object leaves the list [s]
    it is in, and the object enters the list [st]. *)
Definition unlink (c : arc_t) (a : Z) (s : arc_state_id) : arc_t :=
  let c := decrease_size c s (obj_size (get_obj c a)) in
  let c := arc_list_remove c a in
  put_obj c a (with_state (get_obj c a) None).

Definition link (c : arc_t) (a : Z) (st : arc_state_id) : arc_t :=
  let c := arc_list_prepend c a st in
  let c := put_obj c a (with_state (get_obj c a) (Some st)) in
  increase_size c st (obj_size (get_obj c a)).

(** The branch of [arc_move] that fetches: the object is in no list and
    goes to the resident list [st]. *)
Definition fetch_in (c1 : arc_t) (a : Z) (st : arc_state_id) : Z * arc_t :=
  let '(rc, size) := op_fetch (arc_ops c1) a (obj_key (get_obj c1 a)) in
  let c2 := log_event c1 (EvFetch a rc size) in
  if rc =? 1 then (0, release_ref (ht_delete c2 (obj_key (get_obj c2 a))) a)
  else if rc =? -1 then (-1, release_ref (ht_delete c2 (obj_key (get_obj c2 a))) a)
  else if size >=? arc_c c2 then
    (0, set_num_items (release_ref c2 a)
          (uint64_t (arc_num_items (release_ref c2 a) + 1)))
  else
    let c3 := link (put_obj c2 a
                      (with_size (get_obj c2 a)
                         (uint64_t (ARC_OBJ_BASE_SIZE (get_obj c2 a) + size)))) a st in
    (0, set_num_items (mark_rebalance c3)
          (uint64_t (arc_num_items (mark_rebalance c3) + 1))).

(** [c'] differs from [c] in nothing that coherence looks at: the same
    index, lists, capacity and next address, and objects with the same
    state and key, and the same size when they are in a list. *)
Definition same_shape (c c' : arc_t) : Prop :=
  arc_hash c' = arc_hash c /\ arc_c c' = arc_c c /\ arc_next c' = arc_next c
  /\ arc_ops c' = arc_ops c
  /\ (forall s, state_of c' s = state_of c s)
  /\ (forall b, obj_state (get_obj c' b) = obj_state (get_obj c b)
                /\ obj_key (get_obj c' b) = obj_key (get_obj c b)
                /\ (obj_state (get_obj c b) <> None ->
                    obj_size (get_obj c' b) = obj_size (get_obj c b))).

(** The first steps of [arc_lookup] for a key that is not in the index: the
    object is made, handed to the [create] callback, retained for the
    caller and set in the index. *)
Definition fresh_entry (c : arc_t) (key : bytes) (async : Z) : arc_t :=
  let '(c1, a) := arc_object_create c key in
  let c2 := log_event c1 (EvCreate key async a) in
  let c3 := put_obj c2 a (with_async (get_obj c2 a) async) in
  let c4 := retain_ref c3 a in
  set_hash c4 (<[key := a]> (arc_hash c4)).

(** The cache of the examples after the first lookup of [key_A]. *)
Definition one_entry : arc_t := lookups small_cache [key_A].

End Arc.

Module Log.

(** ** Escaping of buffers for the log (src/log.c) *)

(** The loop of [shardcache_byte_escape] over the bytes still to read:
    [newbuf] holds the [off] bytes written so far, [buflen] and [cnt] are the
    [unsigned long] counters. *)
Fixpoint escape_loop (ch esc : Z) (p newbuf : bytes) (buflen cnt : Z)
    : bytes * Z * Z :=
  match p with
  | [] => (newbuf, buflen, cnt)
  | b :: p =>
      let cnt := if b =? ch then uint64_t (cnt + 1) else cnt in
      let escape := (b =? ch) || (b =? esc) in
      if escape
      then escape_loop ch esc p ((newbuf ++ [esc]) ++ [b]) (uint64_t (buflen + 1)) cnt
      else escape_loop ch esc p (newbuf ++ [b]) buflen cnt
  end.

(** [shardcache_byte_escape]: the count returned, and what was written
    through [dest] and [newlen] ([None]: nothing was).  [buffer] holds at
    least [len] bytes; [malloc] and [realloc] are taken to succeed. *)
Definition shardcache_byte_escape (ch esc : Z) (buffer : bytes) (len : Z)
    : Z * option (bytes * Z) :=
  if len =? 0 then (0, None)
  else
    let '(newbuf, buflen, cnt) :=
      escape_loop ch esc (firstn (Z.to_nat len) buffer) [] len 0 in
    (cnt, Some (newbuf, buflen)).

(** How an escaped buffer is read back (the source has no such function):
    an escape byte announces that the byte after it is literal. *)
Fixpoint unescape (esc : Z) (l : bytes) : bytes :=
  match l with
  | [] => []
  | b :: rest =>
      if b =? esc then
        match rest with
        | [] => []
        | b' :: rest' => b' :: unescape esc rest'
        end
      else b :: unescape esc rest
  end.

(** What the loop writes for a list of bytes: each byte, after an escape
    byte when it is [ch] or [esc]. *)
Definition escaped (ch esc : Z) (l : bytes) : bytes :=
  flat_map (fun b => if (b =? ch) || (b =? esc) then [esc; b] else [b]) l.

Definition SHC_ESCAPE_BUFFER_SIZE_MAX : Z := Z.shiftl 1 16.

(** The size of the static buffer [str] of [shardcache_hex_escape]. *)
Definition str_size : Z := SHC_ESCAPE_BUFFER_SIZE_MAX + 6.

(** A hexadecimal digit as ["%x"] prints it. *)
Definition hex_digit (n : Z) : Z := if n <? 10 then 48 + n else 87 + n.

(** What [sprintf(p, "%02x", b)] writes for an [unsigned char]: two digits
    and the terminator. *)
Definition sprintf_02x (b : Z) : bytes :=
  [hex_digit (Z.shiftr b 4); hex_digit (Z.land b 15); 0].

(** [memcpy] of [src] to offset [off] of a buffer. *)
Definition write_at (str : bytes) (off : Z) (src : bytes) : bytes :=
  firstn (Z.to_nat off) str ++ src
  ++ skipn (Z.to_nat off + length src) str.

(** The loop of [shardcache_hex_escape]. *)
Fixpoint hex_loop (buf str : bytes) (p : Z) : bytes :=
  match buf with
  | [] => str
  | b :: buf => hex_loop buf (write_at str p (sprintf_02x b)) (p + 2)
  end.

(** [strcat(str, src)]: [src] and its terminator go where the string in
    [str] ends. *)
Definition strcat (str src : bytes) : bytes :=
  write_at str (Z.of_nat (length (Kepaxos.cstring str))) (src ++ [0]).

(** [shardcache_hex_escape]: the static buffer [str] after the call (the
    function returns a pointer to it), from the buffer before.  [buf] holds
    at least [len] bytes, each in [0, 256). *)
Definition shardcache_hex_escape (str buf : bytes) (len limit include_prefix : Z)
    : bytes :=
  let olen := if (limit >? 0) && (limit <? len) then limit else len in
  let olen := if olen >? SHC_ESCAPE_BUFFER_SIZE_MAX / 2
              then SHC_ESCAPE_BUFFER_SIZE_MAX / 2 else olen in
  let '(str, p) :=
    if include_prefix =? 0 then (str, 0)
    else (write_at str 0 [48; 120; 0], 2) in
  let str := hex_loop (firstn (Z.to_nat olen) buf) str p in
  if olen <? len then strcat str [46; 46; 46] else str.

(** The number of bytes that are printed. *)
Definition hex_olen (len limit : Z) : Z :=
  Z.min (if (limit >? 0) && (limit <? len) then limit else len)
        (SHC_ESCAPE_BUFFER_SIZE_MAX / 2).

(** Two digits for each byte of a list. *)
Definition hex_digits (l : bytes) : bytes :=
  flat_map (fun b => [hex_digit (Z.shiftr b 4); hex_digit (Z.land b 15)]) l.

(** A buffer with a separator and an escape byte in it: ["a,\\b"] as bytes,
    to be escaped for the separator [44] with the escape byte [92]. *)
Definition sample_buffer : bytes := [97; 44; 92; 98].

(** The static buffer before the first call, and four bytes to dump. *)
Definition fresh_str : bytes := repeat 0 (Z.to_nat str_size).

Definition sample_dump : bytes := [222; 173; 190; 239].

End Log.

Module KepaxosFacts.
Import Kepaxos.

(** ** Wire format: reading back what was written *)

Lemma testbit_255 (n : Z) : 0 <= n -> Z.testbit 255 n = (n <? 8).
Proof.
  intros Hn. change 255 with (Z.ones 8).
  apply Z.testbit_ones_nonneg; lia.
Qed.

Lemma testbit_high (x w n : Z) :
  0 <= x < 2 ^ w -> 0 <= w <= n -> Z.testbit x n = false.
Proof.
  intros Hx Hn.
  rewrite <- (Z.mod_small x (2 ^ w)) by lia.
  apply Z.mod_pow2_bits_high; lia.
Qed.

Lemma byte_range (x k : Z) : 0 <= Z.land (Z.shiftr x k) 255 < 256.
Proof.
  change 255 with (Z.ones 8). rewrite Z.land_ones by lia.
  apply Z.mod_pos_bound. lia.
Qed.

Lemma be32_join (x : Z) :
  0 <= x < 2 ^ 32 ->
  Z.lor (Z.lor (Z.lor (Z.shiftl (Z.land (Z.shiftr x 24) 255) 24)
                      (Z.shiftl (Z.land (Z.shiftr x 16) 255) 16))
               (Z.shiftl (Z.land (Z.shiftr x 8) 255) 8))
        (Z.land x 255) = x.
Proof.
  intros Hx. apply Z.bits_inj'. intros n Hn.
  rewrite !Z.lor_spec, Z.land_spec, testbit_255 by lia.
  rewrite !Z.shiftl_spec by lia.
  destruct (Z.ltb_spec n 8).
  { rewrite (Z.testbit_neg_r _ (n - 24)), (Z.testbit_neg_r _ (n - 16)),
      (Z.testbit_neg_r _ (n - 8)) by lia.
    simpl. now rewrite andb_true_r. }
  rewrite andb_false_r, orb_false_r.
  destruct (Z.ltb_spec n 16).
  { rewrite (Z.testbit_neg_r _ (n - 24)), (Z.testbit_neg_r _ (n - 16)) by lia.
    rewrite Z.land_spec, testbit_255, Z.shiftr_spec by lia.
    simpl. replace (n - 8 + 8) with n by lia.
    destruct (Z.ltb_spec (n - 8) 8); [now rewrite andb_true_r | lia]. }
  destruct (Z.ltb_spec n 24).
  { rewrite (Z.testbit_neg_r _ (n - 24)) by lia.
    rewrite !Z.land_spec, !testbit_255, !Z.shiftr_spec by lia.
    simpl. replace (n - 16 + 16) with n by lia.
    destruct (Z.ltb_spec (n - 16) 8); [| lia].
    destruct (Z.ltb_spec (n - 8) 8); [lia |].
    now rewrite andb_true_r, andb_false_r, orb_false_r. }
  rewrite !Z.land_spec, !testbit_255, !Z.shiftr_spec by lia.
  replace (n - 24 + 24) with n by lia.
  destruct (Z.ltb_spec (n - 16) 8); [lia |].
  destruct (Z.ltb_spec (n - 8) 8); [lia |].
  rewrite !andb_false_r, !orb_false_r.
  destruct (Z.ltb_spec (n - 24) 8); [now rewrite andb_true_r |].
  rewrite andb_false_r. symmetry. apply (testbit_high x 32); lia.
Qed.

Lemma be16_join (x : Z) :
  0 <= x < 2 ^ 16 ->
  Z.lor (Z.shiftl (Z.land (Z.shiftr x 8) 255) 8) (Z.land x 255) = x.
Proof.
  intros Hx. apply Z.bits_inj'. intros n Hn.
  rewrite !Z.lor_spec, Z.land_spec, testbit_255 by lia.
  rewrite !Z.shiftl_spec by lia.
  destruct (Z.ltb_spec n 8).
  { rewrite (Z.testbit_neg_r _ (n - 8)) by lia. simpl. now rewrite andb_true_r. }
  rewrite andb_false_r, orb_false_r.
  rewrite Z.land_spec, testbit_255, Z.shiftr_spec by lia.
  replace (n - 8 + 8) with n by lia.
  destruct (Z.ltb_spec (n - 8) 8); [now rewrite andb_true_r |].
  rewrite andb_false_r. symmetry. apply (testbit_high x 16); lia.
Qed.

(** The two 32-bit halves of a 64-bit value, joined again. *)
Lemma halves_join (x : Z) :
  0 <= x < 2 ^ 64 ->
  Z.lor (uint64_t (Z.shiftl (uint32_t (Z.shiftr x 32)) 32)) (Z.land x 4294967295) = x.
Proof.
  intros Hx. unfold uint64_t, uint32_t.
  assert (Hhi : 0 <= Z.shiftr x 32 < 2 ^ 32).
  { rewrite Z.shiftr_div_pow2 by lia. split.
    - apply Z.div_pos; lia.
    - apply Z.div_lt_upper_bound; lia. }
  rewrite (Z.mod_small (Z.shiftr x 32)) by lia.
  rewrite (Z.mod_small (Z.shiftl _ 32)).
  2:{ rewrite Z.shiftl_mul_pow2 by lia. lia. }
  apply Z.bits_inj'. intros n Hn.
  rewrite Z.lor_spec, Z.land_spec, Z.shiftl_spec by lia.
  change 4294967295 with (Z.ones 32).
  rewrite Z.testbit_ones_nonneg by lia.
  destruct (Z.ltb_spec n 32).
  - rewrite Z.testbit_neg_r by lia. simpl. now rewrite andb_true_r.
  - rewrite andb_false_r, orb_false_r, Z.shiftr_spec by lia.
    f_equal. lia.
Qed.

Lemma halves_range (x : Z) :
  0 <= x < 2 ^ 64 ->
  0 <= uint32_t (Z.shiftr x 32) < 2 ^ 32 /\ 0 <= Z.land x 4294967295 < 2 ^ 32.
Proof.
  intros Hx. split.
  - apply Z.mod_pos_bound. lia.
  - change 4294967295 with (Z.ones 32). rewrite Z.land_ones by lia.
    apply Z.mod_pos_bound. lia.
Qed.

Lemma byte_at_app_r (A R : bytes) (off : Z) :
  Z.of_nat (length A) <= off ->
  byte_at (A ++ R) off = byte_at R (off - Z.of_nat (length A)).
Proof.
  intros H. unfold byte_at.
  rewrite app_nth2 by lia. f_equal. lia.
Qed.

Lemma rd16_app_r (A R : bytes) (off : Z) :
  Z.of_nat (length A) <= off ->
  rd16 (A ++ R) off = rd16 R (off - Z.of_nat (length A)).
Proof.
  intros H. unfold rd16. rewrite !byte_at_app_r by lia.
  do 2 f_equal. lia.
Qed.

Lemma rd32_app_r (A R : bytes) (off : Z) :
  Z.of_nat (length A) <= off ->
  rd32 (A ++ R) off = rd32 R (off - Z.of_nat (length A)).
Proof.
  intros H. unfold rd32. rewrite !byte_at_app_r by lia.
  repeat f_equal; lia.
Qed.

Lemma slice_app_r (A R : bytes) (off n : Z) :
  Z.of_nat (length A) <= off ->
  slice (A ++ R) off n = slice R (off - Z.of_nat (length A)) n.
Proof.
  intros H. unfold slice. rewrite skipn_app.
  rewrite (skipn_all2 A) by lia. simpl. do 2 f_equal. lia.
Qed.

Lemma slice_prefix (A R : bytes) (n : Z) :
  n = Z.of_nat (length A) -> slice (A ++ R) 0 n = A.
Proof.
  intros ->. unfold slice. rewrite Nat2Z.id. change (Z.to_nat 0) with 0%nat.
  rewrite drop_0. apply take_app_length.
Qed.

Lemma rd16_be16 (x : Z) (R : bytes) :
  0 <= x < 2 ^ 16 -> rd16 (be16 x ++ R) 0 = x.
Proof. intros H. unfold rd16, byte_at, be16. simpl. now apply be16_join. Qed.

Lemma rd32_be32 (x : Z) (R : bytes) :
  0 <= x < 2 ^ 32 -> rd32 (be32 x ++ R) 0 = x.
Proof. intros H. unfold rd32, byte_at, be32. simpl. now apply be32_join. Qed.

Lemma length_be32 (x : Z) : length (be32 x) = 4%nat.
Proof. reflexivity. Qed.

Lemma length_be16 (x : Z) : length (be16 x) = 2%nat.
Proof. reflexivity. Qed.

Lemma cstring_terminated (s R : bytes) :
  Forall (fun b => b <> 0) s -> cstring (s ++ 0 :: R) = s.
Proof.
  induction 1 as [| b s Hb _ IH]; simpl.
  - reflexivity.
  - destruct (Z.eqb_spec b 0); [contradiction | now rewrite IH].
Qed.

Lemma rd16_be16_at (x off : Z) (R : bytes) :
  off = 0 -> 0 <= x < 2 ^ 16 -> rd16 (be16 x ++ R) off = x.
Proof. intros ->. apply rd16_be16. Qed.

Lemma rd32_be32_at (x off : Z) (R : bytes) :
  off = 0 -> 0 <= x < 2 ^ 32 -> rd32 (be32 x ++ R) off = x.
Proof. intros ->. apply rd32_be32. Qed.

Lemma slice_prefix_at (A R : bytes) (off n : Z) :
  off = 0 -> n = Z.of_nat (length A) -> slice (A ++ R) off n = A.
Proof. intros ->. apply slice_prefix. Qed.

Ltac len_side :=
  rewrite ?length_app, ?length_be32, ?length_be16; simpl length; lia.

Ltac peel_step :=
  first [ rewrite rd32_app_r by len_side
        | rewrite rd16_app_r by len_side
        | rewrite byte_at_app_r by len_side
        | rewrite slice_app_r by len_side ].

(** C6, as the code has it.  A message built by [kepaxos_build_message]
    from a sender name without NUL bytes, shorter than [2^16 - 1] bytes so
    that its length with the terminator fits the 16-bit length field, a
    32-bit [klen] and [dlen] that are the lengths of [key] and [data], a
    64-bit ballot and seq and byte-sized [ctype] and [committed], is parsed
    back by [kepaxos_parse_message] to exactly these fields; the length
    returned by the builder is the length of the buffer. *)
Theorem build_parse_roundtrip (sender : bytes) (mtype : kepaxos_msg_type_t)
    (ctype ballot : Z) (key : bytes) (klen : Z) (data : bytes) (dlen : Z)
    (seq committed : Z) :
  Forall (fun b => b <> 0) sender ->
  Z.of_nat (length sender) + 1 < 2 ^ 16 ->
  0 <= ctype < 2 ^ 8 -> 0 <= ballot < 2 ^ 64 -> 0 <= seq < 2 ^ 64 ->
  klen = Z.of_nat (length key) -> klen < 2 ^ 32 ->
  dlen = Z.of_nat (length data) -> dlen < 2 ^ 32 ->
  committed = 0 \/ committed = 1 ->
  kepaxos_parse_message
    (fst (kepaxos_build_message sender mtype ctype ballot key klen data dlen seq committed))
    (snd (kepaxos_build_message sender mtype ctype ballot key klen data dlen seq committed))
  = Some {| msg_peer := sender; msg_ballot := ballot; msg_seq := seq;
            msg_mtype := mtype_code mtype; msg_ctype := ctype;
            msg_committed := committed;
            msg_key := key; msg_klen := klen; msg_data := data; msg_dlen := dlen |}.
Proof.
  intros Hs Hlen Hc Hb Hq Hk Hk32 Hd Hd32 Hcm.
  unfold kepaxos_build_message. cbv zeta. cbn [fst snd].
  set (slen := Z.of_nat (length sender) + 1).
  assert (Hsl : uint16_t slen = slen) by (apply Z.mod_small; lia).
  rewrite Hsl.
  assert (Hkey : (if klen =? 0 then [] else slice key 0 klen) = key).
  { destruct (Z.eqb_spec klen 0) as [E | E].
    - destruct key; [reflexivity | simpl in Hk; lia].
    - rewrite <- (app_nil_r key) at 1. now apply slice_prefix. }
  assert (Hdata : (if dlen =? 0 then [] else slice data 0 dlen) = data).
  { destruct (Z.eqb_spec dlen 0) as [E | E].
    - destruct data; [reflexivity | simpl in Hd; lia].
    - rewrite <- (app_nil_r data) at 1. now apply slice_prefix. }
  rewrite Hkey, Hdata.
  destruct (halves_range ballot Hb) as [Hbh Hbl].
  destruct (halves_range seq Hq) as [Hsh Hsl'].
  set (bh := uint32_t (Z.shiftr ballot 32)) in *.
  set (bl := Z.land ballot 4294967295) in *.
  set (sh := uint32_t (Z.shiftr seq 32)) in *.
  set (sl := Z.land seq 4294967295) in *.
  set (mb := uint8_t (mtype_code mtype)).
  set (cb := uint8_t ctype).
  set (cmb := if committed =? 0 then 0 else 1).
  set (buf := be16 slen ++ _).
  unfold kepaxos_parse_message. cbv zeta.
  assert (E0 : rd16 buf 0 = slen) by (apply rd16_be16; lia).
  rewrite !E0.
  assert (Ep : cstring (drop (Z.to_nat 2) buf) = sender).
  { unfold buf. change (Z.to_nat 2) with (length (be16 slen)).
    rewrite drop_app_length, <- app_assoc. simpl. now apply cstring_terminated. }
  assert (E1 : rd32 buf (2 + slen) = bh).
  { unfold buf. do 2 peel_step. apply rd32_be32_at; [unfold slen; len_side | lia]. }
  assert (E2 : rd32 buf (2 + slen + 4) = bl).
  { unfold buf. do 3 peel_step. apply rd32_be32_at; [unfold slen; len_side | lia]. }
  assert (E3 : rd32 buf (2 + slen + 4 + 4) = sh).
  { unfold buf. do 4 peel_step. apply rd32_be32_at; [unfold slen; len_side | lia]. }
  assert (E4 : rd32 buf (2 + slen + 4 + 4 + 4) = sl).
  { unfold buf. do 5 peel_step. apply rd32_be32_at; [unfold slen; len_side | lia]. }
  assert (E5 : byte_at buf (2 + slen + 4 + 4 + 4 + 4) = mb).
  { unfold buf. do 6 peel_step.
    match goal with |- byte_at _ ?o = _ => replace o with 0 by (unfold slen; len_side) end.
    reflexivity. }
  assert (E6 : byte_at buf (2 + slen + 4 + 4 + 4 + 4 + 1) = cb).
  { unfold buf. do 6 peel_step.
    match goal with |- byte_at _ ?o = _ => replace o with 1 by (unfold slen; len_side) end.
    reflexivity. }
  assert (E7 : byte_at buf (2 + slen + 4 + 4 + 4 + 4 + 2) = cmb).
  { unfold buf. do 6 peel_step.
    match goal with |- byte_at _ ?o = _ => replace o with 2 by (unfold slen; len_side) end.
    reflexivity. }
  assert (Hk0 : 0 <= klen < 2 ^ 32) by lia.
  assert (Hd0 : 0 <= dlen < 2 ^ 32) by lia.
  assert (E8 : rd32 buf (2 + slen + 4 + 4 + 4 + 4 + 3) = klen).
  { unfold buf. do 7 peel_step. apply rd32_be32_at; [unfold slen; len_side | lia]. }
  rewrite !E8.
  assert (Eoff : (if klen =? 0 then 2 + slen + 4 + 4 + 4 + 4 + 3 + 4
                  else 2 + slen + 4 + 4 + 4 + 4 + 3 + 4 + klen)
                 = 2 + slen + 4 + 4 + 4 + 4 + 3 + 4 + klen).
  { destruct (Z.eqb_spec klen 0); lia. }
  rewrite !Eoff.
  assert (E9 : (if klen =? 0 then []
                else slice buf (2 + slen + 4 + 4 + 4 + 4 + 3 + 4) klen) = key).
  { destruct (Z.eqb_spec klen 0) as [E | E].
    - destruct key; [reflexivity | simpl in Hk; lia].
    - unfold buf. do 8 peel_step.
      apply slice_prefix_at; [unfold slen; len_side | lia]. }
  assert (E10 : rd32 buf (2 + slen + 4 + 4 + 4 + 4 + 3 + 4 + klen) = dlen).
  { unfold buf. do 9 peel_step.
    apply rd32_be32_at; [unfold slen; len_side | lia]. }
  rewrite !E10.
  assert (E11 : (if dlen =? 0 then []
                 else slice buf (2 + slen + 4 + 4 + 4 + 4 + 3 + 4 + klen + 4) dlen) = data).
  { destruct (Z.eqb_spec dlen 0) as [E | E].
    - destruct data; [reflexivity | simpl in Hd; lia].
    - unfold buf. do 10 peel_step.
      rewrite <- (app_nil_r data) at 1.
      apply slice_prefix_at; [unfold slen; len_side | lia]. }
  rewrite Ep, E1, E2, E3, E4, E5, E6, E7, E9, E11.
  unfold KEPAXOS_MSGLEN_MIN.
  repeat match goal with
  | |- context [?a <? ?b] =>
      destruct (Z.ltb_spec a b); [unfold slen in *; lia |]
  end.
  subst bh bl sh sl. rewrite !halves_join by assumption.
  f_equal. f_equal.
  - unfold mb, uint8_t. apply Z.mod_small. destruct mtype; simpl; lia.
  - unfold cb, uint8_t. now apply Z.mod_small.
  - unfold cmb. destruct Hcm as [-> | ->]; reflexivity.
Qed.

Lemma build_parse_roundtrip_witness :
  kepaxos_parse_message
    (fst (kepaxos_build_message node1 KEPAXOS_MSG_TYPE_COMMIT 2 261 test_key 8
            test_value 10 7 1))
    (snd (kepaxos_build_message node1 KEPAXOS_MSG_TYPE_COMMIT 2 261 test_key 8
            test_value 10 7 1))
  = Some {| msg_peer := node1; msg_ballot := 261; msg_seq := 7;
            msg_mtype := 5; msg_ctype := 2; msg_committed := 1;
            msg_key := test_key; msg_klen := 8;
            msg_data := test_value; msg_dlen := 10 |}.
Proof.
  apply (build_parse_roundtrip node1 KEPAXOS_MSG_TYPE_COMMIT 2 261 test_key 8
           test_value 10 7 1).
  - unfold node1. repeat constructor; discriminate.
  - simpl. lia.
  - lia.
  - lia.
  - lia.
  - reflexivity.
  - lia.
  - reflexivity.
  - lia.
  - now right.
Defined.

Lemma build_parse_long_sender :
  kepaxos_parse_message
      (fst (kepaxos_build_message long_sender KEPAXOS_MSG_TYPE_COMMIT 2 261
              test_key 8 test_value 10 7 1))
      (snd (kepaxos_build_message long_sender KEPAXOS_MSG_TYPE_COMMIT 2 261
              test_key 8 test_value 10 7 1))
  = None
  /\ Forall (fun b => b <> 0) long_sender
  /\ Z.of_nat (length long_sender) = 65535.
Proof.
  split; [vm_compute; reflexivity |].
  split.
  { unfold long_sender. generalize (Z.to_nat 65535) as n.
    induction n; simpl; constructor; [discriminate | assumption]. }
  unfold long_sender. rewrite repeat_length. reflexivity.
Qed.

(** ** Ballots *)

Section BallotFacts.
Context {L : Type} `{!kepaxos_log_ops L}.

Lemma BALLOT_VALUE_range (b : Z) :
  0 <= b < 2 ^ 64 -> 0 <= BALLOT_VALUE b < 2 ^ 56.
Proof.
  intros Hb. unfold BALLOT_VALUE. rewrite Z.shiftr_div_pow2 by lia. split.
  - apply Z.div_pos; lia.
  - apply Z.div_lt_upper_bound; lia.
Qed.

(** The test [updated_ballot == 0] of [update_ballot] never succeeds: the
    value part of a 64-bit ballot has 56 bits, and one more than it is not 0
    in 64 bits. *)
Lemma updated_ballot_nonzero (b : Z) :
  0 <= b < 2 ^ 64 -> (uint64_t (BALLOT_VALUE b + 1) =? 0) = false.
Proof.
  intros Hb. pose proof (BALLOT_VALUE_range b Hb) as Hv.
  unfold uint64_t. rewrite Z.mod_small by lia. apply Z.eqb_neq. lia.
Qed.

(** The local ballot never decreases, whatever 64-bit ballot a message
    carries. *)
Theorem update_ballot_monotone (ke : kepaxos_t L) (b : Z) :
  0 <= b < 2 ^ 64 ->
  ke_ballot ke <= snd (update_ballot ke b)
  /\ ke_ballot (fst (update_ballot ke b)) = snd (update_ballot ke b).
Proof.
  intros Hb. unfold update_ballot, kepaxos_reset_ballot. cbn [fst snd].
  rewrite (updated_ballot_nonzero b Hb).
  destruct (BALLOT_VALUE b =? 0); [split; [lia | reflexivity] |].
  cbn [set_ke_ballot ke_ballot]. unfold ATOMIC_SET_IF_lt.
  destruct (Z.ltb_spec (ke_ballot ke)
              (Z.lor (uint64_t (Z.shiftl (uint64_t (BALLOT_VALUE b + 1)) 8))
                 (ke_my_index ke))); split; (lia || reflexivity).
Qed.

(** Away from the two ends of the counter (value part neither 0 nor the
    last one), the local ballot becomes the next ballot of this replica when
    that is greater, and stays otherwise. *)
Theorem update_ballot_upward (ke : kepaxos_t L) (b : Z) :
  0 <= b < 2 ^ 64 ->
  0 < BALLOT_VALUE b ->
  snd (update_ballot ke b)
  = Z.max (ke_ballot ke)
      (Z.lor (uint64_t (Z.shiftl (BALLOT_VALUE b + 1) 8)) (ke_my_index ke)).
Proof.
  intros Hb Hv. pose proof (BALLOT_VALUE_range b Hb) as Hr.
  unfold update_ballot. cbn [fst snd].
  rewrite (updated_ballot_nonzero b Hb).
  destruct (Z.eqb_spec (BALLOT_VALUE b) 0); [lia |].
  cbn [set_ke_ballot ke_ballot]. unfold ATOMIC_SET_IF_lt.
  replace (uint64_t (BALLOT_VALUE b + 1)) with (BALLOT_VALUE b + 1)
    by (unfold uint64_t; rewrite Z.mod_small; lia).
  destruct (Z.ltb_spec (ke_ballot ke)
              (Z.lor (uint64_t (Z.shiftl (BALLOT_VALUE b + 1) 8)) (ke_my_index ke)));
    lia.
Qed.

(** C10.  [kepaxos_get_diff] returns -1 and no items, and does not call the
    log's diff function, when the value part of the requested ballot is not
    below the value part of the log's maximum ballot. *)
Theorem kepaxos_get_diff_guard (ke : kepaxos_t L) (ballot : Z) :
  BALLOT_VALUE ballot >= BALLOT_VALUE (kepaxos_max_ballot (ke_log ke)) ->
  fst (fst (kepaxos_get_diff ke ballot)) = -1
  /\ snd (fst (kepaxos_get_diff ke ballot)) = None
  /\ forall b, ~ In (CallDiffFromBallot b) (snd (kepaxos_get_diff ke ballot)).
Proof.
  intros H. unfold kepaxos_get_diff.
  destruct (Z.geb_spec (BALLOT_VALUE ballot)
              (BALLOT_VALUE (kepaxos_max_ballot (ke_log ke)))) as [_ | Hlt]; [| lia].
  cbn [fst snd]. repeat split.
  intros b [Hc | []]. discriminate Hc.
Qed.

(** Below the maximum, the log's diff is what is returned. *)
Theorem kepaxos_get_diff_below (ke : kepaxos_t L) (ballot : Z) :
  BALLOT_VALUE ballot < BALLOT_VALUE (kepaxos_max_ballot (ke_log ke)) ->
  kepaxos_get_diff ke ballot
  = (fst (kepaxos_diff_from_ballot (ke_log ke) ballot),
     Some (snd (kepaxos_diff_from_ballot (ke_log ke) ballot)),
     [CallMaxBallot; CallDiffFromBallot ballot]).
Proof.
  intros H. unfold kepaxos_get_diff.
  destruct (Z.geb_spec (BALLOT_VALUE ballot)
              (BALLOT_VALUE (kepaxos_max_ballot (ke_log ke)))) as [Hge | _]; [lia |].
  now destruct (kepaxos_diff_from_ballot (ke_log ke) ballot).
Qed.

End BallotFacts.

(** ** What the senders and the leader's commit leave behind *)

Section EngineFacts.
Context {L : Type} `{!kepaxos_log_ops L}.

Lemma send_message_effect (ke : kepaxos_t L) mtype ctype ballot key data seq committed :
  exists recipients n msg msglen,
    snd (send_message ke mtype ctype ballot key data seq committed)
    = emit ke (EvSend recipients n msg msglen).
Proof.
  unfold send_message.
  destruct (kepaxos_build_message _ _ _ _ _ _ _ _ _ _) as [msg msglen].
  cbn [snd]. eauto.
Qed.

Lemma kepaxos_send_accept_effect (ke : kepaxos_t L) ballot key seq :
  exists recipients n msg msglen,
    snd (kepaxos_send_accept ke ballot key seq)
    = emit ke (EvSend recipients n msg msglen).
Proof. apply send_message_effect. Qed.

Lemma commit_count_cons (e : kepaxos_event) (evs : list kepaxos_event) :
  commit_count (e :: evs) = (if is_commit e then 1 else 0) + commit_count evs.
Proof. unfold commit_count. simpl. destruct (is_commit e); simpl length; lia. Qed.

(** The leader's commit invokes the commit callback once, leaves the command
    table alone, and writes the command's ballot and seq to the log when the
    callback returned 0. *)
Lemma kepaxos_commit_effect (ke : kepaxos_t L) (cmd : kepaxos_cmd_t) :
  let ke' := snd (kepaxos_commit ke cmd) in
  commit_count (ke_events ke') = commit_count (ke_events ke) + 1
  /\ ke_commands ke' = ke_commands ke
  /\ (cb_commit (ke_callbacks ke) (cmd_type cmd) (cmd_key cmd) (cmd_data cmd) 1 = 0 ->
      kepaxos_last_seq_for_key (ke_log ke') (cmd_key cmd)
      = (cmd_seq cmd, cmd_ballot cmd))
  /\ In (EvCommit (cmd_type cmd) (cmd_key cmd) (cmd_data cmd) 1) (ke_events ke').
Proof.
  unfold kepaxos_commit. cbn zeta.
  destruct (Z.eqb_spec
              (cb_commit (ke_callbacks ke) (cmd_type cmd) (cmd_key cmd) (cmd_data cmd) 1) 0)
    as [E | E].
  - unfold kepaxos_send_commit.
    match goal with |- context [send_message ?k ?a ?b ?c ?d ?e ?f ?g] =>
      destruct (send_message_effect k a b c d e f g) as (r & n & m & ml & Hs);
      destruct (send_message k a b c d e f g) as [rc ke1] end.
    cbn [snd] in Hs |- *. subst ke1. cbn.
    rewrite !commit_count_cons. cbn. repeat split.
    + lia.
    + intros _. apply last_seq_set_eq.
    + auto.
  - cbn. rewrite !commit_count_cons. cbn. repeat split; [lia | tauto | auto].
Qed.

(** After the command was stored back, deleting its key hands the same
    command back and the commit follows. *)
Lemma delete_and_commit_stored (ke : kepaxos_t L) (key : bytes) (cmd : kepaxos_cmd_t) :
  delete_and_commit (store_cmd ke key cmd) key cmd
  = kepaxos_commit (set_ke_commands ke (delete key (ke_commands ke))) cmd.
Proof.
  unfold delete_and_commit, store_cmd. cbn.
  rewrite lookup_insert_eq, Z.eqb_refl, delete_insert_eq. reflexivity.
Qed.

(** ** Accept responses *)

(** C1, as the code has it.  For an Accept response handled for a key
    whose command is ACCEPTED with a ballot not above the response's: the
    command is committed (commit callback invoked, command removed from the
    table, log written when the callback returned 0) only when the collected
    votes that match the response's seq and ballot, the response's own vote
    included, number at least [num_peers / 2]; and unless the response
    reports the command's seq as committed elsewhere, that many matching
    votes do commit it. *)
Theorem accept_response_commit_threshold (ke : kepaxos_t L) (msg : kepaxos_msg_t)
    (cmd : kepaxos_cmd_t) :
  ke_commands ke !! msg_key msg = Some cmd ->
  cmd_status cmd = KEPAXOS_CMD_STATUS_ACCEPTED ->
  cmd_ballot cmd <= msg_ballot msg ->
  let ke' := snd (kepaxos_handle_accept_response ke msg) in
  let matching := count_ok (append_vote cmd msg) msg in
  (commit_count (ke_events ke') <> commit_count (ke_events ke) ->
     matching >= Z.quot (ke_num_peers ke) 2
     /\ ke_commands ke' !! msg_key msg = None
     /\ (cb_commit (ke_callbacks ke) (cmd_type cmd) (cmd_key cmd) (cmd_data cmd) 1 = 0 ->
         kepaxos_last_seq_for_key (ke_log ke') (cmd_key cmd)
         = (cmd_seq cmd, cmd_ballot cmd)))
  /\ (matching >= Z.quot (ke_num_peers ke) 2 ->
      ~ (cmd_seq cmd = msg_seq msg /\ msg_committed msg <> 0) ->
      commit_count (ke_events ke') = commit_count (ke_events ke) + 1).
Proof.
  intros Hcmd Hst Hb ke' matching. subst ke' matching.
  unfold kepaxos_handle_accept_response. rewrite Hcmd.
  destruct (Z.ltb_spec (msg_ballot msg) (cmd_ballot cmd)) as [Hlt | _]; [lia |].
  rewrite Hst. rewrite bool_decide_eq_true_2 by reflexivity. cbn [negb].
  destruct ((cmd_seq cmd =? msg_seq msg) && negb (msg_committed msg =? 0)) eqn:Hdup.
  { (* the seq is reported committed elsewhere: another Accept round *)
    apply andb_true_iff in Hdup as [Hs Hc].
    apply Z.eqb_eq in Hs. apply negb_true_iff, Z.eqb_neq in Hc.
    match goal with |- context [kepaxos_send_accept ?k ?b ?key ?q] =>
      destruct (kepaxos_send_accept_effect k b key q) as (r & n & m & ml & Hsend) end.
    rewrite Hsend. cbn. rewrite commit_count_cons. cbn. split.
    - intros Hne. lia.
    - intros _ Hno. exfalso. apply Hno. now split. }
  assert (Hno : ~ (cmd_seq cmd = msg_seq msg /\ msg_committed msg <> 0)).
  { intros [Hs Hc]. apply andb_false_iff in Hdup as [Hd | Hd].
    - apply Z.eqb_neq in Hd. lia.
    - apply negb_false_iff, Z.eqb_eq in Hd. lia. }
  cbv zeta.
  set (cmd1 := set_cmd_max_seq (append_vote cmd msg) _).
  set (cmd2 := if cmd_max_seq cmd1 =? msg_seq msg then _ else cmd1).
  assert (Hcount : count_ok cmd2 msg = count_ok (append_vote cmd msg) msg).
  { subst cmd2. destruct (cmd_max_seq cmd1 =? msg_seq msg); reflexivity. }
  assert (Hfields : cmd_type cmd2 = cmd_type cmd /\ cmd_key cmd2 = cmd_key cmd
                    /\ cmd_data cmd2 = cmd_data cmd /\ cmd_seq cmd2 = cmd_seq cmd
                    /\ cmd_ballot cmd2 = cmd_ballot cmd).
  { subst cmd2. destruct (cmd_max_seq cmd1 =? msg_seq msg); repeat split. }
  destruct Hfields as (Ht & Hk & Hd & Hq & Hbl).
  rewrite Hcount.
  destruct (Z.ltb_spec (count_ok (append_vote cmd msg) msg) (Z.quot (ke_num_peers ke) 2))
    as [Hfew | Henough].
  - (* no quorum of matching votes: wait, or another Accept round *)
    destruct (cmd_num_votes cmd2 >=? Z.quot (ke_num_peers ke) 2).
    + match goal with |- context [kepaxos_send_accept ?k ?b ?key ?q] =>
        destruct (kepaxos_send_accept_effect k b key q) as (r & n & m & ml & Hsend) end.
      rewrite Hsend. cbn. rewrite commit_count_cons. cbn. split; intros; lia.
    + cbn. split; intros; lia.
  - rewrite delete_and_commit_stored.
    match goal with |- context [kepaxos_commit ?k ?c] =>
      destruct (kepaxos_commit_effect k c) as (Hcnt & Hcmds & Hlog & _) end.
    cbn [set_ke_commands ke_events ke_callbacks ke_commands] in Hcnt, Hcmds, Hlog.
    split.
    + intros _. split; [lia |]. split.
      * rewrite Hcmds. apply lookup_delete_eq.
      * rewrite Ht, Hk, Hd, Hq, Hbl in Hlog. exact Hlog.
    + intros _ _. exact Hcnt.
Qed.

(** ** PreAccept responses *)

Lemma MAX_spec (a b : Z) : MAX a b = Z.max a b.
Proof. unfold MAX. destruct (Z.gtb_spec a b); lia. Qed.

(** The highest seq among the votes of a command. *)
Lemma preaccept_vote_fields (cmd : kepaxos_cmd_t) (msg : kepaxos_msg_t) :
  cmd_max_seq (preaccept_vote cmd msg) = Z.max (cmd_max_seq cmd) (msg_seq msg)
  /\ cmd_votes (preaccept_vote cmd msg) = cmd_votes (append_vote cmd msg)
  /\ cmd_num_votes (preaccept_vote cmd msg) = uint16_t (cmd_num_votes cmd + 1)
  /\ cmd_seq (preaccept_vote cmd msg) = cmd_seq cmd
  /\ cmd_ballot (preaccept_vote cmd msg) = cmd_ballot cmd
  /\ cmd_key (preaccept_vote cmd msg) = cmd_key cmd.
Proof.
  unfold preaccept_vote. cbv zeta.
  destruct (Z.eqb_spec (msg_seq msg) (cmd_max_seq (append_vote cmd msg))) as [E | E];
    cbn [negb].
  - assert (Em : cmd_max_seq cmd = msg_seq msg) by (symmetry; exact E).
    destruct (negb (msg_committed msg =? 0)); cbn;
      destruct (cmd_max_seq cmd =? msg_seq msg); cbn; repeat split; lia.
  - cbn. rewrite MAX_spec.
    destruct (Z.max (cmd_max_seq cmd) (msg_seq msg) =? msg_seq msg); cbn;
      repeat split.
Qed.

(** One PreAccept response handled for a key whose command is PRE_ACCEPTED
    with a ballot not above the response's: the vote is appended and
    [max_seq] becomes the greater of its value and the response's seq.
    Below [num_peers / 2] votes the command is stored back and nothing
    else happens; from [num_peers / 2] votes on, the command is committed
    (one commit callback, the key out of the command table) exactly when
    [cmd.seq > cmd.max_seq], or [cmd.seq == cmd.max_seq] with
    [max_seq_committed] clear, and otherwise no commit callback is made. *)
Theorem preaccept_response_step (ke : kepaxos_t L) (msg : kepaxos_msg_t)
    (cmd : kepaxos_cmd_t) :
  ke_commands ke !! msg_key msg = Some cmd ->
  cmd_status cmd = KEPAXOS_CMD_STATUS_PRE_ACCEPTED ->
  cmd_ballot cmd <= msg_ballot msg ->
  let cmd' := preaccept_vote cmd msg in
  let res := kepaxos_handle_preaccept_response ke msg in
  cmd_max_seq cmd' = Z.max (cmd_max_seq cmd) (msg_seq msg)
  /\ cmd_votes cmd'
     = take (Z.to_nat (cmd_num_votes cmd)) (cmd_votes cmd)
       ++ [{| vote_peer := msg_peer msg; vote_ballot := msg_ballot msg;
              vote_seq := msg_seq msg |}]
  /\ (cmd_num_votes cmd' < Z.quot (ke_num_peers ke) 2 ->
      res = (0, store_cmd ke (msg_key msg) cmd'))
  /\ (Z.quot (ke_num_peers ke) 2 <= cmd_num_votes cmd' ->
      commit_count (ke_events (snd res))
      = commit_count (ke_events ke) + (if fast_path cmd' then 1 else 0)
      /\ (fast_path cmd' = true -> ke_commands (snd res) !! msg_key msg = None)).
Proof.
  intros Hcmd Hst Hb cmd' res.
  destruct (preaccept_vote_fields cmd msg) as (Hmax & Hvotes & _).
  split; [exact Hmax |]. split; [exact Hvotes |].
  subst res. unfold kepaxos_handle_preaccept_response. rewrite Hcmd.
  destruct (Z.ltb_spec (msg_ballot msg) (cmd_ballot cmd)) as [Hlt | _]; [lia |].
  rewrite Hst. rewrite bool_decide_eq_true_2 by reflexivity. cbn [negb].
  cbv zeta. fold cmd'. cbn [store_cmd set_ke_commands ke_num_peers].
  destruct (Z.ltb_spec (cmd_num_votes cmd') (Z.quot (ke_num_peers ke) 2)) as [Hfew | Hq].
  - split; [intros _; reflexivity | intros Hge; lia].
  - split; [intros Hlt; lia |]. intros _.
    destruct (fast_path cmd') eqn:Hfast.
    + change (set_ke_commands ke (<[msg_key msg := cmd']> (ke_commands ke)))
        with (store_cmd ke (msg_key msg) cmd').
      rewrite delete_and_commit_stored.
      match goal with |- context [kepaxos_commit ?k ?c] =>
        destruct (kepaxos_commit_effect k c) as (Hcnt & Hcmds & _) end.
      cbn [set_ke_commands ke_events ke_commands] in Hcnt, Hcmds.
      split; [exact Hcnt |]. intros _. rewrite Hcmds. apply lookup_delete_eq.
    + match goal with |- context [kepaxos_send_accept ?k ?b ?key ?q] =>
        destruct (kepaxos_send_accept_effect k b key q) as (r & n & m & ml & Hsend) end.
      rewrite Hsend. cbn. rewrite commit_count_cons. cbn.
      split; [lia | discriminate].
Qed.

(** ** Commit messages *)

(** C2, as the code has it.  A Commit whose seq is below the log's seq for
    the key is ignored and leaves the engine, the log with it, as it was; so
    is one for which a command in flight for the key has the same seq and a
    higher ballot.  Any other Commit invokes the commit callback and writes
    its ballot and seq to the log: afterwards the log's seq for the key is the
    message's, not below the value before, and above it exactly when the
    message's seq is. *)
Theorem kepaxos_handle_commit_log (ke : kepaxos_t L) (msg : kepaxos_msg_t) :
  let old := kepaxos_seq ke (msg_key msg) in
  let ke' := snd (kepaxos_handle_commit ke msg) in
  (msg_seq msg < old -> ke' = ke)
  /\ ((exists c, ke_commands ke !! msg_key msg = Some c
                 /\ cmd_seq c = msg_seq msg /\ cmd_ballot c > msg_ballot msg) ->
      kepaxos_handle_commit ke msg = (-1, ke))
  /\ (old <= msg_seq msg ->
      (forall c, ke_commands ke !! msg_key msg = Some c ->
                 cmd_seq c = msg_seq msg -> cmd_ballot c <= msg_ballot msg) ->
      kepaxos_last_seq_for_key (ke_log ke') (msg_key msg) = (msg_seq msg, msg_ballot msg)
      /\ commit_count (ke_events ke') = commit_count (ke_events ke) + 1
      /\ old <= kepaxos_seq ke' (msg_key msg)
      /\ (old < kepaxos_seq ke' (msg_key msg) <-> old < msg_seq msg)).
Proof.
  intros old ke'. subst old ke'. unfold kepaxos_handle_commit, kepaxos_seq.
  set (blocked := match ke_commands ke !! msg_key msg with
                  | Some c => (cmd_seq c =? msg_seq msg) && (cmd_ballot c >? msg_ballot msg)
                  | None => false
                  end).
  split; [| split].
  - intros Hold. destruct blocked; [reflexivity |].
    destruct (Z.ltb_spec (msg_seq msg)
                (fst (kepaxos_last_seq_for_key (ke_log ke) (msg_key msg))));
      [reflexivity | lia].
  - intros (c & Hc & Hs & Hb). subst blocked. rewrite Hc.
    destruct (Z.eqb_spec (cmd_seq c) (msg_seq msg)); [| lia].
    destruct (Z.gtb_spec (cmd_ballot c) (msg_ballot msg)); [reflexivity | lia].
  - intros Hold Hfree.
    assert (Hblk : blocked = false).
    { subst blocked. destruct (ke_commands ke !! msg_key msg) as [c |] eqn:Hc;
        [| reflexivity].
      destruct (Z.eqb_spec (cmd_seq c) (msg_seq msg)) as [Hs |]; [| reflexivity].
      specialize (Hfree c eq_refl Hs).
      destruct (Z.gtb_spec (cmd_ballot c) (msg_ballot msg)); [lia | reflexivity]. }
    rewrite Hblk.
    destruct (Z.ltb_spec (msg_seq msg)
                (fst (kepaxos_last_seq_for_key (ke_log ke) (msg_key msg)))); [lia |].
    cbv zeta.
    match goal with |- context [snd (0, ?k)] => set (ke2 := k) end.
    assert (Hlog : ke_log ke2
                   = kepaxos_set_last_seq_for_key (ke_log ke) (msg_key msg)
                       (msg_ballot msg) (msg_seq msg)
                   /\ commit_count (ke_events ke2) = commit_count (ke_events ke) + 1).
    { subst ke2. destruct (ke_commands ke !! msg_key msg) as [c |].
      - destruct (cmd_seq c <=? msg_seq msg); [destruct (cmd_waiting c =? 0) |];
          cbn; rewrite !commit_count_cons; cbn; split; (reflexivity || lia).
      - cbn. rewrite !commit_count_cons. cbn. split; (reflexivity || lia). }
    destruct Hlog as [Hlog Hcnt]. cbn [snd]. rewrite Hlog, last_seq_set_eq.
    cbn [fst]. repeat split; lia.
Qed.

(** ** Originating a command *)

(** C7.  [kepaxos_run_command] creates its command, in status PRE_ACCEPTED
    under the current ballot, with seq one above the log's seq for the key,
    raised to one above the seq of the command it found in flight for the key
    when that seq was not below; both increments are taken in [uint64_t], and
    for seqs below [2^64 - 1] they do not wrap.  When the PreAccept has been
    sent, the table holds the new command in place of the one found, whose
    waiters were woken, the log is as it was, and the message went to the
    other peers with the command's seq and ballot.  If the send succeeded and
    the table still holds the command, the caller marks it as waited for,
    waits, and frees it.  The call returns 0 when the log's seq for the key,
    read after the wait, is at least the command's seq, and -1 otherwise. *)
Theorem kepaxos_run_command_seq (ke : kepaxos_t L) (now type : Z) (key data : bytes)
    (during_send during_wait : kepaxos_t L -> kepaxos_t L) :
  let last_seq := kepaxos_seq ke key in
  let seq :=
    match ke_commands ke !! key with
    | Some prev => MAX (uint64_t (last_seq + 1)) (uint64_t (cmd_seq prev + 1))
    | None => uint64_t (last_seq + 1)
    end in
  let woken :=
    match ke_commands ke !! key with
    | Some prev => [EvBroadcast (cmd_addr prev)]
    | None => []
    end in
  let preaccept :=
    kepaxos_build_message (my_name ke) KEPAXOS_MSG_TYPE_PRE_ACCEPT 0 (ke_ballot ke)
      key (uint32_t (Z.of_nat (length key))) [] 0 seq 0 in
  let rc :=
    cb_send (ke_callbacks ke) (receivers ke) (ke_num_peers ke - 1)
      (fst preaccept) (snd preaccept) in
  let res := kepaxos_run_command ke now type key data during_send during_wait in
  (0 <= last_seq < 2 ^ 64 - 1 ->
   (forall prev, ke_commands ke !! key = Some prev -> 0 <= cmd_seq prev < 2 ^ 64 - 1) ->
   seq = match ke_commands ke !! key with
         | Some prev =>
             if cmd_seq prev >=? last_seq + 1 then cmd_seq prev + 1 else last_seq + 1
         | None => last_seq + 1
         end)
  /\ exists (sent : kepaxos_t L) (cmd : kepaxos_cmd_t),
       cmd_seq cmd = seq
       /\ cmd_status cmd = KEPAXOS_CMD_STATUS_PRE_ACCEPTED
       /\ cmd_ballot cmd = ke_ballot ke
       /\ cmd_type cmd = type /\ cmd_key cmd = key /\ cmd_data cmd = data
       /\ cmd_addr cmd = ke_next_addr ke /\ cmd_waiting cmd = 0
       /\ ke_commands sent = <[key := cmd]> (ke_commands ke)
       /\ ke_log sent = ke_log ke
       /\ ke_events sent
          = EvSend (receivers ke) (ke_num_peers ke - 1) (fst preaccept) (snd preaccept)
            :: woken ++ ke_events ke
       /\ snd res
          = (let ke2 := during_send sent in
             if rc >=? 0 then
               match ke_commands ke2 !! key with
               | Some now_cmd =>
                   if cmd_addr now_cmd =? cmd_addr cmd then
                     kepaxos_command_free
                       (during_wait (store_cmd ke2 key (set_cmd_waiting now_cmd 1))) cmd
                   else ke2
               | None => ke2
               end
             else ke2)
       /\ fst res = (if kepaxos_seq (snd res) key >=? seq then 0 else -1).
Proof.
  intros last_seq seq woken preaccept rc res. split.
  - intros Hlast Hprev. subst seq.
    assert (Hwrap : uint64_t (last_seq + 1) = last_seq + 1).
    { unfold uint64_t. apply Z.mod_small. lia. }
    destruct (ke_commands ke !! key) as [prev |]; [| exact Hwrap].
    specialize (Hprev prev eq_refl).
    rewrite MAX_spec, Hwrap. unfold uint64_t.
    rewrite (Z.mod_small (cmd_seq prev + 1)) by lia.
    destruct (Z.geb_spec (cmd_seq prev) (last_seq + 1)); lia.
  - subst res. unfold kepaxos_run_command.
    fold (kepaxos_seq ke key). fold last_seq.
    unfold kepaxos_command_create. cbn [set_ke_next_addr ke_commands].
    subst rc preaccept woken seq.
    destruct (ke_commands ke !! key) as [prev |] eqn:Hp;
      unfold kepaxos_send_preaccept, send_message;
      cbn [set_cmd_seq cmd_seq cmd_ballot];
      [change (my_name (kepaxos_command_destroy _ _)) with (my_name ke)
      | change (my_name (store_cmd _ _ _)) with (my_name ke)];
      change (uint32_t (Z.of_nat (length (@nil Z)))) with 0;
      set (m := kepaxos_build_message _ _ _ _ _ _ _ _ _ _);
      destruct m as [msg msglen] eqn:Em; cbn [fst snd];
      (match goal with |- context [during_send ?s] =>
         match s with context [store_cmd _ key ?c] => exists s, c end end);
      do 11 (split; [reflexivity |]);
      split; reflexivity.
Qed.

End EngineFacts.

Lemma update_ballot_monotone_witness :
  ke_ballot (replica 2 ∅) <= snd (update_ballot (replica 2 ∅) 1024)
  /\ ke_ballot (fst (update_ballot (replica 2 ∅) 1024))
     = snd (update_ballot (replica 2 ∅) 1024).
Proof. apply (update_ballot_monotone (replica 2 ∅) 1024). lia. Defined.

Lemma update_ballot_upward_witness :
  snd (update_ballot (replica 2 ∅) 1024)
  = Z.max (ke_ballot (replica 2 ∅))
      (Z.lor (uint64_t (Z.shiftl (BALLOT_VALUE 1024 + 1) 8))
         (ke_my_index (replica 2 ∅))).
Proof.
  apply (update_ballot_upward (replica 2 ∅) 1024).
  - lia.
  - vm_compute. reflexivity.
Defined.

(** C3 at the end of the counter.  A message carries the last ballot value,
    [2^56 - 1].  One more than it does not fit the 56 bits, yet it is not 0
    in 64 bits, so the reset branch is not taken; shifted back it is 0, the
    candidate ballot is the bare replica index, and the local ballot (here
    0x502 at replica 2) stays as it was, not [(1 << 8) | my_index]; the same
    when the ballot arrives in a PreAccept off the wire. *)
Lemma update_ballot_counter_exhausted :
  BALLOT_VALUE (2 ^ 64 - 1) = 2 ^ 56 - 1
  /\ uint64_t (Z.shiftl (BALLOT_VALUE (2 ^ 64 - 1) + 1) 8) = 0
  /\ ke_ballot (fst (update_ballot (replica 2 ∅) 1024)) = 1282
  /\ snd (update_ballot (fst (update_ballot (replica 2 ∅) 1024)) (2 ^ 64 - 1)) = 1282
  /\ Z.lor (Z.shiftl 1 8) (ke_my_index (replica 2 ∅)) = 258
  /\ ke_ballot (snd (fst (kepaxos_received_command
                            (fst (update_ballot (replica 2 ∅) 1024)) 0
                            (fst last_ballot_preaccept) (snd last_ballot_preaccept))))
     = 1282.
Proof. vm_compute. repeat split. Qed.

Lemma kepaxos_get_diff_guard_witness :
  fst (fst (kepaxos_get_diff (replica 0 {[test_key := (773, 7)]}) 773)) = -1
  /\ snd (fst (kepaxos_get_diff (replica 0 {[test_key := (773, 7)]}) 773)) = None
  /\ forall b, ~ In (CallDiffFromBallot b)
                 (snd (kepaxos_get_diff (replica 0 {[test_key := (773, 7)]}) 773)).
Proof.
  apply (kepaxos_get_diff_guard (replica 0 {[test_key := (773, 7)]}) 773).
  vm_compute. discriminate.
Defined.

Lemma kepaxos_get_diff_below_witness :
  kepaxos_get_diff (replica 0 {[test_key := (773, 7)]}) 258
  = (fst (kepaxos_diff_from_ballot (ke_log (replica 0 {[test_key := (773, 7)]})) 258),
     Some (snd (kepaxos_diff_from_ballot (ke_log (replica 0 {[test_key := (773, 7)]})) 258)),
     [CallMaxBallot; CallDiffFromBallot 258]).
Proof.
  apply (kepaxos_get_diff_below (replica 0 {[test_key := (773, 7)]}) 258).
  vm_compute. reflexivity.
Defined.

Lemma accept_response_commit_threshold_witness :
  (commit_count (ke_events (snd (kepaxos_handle_accept_response accepted_once (accept_vote 3))))
   <> commit_count (ke_events accepted_once) ->
     count_ok (append_vote (in_flight accepted_once) (accept_vote 3)) (accept_vote 3)
     >= Z.quot (ke_num_peers accepted_once) 2
     /\ ke_commands (snd (kepaxos_handle_accept_response accepted_once (accept_vote 3)))
          !! msg_key (accept_vote 3) = None
     /\ (cb_commit (ke_callbacks accepted_once) (cmd_type (in_flight accepted_once))
           (cmd_key (in_flight accepted_once)) (cmd_data (in_flight accepted_once)) 1 = 0 ->
         kepaxos_last_seq_for_key
           (ke_log (snd (kepaxos_handle_accept_response accepted_once (accept_vote 3))))
           (cmd_key (in_flight accepted_once))
         = (cmd_seq (in_flight accepted_once), cmd_ballot (in_flight accepted_once))))
  /\ (count_ok (append_vote (in_flight accepted_once) (accept_vote 3)) (accept_vote 3)
      >= Z.quot (ke_num_peers accepted_once) 2 ->
      ~ (cmd_seq (in_flight accepted_once) = msg_seq (accept_vote 3)
         /\ msg_committed (accept_vote 3) <> 0) ->
      commit_count (ke_events (snd (kepaxos_handle_accept_response accepted_once (accept_vote 3))))
      = commit_count (ke_events accepted_once) + 1).
Proof.
  apply (accept_response_commit_threshold accepted_once (accept_vote 3)
           (in_flight accepted_once)).
  - vm_compute. reflexivity.
  - vm_compute. reflexivity.
  - vm_compute. discriminate.
Defined.

(** Five replicas: the second matching Accept response commits the command,
    with two matching votes collected, fewer than [5 / 2 + 1 = 3].  The
    votes are counted as they are stored, whoever sent them: when the second
    response is node2's again, as the first was, the command is committed
    as well. *)
Lemma accept_response_two_votes_commit :
  ke_num_peers accepted_once = 5
  /\ cmd_status (in_flight accepted_once) = KEPAXOS_CMD_STATUS_ACCEPTED
  /\ cmd_ballot (in_flight accepted_once) <= msg_ballot (accept_vote 3)
  /\ count_ok (append_vote (in_flight accepted_once) (accept_vote 3)) (accept_vote 3) = 2
  /\ 2 < Z.quot 5 2 + 1
  /\ commit_count (ke_events accepted_once) = 0
  /\ commit_count
       (ke_events (snd (kepaxos_handle_accept_response accepted_once (accept_vote 3)))) = 1
  /\ ke_commands (snd (kepaxos_handle_accept_response accepted_once (accept_vote 3)))
       !! test_key = None
  /\ kepaxos_last_seq_for_key
       (ke_log (snd (kepaxos_handle_accept_response accepted_once (accept_vote 3))))
       test_key = (1, 256)
  /\ map vote_peer (cmd_votes (in_flight accepted_once)) = [node 2]
  /\ msg_peer (accept_vote 2) = node 2
  /\ count_ok (append_vote (in_flight accepted_once) (accept_vote 2)) (accept_vote 2) = 2
  /\ commit_count
       (ke_events (snd (kepaxos_handle_accept_response accepted_once (accept_vote 2)))) = 1
  /\ ke_commands (snd (kepaxos_handle_accept_response accepted_once (accept_vote 2)))
       !! test_key = None
  /\ kepaxos_last_seq_for_key
       (ke_log (snd (kepaxos_handle_accept_response accepted_once (accept_vote 2))))
       test_key = (1, 256).
Proof. vm_compute. repeat split; discriminate. Qed.

(** C5 with a lower seq after the highest.  [kepaxos_run_command] at
    replica 0 of seven, the log at seq 4 for the key: the command has seq 5.
    node2 reports seq 5 as committed; the answer of node3, with the lower
    seq 3, clears [max_seq_committed] although the highest seq is still
    node2's; with node4's answer the quorum is there, the fast path commits
    the command at seq 5, and the call returns 0. *)
Lemma preaccept_response_clears_committed :
  (cmd_seq (in_flight (after_preaccept_votes 0)),
   cmd_status (in_flight (after_preaccept_votes 0)))
  = (5, KEPAXOS_CMD_STATUS_PRE_ACCEPTED)
  /\ (cmd_max_seq (in_flight (after_preaccept_votes 1)),
      cmd_max_seq_committed (in_flight (after_preaccept_votes 1))) = (5, 1)
  /\ (cmd_max_seq (in_flight (after_preaccept_votes 2)),
      cmd_max_seq_committed (in_flight (after_preaccept_votes 2))) = (5, 0)
  /\ map vote_seq (cmd_votes (in_flight (after_preaccept_votes 2))) = [5; 3]
  /\ commit_count (ke_events (after_preaccept_votes 2)) = 0
  /\ commit_count (ke_events (after_preaccept_votes 3)) = 1
  /\ kepaxos_last_seq_for_key (ke_log (after_preaccept_votes 3)) test_key = (5, 256)
  /\ fst (kepaxos_run_command originator 0 0 test_key test_value id
            (fun ke => foldl receive ke preaccept_replies)) = 0.
Proof. vm_compute. repeat split. Qed.

(** A Commit whose seq equals the log's: it is processed, the ballot in the
    log changes, and the seq in the log is what it was. *)
Lemma handle_commit_same_seq :
  kepaxos_seq replica1_at_seq5 test_key = 5
  /\ msg_seq commit_seq5 = 5
  /\ fst (kepaxos_handle_commit replica1_at_seq5 commit_seq5) = 0
  /\ commit_count (ke_events (snd (kepaxos_handle_commit replica1_at_seq5 commit_seq5))) = 1
  /\ kepaxos_last_seq_for_key
       (ke_log (snd (kepaxos_handle_commit replica1_at_seq5 commit_seq5))) test_key
     = (5, 517)
  /\ kepaxos_seq (snd (kepaxos_handle_commit replica1_at_seq5 commit_seq5)) test_key
     <= kepaxos_seq replica1_at_seq5 test_key.
Proof. vm_compute. repeat split; discriminate. Qed.

Lemma kepaxos_handle_commit_log_witness :
  kepaxos_last_seq_for_key
    (ke_log (snd (kepaxos_handle_commit replica1_at_seq5 commit_seq6))) test_key
  = (6, 517)
  /\ commit_count (ke_events (snd (kepaxos_handle_commit replica1_at_seq5 commit_seq6)))
     = commit_count (ke_events replica1_at_seq5) + 1
  /\ kepaxos_seq replica1_at_seq5 test_key
     <= kepaxos_seq (snd (kepaxos_handle_commit replica1_at_seq5 commit_seq6)) test_key
  /\ (kepaxos_seq replica1_at_seq5 test_key
      < kepaxos_seq (snd (kepaxos_handle_commit replica1_at_seq5 commit_seq6)) test_key
      <-> kepaxos_seq replica1_at_seq5 test_key < 6).
Proof.
  destruct (kepaxos_handle_commit_log replica1_at_seq5 commit_seq6) as (_ & _ & H).
  apply H.
  - vm_compute. discriminate.
  - intros c Hc. vm_compute in Hc. discriminate Hc.
Defined.

Lemma kepaxos_run_command_seq_witness :
  let ke := replica0_with_placeholder in
  let res := kepaxos_run_command ke 1 0 test_key test_value id commit_seq8_arrives in
  kepaxos_seq ke test_key = 2
  /\ cmd_seq (in_flight ke) = 7
  /\ (exists sent cmd,
        cmd_seq cmd = 8
        /\ cmd_status cmd = KEPAXOS_CMD_STATUS_PRE_ACCEPTED
        /\ cmd_ballot cmd = ke_ballot ke
        /\ ke_commands sent = <[test_key := cmd]> (ke_commands ke)
        /\ ke_log sent = ke_log ke
        /\ head (ke_events sent)
           = Some (EvSend [node 2; node 3; node 4; node 5] 4
                     (fst (kepaxos_build_message node1 KEPAXOS_MSG_TYPE_PRE_ACCEPT 0
                             (ke_ballot ke) test_key 8 [] 0 8 0))
                     (snd (kepaxos_build_message node1 KEPAXOS_MSG_TYPE_PRE_ACCEPT 0
                             (ke_ballot ke) test_key 8 [] 0 8 0)))
        /\ In (EvBroadcast (cmd_addr (in_flight ke))) (ke_events sent)
        /\ snd res
           = kepaxos_command_free
               (commit_seq8_arrives (store_cmd sent test_key (set_cmd_waiting cmd 1))) cmd)
  /\ kepaxos_seq (snd res) test_key = 8
  /\ fst res = 0.
Proof.
  cbv zeta.
  destruct (kepaxos_run_command_seq replica0_with_placeholder 1 0 test_key test_value
              id commit_seq8_arrives)
    as (Hseq & sent & cmd & Hs & Hst & Hb & _ & _ & _ & _ & _ & Hc & Hl & Hev & Hres & Hrc).
  assert (E8 : match ke_commands replica0_with_placeholder !! test_key with
               | Some prev =>
                   MAX (uint64_t (kepaxos_seq replica0_with_placeholder test_key + 1))
                     (uint64_t (cmd_seq prev + 1))
               | None => uint64_t (kepaxos_seq replica0_with_placeholder test_key + 1)
               end = 8).
  { rewrite Hseq.
    - vm_compute. reflexivity.
    - vm_compute. split; [discriminate | reflexivity].
    - intros prev Hp. vm_compute in Hp. injection Hp as <-. vm_compute.
      split; [discriminate | reflexivity]. }
  rewrite E8 in Hs, Hrc, Hev, Hres.
  split; [vm_compute; reflexivity |].
  split; [vm_compute; reflexivity |].
  split.
  - exists sent, cmd.
    do 5 (split; [assumption |]).
    split; [rewrite Hev; vm_compute; reflexivity |].
    split; [rewrite Hev; vm_compute; right; left; reflexivity |].
    rewrite Hres. cbv zeta. unfold id.
    change (cb_send _ _ _ _ _ >=? 0) with true. cbv iota.
    rewrite Hc, lookup_insert_eq, Z.eqb_refl. reflexivity.
  - split; [vm_compute; reflexivity |]. rewrite Hrc. vm_compute. reflexivity.
Defined.

(** C7 at the last seq.  A command in flight with seq [2^64 - 1], the log at
    seq 2: [kepaxos_run_command] creates its command with seq 3, not above
    the seq of the command it replaces, since [2^64 - 1 + 1] wraps to 0.  A
    log at seq [2^64 - 1]: the command gets seq 0, and the call returns 0
    although the command expired unanswered and nothing was committed. *)
Lemma kepaxos_run_command_seq_wraps :
  let over := kepaxos_run_command replica0_with_last_placeholder 1 0 test_key test_value
                id id in
  let last := kepaxos_run_command replica0_at_last_seq 1 0 test_key test_value
                id id in
  let expired := kepaxos_run_command replica0_at_last_seq 1 0 test_key test_value
                   id (fun ke => kepaxos_expire_commands ke 3) in
  kepaxos_seq replica0_with_last_placeholder test_key = 2
  /\ cmd_seq (in_flight replica0_with_last_placeholder) = 2 ^ 64 - 1
  /\ (cmd_seq (in_flight replica0_with_last_placeholder) >=? 2 + 1) = true
  /\ cmd_addr (in_flight (snd over))
     = ke_next_addr replica0_with_last_placeholder
  /\ cmd_seq (in_flight (snd over)) = 3
  /\ cmd_seq (in_flight (snd over))
     <> cmd_seq (in_flight replica0_with_last_placeholder) + 1
  /\ kepaxos_seq replica0_at_last_seq test_key = 2 ^ 64 - 1
  /\ ke_commands replica0_at_last_seq !! test_key = None
  /\ cmd_addr (in_flight (snd last)) = ke_next_addr replica0_at_last_seq
  /\ cmd_seq (in_flight (snd last)) = 0
  /\ cmd_seq (in_flight (snd last)) <> kepaxos_seq replica0_at_last_seq test_key + 1
  /\ fst expired = 0
  /\ ke_commands (snd expired) !! test_key = None
  /\ commit_count (ke_events (snd expired)) = 0
  /\ kepaxos_seq (snd expired) test_key = 2 ^ 64 - 1.
Proof. vm_compute. repeat split; discriminate. Qed.

Lemma preaccept_response_step_witness :
  let ke := after_preaccept_votes 2 in
  let msg := response (node 4) KEPAXOS_MSG_TYPE_PRE_ACCEPT_RESPONSE 256 3 0 in
  let cmd := in_flight (after_preaccept_votes 2) in
  let cmd' := preaccept_vote cmd msg in
  let res := kepaxos_handle_preaccept_response ke msg in
  cmd_max_seq cmd' = Z.max (cmd_max_seq cmd) (msg_seq msg)
  /\ cmd_votes cmd'
     = take (Z.to_nat (cmd_num_votes cmd)) (cmd_votes cmd)
       ++ [{| vote_peer := msg_peer msg; vote_ballot := msg_ballot msg;
              vote_seq := msg_seq msg |}]
  /\ (cmd_num_votes cmd' < Z.quot (ke_num_peers ke) 2 ->
      res = (0, store_cmd ke (msg_key msg) cmd'))
  /\ (Z.quot (ke_num_peers ke) 2 <= cmd_num_votes cmd' ->
      commit_count (ke_events (snd res))
      = commit_count (ke_events ke) + (if fast_path cmd' then 1 else 0)
      /\ (fast_path cmd' = true -> ke_commands (snd res) !! msg_key msg = None)).
Proof.
  apply (preaccept_response_step (after_preaccept_votes 2)
           (response (node 4) KEPAXOS_MSG_TYPE_PRE_ACCEPT_RESPONSE 256 3 0)
           (in_flight (after_preaccept_votes 2))).
  - vm_compute. reflexivity.
  - vm_compute. reflexivity.
  - vm_compute. discriminate.
Defined.

(** ** The expirer *)

Section ExpirerFacts.
Context {L : Type} `{!kepaxos_log_ops L}.

Lemma expire_step_effect (now : Z) (ke : kepaxos_t L) (kc : bytes * kepaxos_cmd_t) :
  let ke' := expire_step now ke kc in
  ke_log ke' = ke_log ke /\ ke_ballot ke' = ke_ballot ke
  /\ commit_count (ke_events ke') = commit_count (ke_events ke)
  /\ ke_commands ke'
     = (if expired now (snd kc) then delete (fst kc) (ke_commands ke) else ke_commands ke)
  /\ (forall e, In e (ke_events ke) -> In e (ke_events ke'))
  /\ (expired now (snd kc) = true -> In (EvBroadcast (cmd_addr (snd kc))) (ke_events ke')).
Proof.
  unfold expire_step, kepaxos_expire_command. cbv zeta.
  destruct (expired now (snd kc)); cbn [fst snd Z.eqb Pos.eqb].
  - destruct (_ && _); cbn; rewrite ?commit_count_cons; cbn;
      repeat split; auto.
  - repeat split; auto. discriminate.
Qed.

Lemma expire_fold_effect (now : Z) (l : list (bytes * kepaxos_cmd_t)) (ke : kepaxos_t L) :
  let ke' := foldl (expire_step now) ke l in
  ke_log ke' = ke_log ke /\ ke_ballot ke' = ke_ballot ke
  /\ commit_count (ke_events ke') = commit_count (ke_events ke)
  /\ (forall e, In e (ke_events ke) -> In e (ke_events ke'))
  /\ (forall k, ke_commands ke !! k = None -> ke_commands ke' !! k = None)
  /\ (forall k, (forall c, (k, c) ∈ l -> expired now c = false) ->
                ke_commands ke' !! k = ke_commands ke !! k)
  /\ (forall k c, (k, c) ∈ l -> expired now c = true ->
                  ke_commands ke' !! k = None
                  /\ In (EvBroadcast (cmd_addr c)) (ke_events ke')).
Proof.
  revert ke. induction l as [| kc l IH]; intros ke; cbn [foldl].
  - do 6 (split; [auto |]). intros k c Hin. now apply elem_of_nil in Hin.
  - destruct kc as [k0 c0].
    destruct (expire_step_effect now ke (k0, c0)) as (El & Eb & Ec & Ecmd & Eev & Ebr).
    destruct (IH (expire_step now ke (k0, c0))) as (Il & Ib & Ic & Iev & Inone & Ikeep & Igone).
    cbv zeta in *.
    split; [congruence |]. split; [congruence |]. split; [congruence |].
    split; [auto |].
    cbn [fst snd] in *.
    assert (Hnone : forall k, ke_commands ke !! k = None ->
                              ke_commands (expire_step now ke (k0, c0)) !! k = None).
    { intros k Hk. rewrite Ecmd. destruct (expired now c0); [| exact Hk].
      rewrite lookup_delete. case_decide; [reflexivity | exact Hk]. }
    split; [auto |]. split.
    + intros k Hk. rewrite Ikeep.
      * rewrite Ecmd. destruct (expired now c0) eqn:Hx; [| reflexivity].
        rewrite lookup_delete. case_decide as Hkk; [| reflexivity].
        subst k0. assert (Hf : expired now c0 = false)
          by (apply Hk; apply list_elem_of_here).
        congruence.
      * intros c Hc. apply Hk. now apply list_elem_of_further.
    + intros k c Hin Hx. apply elem_of_cons in Hin as [[= -> ->] | Hin].
      * rewrite Hx in Ecmd. split.
        -- apply Inone. rewrite Ecmd. apply lookup_delete_eq.
        -- apply Iev. now apply Ebr.
      * now apply Igone.
Qed.


(** One round of the expirer at time [now] removes exactly the commands
    that have a timeout and are past it, wakes the waiters of each command
    it removes, and neither writes the log, nor moves the ballot, nor invokes
    the commit callback. *)
Theorem kepaxos_expire_commands_effect (ke : kepaxos_t L) (now : Z) :
  let ke' := kepaxos_expire_commands ke now in
  ke_log ke' = ke_log ke /\ ke_ballot ke' = ke_ballot ke
  /\ commit_count (ke_events ke') = commit_count (ke_events ke)
  /\ (forall k, ke_commands ke' !! k
                = match ke_commands ke !! k with
                  | Some c => if expired now c then None else Some c
                  | None => None
                  end)
  /\ (forall k c, ke_commands ke !! k = Some c -> expired now c = true ->
                  In (EvBroadcast (cmd_addr c)) (ke_events ke')).
Proof.
  unfold kepaxos_expire_commands.
  destruct (expire_fold_effect now (map_to_list (ke_commands ke)) ke)
    as (El & Eb & Ec & _ & Inone & Ikeep & Igone).
  cbv zeta in *. do 3 (split; [assumption |]). split.
  - intros k. destruct (ke_commands ke !! k) as [c |] eqn:Hk; [| now apply Inone].
    destruct (expired now c) eqn:Hx.
    + apply (Igone k c); [now apply elem_of_map_to_list | exact Hx].
    + rewrite Ikeep; [exact Hk |].
      intros c' Hc'. apply elem_of_map_to_list in Hc'. congruence.
  - intros k c Hk Hx. apply (Igone k c); [now apply elem_of_map_to_list | exact Hx].
Qed.



End ExpirerFacts.

(** ** Recipients, ballots and the wire format *)

Lemma omap_ext_in {A B : Type} (f g : A -> option B) (l : list A) :
  (forall x, x ∈ l -> f x = g x) -> omap f l = omap g l.
Proof.
  induction l as [| x l IH]; intros H; [reflexivity |].
  cbn. rewrite (H x) by apply list_elem_of_here.
  rewrite IH; [reflexivity |]. intros y Hy. apply H. now apply list_elem_of_further.
Qed.

Lemma omap_seq_S {A : Type} (f : nat -> option A) (s n : nat) :
  omap f (seq (S s) n) = omap (fun i => f (S i)) (seq s n).
Proof.
  revert s. induction n as [| n IH]; intros s; [reflexivity |].
  cbn. now rewrite IH.
Qed.

Lemma omap_lookup_seq {A : Type} (l : list A) :
  omap (fun i => l !! i) (seq 0 (length l)) = l.
Proof.
  induction l as [| x l IH]; [reflexivity |].
  cbn [length seq]. cbn. rewrite omap_seq_S. f_equal. exact IH.
Qed.

Lemma omap_skip_index {A : Type} (l : list A) (k : nat) :
  omap (fun i => if Z.of_nat i =? Z.of_nat k then None else l !! i)
    (seq 0 (length l))
  = take k l ++ drop (S k) l.
Proof.
  revert k. induction l as [| x l IH]; intros k; [now destruct k |].
  cbn [length seq]. destruct k as [| k].
  - cbn. rewrite omap_seq_S.
    transitivity (omap (fun i => l !! i) (seq 0 (length l)));
      [| apply omap_lookup_seq].
    apply omap_ext_in. intros i _.
    destruct (Z.eqb_spec (Z.of_nat (S i)) (Z.of_nat 0)); [lia | reflexivity].
  - cbn. rewrite omap_seq_S. rewrite <- IH. f_equal. apply omap_ext_in. intros i _.
    destruct (Z.eqb_spec (Z.of_nat (S i)) (Z.of_nat (S k))),
             (Z.eqb_spec (Z.of_nat i) (Z.of_nat k)); try lia; reflexivity.
Qed.

Lemma low_byte_of_ballot (x idx : Z) :
  0 <= idx < 256 -> Z.land (Z.lor (uint64_t (Z.shiftl x 8)) idx) 255 = idx.
Proof.
  intros Hi. apply Z.bits_inj'. intros n Hn.
  rewrite Z.land_spec, Z.lor_spec, testbit_255 by lia.
  destruct (Z.ltb_spec n 8).
  - rewrite andb_true_r. unfold uint64_t.
    rewrite Z.mod_pow2_bits_low by lia. rewrite Z.shiftl_spec_low by lia. reflexivity.
  - rewrite andb_false_r. symmetry. apply (testbit_high idx 8); lia.
Qed.

Lemma value_of_ballot (x idx : Z) :
  0 <= x < 2 ^ 56 -> 0 <= idx < 256 ->
  BALLOT_VALUE (Z.lor (uint64_t (Z.shiftl x 8)) idx) = x.
Proof.
  intros Hx Hi. unfold BALLOT_VALUE, uint64_t.
  rewrite Z.shiftl_mul_pow2 by lia. rewrite Z.mod_small by lia.
  rewrite Z.shiftr_lor. rewrite <- Z.shiftl_mul_pow2 by lia.
  rewrite Z.shiftr_shiftl_l by lia. replace (8 - 8) with 0 by lia.
  rewrite Z.shiftl_0_r. rewrite (Z.shiftr_div_pow2 idx) by lia.
  rewrite (Z.div_small idx) by lia. apply Z.lor_0_r.
Qed.

Section ProtocolFacts.
Context {L : Type} `{!kepaxos_log_ops L}.

(** The recipients of every message a replica sends are the peers other
    than itself, in the order of the peer list: one fewer than there are
    peers, the count handed to the [send] callback, and never the replica's
    own name. *)
Theorem receivers_others (ke : kepaxos_t L) :
  ke_num_peers ke = Z.of_nat (length (ke_peers ke)) ->
  0 <= ke_my_index ke < ke_num_peers ke ->
  receivers ke = take (Z.to_nat (ke_my_index ke)) (ke_peers ke)
                 ++ drop (S (Z.to_nat (ke_my_index ke))) (ke_peers ke)
  /\ Z.of_nat (length (receivers ke)) = ke_num_peers ke - 1
  /\ (NoDup (ke_peers ke) -> my_name ke ∉ receivers ke)
  /\ (forall p, p ∈ ke_peers ke -> p <> my_name ke -> p ∈ receivers ke).
Proof.
  intros Hn Hi.
  assert (E : receivers ke = take (Z.to_nat (ke_my_index ke)) (ke_peers ke)
                ++ drop (S (Z.to_nat (ke_my_index ke))) (ke_peers ke)).
  { unfold receivers. rewrite Hn, Nat2Z.id.
    rewrite <- omap_skip_index. apply omap_ext_in. intros i _.
    rewrite Z2Nat.id by lia. reflexivity. }
  set (k := Z.to_nat (ke_my_index ke)) in *.
  assert (Hk : (k < length (ke_peers ke))%nat) by lia.
  destruct (lookup_lt_is_Some_2 (ke_peers ke) k Hk) as [me Hme].
  assert (Hname : my_name ke = me).
  { unfold my_name, peer_at. destruct (Z.ltb_spec (ke_my_index ke) 0); [lia |].
    fold k. now rewrite Hme. }
  pose proof (take_drop_middle (ke_peers ke) k me Hme) as Hmid.
  split; [exact E |]. split; [| split].
  - rewrite E, length_app, length_take, length_drop. lia.
  - intros Hnd. rewrite <- Hmid in Hnd. apply NoDup_app in Hnd as (_ & Hdis & Hnd2).
    apply NoDup_cons in Hnd2 as [Hnot _].
    rewrite E, Hname. intros Hin. apply elem_of_app in Hin as [Hin | Hin].
    + apply (Hdis me Hin). apply list_elem_of_here.
    + contradiction.
  - intros p Hp Hne. rewrite E. rewrite <- Hmid in Hp.
    apply elem_of_app in Hp as [Hp | Hp]; [apply elem_of_app; now left |].
    apply elem_of_cons in Hp as [-> | Hp]; [congruence |].
    apply elem_of_app. now right.
Qed.

Lemma update_ballot_frame (ke : kepaxos_t L) (b : Z) :
  ke_log (fst (update_ballot ke b)) = ke_log ke
  /\ ke_commands (fst (update_ballot ke b)) = ke_commands ke
  /\ ke_events (fst (update_ballot ke b)) = ke_events ke
  /\ ke_peers (fst (update_ballot ke b)) = ke_peers ke
  /\ ke_num_peers (fst (update_ballot ke b)) = ke_num_peers ke
  /\ ke_my_index (fst (update_ballot ke b)) = ke_my_index ke
  /\ ke_callbacks (fst (update_ballot ke b)) = ke_callbacks ke
  /\ ke_timeout (fst (update_ballot ke b)) = ke_timeout ke
  /\ ke_next_addr (fst (update_ballot ke b)) = ke_next_addr ke.
Proof.
  unfold update_ballot, kepaxos_reset_ballot. cbn [fst].
  destruct (BALLOT_VALUE b =? 0); [repeat split |].
  destruct (uint64_t (BALLOT_VALUE b + 1) =? 0); repeat split.
Qed.

Lemma update_ballot_low_byte (ke : kepaxos_t L) (b : Z) :
  0 <= ke_my_index ke < 256 ->
  BALLOT2NODEINDEX (ke_ballot ke) = ke_my_index ke ->
  BALLOT2NODEINDEX (snd (update_ballot ke b)) = ke_my_index ke.
Proof.
  intros Hi Hinv.
  unfold update_ballot, kepaxos_reset_ballot. cbn [snd].
  destruct (BALLOT_VALUE b =? 0); [exact Hinv |].
  destruct (uint64_t (BALLOT_VALUE b + 1) =? 0); cbn [set_ke_ballot ke_ballot].
  - unfold BALLOT2NODEINDEX. change 255 with (Z.ones 8).
    rewrite Z.land_ones by lia. apply Z.mod_small. lia.
  - unfold ATOMIC_SET_IF_lt. destruct (_ <? _); [| exact Hinv].
    apply low_byte_of_ballot. exact Hi.
Qed.

(** The low byte of a replica's ballot is the replica's index, and
    [update_ballot] keeps it so whatever ballot a message carries. *)
Theorem update_ballot_names_replica (ke : kepaxos_t L) (b : Z) :
  0 <= ke_my_index ke < 256 ->
  BALLOT2NODEINDEX (ke_ballot ke) = ke_my_index ke ->
  BALLOT2NODEINDEX (snd (update_ballot ke b)) = ke_my_index ke
  /\ IS_MY_BALLOT (fst (update_ballot ke b)) (snd (update_ballot ke b)) = true.
Proof.
  intros Hi Hinv.
  assert (H : BALLOT2NODEINDEX (snd (update_ballot ke b)) = ke_my_index ke).
  { unfold update_ballot, kepaxos_reset_ballot. cbn [snd].
    destruct (BALLOT_VALUE b =? 0); [exact Hinv |].
    destruct (uint64_t (BALLOT_VALUE b + 1) =? 0); cbn [set_ke_ballot ke_ballot].
    - unfold BALLOT2NODEINDEX. change 255 with (Z.ones 8).
      rewrite Z.land_ones by lia. apply Z.mod_small. lia.
    - unfold ATOMIC_SET_IF_lt. destruct (_ <? _); [| exact Hinv].
      apply low_byte_of_ballot. exact Hi. }
  split; [exact H |].
  unfold IS_MY_BALLOT. destruct (update_ballot_frame ke b) as (_ & _ & _ & _ & _ & -> & _).
  unfold BALLOT2NODEINDEX in H. rewrite H. apply Z.eqb_refl.
Qed.

(** The ballot a new engine starts with: its low byte is the replica's
    index and its value part is [((v + 1) >> 8) + 1], where [v] is the value
    part of the greatest ballot in the log (1 over an empty log).  The
    command table is empty and the timeout is the one given, 30 when that is
    not positive. *)
Theorem kepaxos_context_create_ballot (log : L) (peers : list bytes)
    (num_peers my_index timeout : Z) (callbacks : kepaxos_callbacks_t) :
  0 <= kepaxos_max_ballot log < 2 ^ 64 ->
  let ke := kepaxos_context_create log peers num_peers my_index timeout callbacks in
  BALLOT2NODEINDEX (ke_ballot ke) = uint8_t my_index
  /\ BALLOT_VALUE (ke_ballot ke)
     = Z.shiftr (BALLOT_VALUE (kepaxos_max_ballot log) + 1) 8 + 1
  /\ ke_my_index ke = uint8_t my_index
  /\ ke_commands ke = ∅ /\ ke_log ke = log
  /\ ke_timeout ke = (if timeout >? 0 then timeout else 30).
Proof.
  intros Hmax. cbv zeta.
  pose proof (BALLOT_VALUE_range _ Hmax) as Hv.
  assert (Hidx : 0 <= uint8_t my_index < 256)
    by (unfold uint8_t; apply Z.mod_pos_bound; lia).
  unfold kepaxos_context_create.
  set (ke0 := {| ke_log := log; ke_commands := ∅; ke_peers := peers;
                 ke_num_peers := num_peers; ke_my_index := uint8_t my_index;
                 ke_callbacks := callbacks;
                 ke_ballot := Z.lor (Z.shiftl 1 8) (uint8_t my_index);
                 ke_timeout := if timeout >? 0 then timeout else 30;
                 ke_next_addr := 1; ke_events := [] |}).
  set (arg := uint64_t (BALLOT_VALUE (kepaxos_max_ballot log) + 1)).
  assert (Harg : arg = BALLOT_VALUE (kepaxos_max_ballot log) + 1)
    by (subst arg; unfold uint64_t; apply Z.mod_small; lia).
  assert (H0 : ke_ballot ke0 = Z.lor (uint64_t (Z.shiftl 1 8)) (uint8_t my_index))
    by reflexivity.
  destruct (update_ballot_frame ke0 arg) as (El & Ec & _ & _ & _ & Ei & _ & Et & _).
  assert (Hinv : BALLOT2NODEINDEX (ke_ballot ke0) = ke_my_index ke0).
  { rewrite H0. apply low_byte_of_ballot. exact Hidx. }
  pose proof (update_ballot_low_byte ke0 arg Hidx Hinv) as Hlow.
  assert (Eb : ke_ballot (fst (update_ballot ke0 arg)) = snd (update_ballot ke0 arg))
    by reflexivity.
  rewrite Eb. split; [exact Hlow |].
  split; [| rewrite Ei, Ec, El, Et; subst ke0;
            cbn [ke_my_index ke_commands ke_log ke_timeout];
            split; [reflexivity |]; split; [reflexivity |];
            split; reflexivity ].
  unfold update_ballot. cbn [snd].
  assert (Ea : BALLOT_VALUE arg = Z.shiftr (BALLOT_VALUE (kepaxos_max_ballot log) + 1) 8)
    by (rewrite Harg; reflexivity).
  rewrite <- Ea.
  assert (Hr : 0 <= BALLOT_VALUE arg < 2 ^ 49).
  { rewrite Ea, Z.shiftr_div_pow2 by lia. split.
    - apply Z.div_pos; lia.
    - apply Z.div_lt_upper_bound; lia. }
  destruct (Z.eqb_spec (BALLOT_VALUE arg) 0) as [E0 | E0].
  - rewrite E0. exact (value_of_ballot 1 (uint8_t my_index) ltac:(lia) Hidx).
  - assert (Hup : uint64_t (BALLOT_VALUE arg + 1) = BALLOT_VALUE arg + 1)
      by (unfold uint64_t; apply Z.mod_small; lia).
    rewrite Hup. destruct (Z.eqb_spec (BALLOT_VALUE arg + 1) 0); [lia |].
    cbn [set_ke_ballot ke_ballot]. unfold ATOMIC_SET_IF_lt.
    pose proof (value_of_ballot (BALLOT_VALUE arg + 1) (uint8_t my_index)
                  ltac:(lia) Hidx) as Hnew.
    destruct (Z.ltb_spec (ke_ballot ke0)
                (Z.lor (uint64_t (Z.shiftl (BALLOT_VALUE arg + 1) 8)) (ke_my_index ke0)))
      as [_ | Hge]; [exact Hnew |].
    exfalso.
    pose proof (value_of_ballot 1 (uint8_t my_index) ltac:(lia) Hidx) as Hold.
    rewrite <- H0 in Hold.
    assert (Hmono : BALLOT_VALUE (Z.lor (uint64_t (Z.shiftl (BALLOT_VALUE arg + 1) 8))
                                    (ke_my_index ke0))
                    <= BALLOT_VALUE (ke_ballot ke0)).
    { unfold BALLOT_VALUE at 1 3. rewrite !Z.shiftr_div_pow2 by lia.
      apply Z.div_le_mono; lia. }
    change (ke_my_index ke0) with (uint8_t my_index) in Hmono.
    rewrite Hnew, Hold in Hmono. lia.
Qed.

(** The builder fills exactly the buffer it allocates: the length it
    returns, [29 + klen + dlen + strlen(sender) + 1], is the number of bytes
    written. *)
Theorem kepaxos_build_message_length (sender : bytes) (mtype : kepaxos_msg_type_t)
    (ctype ballot : Z) (key : bytes) (klen : Z) (data : bytes) (dlen : Z)
    (seq committed : Z) :
  klen = Z.of_nat (length key) -> dlen = Z.of_nat (length data) ->
  Z.of_nat (length (fst (kepaxos_build_message sender mtype ctype ballot key klen
                           data dlen seq committed)))
  = snd (kepaxos_build_message sender mtype ctype ballot key klen data dlen seq committed)
  /\ snd (kepaxos_build_message sender mtype ctype ballot key klen data dlen seq committed)
     = KEPAXOS_MSGLEN_MIN + klen + dlen + Z.of_nat (length sender) + 1.
Proof.
  intros Hk Hd. unfold kepaxos_build_message. cbv zeta. cbn [fst snd].
  split; [| lia].
  assert (Hkey : length (if klen =? 0 then [] else slice key 0 klen) = length key).
  { destruct (Z.eqb_spec klen 0) as [E | E].
    - destruct key; [reflexivity | simpl in Hk; lia].
    - unfold slice. rewrite Hk, Nat2Z.id. cbn [Z.to_nat skipn].
      now rewrite firstn_all. }
  assert (Hdata : length (if dlen =? 0 then [] else slice data 0 dlen) = length data).
  { destruct (Z.eqb_spec dlen 0) as [E | E].
    - destruct data; [reflexivity | simpl in Hd; lia].
    - unfold slice. rewrite Hd, Nat2Z.id. cbn [Z.to_nat skipn].
      now rewrite firstn_all. }
  rewrite !length_app, Hkey, Hdata, !length_be32, length_be16.
  unfold KEPAXOS_MSGLEN_MIN. cbn [length]. lia.
Qed.

End ProtocolFacts.

(** ** What the parser accepts *)

Lemma byte_at_nonneg (buf : bytes) (off : Z) :
  Forall (fun b => 0 <= b < 256) buf -> 0 <= byte_at buf off < 256.
Proof.
  intros H. unfold byte_at. rewrite Forall_forall in H.
  destruct (nth_in_or_default (Z.to_nat off) buf 0) as [Hin | ->]; [| lia].
  apply H. now apply list_elem_of_In.
Qed.

Lemma rd16_nonneg (buf : bytes) (off : Z) :
  Forall (fun b => 0 <= b < 256) buf -> 0 <= rd16 buf off.
Proof.
  intros H. unfold rd16.
  pose proof (byte_at_nonneg buf off H). pose proof (byte_at_nonneg buf (off + 1) H).
  apply Z.lor_nonneg. split; [apply Z.shiftl_nonneg |]; lia.
Qed.

Lemma rd32_nonneg (buf : bytes) (off : Z) :
  Forall (fun b => 0 <= b < 256) buf -> 0 <= rd32 buf off.
Proof.
  intros H. unfold rd32.
  pose proof (byte_at_nonneg buf off H). pose proof (byte_at_nonneg buf (off + 1) H).
  pose proof (byte_at_nonneg buf (off + 2) H). pose proof (byte_at_nonneg buf (off + 3) H).
  repeat (apply Z.lor_nonneg; split); try apply Z.shiftl_nonneg; lia.
Qed.

Lemma length_slice (buf : bytes) (off n : Z) :
  0 <= off -> 0 <= n -> off + n <= Z.of_nat (length buf) ->
  Z.of_nat (length (slice buf off n)) = n.
Proof.
  intros Ho Hn Hle. unfold slice. rewrite length_firstn, length_skipn. lia.
Qed.

(** A buffer of [msglen] bytes that [kepaxos_parse_message] accepts holds
    everything the result points to: the fixed fields, the sender field, the
    key and the data add up to at most [msglen], the key and the data
    returned are the [klen] and [dlen] bytes at their offsets in the buffer,
    and a buffer shorter than the 29 bytes of the fixed fields is never
    accepted. *)
Theorem kepaxos_parse_message_bounds (msg : bytes) (msglen : Z) (m : kepaxos_msg_t) :
  Forall (fun b => 0 <= b < 256) msg ->
  Z.of_nat (length msg) = msglen ->
  kepaxos_parse_message msg msglen = Some m ->
  let key_off := 2 + rd16 msg 0 + 16 + 3 + 4 in
  KEPAXOS_MSGLEN_MIN + rd16 msg 0 + msg_klen m + msg_dlen m <= msglen
  /\ 0 <= msg_klen m /\ 0 <= msg_dlen m
  /\ msg_key m = slice msg key_off (msg_klen m)
  /\ msg_data m = slice msg (key_off + msg_klen m + 4) (msg_dlen m)
  /\ Z.of_nat (length (msg_key m)) = msg_klen m
  /\ Z.of_nat (length (msg_data m)) = msg_dlen m.
Proof.
  intros Hb Hlen Hp. cbv zeta. unfold kepaxos_parse_message in Hp. cbv zeta in Hp.
  pose proof (rd16_nonneg msg 0 Hb) as Hs.
  set (sl := rd16 msg 0) in *.
  destruct (Z.ltb_spec msglen KEPAXOS_MSGLEN_MIN) as [| H1]; [discriminate |].
  destruct (Z.ltb_spec msglen (KEPAXOS_MSGLEN_MIN + sl)) as [| H2]; [discriminate |].
  set (kl := rd32 msg (2 + sl + 4 + 4 + 4 + 4 + 3)) in Hp.
  assert (Hkl : 0 <= kl) by (apply rd32_nonneg; exact Hb).
  destruct (Z.ltb_spec msglen (KEPAXOS_MSGLEN_MIN + sl + kl)) as [| H3]; [discriminate |].
  set (p := if kl =? 0 then 2 + sl + 4 + 4 + 4 + 4 + 3 + 4
            else 2 + sl + 4 + 4 + 4 + 4 + 3 + 4 + kl) in Hp.
  assert (Ep : p = 2 + sl + 16 + 3 + 4 + kl).
  { subst p. destruct (Z.eqb_spec kl 0); lia. }
  set (dl := rd32 msg p) in Hp.
  assert (Hdl : 0 <= dl) by (apply rd32_nonneg; exact Hb).
  destruct (Z.ltb_spec msglen (KEPAXOS_MSGLEN_MIN + sl + kl + dl)) as [| H4]; [discriminate |].
  injection Hp as <-. cbn [msg_klen msg_dlen msg_key msg_data].
  clearbody dl p kl.
  unfold KEPAXOS_MSGLEN_MIN in *.
  assert (Ekey : (if kl =? 0 then [] else slice msg (2 + sl + 4 + 4 + 4 + 4 + 3 + 4) kl)
                 = slice msg (2 + sl + 16 + 3 + 4) kl).
  { destruct (Z.eqb_spec kl 0) as [-> | _].
    - unfold slice. reflexivity.
    - f_equal. lia. }
  assert (Edata : (if dl =? 0 then [] else slice msg (p + 4) dl)
                  = slice msg (2 + sl + 16 + 3 + 4 + kl + 4) dl).
  { destruct (Z.eqb_spec dl 0) as [-> | _].
    - unfold slice. reflexivity.
    - f_equal. lia. }
  rewrite Ekey, Edata.
  split; [lia |]. split; [exact Hkl |]. split; [exact Hdl |].
  split; [reflexivity |]. split; [reflexivity |].
  split; apply length_slice; lia.
Qed.

Lemma kepaxos_parse_message_min (msg : bytes) (msglen : Z) (m : kepaxos_msg_t) :
  kepaxos_parse_message msg msglen = Some m -> KEPAXOS_MSGLEN_MIN <= msglen.
Proof.
  unfold kepaxos_parse_message. cbv zeta.
  destruct (Z.ltb_spec msglen KEPAXOS_MSGLEN_MIN); [discriminate | intros _; lia].
Qed.

Section HandlerFacts.
Context {L : Type} `{!kepaxos_log_ops L}.

(** What does not reach a handler: [kepaxos_received_response] returns -1
    and leaves the engine as it was on a buffer that does not parse; on a
    message that is no response it returns -1, and on a response for a key
    with no command in flight it returns 0, having changed nothing but the
    ballot. *)
Theorem kepaxos_received_response_ignored (ke : kepaxos_t L) (res : bytes) (reslen : Z) :
  let r := kepaxos_received_response ke res reslen in
  (kepaxos_parse_message res reslen = None -> r = (-1, ke))
  /\ (forall msg, kepaxos_parse_message res reslen = Some msg ->
        (msg_mtype msg <> mtype_code KEPAXOS_MSG_TYPE_PRE_ACCEPT_RESPONSE ->
         msg_mtype msg <> mtype_code KEPAXOS_MSG_TYPE_ACCEPT_RESPONSE ->
         r = (-1, fst (update_ballot ke (msg_ballot msg))))
        /\ (ke_commands ke !! msg_key msg = None ->
            msg_mtype msg = mtype_code KEPAXOS_MSG_TYPE_PRE_ACCEPT_RESPONSE
            \/ msg_mtype msg = mtype_code KEPAXOS_MSG_TYPE_ACCEPT_RESPONSE ->
            r = (0, fst (update_ballot ke (msg_ballot msg)))))
  /\ (forall b, ke_log (fst (update_ballot ke b)) = ke_log ke
                /\ ke_commands (fst (update_ballot ke b)) = ke_commands ke
                /\ ke_events (fst (update_ballot ke b)) = ke_events ke).
Proof.
  cbv zeta. unfold kepaxos_received_response. split; [| split].
  - intros Hp. rewrite Hp. destruct (reslen <? 4 * 4); reflexivity.
  - intros msg Hp. rewrite Hp.
    pose proof (kepaxos_parse_message_min res reslen msg Hp) as Hmin.
    unfold KEPAXOS_MSGLEN_MIN in Hmin.
    destruct (Z.ltb_spec reslen (4 * 4)) as [| _]; [lia |].
    destruct (update_ballot_frame ke (msg_ballot msg)) as (_ & Ec & _).
    split.
    + intros H2 H4.
      destruct (Z.eqb_spec (msg_mtype msg)
                  (mtype_code KEPAXOS_MSG_TYPE_PRE_ACCEPT_RESPONSE)); [contradiction |].
      destruct (Z.eqb_spec (msg_mtype msg)
                  (mtype_code KEPAXOS_MSG_TYPE_ACCEPT_RESPONSE)); [contradiction |].
      reflexivity.
    + intros Hnone Hty.
      unfold kepaxos_handle_preaccept_response, kepaxos_handle_accept_response.
      rewrite Ec, Hnone.
      destruct (Z.eqb_spec (msg_mtype msg)
                  (mtype_code KEPAXOS_MSG_TYPE_PRE_ACCEPT_RESPONSE)); [reflexivity |].
      destruct (Z.eqb_spec (msg_mtype msg)
                  (mtype_code KEPAXOS_MSG_TYPE_ACCEPT_RESPONSE)); [reflexivity |].
      destruct Hty; contradiction.
  - intros b. destruct (update_ballot_frame ke b) as (H1 & H2 & H3 & _). auto.
Qed.

End HandlerFacts.

(** ** The acceptor's handlers *)

Section AcceptorFacts.
Context {L : Type} `{!kepaxos_log_ops L}.

(** [kepaxos_handle_preaccept] never writes the log, moves the ballot or
    invokes the commit callback, and touches no command but the one of the
    message's key.  It refuses (-1, nothing changed, no response) exactly a
    PreAccept whose seq and ballot are those in the log for the key, or
    whose ballot is below that of the command in flight.  Otherwise it
    returns 0, the command stored for the key carries the message's ballot,
    and the response reports the greatest of the message's seq, the log's
    seq and the seq of the command in flight, marked committed when that is
    the log's seq. *)
Theorem kepaxos_handle_preaccept_effect (ke : kepaxos_t L) (now : Z)
    (msg : kepaxos_msg_t) :
  let local := kepaxos_last_seq_for_key (ke_log ke) (msg_key msg) in
  let inflight := ke_commands ke !! msg_key msg in
  let interfering :=
    Z.max (fst local) (match inflight with Some c => cmd_seq c | None => 0 end) in
  let max_seq := Z.max (msg_seq msg) interfering in
  let refused :=
    (fst local = msg_seq msg /\ snd local = msg_ballot msg)
    \/ (exists c, inflight = Some c /\ msg_ballot msg < cmd_ballot c) in
  let res := kepaxos_handle_preaccept ke now msg in
  let ke' := snd (fst res) in
  ke_log ke' = ke_log ke /\ ke_ballot ke' = ke_ballot ke
  /\ commit_count (ke_events ke') = commit_count (ke_events ke)
  /\ (forall k, k <> msg_key msg -> ke_commands ke' !! k = ke_commands ke !! k)
  /\ (refused -> res = (-1, ke, None))
  /\ (~ refused ->
      fst (fst res) = 0
      /\ snd res
         = Some (kepaxos_build_message (my_name ke) KEPAXOS_MSG_TYPE_PRE_ACCEPT_RESPONSE
                   0 (msg_ballot msg) (msg_key msg) (msg_klen msg) [] 0 max_seq
                   (if max_seq =? fst local then 1 else 0))
      /\ exists cmd', ke_commands ke' !! msg_key msg = Some cmd'
           /\ cmd_ballot cmd' = msg_ballot msg
           /\ (interfering <= msg_seq msg ->
               cmd_status cmd' = KEPAXOS_CMD_STATUS_PRE_ACCEPTED
               /\ cmd_seq cmd' = interfering)
           /\ (msg_seq msg < interfering ->
               forall c, inflight = Some c ->
               cmd_status cmd' = cmd_status c /\ cmd_seq cmd' = cmd_seq c)).
Proof.
  cbv zeta. unfold kepaxos_handle_preaccept.
  destruct (kepaxos_last_seq_for_key (ke_log ke) (msg_key msg)) as [local_seq local_ballot].
  cbn [fst snd].
  destruct (Z.eqb_spec local_seq (msg_seq msg)) as [Es | Es];
    destruct (Z.eqb_spec local_ballot (msg_ballot msg)) as [Eb | Eb]; cbn [andb].
  1:{ cbn [fst snd]. do 4 (split; [reflexivity |]). split; [reflexivity |].
      intros Hn. exfalso. apply Hn. left. now split. }
  all: destruct (ke_commands ke !! msg_key msg) as [cmd |] eqn:Hcmd.
  all: try (destruct (Z.ltb_spec (msg_ballot msg) (cmd_ballot cmd)) as [Hlt | Hge];
            [ cbn [fst snd]; do 4 (split; [reflexivity |]); split; [reflexivity |];
              intros Hn; exfalso; apply Hn; right; exists cmd; now split |]).
  all: rewrite ?MAX_spec.
  all: cbn [set_cmd_ballot cmd_ballot cmd_seq cmd_status cmd_addr set_cmd_time
            set_cmd_seq calloc_cmd].
  all: match goal with
       | |- context [?a >=? ?b] => destruct (Z.geb_spec a b) as [Hsq | Hsq]
       end.
  all: try match goal with
       | |- context [bool_decide ?P && negb ?Q] => destruct (bool_decide P && negb Q)
       end.
  all: cbn [fst snd store_cmd set_ke_commands set_ke_next_addr emit ke_log ke_ballot
            ke_events ke_commands ke_peers ke_my_index].
  all: rewrite ?commit_count_cons; cbn [is_commit].
  all: split; [reflexivity |]; split; [reflexivity |]; split; [lia |].
  all: split; [intros k Hk; now rewrite lookup_insert_ne by congruence |].
  all: split;
    [ intros [[H1 H2] | (c & Hc & Hlt)];
      [ exfalso; lia | exfalso; try discriminate Hc; injection Hc as <-; lia ] |].
  all: intros _; split; [reflexivity |].
  all: split;
    [ cbn [cmd_ballot set_cmd_seq set_cmd_status set_cmd_ballot set_cmd_time calloc_cmd];
      rewrite ?Z.max_l by lia; reflexivity |].
  all: rewrite lookup_insert_eq; eexists; split; [reflexivity |].
  all: cbn [set_cmd_seq set_cmd_status set_cmd_ballot set_cmd_time cmd_ballot
            cmd_seq cmd_status calloc_cmd].
  all: split; [lia |].
  all: split;
    [ intros Hle;
      first [ exfalso; lia | split; [reflexivity | first [reflexivity | lia]] ] |].
  all: intros Hlt c Hc;
    first [ discriminate Hc | exfalso; lia
          | injection Hc as <-; split; reflexivity ].
Qed.

End AcceptorFacts.

Section AcceptFacts.
Context {L : Type} `{!kepaxos_log_ops L}.

(** [kepaxos_handle_accept] always returns 0 and never writes the log, moves
    the ballot or invokes the commit callback.  An Accept whose ballot is
    below that of the command in flight changes nothing and gets no
    response.  Otherwise: when the message's seq is not below the command's
    (or there is no command), the command stored for the key takes the
    message's seq and ballot, becomes ACCEPTED and is stamped with the time,
    and the response carries the message's seq and ballot; when it is below,
    the command stays as it is and the response carries the command's seq
    and ballot.  The response is marked committed when the seq it carries is
    the log's. *)
Theorem kepaxos_handle_accept_effect (ke : kepaxos_t L) (now : Z)
    (msg : kepaxos_msg_t) :
  let local_seq := fst (kepaxos_last_seq_for_key (ke_log ke) (msg_key msg)) in
  let inflight := ke_commands ke !! msg_key msg in
  let res := kepaxos_handle_accept ke now msg in
  let ke' := snd (fst res) in
  let reply ballot seq :=
    Some (kepaxos_build_message (my_name ke) KEPAXOS_MSG_TYPE_ACCEPT_RESPONSE 0
            ballot (msg_key msg) (msg_klen msg) [] 0 seq
            (if seq =? local_seq then 1 else 0)) in
  fst (fst res) = 0
  /\ ke_log ke' = ke_log ke /\ ke_ballot ke' = ke_ballot ke
  /\ commit_count (ke_events ke') = commit_count (ke_events ke)
  /\ (forall k, k <> msg_key msg -> ke_commands ke' !! k = ke_commands ke !! k)
  /\ (forall c, inflight = Some c -> msg_ballot msg < cmd_ballot c ->
        ke' = ke /\ snd res = None)
  /\ (forall c, inflight = Some c -> cmd_ballot c <= msg_ballot msg ->
        msg_seq msg < cmd_seq c ->
        ke_commands ke' !! msg_key msg = Some c
        /\ snd res = reply (cmd_ballot c) (cmd_seq c))
  /\ ((forall c, inflight = Some c ->
         cmd_ballot c <= msg_ballot msg /\ cmd_seq c <= msg_seq msg) ->
      0 <= msg_seq msg ->
      snd res = reply (msg_ballot msg) (msg_seq msg)
      /\ exists cmd', ke_commands ke' !! msg_key msg = Some cmd'
           /\ cmd_status cmd' = KEPAXOS_CMD_STATUS_ACCEPTED
           /\ cmd_seq cmd' = msg_seq msg /\ cmd_ballot cmd' = msg_ballot msg
           /\ cmd_timestamp cmd' = now /\ cmd_timeout cmd' = ke_timeout ke).
Proof.
  cbv zeta. unfold kepaxos_handle_accept.
  destruct (kepaxos_last_seq_for_key (ke_log ke) (msg_key msg)) as [local_seq local_ballot].
  cbn [fst snd].
  destruct (ke_commands ke !! msg_key msg) as [cmd |] eqn:Hcmd.
  - destruct (Z.ltb_spec (msg_ballot msg) (cmd_ballot cmd)) as [Hlt | Hge].
    { cbn [fst snd]. do 5 (split; [reflexivity |]).
      split; [intros c _ _; split; reflexivity |].
      split; [intros c [= <-] Hle; lia |].
      intros Hall. destruct (Hall cmd eq_refl). lia. }
    destruct (Z.ltb_spec (msg_seq msg) (cmd_seq cmd)) as [Hsl | Hsg].
    + destruct (Z.geb_spec (msg_seq msg) (cmd_seq cmd)) as [| _]; [lia |].
      cbn [fst snd store_cmd set_ke_commands ke_log ke_ballot ke_events ke_commands].
      do 4 (split; [reflexivity |]).
      split; [intros k Hk; now rewrite lookup_insert_ne by congruence |].
      split; [intros c [= <-] Hlt; lia |].
      split.
      * intros c [= <-] _ _. rewrite lookup_insert_eq. split; [reflexivity |].
        reflexivity.
      * intros Hall. destruct (Hall cmd eq_refl). lia.
    + destruct (Z.geb_spec (msg_seq msg) (cmd_seq cmd)) as [_ |]; [| lia].
      cbn [fst snd store_cmd set_ke_commands ke_log ke_ballot ke_events ke_commands].
      do 4 (split; [reflexivity |]).
      split; [intros k Hk; now rewrite lookup_insert_ne by congruence |].
      split; [intros c [= <-] Hlt; lia |].
      split; [intros c [= <-] _ Hlt; lia |].
      intros _ _. rewrite lookup_insert_eq. split.
      * reflexivity.
      * eexists. split; [reflexivity |]. repeat split.
  - cbn [calloc_cmd cmd_seq].
    destruct (Z.geb_spec (msg_seq msg) 0) as [Hs | Hs];
      cbn [fst snd store_cmd set_ke_commands set_ke_next_addr ke_log ke_ballot
           ke_events ke_commands ke_timeout].
    + do 4 (split; [reflexivity |]).
      split; [intros k Hk; now rewrite lookup_insert_ne by congruence |].
      split; [intros c [=] |]. split; [intros c [=] |].
      intros _ _. rewrite lookup_insert_eq. split.
      * reflexivity.
      * eexists. split; [reflexivity |]. repeat split.
    + do 4 (split; [reflexivity |]).
      split; [intros k Hk; now rewrite lookup_insert_ne by congruence |].
      split; [intros c [=] |]. split; [intros c [=] |].
      intros _ Hpos. lia.
Qed.

(** [kepaxos_recovered] writes the log exactly when neither the seq nor
    the ballot is below what the log has for the key, and returns 0 then;
    otherwise it returns -1 and changes nothing.  It never lowers the seq or
    the ballot of the key, leaves the other keys alone, and touches neither
    the command table nor the ballot of the engine. *)
Theorem kepaxos_recovered_effect (ke : kepaxos_t L) (key : bytes) (ballot seq : Z) :
  let last := kepaxos_last_seq_for_key (ke_log ke) key in
  let res := kepaxos_recovered ke key ballot seq in
  let last' := kepaxos_last_seq_for_key (ke_log (snd res)) key in
  (fst last <= seq /\ snd last <= ballot -> fst res = 0 /\ last' = (seq, ballot))
  /\ (~ (fst last <= seq /\ snd last <= ballot) -> res = (-1, ke))
  /\ fst last <= fst last' /\ snd last <= snd last'
  /\ (forall k, k <> key ->
        kepaxos_last_seq_for_key (ke_log (snd res)) k
        = kepaxos_last_seq_for_key (ke_log ke) k)
  /\ ke_commands (snd res) = ke_commands ke /\ ke_ballot (snd res) = ke_ballot ke
  /\ ke_events (snd res) = ke_events ke.
Proof.
  cbv zeta. unfold kepaxos_recovered.
  destruct (kepaxos_last_seq_for_key (ke_log ke) key) as [last_seq last_ballot] eqn:Hlast.
  cbn [fst snd].
  destruct (Z.geb_spec seq last_seq) as [Hs | Hs];
    destruct (Z.geb_spec ballot last_ballot) as [Hb | Hb]; cbn [andb fst snd].
  1:{ cbn [set_ke_log ke_log ke_commands ke_ballot ke_events].
      rewrite last_seq_set_eq. cbn [fst snd].
      split; [intros _; split; reflexivity |].
      split; [intros Hn; exfalso; apply Hn; lia |].
      split; [lia |]. split; [lia |].
      split; [intros k Hk; now apply last_seq_set_ne |].
      repeat split. }
  all: rewrite Hlast; cbn [fst snd].
  all: split; [intros [? ?]; lia |].
  all: split; [intros _; reflexivity |].
  all: split; [lia |]; split; [lia |]; repeat split.
Qed.

(** A Commit that is processed takes the command in flight for its key out
    of the table when the command's seq is not above the message's: the
    waiters are woken, and the command is freed only when no caller waits on
    it.  A command with a higher seq stays.  Commands of other keys and the
    ballot are not touched. *)
Theorem kepaxos_handle_commit_table (ke : kepaxos_t L) (msg : kepaxos_msg_t)
    (c : kepaxos_cmd_t) :
  ke_commands ke !! msg_key msg = Some c ->
  kepaxos_seq ke (msg_key msg) <= msg_seq msg ->
  ~ (cmd_seq c = msg_seq msg /\ msg_ballot msg < cmd_ballot c) ->
  let ke' := snd (kepaxos_handle_commit ke msg) in
  let committed := EvCommit (msg_ctype msg) (msg_key msg) (msg_data msg) 0 in
  (cmd_seq c <= msg_seq msg ->
   ke_commands ke' = delete (msg_key msg) (ke_commands ke)
   /\ ke_events ke'
      = (if cmd_waiting c =? 0 then [EvFree (cmd_addr c)] else [])
        ++ EvBroadcast (cmd_addr c) :: committed :: ke_events ke)
  /\ (msg_seq msg < cmd_seq c ->
      ke_commands ke' = ke_commands ke
      /\ ke_events ke' = committed :: ke_events ke)
  /\ ke_ballot ke' = ke_ballot ke.
Proof.
  intros Hc Hseq Hno. cbv zeta. unfold kepaxos_handle_commit, kepaxos_seq in *.
  rewrite Hc.
  assert (Hguard : (cmd_seq c =? msg_seq msg) && (cmd_ballot c >? msg_ballot msg) = false).
  { destruct (Z.eqb_spec (cmd_seq c) (msg_seq msg)); [| reflexivity].
    destruct (Z.gtb_spec (cmd_ballot c) (msg_ballot msg)); [| reflexivity].
    exfalso. apply Hno. split; [assumption | lia]. }
  rewrite Hguard.
  destruct (Z.ltb_spec (msg_seq msg) (fst (kepaxos_last_seq_for_key (ke_log ke) (msg_key msg))));
    [lia |].
  destruct (Z.leb_spec (cmd_seq c) (msg_seq msg)) as [Hle | Hgt].
  - destruct (cmd_waiting c =? 0); cbn; (split; [intros _; split; reflexivity |]);
      (split; [intros; lia | reflexivity]).
  - cbn. split; [intros; lia |]. split; [intros _; split; reflexivity | reflexivity].
Qed.

End AcceptFacts.

(** ** The short path *)

Section FastPathFacts.
Context {L : Type} `{!kepaxos_log_ops L}.





End FastPathFacts.

(** ** The theorems above at the values of the test suite *)


Lemma receivers_others_witness :
  receivers (replica 2 ∅)
  = take (Z.to_nat (ke_my_index (replica 2 ∅))) (ke_peers (replica 2 ∅))
    ++ drop (S (Z.to_nat (ke_my_index (replica 2 ∅)))) (ke_peers (replica 2 ∅))
  /\ Z.of_nat (length (receivers (replica 2 ∅))) = ke_num_peers (replica 2 ∅) - 1
  /\ (NoDup (ke_peers (replica 2 ∅)) -> my_name (replica 2 ∅) ∉ receivers (replica 2 ∅))
  /\ (forall p, p ∈ ke_peers (replica 2 ∅) -> p <> my_name (replica 2 ∅) ->
                p ∈ receivers (replica 2 ∅)).
Proof.
  apply (receivers_others (replica 2 ∅)).
  - vm_compute. reflexivity.
  - vm_compute. split; [discriminate | reflexivity].
Defined.

Lemma update_ballot_names_replica_witness :
  BALLOT2NODEINDEX (snd (update_ballot (replica 2 ∅) 1024)) = ke_my_index (replica 2 ∅)
  /\ IS_MY_BALLOT (fst (update_ballot (replica 2 ∅) 1024))
       (snd (update_ballot (replica 2 ∅) 1024)) = true.
Proof.
  apply (update_ballot_names_replica (replica 2 ∅) 1024).
  - vm_compute. split; [discriminate | reflexivity].
  - vm_compute. reflexivity.
Defined.

Lemma kepaxos_context_create_ballot_witness :
  let ke := kepaxos_context_create used_log nodes 5 2 1 test_callbacks in
  BALLOT2NODEINDEX (ke_ballot ke) = uint8_t 2
  /\ BALLOT_VALUE (ke_ballot ke)
     = Z.shiftr (BALLOT_VALUE (kepaxos_max_ballot used_log) + 1) 8 + 1
  /\ ke_my_index ke = uint8_t 2
  /\ ke_commands ke = ∅ /\ ke_log ke = used_log
  /\ ke_timeout ke = (if 1 >? 0 then 1 else 30).
Proof.
  apply (kepaxos_context_create_ballot used_log nodes 5 2 1 test_callbacks).
  vm_compute. split; [discriminate | reflexivity].
Defined.

Lemma kepaxos_build_message_length_witness :
  Z.of_nat (length (fst (kepaxos_build_message node1 KEPAXOS_MSG_TYPE_COMMIT 2 261
                           test_key 8 test_value 10 7 1)))
  = snd (kepaxos_build_message node1 KEPAXOS_MSG_TYPE_COMMIT 2 261
           test_key 8 test_value 10 7 1)
  /\ snd (kepaxos_build_message node1 KEPAXOS_MSG_TYPE_COMMIT 2 261
            test_key 8 test_value 10 7 1)
     = KEPAXOS_MSGLEN_MIN + 8 + 10 + Z.of_nat (length node1) + 1.
Proof.
  apply (kepaxos_build_message_length node1 KEPAXOS_MSG_TYPE_COMMIT 2 261
           test_key 8 test_value 10 7 1); reflexivity.
Defined.

Lemma kepaxos_parse_message_bounds_witness :
  let m := {| msg_peer := node1; msg_ballot := 261; msg_seq := 7;
              msg_mtype := 5; msg_ctype := 2; msg_committed := 1;
              msg_key := test_key; msg_klen := 8;
              msg_data := test_value; msg_dlen := 10 |} in
  let key_off := 2 + rd16 (fst commit_wire) 0 + 16 + 3 + 4 in
  KEPAXOS_MSGLEN_MIN + rd16 (fst commit_wire) 0 + msg_klen m + msg_dlen m
    <= snd commit_wire
  /\ 0 <= msg_klen m /\ 0 <= msg_dlen m
  /\ msg_key m = slice (fst commit_wire) key_off (msg_klen m)
  /\ msg_data m = slice (fst commit_wire) (key_off + msg_klen m + 4) (msg_dlen m)
  /\ Z.of_nat (length (msg_key m)) = msg_klen m
  /\ Z.of_nat (length (msg_data m)) = msg_dlen m.
Proof.
  apply (kepaxos_parse_message_bounds (fst commit_wire) (snd commit_wire)).
  - vm_compute. repeat constructor; discriminate.
  - vm_compute. reflexivity.
  - vm_compute. reflexivity.
Defined.

Lemma kepaxos_handle_commit_table_witness :
  let ke := replica0_with_placeholder in
  let c := in_flight replica0_with_placeholder in
  let ke' := snd (kepaxos_handle_commit ke commit_seq8) in
  let committed := EvCommit (msg_ctype commit_seq8) (msg_key commit_seq8)
                     (msg_data commit_seq8) 0 in
  (cmd_seq c <= msg_seq commit_seq8 ->
   ke_commands ke' = delete (msg_key commit_seq8) (ke_commands ke)
   /\ ke_events ke'
      = (if cmd_waiting c =? 0 then [EvFree (cmd_addr c)] else [])
        ++ EvBroadcast (cmd_addr c) :: committed :: ke_events ke)
  /\ (msg_seq commit_seq8 < cmd_seq c ->
      ke_commands ke' = ke_commands ke
      /\ ke_events ke' = committed :: ke_events ke)
  /\ ke_ballot ke' = ke_ballot ke.
Proof.
  apply (kepaxos_handle_commit_table replica0_with_placeholder commit_seq8
           (in_flight replica0_with_placeholder)).
  - vm_compute. reflexivity.
  - vm_compute. discriminate.
  - intros [H _]. vm_compute in H. discriminate H.
Defined.


End KepaxosFacts.

Module ArcFacts.
Import Arc.

(** ** Traces and the hash index *)

(** [c'] came from [c] by steps that fetched nothing and took keys out of
    the index at most. *)
Definition quiet (c c' : arc_t) : Prop :=
  (exists new, arc_events c' = new ++ arc_events c /\ fetch_failed new = false)
  /\ (forall k, arc_hash c !! k = None -> arc_hash c' !! k = None).

Lemma quiet_refl (c : arc_t) : quiet c c.
Proof. split; [exists []; split; reflexivity | auto]. Qed.

Lemma quiet_trans (c1 c2 c3 : arc_t) : quiet c1 c2 -> quiet c2 c3 -> quiet c1 c3.
Proof.
  intros [(n1 & E1 & F1) H1] [(n2 & E2 & F2) H2]. split.
  - exists (n2 ++ n1). split.
    + now rewrite E2, E1, app_assoc.
    + unfold fetch_failed in *. rewrite existsb_app, F1, F2. reflexivity.
  - auto.
Qed.

Lemma quiet_same (c c' : arc_t) :
  arc_events c' = arc_events c -> arc_hash c' = arc_hash c -> quiet c c'.
Proof.
  intros He Hh. split.
  - exists []. split; [now rewrite He | reflexivity].
  - intros k. now rewrite Hh.
Qed.

Lemma quiet_release_ref (c : arc_t) (a : Z) : quiet c (release_ref c a).
Proof.
  unfold release_ref, terminate_node_callback.
  destruct (obj_refs (get_obj c a) - 1 =? 0); [| now apply quiet_same].
  set (c1 := put_obj c a _).
  split.
  - exists (EvFreeObject a :: (if obj_ptr (get_obj c1 a) then [EvDestroy a] else [])).
    split; [reflexivity |]. destruct (obj_ptr (get_obj c1 a)); reflexivity.
  - intros k Hk. cbn [log_event arc_hash put_obj set_heap destroy_payload ht_delete set_hash].
    rewrite lookup_delete. case_decide; auto.
Qed.

Lemma quiet_move_out (c : arc_t) (a : Z) : quiet c (snd (arc_move c a None)).
Proof.
  unfold arc_move. cbn [snd].
  set (c1 := match obj_state (get_obj c a) with Some s => _ | None => c end).
  assert (H1 : quiet c c1).
  { subst c1. destruct (obj_state (get_obj c a)); [| apply quiet_refl].
    now apply quiet_same. }
  eapply quiet_trans; [exact H1 |].
  eapply quiet_trans; [apply quiet_release_ref |].
  destruct (is_resident _); [now apply quiet_same | apply quiet_refl].
Qed.

Lemma quiet_move_ghost (c : arc_t) (a : Z) (st : arc_state_id) :
  is_ghost st = true -> quiet c (snd (arc_move c a (Some st))).
Proof.
  intros Hg. unfold arc_move. rewrite Hg. cbn [snd].
  set (c1 := match obj_state (get_obj c a) with Some s => _ | None => c end).
  assert (H1 : quiet c c1).
  { subst c1. destruct (obj_state (get_obj c a)) as [s |]; [| apply quiet_refl].
    destruct s; apply quiet_same; reflexivity. }
  eapply quiet_trans; [exact H1 |].
  split.
  - exists (if obj_ptr (get_obj c1 a) then [EvEvict a] else []). split.
    + destruct (is_resident _); reflexivity.
    + destruct (obj_ptr (get_obj c1 a)); reflexivity.
  - intros k Hk. destruct (is_resident _); exact Hk.
Qed.

Lemma quiet_remove (c : arc_t) (key : bytes) : quiet c (arc_remove c key).
Proof.
  unfold arc_remove.
  assert (H0 : quiet c (ht_delete c key)).
  { split; [exists []; split; reflexivity |].
    intros k Hk. cbn. rewrite lookup_delete. case_decide; auto. }
  destruct (arc_hash c !! key) as [a |]; [| exact H0].
  destruct (obj_state (get_obj (ht_delete c key) a)); [| exact H0].
  eapply quiet_trans; [exact H0 | apply quiet_move_out].
Qed.

Lemma quiet_balance_resident (fuel : nat) (c : arc_t) (size : Z) :
  quiet c (fst (balance_resident fuel c size)).
Proof.
  revert c. induction fuel as [| fuel IH]; intros c; cbn [balance_resident].
  - destruct (_ >? _); apply quiet_refl.
  - destruct (_ >? arc_c c); [| apply quiet_refl].
    destruct (st_size (arc_mru c) >? arc_p c).
    + destruct (arc_state_lru (arc_mru c)) as [a |]; [| apply quiet_refl].
      eapply quiet_trans; [apply (quiet_move_ghost c a MRUG eq_refl) | apply IH].
    + destruct (st_size (arc_mfu c) >? 0); [| apply quiet_refl].
      destruct (arc_state_lru (arc_mfu c)) as [a |]; [| apply quiet_refl].
      eapply quiet_trans; [apply (quiet_move_ghost c a MFUG eq_refl) | apply IH].
Qed.

Lemma quiet_balance_ghosts (fuel : nat) (c : arc_t) :
  quiet c (fst (balance_ghosts fuel c)).
Proof.
  revert c. induction fuel as [| fuel IH]; intros c; cbn [balance_ghosts].
  - destruct (_ >? _); apply quiet_refl.
  - destruct (_ >? arc_c c); [| apply quiet_refl].
    destruct (st_size (arc_mfug c) >? arc_p c).
    + destruct (arc_state_lru (arc_mfug c)) as [a |]; [| apply quiet_refl].
      eapply quiet_trans; [apply quiet_remove | apply IH].
    + destruct (st_size (arc_mrug c) >? 0); [| apply quiet_refl].
      destruct (arc_state_lru (arc_mrug c)) as [a |]; [| apply quiet_refl].
      eapply quiet_trans; [apply quiet_remove | apply IH].
Qed.

Lemma quiet_balance (fuel : nat) (c : arc_t) (size : Z) :
  quiet c (fst (arc_balance fuel c size)).
Proof.
  unfold arc_balance. destruct (arc_needs_rebalance c =? 0); [apply quiet_refl |].
  pose proof (quiet_balance_resident fuel c size) as H1.
  destruct (balance_resident fuel c size) as [c1 ok1]. cbn [fst] in H1.
  destruct ok1; [| exact H1].
  pose proof (quiet_balance_ghosts fuel c1) as H2.
  destruct (balance_ghosts fuel c1) as [c2 ok2]. cbn [fst] in H2.
  destruct ok2; cbn [fst]; [| eapply quiet_trans; eassumption].
  eapply quiet_trans; [exact H1 |]. eapply quiet_trans; [exact H2 |].
  destruct (arc_needs_rebalance c2 =? 1); [now apply quiet_same | apply quiet_refl].
Qed.

Lemma events_since_app (c c' : arc_t) (new : list arc_event) :
  arc_events c' = new ++ arc_events c -> events_since c c' = new.
Proof.
  intros E. unfold events_since. rewrite E, length_app.
  replace (length new + length (arc_events c) - length (arc_events c))%nat
    with (length new) by lia.
  apply take_app_length.
Qed.

Lemma quiet_no_fetch_error (c c' : arc_t) :
  quiet c c' -> fetch_failed (events_since c c') = false.
Proof. intros [(new & E & F) _]. now rewrite (events_since_app c c' new E). Qed.

Ltac arc_simpl :=
  cbn [fst snd arc_ops arc_hash arc_c arc_p arc_cos arc_mrug arc_mru arc_mfu
       arc_mfug arc_needs_rebalance arc_num_items arc_heap arc_next arc_events
       set_state set_hash set_p set_needs_rebalance set_num_items set_heap
       set_next log_event put_obj increase_size decrease_size arc_list_remove
       arc_list_prepend ht_delete retain_ref state_of st_size st_list
       evict_payload destroy_payload mark_rebalance
       obj_state obj_size obj_ptr obj_key obj_async obj_refs
       with_state with_size with_ptr with_async with_refs].

Lemma get_put_eq (c : arc_t) (a : Z) (o : arc_object_t) :
  get_obj (put_obj c a o) a = o.
Proof. unfold get_obj. arc_simpl. now rewrite lookup_insert_eq. Qed.

Lemma get_put_ne (c : arc_t) (a b : Z) (o : arc_object_t) :
  a <> b -> get_obj (put_obj c a o) b = get_obj c b.
Proof. intros H. unfold get_obj. arc_simpl. now rewrite lookup_insert_ne. Qed.

(** The head of [arc_move], up to the target's case distinction, touches
    neither the trace nor the index nor the object's key. *)
Lemma arc_move_head (c : arc_t) (a : Z) (state : option arc_state_id) :
  let c1 :=
    match obj_state (get_obj c a) with
    | Some s =>
        put_obj
          (arc_list_remove
             (decrease_size (match state with Some _ => adjust_p c s | None => c end) s
                (obj_size (get_obj (match state with Some _ => adjust_p c s | None => c end) a)))
             a) a
          (with_state
             (get_obj
                (arc_list_remove
                   (decrease_size (match state with Some _ => adjust_p c s | None => c end) s
                      (obj_size (get_obj (match state with Some _ => adjust_p c s | None => c end) a)))
                   a) a) None)
    | None => c
    end in
  arc_events c1 = arc_events c /\ arc_hash c1 = arc_hash c
  /\ arc_ops c1 = arc_ops c /\ obj_key (get_obj c1 a) = obj_key (get_obj c a).
Proof.
  cbv zeta. destruct (obj_state (get_obj c a)) as [s |]; [| repeat split].
  rewrite get_put_eq. arc_simpl.
  destruct state as [t |]; [destruct s |]; repeat split.
Qed.

(** A move to MRU or MFU: when the trace shows a failed fetch, the return
    code is -1 and the object's key is out of the index; the index gains no
    key in any case. *)
Lemma arc_move_in (c : arc_t) (a : Z) (st : arc_state_id) :
  is_ghost st = false ->
  exists new, arc_events (snd (arc_move c a (Some st))) = new ++ arc_events c
    /\ (forall k, arc_hash c !! k = None ->
                  arc_hash (snd (arc_move c a (Some st))) !! k = None)
    /\ (fetch_failed new = true ->
        fst (arc_move c a (Some st)) = -1
        /\ arc_hash (snd (arc_move c a (Some st))) !! obj_key (get_obj c a) = None)
    /\ (fetch_failed new = false -> fst (arc_move c a (Some st)) = 0).
Proof.
  intros Hg. unfold arc_move. rewrite Hg.
  destruct (arc_move_head c a (Some st)) as (He & Hh & Ho & Hk).
  cbv zeta in He, Hh, Ho, Hk.
  set (c1 := match obj_state (get_obj c a) with Some s => _ | None => c end) in *.
  clearbody c1.
  destruct (is_resident (obj_state (get_obj c a))); cbn [negb].
  { (* between MRU and MFU: no fetch *)
    exists []. cbn [fst snd app fetch_failed existsb]. arc_simpl.
    split; [exact He |]. split; [intros k; now rewrite Hh |].
    split; [discriminate | reflexivity]. }
  destruct (op_fetch (arc_ops c1) a (obj_key (get_obj c1 a))) as [rc size].
  set (c2 := log_event c1 (EvFetch a rc size)).
  assert (Hk2 : obj_key (get_obj c2 a) = obj_key (get_obj c a)) by exact Hk.
  assert (He2 : arc_events c2 = EvFetch a rc size :: arc_events c)
    by (subst c2; arc_simpl; now rewrite He).
  assert (Hh2 : arc_hash c2 = arc_hash c) by exact Hh.
  clearbody c2.
  destruct (Z.eqb_spec rc 1) as [-> | Hrc1].
  { destruct (quiet_release_ref (ht_delete c2 (obj_key (get_obj c2 a))) a)
      as [(n & En & Fn) Hs].
    exists (n ++ [EvFetch a 1 size]). cbn [fst snd].
    assert (Hff : fetch_failed (n ++ [EvFetch a 1 size]) = false).
    { unfold fetch_failed in *. rewrite existsb_app, Fn. reflexivity. }
    rewrite Hff.
    split; [rewrite En; arc_simpl; now rewrite He2, <- app_assoc |].
    split; [| split; [discriminate | reflexivity]].
    intros k Hn. apply Hs. arc_simpl. rewrite lookup_delete.
    case_decide; [reflexivity | now rewrite Hh2]. }
  destruct (Z.eqb_spec rc (-1)) as [-> | Hrc2].
  { destruct (quiet_release_ref (ht_delete c2 (obj_key (get_obj c2 a))) a)
      as [(n & En & Fn) Hs].
    exists (n ++ [EvFetch a (-1) size]). cbn [fst snd].
    split; [rewrite En; arc_simpl; now rewrite He2, <- app_assoc |].
    split; [| split].
    - intros k Hn. apply Hs. arc_simpl. rewrite lookup_delete.
      case_decide; [reflexivity | now rewrite Hh2].
    - intros _. split; [reflexivity |].
      apply Hs. arc_simpl. rewrite Hk2, lookup_delete_eq. reflexivity.
    - unfold fetch_failed. rewrite existsb_app. cbn.
      rewrite orb_true_r. discriminate. }
  assert (Hquiet : is_fetch_error (EvFetch a rc size) = false).
  { cbn. now apply Z.eqb_neq. }
  destruct (size >=? arc_c c2).
  { destruct (quiet_release_ref c2 a) as [(n & En & Fn) Hs].
    exists (n ++ [EvFetch a rc size]). cbn [fst snd].
    assert (Hff : fetch_failed (n ++ [EvFetch a rc size]) = false).
    { unfold fetch_failed in *. rewrite existsb_app, Fn. cbn [existsb orb]. now rewrite Hquiet. }
    rewrite Hff. arc_simpl.
    split; [rewrite En; now rewrite He2, <- app_assoc |].
    split; [| split; [discriminate | reflexivity]].
    intros k Hn. apply Hs. now rewrite Hh2. }
  exists [EvFetch a rc size]. cbn [fst snd].
  assert (Hff : fetch_failed [EvFetch a rc size] = false).
  { unfold fetch_failed. cbn [existsb orb]. now rewrite Hquiet. }
  rewrite Hff. arc_simpl.
  split; [exact He2 |]. split; [intros k; now rewrite Hh2 |].
  split; [discriminate | reflexivity].
Qed.

Lemma fetch_failed_app (l1 l2 : list arc_event) :
  fetch_failed (l1 ++ l2) = fetch_failed l1 || fetch_failed l2.
Proof. apply existsb_app. Qed.

(** ** Lookup and a failing fetch *)

(** C9.  When the fetch callback returns -1 during [arc_lookup] (the
    trace of the call shows it), the call returns no handle and the key is
    not in the hash index afterwards, so that a later lookup does not find
    the old entry.  (The index entry of the key, when there is one, points
    to an object created for that key.) *)
Theorem arc_lookup_fetch_error (retries fuel : nat) (c : arc_t) (key : bytes)
    (async : Z) :
  (forall a, arc_hash c !! key = Some a -> obj_key (get_obj c a) = key) ->
  fetch_failed (events_since c (snd (fst (arc_lookup retries fuel c key async)))) = true ->
  fst (fst (arc_lookup retries fuel c key async)) = None
  /\ arc_hash (snd (fst (arc_lookup retries fuel c key async))) !! key = None.
Proof.
  intros Hidx.
  assert (Hbody :
    forall again : arc_t -> Z -> option Z * arc_t * bool,
    let r :=
      match arc_hash c !! key with
      | Some a =>
          let c := retain_ref c a in
          if negb (async =? 0) && negb (obj_async (get_obj c a) =? 0)
          then (Some a, c, true)
          else
            let '(rc, c) := arc_move c a (Some MFU) in
            if negb (rc =? 0) then (None, release_ref c a, true)
            else
              let '(c, ok) := arc_balance fuel c (obj_size (get_obj c a)) in
              (Some a, c, ok)
      | None =>
          let '(c, a) := arc_object_create c key in
          let c := log_event c (EvCreate key async a) in
          let c := put_obj c a (with_async (get_obj c a) async) in
          let c := retain_ref c a in
          let '(rc, c) := ht_set_if_not_exists c key a in
          if rc =? 0 then
            let '(rc, c) := arc_move c a (Some MRU) in
            if rc =? 0 then
              let '(c, ok) := arc_balance fuel c (obj_size (get_obj c a)) in
              (Some a, c, ok)
            else
              let c := ht_delete c key in
              let c := release_ref c a in
              (None, release_ref c a, true)
          else if rc =? 1 then again c a
          else
            let c := release_ref c a in
            (None, release_ref c a, true)
      end in
    fetch_failed (events_since c (snd (fst r))) = true ->
    fst (fst r) = None /\ arc_hash (snd (fst r)) !! key = None).
  { intros again. cbv zeta.
    destruct (arc_hash c !! key) as [a |] eqn:Hk.
    - (* the key is in the index *)
      specialize (Hidx a eq_refl).
      assert (Hkey : obj_key (get_obj (retain_ref c a) a) = key).
      { unfold retain_ref. now rewrite get_put_eq. }
      destruct (negb (async =? 0) && negb (obj_async (get_obj (retain_ref c a) a) =? 0)).
      { cbn [fst snd]. rewrite (events_since_app c (retain_ref c a) []) by reflexivity.
        discriminate. }
      destruct (arc_move_in (retain_ref c a) a MFU eq_refl)
        as (new & En & Hsh & Hfail & Hok).
      destruct (arc_move (retain_ref c a) a (Some MFU)) as [rc c2].
      cbn [fst snd] in En, Hsh, Hfail, Hok.
      destruct (fetch_failed new) eqn:Hff.
      + destruct (Hfail eq_refl) as [-> Hgone]. cbn [negb Z.eqb fst snd].
        intros _. split; [reflexivity |].
        apply quiet_release_ref. now rewrite <- Hkey.
      + rewrite (Hok eq_refl). cbn [negb Z.eqb].
        pose proof (quiet_balance fuel c2 (obj_size (get_obj c2 a))) as [(nb & Eb & Fb) _].
        destruct (arc_balance fuel c2 (obj_size (get_obj c2 a))) as [c3 ok].
        cbn [fst snd] in Eb |- *.
        rewrite (events_since_app c c3 (nb ++ new)).
        2:{ rewrite Eb, En. arc_simpl. now rewrite app_assoc. }
        rewrite fetch_failed_app, Fb, Hff. discriminate.
    - (* the key is new *)
      unfold arc_object_create. cbv zeta.
      set (a := arc_next c).
      set (c4 := retain_ref _ a).
      assert (H4 : arc_hash c4 = arc_hash c
                   /\ arc_events c4 = EvCreate key async a :: arc_events c
                   /\ obj_key (get_obj c4 a) = key).
      { subst c4. unfold retain_ref, get_obj. arc_simpl.
        rewrite !lookup_insert_eq. cbn [default]. arc_simpl.
        rewrite ?lookup_insert_eq. repeat split. }
      destruct H4 as (Hh4 & He4 & Hk4). clearbody c4.
      unfold ht_set_if_not_exists. rewrite Hh4, Hk. cbn [Z.eqb].
      set (c5 := set_hash c4 _).
      assert (H5 : arc_events c5 = EvCreate key async a :: arc_events c
                   /\ obj_key (get_obj c5 a) = key) by (split; assumption).
      destruct H5 as (He5 & Hk5). clearbody c5.
      destruct (arc_move_in c5 a MRU eq_refl) as (new & En & Hsh & Hfail & Hok).
      destruct (arc_move c5 a (Some MRU)) as [rc c6].
      cbn [fst snd] in En, Hsh, Hfail, Hok.
      destruct (fetch_failed new) eqn:Hff.
      + destruct (Hfail eq_refl) as [-> Hgone]. cbn [Z.eqb fst snd].
        intros _. split; [reflexivity |].
        do 2 apply quiet_release_ref. arc_simpl. apply lookup_delete_eq.
      + rewrite (Hok eq_refl). cbn [Z.eqb].
        pose proof (quiet_balance fuel c6 (obj_size (get_obj c6 a))) as [(nb & Eb & Fb) _].
        destruct (arc_balance fuel c6 (obj_size (get_obj c6 a))) as [c7 ok].
        cbn [fst snd] in Eb |- *.
        rewrite (events_since_app c c7 (nb ++ new ++ [EvCreate key async a])).
        2:{ rewrite Eb, En, He5. now rewrite <- !app_assoc. }
        rewrite !fetch_failed_app, Fb, Hff. discriminate. }
  destruct retries as [| retries]; cbn [arc_lookup].
  - apply (Hbody (fun c a => (None, release_ref (release_ref c a) a, false))).
  - apply (Hbody (fun c a =>
                    arc_lookup retries fuel (release_ref (release_ref c a) a) key async)).
Qed.

Lemma arc_lookup_fetch_error_witness :
  fst (fst (arc_lookup 1 8 (arc_create failing_store 300 0) key_A 0)) = None
  /\ arc_hash (snd (fst (arc_lookup 1 8 (arc_create failing_store 300 0) key_A 0)))
       !! key_A = None.
Proof.
  apply (arc_lookup_fetch_error 1 8 (arc_create failing_store 300 0) key_A 0).
  - intros a Ha. vm_compute in Ha. discriminate Ha.
  - vm_compute. reflexivity.
Defined.

(** ** The marker [p] below zero *)

(** C4 on a run of ghost hits.  A cache of capacity 300 whose two keys A
    and B are looked up in turn:
    every lookup is a hit in the MFU ghost list and takes 1 from [p], down
    from 150 to 0 after 75 rounds; the next hit takes 1 from 0 in [size_t],
    and [p] is [2^64 - 1], above the capacity. *)
Lemma arc_p_underflow :
  arc_p small_cache = 150
  /\ arc_c (lookups small_cache (alternating 75)) = 300
  /\ arc_p (lookups small_cache (alternating 75)) = 0
  /\ st_list (arc_mfug (lookups small_cache (alternating 75))) = [1]
  /\ arc_hash (lookups small_cache (alternating 75)) !! key_A = Some 1
  /\ arc_p (lookups small_cache (alternating 75 ++ [key_A])) = 2 ^ 64 - 1
  /\ arc_c (lookups small_cache (alternating 75 ++ [key_A])) = 300.
Proof. vm_compute. repeat split. Qed.

(** C8 after the marker has left its range.  With [p] above the capacity
    the first loop of the balancing never
    takes from MRU: after three more new keys the balancing of the last
    lookup runs to completion and leaves 420 bytes in MRU, with capacity
    300; the same when the balancing is run once more with the flag set. *)
Lemma arc_balance_over_capacity :
  let before := lookups small_cache (alternating 75 ++ [key_A; [67]; [68]]) in
  let r := arc_lookup 1 8 before [69] 0 in
  let after := snd (fst r) in
  let again := arc_balance 8 (set_needs_rebalance after 1) 0 in
  st_size (arc_mru before) + st_size (arc_mfu before) = 280
  /\ snd r = true
  /\ arc_c after = 300
  /\ st_size (arc_mru after) + st_size (arc_mfu after) = 420
  /\ snd again = true
  /\ st_size (arc_mru (fst again)) + st_size (arc_mfu (fst again)) = 420.
Proof. vm_compute. repeat split. Qed.

(** ** The marker [p] within its range *)

Lemma release_ref_p (c : arc_t) (a : Z) :
  arc_p (release_ref c a) = arc_p c /\ arc_c (release_ref c a) = arc_c c.
Proof.
  unfold release_ref, terminate_node_callback.
  destruct (obj_refs (get_obj c a) - 1 =? 0); split; reflexivity.
Qed.

Ltac through_release :=
  cbn [snd]; arc_simpl;
  match goal with
  | |- context [release_ref ?x ?a] =>
      let E1 := fresh in let E2 := fresh in
      destruct (release_ref_p x a) as [E1 E2]; rewrite E1, E2
  end;
  split; reflexivity.

(** [arc_move] touches [p] at its head only, and [c] nowhere. *)
Lemma arc_move_p (c : arc_t) (a : Z) (state : option arc_state_id) :
  arc_p (snd (arc_move c a state))
  = arc_p (match obj_state (get_obj c a), state with
           | Some s, Some _ => adjust_p c s
           | _, _ => c
           end)
  /\ arc_c (snd (arc_move c a state)) = arc_c c.
Proof.
  unfold arc_move.
  set (c1 := match obj_state (get_obj c a) with Some s => _ | None => c end).
  assert (H1 : arc_p c1 = arc_p (match obj_state (get_obj c a), state with
                                 | Some s, Some _ => adjust_p c s
                                 | _, _ => c
                                 end)
                /\ arc_c c1 = arc_c c).
  { subst c1. destruct (obj_state (get_obj c a)) as [s |]; [| split; reflexivity].
    destruct state as [t |]; [| split; reflexivity].
    destruct s; split; reflexivity. }
  destruct H1 as [Hp Hc]. rewrite <- Hp, <- Hc. clearbody c1.
  destruct state as [st |].
  - destruct (is_ghost st).
    + cbn [snd]. destruct (is_resident _); split; reflexivity.
    + destruct (negb (is_resident _)).
      * destruct (op_fetch (arc_ops c1) a (obj_key (get_obj c1 a))) as [rc size].
        destruct (rc =? 1); [through_release |].
        destruct (rc =? -1); [through_release |].
        destruct (size >=? arc_c (log_event c1 (EvFetch a rc size)));
          [through_release |].
        split; reflexivity.
      * split; reflexivity.
  - destruct (is_resident _); through_release.
Qed.

(** [arc_create] puts [p] at half the capacity. *)
Lemma arc_create_p (ops : arc_ops_t) (c cos : Z) :
  0 <= c ->
  arc_p (arc_create ops c cos) = c / 2
  /\ 0 <= arc_p (arc_create ops c cos) <= arc_c (arc_create ops c cos).
Proof.
  intros Hc. cbn [arc_create arc_p arc_c]. rewrite Z.shiftr_div_pow2 by lia.
  change (2 ^ 1) with 2. split; [reflexivity |].
  split; [apply Z.div_pos; lia | apply Z.div_le_upper_bound; lia].
Qed.


(** ** Balancing a well-formed cache *)

Lemma total_size_ext (c c' : arc_t) (l : list Z) :
  (forall a, a ∈ l -> obj_size (get_obj c' a) = obj_size (get_obj c a)) ->
  total_size c' l = total_size c l.
Proof.
  induction l as [| b l IH]; intros H; simpl; [reflexivity |].
  rewrite H by apply list_elem_of_here. rewrite IH; [reflexivity |].
  intros a Ha. apply H. now apply list_elem_of_further.
Qed.

Lemma filter_not_elem (a : Z) (l : list Z) :
  a ∉ l -> filter (fun b => b <> a) l = l.
Proof.
  induction l as [| b l IH]; intros H; [reflexivity |].
  apply not_elem_of_cons in H as [Hne Hl].
  rewrite filter_cons_True by auto. now rewrite IH.
Qed.

Lemma total_size_unlink (c : arc_t) (a : Z) (l : list Z) :
  NoDup l -> a ∈ l ->
  total_size c (filter (fun b => b <> a) l) = total_size c l - obj_size (get_obj c a)
  /\ S (length (filter (fun b => b <> a) l)) = length l.
Proof.
  induction l as [| b l IH]; intros Hnd Hin; [now apply elem_of_nil in Hin |].
  apply NoDup_cons in Hnd as [Hb Hnd].
  destruct (decide (b = a)) as [-> | Hne].
  - rewrite filter_cons_False by auto. rewrite filter_not_elem by assumption.
    simpl. split; [lia | reflexivity].
  - rewrite filter_cons_True by assumption.
    apply elem_of_cons in Hin as [-> | Hin]; [congruence |].
    destruct (IH Hnd Hin) as [E1 E2]. simpl. rewrite E1, E2. split; [lia | reflexivity].
Qed.

Lemma total_size_nonneg (c : arc_t) (l : list Z) :
  (forall a, a ∈ l -> 0 <= obj_size (get_obj c a)) -> 0 <= total_size c l.
Proof.
  induction l as [| b l IH]; intros H; simpl; [lia |].
  pose proof (H b (list_elem_of_here _ _)).
  assert (0 <= total_size c l) by (apply IH; intros a Ha; apply H; now apply list_elem_of_further).
  lia.
Qed.

Lemma total_size_elem (c : arc_t) (a : Z) (l : list Z) :
  (forall b, b ∈ l -> 0 <= obj_size (get_obj c b)) -> a ∈ l ->
  obj_size (get_obj c a) <= total_size c l.
Proof.
  induction l as [| b l IH]; intros H Hin; [now apply elem_of_nil in Hin |].
  simpl.
  assert (Hl : forall b', b' ∈ l -> 0 <= obj_size (get_obj c b'))
    by (intros b' Hb'; apply H; now apply list_elem_of_further).
  pose proof (total_size_nonneg c l Hl).
  pose proof (H b (list_elem_of_here _ _)).
  apply elem_of_cons in Hin as [-> | Hin]; [lia |].
  specialize (IH Hl Hin). lia.
Qed.

Lemma arc_move_demote_shape (c : arc_t) (a : Z) (s g : arc_state_id) :
  obj_state (get_obj c a) = Some s ->
  is_resident (Some s) = true -> is_ghost g = true ->
  let c' := snd (arc_move c a (Some g)) in
  arc_c c' = arc_c c /\ arc_p c' = arc_p c /\ arc_hash c' = arc_hash c
  /\ arc_needs_rebalance c' = arc_needs_rebalance c
  /\ (forall b, obj_size (get_obj c' b) = obj_size (get_obj c b)
                /\ obj_key (get_obj c' b) = obj_key (get_obj c b))
  /\ (forall b, b <> a -> get_obj c' b = get_obj c b)
  /\ obj_state (get_obj c' a) = Some g
  /\ (forall t, st_list (state_of c' t)
                = (if decide (t = g) then [a] else [])
                  ++ filter (fun b => b <> a) (st_list (state_of c t)))
  /\ (forall t, st_size (state_of c' t)
                = if decide (t = g)
                  then uint64_t (st_size (state_of c t) + obj_size (get_obj c a))
                  else if decide (t = s)
                       then uint64_t (st_size (state_of c t) - obj_size (get_obj c a))
                       else st_size (state_of c t)).
Proof.
  intros Hst Hs Hg. cbv zeta. unfold arc_move. rewrite Hst, Hg, Hs.
  destruct s; try discriminate Hs; destruct g; try discriminate Hg.
  all: cbn [adjust_p snd is_resident].
  all: repeat (unfold get_obj; arc_simpl; rewrite ?lookup_insert_eq; cbn [default id]).
  all: do 4 (split; [reflexivity |]).
  all: split;
    [ intros b; destruct (decide (b = a)) as [-> | Hne];
      [ rewrite !lookup_insert_eq | rewrite !lookup_insert_ne by congruence ];
      cbn [default id]; arc_simpl; split; reflexivity |].
  all: split; [intros b Hne; rewrite !lookup_insert_ne by congruence; reflexivity |].
  all: split; [reflexivity |].
  all: split; intros t; destruct t; arc_simpl; repeat case_decide;
    try congruence; reflexivity.
Qed.

Lemma sizes_nonneg (c : arc_t) (t : arc_state_id) :
  well_formed c -> 0 <= st_size (state_of c t).
Proof.
  intros W. rewrite (wf_size c W). apply total_size_nonneg.
  intros a Ha. now apply (wf_nonneg c W t).
Qed.

Lemma sizes_below (c : arc_t) (t u : arc_state_id) :
  well_formed c -> t <> u -> st_size (state_of c t) + st_size (state_of c u) < 2 ^ 64.
Proof.
  intros W Hne. pose proof (wf_total c W).
  pose proof (sizes_nonneg c MRUG W). pose proof (sizes_nonneg c MRU W).
  pose proof (sizes_nonneg c MFU W). pose proof (sizes_nonneg c MFUG W).
  destruct t, u; cbn [state_of] in *; try congruence; lia.
Qed.

Lemma not_linked_elsewhere (c : arc_t) (a : Z) (s t : arc_state_id) :
  well_formed c -> a ∈ st_list (state_of c s) -> t <> s ->
  a ∉ st_list (state_of c t).
Proof.
  intros W Hs Hne Ht.
  pose proof (wf_state c W s a Hs) as E1.
  pose proof (wf_state c W t a Ht) as E2. congruence.
Qed.

(** One round of the first loop: the LRU object of a resident list goes to
    a ghost list. *)
Lemma demote_step (c : arc_t) (a : Z) (s g : arc_state_id) :
  well_formed c ->
  is_resident (Some s) = true -> is_ghost g = true ->
  a ∈ st_list (state_of c s) ->
  let c' := snd (arc_move c a (Some g)) in
  well_formed c'
  /\ arc_c c' = arc_c c /\ arc_p c' = arc_p c
  /\ arc_needs_rebalance c' = arc_needs_rebalance c
  /\ 0 <= obj_size (get_obj c a)
  /\ st_size (state_of c' s) = st_size (state_of c s) - obj_size (get_obj c a)
  /\ S (length (st_list (state_of c' s))) = length (st_list (state_of c s))
  /\ st_size (state_of c' g) = st_size (state_of c g) + obj_size (get_obj c a)
  /\ length (st_list (state_of c' g)) = S (length (st_list (state_of c g)))
  /\ (forall t, t <> s -> t <> g -> state_of c' t = state_of c t).
Proof.
  intros W Hs Hg Ha.
  assert (Hsg : s <> g) by (intros ->; destruct g; discriminate).
  pose proof (wf_state c W s a Ha) as Hst.
  destruct (arc_move_demote_shape c a s g Hst Hs Hg)
    as (Ec & Ep & Eh & En & Eobj & Eoth & Esta & Elist & Esize).
  cbv zeta in *. set (c' := snd (arc_move c a (Some g))) in *. clearbody c'.
  set (sz := obj_size (get_obj c a)) in *.
  assert (Hsz0 : 0 <= sz) by (apply (wf_nonneg c W s a Ha)).
  assert (Hszs : sz <= st_size (state_of c s)).
  { rewrite (wf_size c W). apply total_size_elem; [| exact Ha].
    intros b Hb. now apply (wf_nonneg c W s). }
  pose proof (sizes_nonneg c s W) as Hs0.
  pose proof (sizes_nonneg c g W) as Hg0.
  pose proof (sizes_below c s g W Hsg) as Hsgb.
  assert (Hkeep : forall t, t <> s ->
            filter (fun b => b <> a) (st_list (state_of c t)) = st_list (state_of c t)).
  { intros t Ht. apply filter_not_elem. now apply (not_linked_elsewhere c a s t). }
  destruct (total_size_unlink c a (st_list (state_of c s)) (wf_nodup c W s) Ha)
    as [Eunl Elen].
  assert (Els : st_list (state_of c' s) = filter (fun b => b <> a) (st_list (state_of c s))).
  { rewrite Elist. destruct (decide (s = g)); [congruence | reflexivity]. }
  assert (Elg : st_list (state_of c' g) = a :: st_list (state_of c g)).
  { rewrite Elist. destruct (decide (g = g)); [| congruence].
    rewrite Hkeep by congruence. reflexivity. }
  assert (Elo : forall t, t <> s -> t <> g -> st_list (state_of c' t) = st_list (state_of c t)).
  { intros t H1 H2. rewrite Elist. destruct (decide (t = g)); [congruence |].
    now rewrite Hkeep. }
  assert (Ess : st_size (state_of c' s) = st_size (state_of c s) - sz).
  { rewrite Esize. destruct (decide (s = g)); [congruence |].
    destruct (decide (s = s)); [| congruence].
    unfold uint64_t. apply Z.mod_small. lia. }
  assert (Esg : st_size (state_of c' g) = st_size (state_of c g) + sz).
  { rewrite Esize. destruct (decide (g = g)); [| congruence].
    unfold uint64_t. apply Z.mod_small. lia. }
  assert (Eso : forall t, t <> s -> t <> g -> st_size (state_of c' t) = st_size (state_of c t)).
  { intros t H1 H2. rewrite Esize.
    destruct (decide (t = g)); [congruence |]. destruct (decide (t = s)); congruence. }
  assert (Etot : forall l, total_size c' l = total_size c l).
  { intros l. apply total_size_ext. intros b _. apply Eobj. }
  assert (Hin : forall t b, b ∈ st_list (state_of c' t) ->
            (b = a /\ t = g) \/ (b <> a /\ b ∈ st_list (state_of c t))).
  { intros t b Hb. rewrite Elist in Hb. apply elem_of_app in Hb as [Hb | Hb].
    - destruct (decide (t = g)) as [-> |]; [| now apply elem_of_nil in Hb].
      apply list_elem_of_singleton in Hb. now left.
    - apply list_elem_of_filter in Hb. now right. }
  split; [| repeat split; try assumption].
  - (* the cache is well-formed again *)
    constructor.
    + intros t b Hb. destruct (Hin t b Hb) as [[-> ->] | [Hne Hb']]; [exact Esta |].
      rewrite Eoth by assumption. now apply (wf_state c W).
    + intros t. destruct (decide (t = g)) as [-> | Htg].
      * rewrite Elg. apply NoDup_cons. split; [| apply (wf_nodup c W)].
        now apply (not_linked_elsewhere c a s g).
      * rewrite Elist. destruct (decide (t = g)); [congruence |]. simpl.
        apply NoDup_filter, (wf_nodup c W).
    + intros t. rewrite Etot. destruct (decide (t = g)) as [-> | Htg].
      * rewrite Esg, Elg. simpl. rewrite (wf_size c W g). fold sz. lia.
      * destruct (decide (t = s)) as [-> | Hts].
        -- rewrite Ess, Els, Eunl. rewrite (wf_size c W s). reflexivity.
        -- rewrite Eso, Elo by assumption. apply (wf_size c W).
    + intros t b Hb. destruct (Eobj b) as [-> _].
      destruct (Hin t b Hb) as [[-> ->] | [Hne Hb']]; [exact Hsz0 |].
      now apply (wf_nonneg c W t).
    + intros t b Hb. destruct (Eobj b) as [_ ->]. rewrite Eh.
      destruct (Hin t b Hb) as [[-> ->] | [Hne Hb']].
      * now apply (wf_index c W s).
      * now apply (wf_index c W t).
    + pose proof (wf_total c W) as Htot.
      change (st_size (state_of c MRUG) + st_size (state_of c MRU)
              + st_size (state_of c MFU) + st_size (state_of c MFUG) < 2 ^ 64) in Htot.
      change (st_size (state_of c' MRUG) + st_size (state_of c' MRU)
              + st_size (state_of c' MFU) + st_size (state_of c' MFUG) < 2 ^ 64).
      destruct s; try discriminate Hs; destruct g; try discriminate Hg.
      * rewrite Ess, Esg, (Eso MFU), (Eso MFUG) by congruence. lia.
      * rewrite Ess, Esg, (Eso MFU), (Eso MRUG) by congruence. lia.
      * rewrite Ess, Esg, (Eso MRU), (Eso MFUG) by congruence. lia.
      * rewrite Ess, Esg, (Eso MRU), (Eso MRUG) by congruence. lia.
  - rewrite Els. exact Elen.
  - rewrite Elg. reflexivity.
  - intros t H1 H2. specialize (Elo t H1 H2). specialize (Eso t H1 H2).
    destruct (state_of c' t), (state_of c t). cbn in *. congruence.
Qed.

Lemma lru_of_nonempty (c : arc_t) (t : arc_state_id) (bound : Z) :
  well_formed c -> 0 <= bound -> st_size (state_of c t) > bound ->
  exists a, arc_state_lru (state_of c t) = Some a /\ a ∈ st_list (state_of c t).
Proof.
  intros W Hb Hgt. unfold arc_state_lru.
  destruct (last (st_list (state_of c t))) as [a |] eqn:Hl.
  - exists a. split; [reflexivity | now apply last_Some_elem_of].
  - apply last_None in Hl. rewrite (wf_size c W), Hl in Hgt. simpl in Hgt. lia.
Qed.

(** The first loop on a well-formed cache: with fuel above the number of
    resident objects it comes to its end, and at the end either the resident
    bytes and the size asked for fit the capacity, or MRU is within [p] and
    MFU is empty. *)
Lemma balance_resident_fits (fuel : nat) (c : arc_t) (size : Z) :
  well_formed c -> 0 <= arc_p c -> 0 <= size ->
  st_size (arc_mru c) + st_size (arc_mfu c) + size < 2 ^ 64 ->
  (length (st_list (arc_mru c)) + length (st_list (arc_mfu c)) < fuel)%nat ->
  let c' := fst (balance_resident fuel c size) in
  snd (balance_resident fuel c size) = true
  /\ well_formed c'
  /\ arc_c c' = arc_c c /\ arc_p c' = arc_p c
  /\ arc_needs_rebalance c' = arc_needs_rebalance c
  /\ entries c' = entries c
  /\ (st_size (arc_mru c') + st_size (arc_mfu c') + size <= arc_c c
      \/ (st_size (arc_mru c') <= arc_p c /\ st_size (arc_mfu c') = 0)).
Proof.
  revert c. induction fuel as [| fuel IH]; intros c W Hp Hsize Hsum Hfuel; [lia |].
  cbv zeta. cbn [balance_resident].
  pose proof (sizes_nonneg c MRU W) as Hm0. pose proof (sizes_nonneg c MFU W) as Hf0.
  cbn [state_of] in Hm0, Hf0.
  assert (Hguard : uint64_t (st_size (arc_mru c) + st_size (arc_mfu c) + size)
                   = st_size (arc_mru c) + st_size (arc_mfu c) + size)
    by (unfold uint64_t; apply Z.mod_small; lia).
  rewrite Hguard.
  destruct (Z.gtb_spec (st_size (arc_mru c) + st_size (arc_mfu c) + size) (arc_c c))
    as [Hover | Hfit].
  2:{ cbn [fst snd]. split; [reflexivity |]. split; [assumption |].
      do 4 (split; [reflexivity |]). left. lia. }
  destruct (Z.gtb_spec (st_size (arc_mru c)) (arc_p c)) as [Hmru | Hmru].
  - (* MRU is above p: its LRU object goes to MRUG *)
    destruct (lru_of_nonempty c MRU (arc_p c) W Hp) as (a & Hl & Ha);
      [cbn [state_of]; lia |].
    cbn [state_of] in Hl. rewrite Hl.
    destruct (demote_step c a MRU MRUG W eq_refl eq_refl Ha)
      as (W' & Ec & Ep & En & Hsz & Es & El & Eg & Elg & Eo).
    cbv zeta in *. set (c1 := snd (arc_move c a (Some MRUG))) in *. clearbody c1.
    cbn [state_of] in Es, El, Eg, Elg.
    pose proof (Eo MFU ltac:(congruence) ltac:(congruence)) as Emfu.
    pose proof (Eo MFUG ltac:(congruence) ltac:(congruence)) as Emfug.
    cbn [state_of] in Emfu, Emfug.
    destruct (IH c1 W') as (Hok & W2 & Ec2 & Ep2 & En2 & Ee2 & Hexit).
    + lia.
    + assumption.
    + rewrite Es, Emfu. lia.
    + rewrite Emfu. lia.
    + rewrite Hok, Ec2, Ep2, En2, Ee2.
      split; [reflexivity |]. split; [assumption |].
      do 3 (split; [assumption |]). split.
      * unfold entries. rewrite Emfu, Emfug, Elg. lia.
      * rewrite Ec, Ep in Hexit. exact Hexit.
  - destruct (Z.gtb_spec (st_size (arc_mfu c)) 0) as [Hmfu | Hmfu].
    + (* otherwise MFU, when it is not empty: its LRU object goes to MFUG *)
      destruct (lru_of_nonempty c MFU 0 W ltac:(lia)) as (a & Hl & Ha);
        [cbn [state_of]; lia |].
      cbn [state_of] in Hl. rewrite Hl.
      destruct (demote_step c a MFU MFUG W eq_refl eq_refl Ha)
        as (W' & Ec & Ep & En & Hsz & Es & El & Eg & Elg & Eo).
      cbv zeta in *. set (c1 := snd (arc_move c a (Some MFUG))) in *. clearbody c1.
      cbn [state_of] in Es, El, Eg, Elg.
      pose proof (Eo MRU ltac:(congruence) ltac:(congruence)) as Emru.
      pose proof (Eo MRUG ltac:(congruence) ltac:(congruence)) as Emrug.
      cbn [state_of] in Emru, Emrug.
      destruct (IH c1 W') as (Hok & W2 & Ec2 & Ep2 & En2 & Ee2 & Hexit).
      * lia.
      * assumption.
      * rewrite Es, Emru. lia.
      * rewrite Emru. lia.
      * rewrite Hok, Ec2, Ep2, En2, Ee2.
        split; [reflexivity |]. split; [assumption |].
        do 3 (split; [assumption |]). split.
        -- unfold entries. rewrite Emru, Emrug, Elg. lia.
        -- rewrite Ec, Ep in Hexit. exact Hexit.
    + cbn [fst snd]. split; [reflexivity |]. split; [assumption |].
      do 4 (split; [reflexivity |]). right. lia.
Qed.

Ltac arc_norm :=
  repeat (unfold get_obj; arc_simpl; rewrite ?lookup_insert_eq; cbn [default id]).

Lemma arc_remove_shape (c : arc_t) (a : Z) (g : arc_state_id) :
  obj_state (get_obj c a) = Some g -> is_ghost g = true ->
  arc_hash c !! obj_key (get_obj c a) = Some a ->
  let c' := arc_remove c (obj_key (get_obj c a)) in
  arc_c c' = arc_c c /\ arc_p c' = arc_p c
  /\ arc_hash c' = delete (obj_key (get_obj c a)) (arc_hash c)
  /\ arc_needs_rebalance c' = arc_needs_rebalance c
  /\ (forall b, obj_size (get_obj c' b) = obj_size (get_obj c b)
                /\ obj_key (get_obj c' b) = obj_key (get_obj c b))
  /\ (forall b, b <> a -> get_obj c' b = get_obj c b)
  /\ (forall t, st_list (state_of c' t)
                = filter (fun b => b <> a) (st_list (state_of c t)))
  /\ (forall t, st_size (state_of c' t)
                = if decide (t = g)
                  then uint64_t (st_size (state_of c t) - obj_size (get_obj c a))
                  else st_size (state_of c t)).
Proof.
  intros Hst Hg Hidx. cbv zeta. unfold arc_remove. rewrite Hidx.
  change (get_obj (ht_delete c (obj_key (get_obj c a))) a) with (get_obj c a).
  rewrite Hst. unfold arc_move.
  change (get_obj (ht_delete c (obj_key (get_obj c a))) a) with (get_obj c a).
  rewrite Hst.
  assert (Hres : is_resident (Some g) = false) by (destruct g; discriminate || reflexivity).
  rewrite Hres. cbn [snd]. unfold release_ref, terminate_node_callback.
  arc_norm.
  destruct (obj_refs (default zero_object (arc_heap c !! a)) - 1 =? 0).
  all: arc_norm.
  all: rewrite ?delete_delete_eq.
  all: cbn [with_ptr].
  all: do 2 (split; [reflexivity |]).
  all: split; [reflexivity |].
  all: split; [reflexivity |].
  all: split;
    [ intros b; destruct (decide (b = a)) as [-> | Hne];
      [ rewrite !lookup_insert_eq | rewrite !lookup_insert_ne by congruence ];
      cbn [default id]; arc_simpl; split; reflexivity |].
  all: split; [intros b Hne; rewrite !lookup_insert_ne by congruence; reflexivity |].
  all: split; intros t; destruct t, g; try discriminate Hg; arc_simpl;
    repeat case_decide; try congruence; reflexivity.
Qed.

Lemma well_formed_b_true (c : arc_t) : well_formed_b c = true -> well_formed c.
Proof.
  unfold well_formed_b. intros H. apply bool_decide_eq_true_1 in H as [Hall Htot].
  assert (Hs : forall s,
            Forall (fun a => obj_state (get_obj c a) = Some s
                             /\ 0 <= obj_size (get_obj c a)
                             /\ arc_hash c !! obj_key (get_obj c a) = Some a)
                   (st_list (state_of c s))
            /\ NoDup (st_list (state_of c s))
            /\ st_size (state_of c s) = total_size c (st_list (state_of c s))).
  { intros s. rewrite Forall_forall in Hall. apply Hall.
    destruct s; repeat constructor. }
  constructor; try exact Htot.
  - intros s a Ha. destruct (Hs s) as (Hf & _). rewrite Forall_forall in Hf.
    now apply Hf.
  - intros s. apply Hs.
  - intros s. apply Hs.
  - intros s a Ha. destruct (Hs s) as (Hf & _). rewrite Forall_forall in Hf.
    now apply Hf.
  - intros s a Ha. destruct (Hs s) as (Hf & _). rewrite Forall_forall in Hf.
    now apply Hf.
Qed.

(** One round of the second loop: the LRU object of a ghost list is
    removed from the cache. *)
Lemma remove_step (c : arc_t) (a : Z) (g : arc_state_id) :
  well_formed c -> is_ghost g = true -> a ∈ st_list (state_of c g) ->
  let c' := arc_remove c (obj_key (get_obj c a)) in
  well_formed c'
  /\ arc_c c' = arc_c c /\ arc_p c' = arc_p c
  /\ arc_needs_rebalance c' = arc_needs_rebalance c
  /\ S (length (st_list (state_of c' g))) = length (st_list (state_of c g))
  /\ (forall t, t <> g -> state_of c' t = state_of c t).
Proof.
  intros W Hg Ha.
  pose proof (wf_state c W g a Ha) as Hst.
  pose proof (wf_index c W g a Ha) as Hidx.
  destruct (arc_remove_shape c a g Hst Hg Hidx)
    as (Ec & Ep & Eh & En & Eobj & Eoth & Elist & Esize).
  cbv zeta in *. set (c' := arc_remove c (obj_key (get_obj c a))) in *. clearbody c'.
  set (sz := obj_size (get_obj c a)) in *.
  assert (Hsz0 : 0 <= sz) by (apply (wf_nonneg c W g a Ha)).
  assert (Hszs : sz <= st_size (state_of c g)).
  { rewrite (wf_size c W). apply total_size_elem; [| exact Ha].
    intros b Hb. now apply (wf_nonneg c W g). }
  assert (Hgb : st_size (state_of c g) < 2 ^ 64).
  { pose proof (wf_total c W).
    pose proof (sizes_nonneg c MRUG W). pose proof (sizes_nonneg c MRU W).
    pose proof (sizes_nonneg c MFU W). pose proof (sizes_nonneg c MFUG W).
    destruct g; cbn [state_of] in *; lia. }
  assert (Hkeep : forall t, t <> g ->
            filter (fun b => b <> a) (st_list (state_of c t)) = st_list (state_of c t)).
  { intros t Ht. apply filter_not_elem. now apply (not_linked_elsewhere c a g t). }
  destruct (total_size_unlink c a (st_list (state_of c g)) (wf_nodup c W g) Ha)
    as [Eunl Elen].
  assert (Esg : st_size (state_of c' g) = st_size (state_of c g) - sz).
  { rewrite Esize. destruct (decide (g = g)); [| congruence].
    unfold uint64_t. apply Z.mod_small. lia. }
  assert (Eso : forall t, t <> g -> st_size (state_of c' t) = st_size (state_of c t)).
  { intros t H1. rewrite Esize. destruct (decide (t = g)); congruence. }
  assert (Elo : forall t, t <> g -> st_list (state_of c' t) = st_list (state_of c t)).
  { intros t H1. rewrite Elist. now apply Hkeep. }
  assert (Etot : forall l, total_size c' l = total_size c l).
  { intros l. apply total_size_ext. intros b _. apply Eobj. }
  assert (Hin : forall t b, b ∈ st_list (state_of c' t) ->
            b <> a /\ b ∈ st_list (state_of c t)).
  { intros t b Hb. rewrite Elist in Hb. now apply list_elem_of_filter in Hb. }
  split; [| split; [assumption |]; split; [assumption |]; split; [assumption |]; split].
  - constructor.
    + intros t b Hb. destruct (Hin t b Hb) as [Hne Hb'].
      rewrite Eoth by assumption. now apply (wf_state c W).
    + intros t. rewrite Elist. apply NoDup_filter, (wf_nodup c W).
    + intros t. rewrite Etot. destruct (decide (t = g)) as [-> | Htg].
      * rewrite Esg, Elist, Eunl. rewrite (wf_size c W g). reflexivity.
      * rewrite Eso, Elo by assumption. apply (wf_size c W).
    + intros t b Hb. destruct (Eobj b) as [-> _]. destruct (Hin t b Hb) as [Hne Hb'].
      now apply (wf_nonneg c W t).
    + intros t b Hb. destruct (Eobj b) as [_ ->]. destruct (Hin t b Hb) as [Hne Hb'].
      rewrite Eh. pose proof (wf_index c W t b Hb') as Hb_idx.
      rewrite lookup_delete_ne; [exact Hb_idx |].
      intros Hk. rewrite <- Hk, Hidx in Hb_idx. congruence.
    + pose proof (wf_total c W) as Htot.
      change (st_size (state_of c MRUG) + st_size (state_of c MRU)
              + st_size (state_of c MFU) + st_size (state_of c MFUG) < 2 ^ 64) in Htot.
      change (st_size (state_of c' MRUG) + st_size (state_of c' MRU)
              + st_size (state_of c' MFU) + st_size (state_of c' MFUG) < 2 ^ 64).
      destruct g; try discriminate Hg.
      * rewrite Esg, (Eso MRU), (Eso MFU), (Eso MFUG) by congruence. lia.
      * rewrite Esg, (Eso MRU), (Eso MFU), (Eso MRUG) by congruence. lia.
  - rewrite Elist. exact Elen.
  - intros t H1. specialize (Elo t H1). specialize (Eso t H1).
    destruct (state_of c' t), (state_of c t). cbn in *. congruence.
Qed.

(** The second loop on a well-formed cache: with fuel above the number of
    ghosts it comes to its end and leaves MRU and MFU as they were. *)
Lemma balance_ghosts_keeps (fuel : nat) (c : arc_t) :
  well_formed c -> 0 <= arc_p c ->
  (length (st_list (arc_mrug c)) + length (st_list (arc_mfug c)) < fuel)%nat ->
  let c' := fst (balance_ghosts fuel c) in
  snd (balance_ghosts fuel c) = true
  /\ well_formed c'
  /\ arc_c c' = arc_c c /\ arc_p c' = arc_p c
  /\ arc_needs_rebalance c' = arc_needs_rebalance c
  /\ arc_mru c' = arc_mru c /\ arc_mfu c' = arc_mfu c.
Proof.
  revert c. induction fuel as [| fuel IH]; intros c W Hp Hfuel; [lia |].
  cbv zeta. cbn [balance_ghosts].
  destruct (uint64_t (st_size (arc_mrug c) + st_size (arc_mfug c)) >? arc_c c).
  2:{ cbn [fst snd]. split; [reflexivity |]. split; [assumption |].
      repeat split. }
  pose proof (sizes_nonneg c MRUG W) as Hm0. cbn [state_of] in Hm0.
  destruct (Z.gtb_spec (st_size (arc_mfug c)) (arc_p c)) as [Hmfug | Hmfug].
  - destruct (lru_of_nonempty c MFUG (arc_p c) W Hp) as (a & Hl & Ha);
      [cbn [state_of]; lia |].
    cbn [state_of] in Hl. rewrite Hl.
    destruct (remove_step c a MFUG W eq_refl Ha) as (W' & Ec & Ep & En & El & Eo).
    cbv zeta in *. set (c1 := arc_remove c (obj_key (get_obj c a))) in *. clearbody c1.
    cbn [state_of] in El.
    pose proof (Eo MRU ltac:(congruence)) as Emru.
    pose proof (Eo MFU ltac:(congruence)) as Emfu.
    pose proof (Eo MRUG ltac:(congruence)) as Emrug.
    cbn [state_of] in Emru, Emfu, Emrug.
    destruct (IH c1 W') as (Hok & W2 & Ec2 & Ep2 & En2 & Em2 & Ef2).
    + lia.
    + rewrite Emrug. lia.
    + rewrite Hok, Ec2, Ep2, En2, Em2, Ef2. split; [reflexivity |].
      split; [assumption |]. repeat split; assumption.
  - destruct (Z.gtb_spec (st_size (arc_mrug c)) 0) as [Hmrug | Hmrug].
    + destruct (lru_of_nonempty c MRUG 0 W ltac:(lia)) as (a & Hl & Ha);
        [cbn [state_of]; lia |].
      cbn [state_of] in Hl. rewrite Hl.
      destruct (remove_step c a MRUG W eq_refl Ha) as (W' & Ec & Ep & En & El & Eo).
      cbv zeta in *. set (c1 := arc_remove c (obj_key (get_obj c a))) in *. clearbody c1.
      cbn [state_of] in El.
      pose proof (Eo MRU ltac:(congruence)) as Emru.
      pose proof (Eo MFU ltac:(congruence)) as Emfu.
      pose proof (Eo MFUG ltac:(congruence)) as Emfug.
      cbn [state_of] in Emru, Emfu, Emfug.
      destruct (IH c1 W') as (Hok & W2 & Ec2 & Ep2 & En2 & Em2 & Ef2).
      * lia.
      * rewrite Emfug. lia.
      * rewrite Hok, Ec2, Ep2, En2, Em2, Ef2. split; [reflexivity |].
        split; [assumption |]. repeat split; assumption.
    + cbn [fst snd]. split; [reflexivity |]. split; [assumption |]. repeat split.
Qed.

(** Balancing under the invariant of the data model.  On a cache that is
    [well_formed], every clause of it (the index holds every linked object
    under its key: the second loop removes its ghosts by key), whose marker
    [p] is within [0, C], with [needs_rebalance] set and nothing else at
    work, [arc_balance(size_hint)] runs to completion (fuel above the number
    of linked objects is enough) and on return the bytes in MRU and MFU are
    at most [C]: the first loop leaves either MRU + MFU + size_hint within
    [C], or MRU within [p] and MFU empty; the second loop and the flag do
    not touch MRU and MFU. *)
Theorem arc_balance_fits (fuel : nat) (c : arc_t) (size : Z) :
  well_formed c ->
  0 <= arc_p c <= arc_c c ->
  0 <= size ->
  st_size (arc_mru c) + st_size (arc_mfu c) + size < 2 ^ 64 ->
  arc_needs_rebalance c <> 0 ->
  (entries c < fuel)%nat ->
  let c' := fst (arc_balance fuel c size) in
  snd (arc_balance fuel c size) = true
  /\ st_size (arc_mru c') + st_size (arc_mfu c') <= arc_c c'
  /\ arc_c c' = arc_c c
  /\ (st_size (arc_mru c') + st_size (arc_mfu c') + size <= arc_c c
      \/ (st_size (arc_mru c') <= arc_p c /\ st_size (arc_mfu c') = 0))
  /\ well_formed c'.
Proof.
  intros W Hp Hsize Hsum Hflag Hfuel. cbv zeta. unfold arc_balance.
  destruct (Z.eqb_spec (arc_needs_rebalance c) 0) as [E | _]; [contradiction |].
  destruct (balance_resident_fits fuel c size W ltac:(lia) Hsize Hsum)
    as (Hok1 & W1 & Ec1 & Ep1 & En1 & Ee1 & Hexit).
  { unfold entries in Hfuel. lia. }
  cbv zeta in *.
  destruct (balance_resident fuel c size) as [c1 ok1]. cbn [fst snd] in *. subst ok1.
  destruct (balance_ghosts_keeps fuel c1 W1 ltac:(lia))
    as (Hok2 & W2 & Ec2 & Ep2 & En2 & Em2 & Ef2).
  { unfold entries in Hfuel, Ee1. lia. }
  cbv zeta in *.
  destruct (balance_ghosts fuel c1) as [c2 ok2]. cbn [fst snd] in *. subst ok2.
  assert (Hfinal : forall c3,
            arc_mru c3 = arc_mru c2 -> arc_mfu c3 = arc_mfu c2 ->
            arc_c c3 = arc_c c2 -> well_formed c3 ->
            st_size (arc_mru c3) + st_size (arc_mfu c3) <= arc_c c3
            /\ arc_c c3 = arc_c c
            /\ (st_size (arc_mru c3) + st_size (arc_mfu c3) + size <= arc_c c
                \/ (st_size (arc_mru c3) <= arc_p c /\ st_size (arc_mfu c3) = 0))
            /\ well_formed c3).
  { intros c3 E1 E2 E3 W3. rewrite E1, E2, E3, Em2, Ef2, Ec2, Ec1.
    split; [destruct Hexit; lia |]. split; [reflexivity |].
    split; [exact Hexit | exact W3]. }
  destruct (arc_needs_rebalance c2 =? 1); cbn [fst snd]; (split; [reflexivity |]).
  - apply Hfinal; try reflexivity.
    destruct W2. constructor; assumption.
  - apply Hfinal; auto.
Qed.

Lemma arc_balance_fits_witness :
  snd (arc_balance 8 two_frequent 200) = true
  /\ st_size (arc_mru (fst (arc_balance 8 two_frequent 200)))
     + st_size (arc_mfu (fst (arc_balance 8 two_frequent 200)))
     <= arc_c (fst (arc_balance 8 two_frequent 200))
  /\ arc_c (fst (arc_balance 8 two_frequent 200)) = arc_c two_frequent
  /\ (st_size (arc_mru (fst (arc_balance 8 two_frequent 200)))
      + st_size (arc_mfu (fst (arc_balance 8 two_frequent 200))) + 200
      <= arc_c two_frequent
      \/ (st_size (arc_mru (fst (arc_balance 8 two_frequent 200))) <= arc_p two_frequent
          /\ st_size (arc_mfu (fst (arc_balance 8 two_frequent 200))) = 0))
  /\ well_formed (fst (arc_balance 8 two_frequent 200)).
Proof.
  apply (arc_balance_fits 8 two_frequent 200).
  - apply well_formed_b_true. vm_compute. reflexivity.
  - vm_compute. split; discriminate.
  - lia.
  - vm_compute. reflexivity.
  - vm_compute. discriminate.
  - vm_compute. lia.
Defined.


(** ** Coherence over the calls of the interface *)

(** [arc_move] in terms of [unlink], [link] and [fetch_in]. *)
Lemma arc_move_unfold (c : arc_t) (a : Z) (state : option arc_state_id) :
  arc_move c a state
  = let os := obj_state (get_obj c a) in
    let c1 := match os with
              | Some s => unlink (match state with Some _ => adjust_p c s | None => c end) a s
              | None => c
              end in
    match state with
    | None =>
        (-1, let c2 := release_ref c1 a in
             if is_resident os then set_num_items c2 (uint64_t (arc_num_items c2 - 1))
             else c2)
    | Some st =>
        if is_ghost st then
          (0, let c2 := link (put_obj (evict_payload c1 a) a
                                (with_async (get_obj (evict_payload c1 a) a) 0)) a st in
              if is_resident os then set_num_items c2 (uint64_t (arc_num_items c2 - 1))
              else c2)
        else if negb (is_resident os) then fetch_in c1 a st
        else (0, mark_rebalance (link c1 a st))
    end.
Proof. reflexivity. Qed.

Lemma same_shape_refl (c : arc_t) : same_shape c c.
Proof. do 5 (split; [reflexivity |]). intros b. auto. Qed.

Lemma same_shape_trans (c1 c2 c3 : arc_t) :
  same_shape c1 c2 -> same_shape c2 c3 -> same_shape c1 c3.
Proof.
  intros (Eh & Ec & En & Eo & Es & Eb) (Eh' & Ec' & En' & Eo' & Es' & Eb').
  split; [congruence |]. split; [congruence |]. split; [congruence |].
  split; [congruence |].
  split; [intros s; rewrite Es'; apply Es |].
  intros b. destruct (Eb b) as (B1 & B2 & B3). destruct (Eb' b) as (B1' & B2' & B3').
  split; [congruence |]. split; [congruence |].
  intros Hn. rewrite B3' by congruence. auto.
Qed.

Lemma same_shape_fields (c c' : arc_t) :
  arc_hash c' = arc_hash c -> arc_c c' = arc_c c -> arc_next c' = arc_next c ->
  arc_ops c' = arc_ops c ->
  arc_mrug c' = arc_mrug c -> arc_mru c' = arc_mru c ->
  arc_mfu c' = arc_mfu c -> arc_mfug c' = arc_mfug c ->
  arc_heap c' = arc_heap c ->
  same_shape c c'.
Proof.
  intros Eh Ec En Eo E1 E2 E3 E4 Ehp.
  do 4 (split; [assumption |]).
  split; [intros s; destruct s; assumption |].
  intros b. unfold get_obj. rewrite Ehp. auto.
Qed.

Lemma same_shape_put (c : arc_t) (a : Z) (o : arc_object_t) :
  obj_state o = obj_state (get_obj c a) -> obj_key o = obj_key (get_obj c a) ->
  (obj_state (get_obj c a) <> None -> obj_size o = obj_size (get_obj c a)) ->
  same_shape c (put_obj c a o).
Proof.
  intros Hs Hk Hz. do 4 (split; [reflexivity |]).
  split; [intros s; destruct s; reflexivity |].
  intros b. destruct (decide (a = b)) as [<- | Hne].
  - rewrite get_put_eq. auto.
  - rewrite get_put_ne by assumption. auto.
Qed.

Lemma sizes_states (c c' : arc_t) :
  (forall s, st_size (state_of c' s) = st_size (state_of c s)) -> sizes c' = sizes c.
Proof.
  intros E. unfold sizes.
  pose proof (E MRUG) as E1. pose proof (E MRU) as E2.
  pose proof (E MFU) as E3. pose proof (E MFUG) as E4.
  cbn [state_of] in E1, E2, E3, E4. lia.
Qed.

Lemma entries_states (c c' : arc_t) :
  (forall s, length (st_list (state_of c' s)) = length (st_list (state_of c s))) ->
  entries c' = entries c.
Proof.
  intros E. unfold entries.
  pose proof (E MRUG) as E1. pose proof (E MRU) as E2.
  pose proof (E MFU) as E3. pose proof (E MFUG) as E4.
  cbn [state_of] in E1, E2, E3, E4. lia.
Qed.

Lemma same_shape_sizes (c c' : arc_t) :
  same_shape c c' -> sizes c' = sizes c /\ entries c' = entries c.
Proof.
  intros (_ & _ & _ & _ & Es & _). split.
  - apply sizes_states. intros s. now rewrite Es.
  - apply entries_states. intros s. now rewrite Es.
Qed.

Lemma coherent_frame (c c' : arc_t) :
  same_shape c c' -> 0 <= arc_p c' -> coherent c -> coherent c'.
Proof.
  intros (Eh & Ec & En & Eo & Est & Eobj) Hp [W L K F P C].
  assert (Elinked : forall s a, a ∈ st_list (state_of c s) ->
            obj_state (get_obj c a) <> None).
  { intros s a Ha. rewrite (wf_state c W s a Ha). discriminate. }
  assert (Etot : forall s, total_size c' (st_list (state_of c s))
                           = total_size c (st_list (state_of c s))).
  { intros s. apply total_size_ext. intros a Ha. apply Eobj. now apply (Elinked s). }
  constructor.
  - constructor.
    + intros s a Ha. rewrite Est in Ha. destruct (Eobj a) as (-> & _).
      now apply (wf_state c W).
    + intros s. rewrite Est. apply (wf_nodup c W).
    + intros s. rewrite Est, Etot. apply (wf_size c W).
    + intros s a Ha. rewrite Est in Ha. destruct (Eobj a) as (_ & _ & Es).
      rewrite Es by now apply (Elinked s). now apply (wf_nonneg c W s).
    + intros s a Ha. rewrite Est in Ha. destruct (Eobj a) as (_ & -> & _).
      rewrite Eh. now apply (wf_index c W s).
    + pose proof (wf_total c W) as Ht.
      pose proof (Est MRUG) as E1. pose proof (Est MRU) as E2.
      pose proof (Est MFU) as E3. pose proof (Est MFUG) as E4.
      cbn [state_of] in E1, E2, E3, E4. rewrite E1, E2, E3, E4. exact Ht.
  - intros a s Hs. rewrite Est. destruct (Eobj a) as (E & _). rewrite E in Hs. auto.
  - intros k a Hk. rewrite Eh in Hk. destruct (Eobj a) as (_ & -> & _). auto.
  - intros k a Hk. rewrite Eh in Hk. rewrite En. eauto.
  - exact Hp.
  - rewrite Ec. exact C.
Qed.

(** The marker is never negative. *)
Lemma adjust_p_shape (c : arc_t) (s : arc_state_id) :
  0 <= arc_p c -> 0 <= arc_c c ->
  same_shape c (adjust_p c s) /\ 0 <= arc_p (adjust_p c s)
  /\ arc_heap (adjust_p c s) = arc_heap c.
Proof.
  intros Hp Hc. split; [destruct s; apply same_shape_fields; reflexivity |].
  split; [| destruct s; reflexivity].
  destruct s; cbn [adjust_p set_p arc_p]; try assumption.
  - unfold MIN.
    match goal with |- context [uint64_t ?x] =>
      pose proof (Z.mod_pos_bound x (2 ^ 64) ltac:(lia)) as Hu; fold (uint64_t x) in Hu;
      destruct (Z.ltb_spec (arc_c c) (uint64_t x)) end; lia.
  - unfold MAX.
    match goal with |- context [uint64_t ?x] =>
      pose proof (Z.mod_pos_bound x (2 ^ 64) ltac:(lia)) as Hu; fold (uint64_t x) in Hu;
      destruct (Z.gtb_spec 0 (uint64_t x)) end; lia.
Qed.

(** What [unlink] and [link] do to the lists and the objects. *)
Lemma unlink_shape (c : arc_t) (a : Z) (s : arc_state_id) :
  let c' := unlink c a s in
  arc_hash c' = arc_hash c /\ arc_c c' = arc_c c /\ arc_p c' = arc_p c
  /\ arc_next c' = arc_next c /\ arc_ops c' = arc_ops c
  /\ get_obj c' a = with_state (get_obj c a) None
  /\ (forall b, b <> a -> get_obj c' b = get_obj c b)
  /\ (forall t, st_list (state_of c' t)
                = filter (fun b => b <> a) (st_list (state_of c t)))
  /\ (forall t, st_size (state_of c' t)
                = if decide (t = s)
                  then uint64_t (st_size (state_of c t) - obj_size (get_obj c a))
                  else st_size (state_of c t)).
Proof.
  cbv zeta. unfold unlink.
  do 5 (split; [destruct s; reflexivity |]).
  split; [rewrite get_put_eq; destruct s; reflexivity |].
  split; [intros b Hb; rewrite get_put_ne by congruence; destruct s; reflexivity |].
  split; intros t; destruct t, s; arc_simpl; repeat case_decide;
    try congruence; reflexivity.
Qed.

Lemma link_shape (c : arc_t) (a : Z) (st : arc_state_id) :
  let c' := link c a st in
  arc_hash c' = arc_hash c /\ arc_c c' = arc_c c /\ arc_p c' = arc_p c
  /\ arc_next c' = arc_next c /\ arc_ops c' = arc_ops c
  /\ get_obj c' a = with_state (get_obj c a) (Some st)
  /\ (forall b, b <> a -> get_obj c' b = get_obj c b)
  /\ (forall t, st_list (state_of c' t)
                = if decide (t = st) then a :: st_list (state_of c t)
                  else st_list (state_of c t))
  /\ (forall t, st_size (state_of c' t)
                = if decide (t = st)
                  then uint64_t (st_size (state_of c t) + obj_size (get_obj c a))
                  else st_size (state_of c t)).
Proof.
  cbv zeta. unfold link.
  do 5 (split; [destruct st; reflexivity |]).
  assert (Hg : forall b, get_obj
            (increase_size
               (put_obj (arc_list_prepend c a st) a
                  (with_state (get_obj (arc_list_prepend c a st) a) (Some st))) st
               (obj_size
                  (get_obj
                     (put_obj (arc_list_prepend c a st) a
                        (with_state (get_obj (arc_list_prepend c a st) a) (Some st))) a))) b
            = get_obj (put_obj c a (with_state (get_obj c a) (Some st))) b).
  { intros b. destruct st; reflexivity. }
  split; [rewrite Hg, get_put_eq; reflexivity |].
  split; [intros b Hb; rewrite Hg, get_put_ne by congruence; reflexivity |].
  split; intros t.
  - destruct t, st; arc_simpl; repeat case_decide; try congruence; reflexivity.
  - assert (Hs : obj_size (get_obj
                     (put_obj (arc_list_prepend c a st) a
                        (with_state (get_obj (arc_list_prepend c a st) a) (Some st))) a)
                 = obj_size (get_obj c a)).
    { rewrite get_put_eq. destruct st; reflexivity. }
    rewrite Hs.
    destruct t, st; arc_simpl; repeat case_decide; try congruence; reflexivity.
Qed.

Lemma coherent_not_linked (c : arc_t) (a : Z) :
  coherent c -> obj_state (get_obj c a) = None ->
  forall t, a ∉ st_list (state_of c t).
Proof.
  intros Co Hn t Hin. rewrite (wf_state c (co_wf c Co) t a Hin) in Hn. discriminate.
Qed.

(** An object leaves its list: the cache stays coherent, and the list is
    shorter by one. *)
Lemma coherent_unlink (c : arc_t) (a : Z) (s : arc_state_id) :
  coherent c -> obj_state (get_obj c a) = Some s ->
  let c' := unlink c a s in
  coherent c'
  /\ arc_hash c' = arc_hash c /\ arc_c c' = arc_c c /\ arc_ops c' = arc_ops c
  /\ obj_state (get_obj c' a) = None
  /\ obj_size (get_obj c' a) = obj_size (get_obj c a)
  /\ (forall b, obj_key (get_obj c' b) = obj_key (get_obj c b))
  /\ 0 <= obj_size (get_obj c a)
  /\ sizes c' = sizes c - obj_size (get_obj c a)
  /\ S (length (st_list (state_of c' s))) = length (st_list (state_of c s))
  /\ (forall t, t <> s -> state_of c' t = state_of c t).
Proof.
  intros Co Hst.
  destruct (unlink_shape c a s) as (Eh & Ec & Ep & En & Eo & Ea & Eoth & Elist & Esize).
  cbv zeta in *. set (c' := unlink c a s) in *. clearbody c'.
  destruct Co as [W L K F P C].
  pose proof (L a s Hst) as Ha.
  set (sz := obj_size (get_obj c a)) in *.
  assert (Hsz0 : 0 <= sz) by (apply (wf_nonneg c W s a Ha)).
  assert (Hszs : sz <= st_size (state_of c s)).
  { rewrite (wf_size c W). apply total_size_elem; [| exact Ha].
    intros b Hb. now apply (wf_nonneg c W s). }
  assert (Hsb : st_size (state_of c s) < 2 ^ 64).
  { pose proof (wf_total c W).
    pose proof (sizes_nonneg c MRUG W). pose proof (sizes_nonneg c MRU W).
    pose proof (sizes_nonneg c MFU W). pose proof (sizes_nonneg c MFUG W).
    destruct s; cbn [state_of] in *; lia. }
  assert (Hkeep : forall t, t <> s ->
            filter (fun b => b <> a) (st_list (state_of c t)) = st_list (state_of c t)).
  { intros t Ht. apply filter_not_elem. now apply (not_linked_elsewhere c a s t). }
  destruct (total_size_unlink c a (st_list (state_of c s)) (wf_nodup c W s) Ha)
    as [Eunl Elen].
  assert (Ess : st_size (state_of c' s) = st_size (state_of c s) - sz).
  { rewrite Esize. destruct (decide (s = s)); [| congruence].
    unfold uint64_t. apply Z.mod_small. lia. }
  assert (Eso : forall t, t <> s -> st_size (state_of c' t) = st_size (state_of c t)).
  { intros t H1. rewrite Esize. destruct (decide (t = s)); congruence. }
  assert (Elo : forall t, t <> s -> st_list (state_of c' t) = st_list (state_of c t)).
  { intros t H1. rewrite Elist. now apply Hkeep. }
  assert (Eobj : forall b, obj_size (get_obj c' b) = obj_size (get_obj c b)
                           /\ obj_key (get_obj c' b) = obj_key (get_obj c b)).
  { intros b. destruct (decide (b = a)) as [-> | Hne].
    - rewrite Ea. split; reflexivity.
    - rewrite Eoth by assumption. split; reflexivity. }
  assert (Etot : forall l, total_size c' l = total_size c l).
  { intros l. apply total_size_ext. intros b _. apply Eobj. }
  assert (Hin : forall t b, b ∈ st_list (state_of c' t) ->
            b <> a /\ b ∈ st_list (state_of c t)).
  { intros t b Hb. rewrite Elist in Hb. now apply list_elem_of_filter in Hb. }
  assert (Esum : sizes c' = sizes c - sz).
  { unfold sizes.
    change (st_size (state_of c' MRUG) + st_size (state_of c' MRU)
            + st_size (state_of c' MFU) + st_size (state_of c' MFUG)
            = st_size (state_of c MRUG) + st_size (state_of c MRU)
              + st_size (state_of c MFU) + st_size (state_of c MFUG) - sz).
    destruct s.
    - rewrite Ess, (Eso MRU), (Eso MFU), (Eso MFUG) by congruence. lia.
    - rewrite Ess, (Eso MRUG), (Eso MFU), (Eso MFUG) by congruence. lia.
    - rewrite Ess, (Eso MRUG), (Eso MRU), (Eso MFUG) by congruence. lia.
    - rewrite Ess, (Eso MRUG), (Eso MRU), (Eso MFU) by congruence. lia. }
  split.
  { constructor.
    - constructor.
      + intros t b Hb. destruct (Hin t b Hb) as [Hne Hb'].
        rewrite Eoth by assumption. now apply (wf_state c W).
      + intros t. rewrite Elist. apply NoDup_filter, (wf_nodup c W).
      + intros t. rewrite Etot. destruct (decide (t = s)) as [-> | Hts].
        * rewrite Ess, Elist, Eunl. rewrite (wf_size c W s). reflexivity.
        * rewrite Eso, Elo by assumption. apply (wf_size c W).
      + intros t b Hb. destruct (Eobj b) as [-> _]. destruct (Hin t b Hb) as [Hne Hb'].
        now apply (wf_nonneg c W t).
      + intros t b Hb. destruct (Eobj b) as [_ ->]. destruct (Hin t b Hb) as [Hne Hb'].
        rewrite Eh. now apply (wf_index c W t).
      + pose proof (wf_total c W) as Ht. fold (sizes c) in Ht. fold (sizes c').
        lia.
    - intros b t Hb. destruct (decide (b = a)) as [-> | Hne].
      + rewrite Ea in Hb. discriminate.
      + rewrite Eoth in Hb by assumption. rewrite Elist.
        apply list_elem_of_filter. split; [assumption | now apply L].
    - intros k b Hk. rewrite Eh in Hk. destruct (Eobj b) as [_ ->]. now apply K.
    - intros k b Hk. rewrite Eh in Hk. rewrite En. now apply (F k).
    - lia.
    - lia. }
  split; [assumption |]. split; [assumption |]. split; [assumption |].
  split; [rewrite Ea; reflexivity |].
  split; [apply Eobj |].
  split; [intros b; apply Eobj |].
  split; [assumption |]. split; [assumption |].
  split; [rewrite Elist; exact Elen |].
  intros t Ht. specialize (Elo t Ht). specialize (Eso t Ht).
  destruct (state_of c' t), (state_of c t). cbn [st_size st_list] in *. congruence.
Qed.

(** An object that is in no list enters one: the cache stays coherent when
    the index has the object under its key and the sizes do not overflow. *)
Lemma coherent_link (c : arc_t) (a : Z) (st : arc_state_id) :
  coherent c -> obj_state (get_obj c a) = None ->
  arc_hash c !! obj_key (get_obj c a) = Some a ->
  0 <= obj_size (get_obj c a) ->
  sizes c + obj_size (get_obj c a) < 2 ^ 64 ->
  let c' := link c a st in
  coherent c'
  /\ arc_hash c' = arc_hash c /\ arc_c c' = arc_c c /\ arc_ops c' = arc_ops c
  /\ obj_state (get_obj c' a) = Some st
  /\ (forall b, obj_key (get_obj c' b) = obj_key (get_obj c b))
  /\ sizes c' = sizes c + obj_size (get_obj c a)
  /\ length (st_list (state_of c' st)) = S (length (st_list (state_of c st)))
  /\ (forall t, t <> st -> st_list (state_of c' t) = st_list (state_of c t)).
Proof.
  intros Co Hst Hidx Hsz0 Hfit.
  destruct (link_shape c a st) as (Eh & Ec & Ep & En & Eo & Ea & Eoth & Elist & Esize).
  cbv zeta in *. set (c' := link c a st) in *. clearbody c'.
  pose proof (coherent_not_linked c a Co Hst) as Hfree.
  destruct Co as [W L K F P C].
  set (sz := obj_size (get_obj c a)) in *.
  pose proof (sizes_nonneg c MRUG W) as N1. pose proof (sizes_nonneg c MRU W) as N2.
  pose proof (sizes_nonneg c MFU W) as N3. pose proof (sizes_nonneg c MFUG W) as N4.
  assert (Hstb : st_size (state_of c st) + sz < 2 ^ 64).
  { unfold sizes in Hfit. destruct st; cbn [state_of] in *; lia. }
  assert (Ess : st_size (state_of c' st) = st_size (state_of c st) + sz).
  { rewrite Esize. destruct (decide (st = st)); [| congruence].
    unfold uint64_t. apply Z.mod_small.
    pose proof (sizes_nonneg c st W). lia. }
  assert (Eso : forall t, t <> st -> st_size (state_of c' t) = st_size (state_of c t)).
  { intros t H1. rewrite Esize. destruct (decide (t = st)); congruence. }
  assert (Els : st_list (state_of c' st) = a :: st_list (state_of c st)).
  { rewrite Elist. destruct (decide (st = st)); congruence. }
  assert (Elo : forall t, t <> st -> st_list (state_of c' t) = st_list (state_of c t)).
  { intros t H1. rewrite Elist. destruct (decide (t = st)); congruence. }
  assert (Eobj : forall b, obj_size (get_obj c' b) = obj_size (get_obj c b)
                           /\ obj_key (get_obj c' b) = obj_key (get_obj c b)).
  { intros b. destruct (decide (b = a)) as [-> | Hne].
    - rewrite Ea. split; reflexivity.
    - rewrite Eoth by assumption. split; reflexivity. }
  assert (Etot : forall l, total_size c' l = total_size c l).
  { intros l. apply total_size_ext. intros b _. apply Eobj. }
  assert (Hin : forall t b, b ∈ st_list (state_of c' t) ->
            (b = a /\ t = st) \/ (b <> a /\ b ∈ st_list (state_of c t))).
  { intros t b Hb. rewrite Elist in Hb.
    destruct (decide (t = st)) as [-> | Hne].
    - apply elem_of_cons in Hb as [-> | Hb]; [now left | right].
      split; [| assumption]. intros ->. now apply (Hfree st).
    - right. split; [| assumption]. intros ->. now apply (Hfree t). }
  assert (Esum : sizes c' = sizes c + sz).
  { unfold sizes.
    change (st_size (state_of c' MRUG) + st_size (state_of c' MRU)
            + st_size (state_of c' MFU) + st_size (state_of c' MFUG)
            = st_size (state_of c MRUG) + st_size (state_of c MRU)
              + st_size (state_of c MFU) + st_size (state_of c MFUG) + sz).
    destruct st.
    - rewrite Ess, (Eso MRU), (Eso MFU), (Eso MFUG) by congruence. lia.
    - rewrite Ess, (Eso MRUG), (Eso MFU), (Eso MFUG) by congruence. lia.
    - rewrite Ess, (Eso MRUG), (Eso MRU), (Eso MFUG) by congruence. lia.
    - rewrite Ess, (Eso MRUG), (Eso MRU), (Eso MFU) by congruence. lia. }
  split.
  { constructor.
    - constructor.
      + intros t b Hb. destruct (Hin t b Hb) as [[-> ->] | [Hne Hb']].
        * rewrite Ea. reflexivity.
        * rewrite Eoth by assumption. now apply (wf_state c W).
      + intros t. destruct (decide (t = st)) as [-> | Hne].
        * rewrite Els. apply NoDup_cons. split; [apply Hfree | apply (wf_nodup c W)].
        * rewrite Elo by assumption. apply (wf_nodup c W).
      + intros t. rewrite Etot. destruct (decide (t = st)) as [-> | Hne].
        * rewrite Ess, Els. cbn [total_size foldr]. fold (total_size c (st_list (state_of c st))).
          rewrite (wf_size c W st). fold sz. lia.
        * rewrite Eso, Elo by assumption. apply (wf_size c W).
      + intros t b Hb. destruct (Eobj b) as [-> _].
        destruct (Hin t b Hb) as [[-> ->] | [Hne Hb']]; [exact Hsz0 |].
        now apply (wf_nonneg c W t).
      + intros t b Hb. destruct (Eobj b) as [_ ->]. rewrite Eh.
        destruct (Hin t b Hb) as [[-> ->] | [Hne Hb']]; [exact Hidx |].
        now apply (wf_index c W t).
      + fold (sizes c'). lia.
    - intros b t Hb. destruct (decide (b = a)) as [-> | Hne].
      + rewrite Ea in Hb. cbn [with_state obj_state] in Hb. injection Hb as <-.
        rewrite Els. apply list_elem_of_here.
      + rewrite Eoth in Hb by assumption. pose proof (L b t Hb) as Hb'.
        rewrite Elist. destruct (decide (t = st)); [now apply list_elem_of_further | assumption].
    - intros k b Hk. rewrite Eh in Hk. destruct (Eobj b) as [_ ->]. now apply K.
    - intros k b Hk. rewrite Eh in Hk. rewrite En. now apply (F k).
    - lia.
    - lia. }
  split; [assumption |]. split; [assumption |]. split; [assumption |].
  split; [rewrite Ea; reflexivity |].
  split; [intros b; apply Eobj |].
  split; [assumption |].
  split; [rewrite Els; reflexivity |].
  exact Elo.
Qed.

(** A key whose entry is in no list leaves the index. *)
Lemma coherent_ht_delete (c : arc_t) (k : bytes) :
  coherent c ->
  (forall a, arc_hash c !! k = Some a -> obj_state (get_obj c a) = None) ->
  coherent (ht_delete c k).
Proof.
  intros Co Hk. pose proof Co as [W L K F P C].
  constructor; [constructor | ..].
  - apply (wf_state c W).
  - apply (wf_nodup c W).
  - apply (wf_size c W).
  - apply (wf_nonneg c W).
  - intros s a Ha. cbn [ht_delete set_hash arc_hash].
    change (get_obj (ht_delete c k) a) with (get_obj c a).
    pose proof (wf_index c W s a Ha) as Hi.
    rewrite lookup_delete_ne; [exact Hi |].
    intros E. rewrite <- E in Hi. specialize (Hk a Hi).
    rewrite (wf_state c W s a Ha) in Hk. discriminate.
  - apply (wf_total c W).
  - exact L.
  - intros k' a Ha. cbn [ht_delete set_hash arc_hash] in Ha.
    apply lookup_delete_Some in Ha as [_ Ha]. now apply K.
  - intros k' a Ha. cbn [ht_delete set_hash arc_hash] in Ha.
    apply lookup_delete_Some in Ha as [_ Ha]. now apply (F k').
  - exact P.
  - exact C.
Qed.

(** What [release_ref] leaves as it was, whether it ends the object or
    not. *)
Lemma release_ref_shape (c : arc_t) (a : Z) :
  obj_state (get_obj c a) = None ->
  (same_shape c (release_ref c a)
   \/ same_shape (ht_delete c (obj_key (get_obj c a))) (release_ref c a))
  /\ arc_p (release_ref c a) = arc_p c.
Proof.
  intros Hst. unfold release_ref.
  destruct (obj_refs (get_obj c a) - 1 =? 0).
  - split; [right | reflexivity].
    unfold terminate_node_callback. rewrite !get_put_eq.
    cbn [with_refs obj_key].
    split; [reflexivity |]. split; [reflexivity |]. split; [reflexivity |].
    split; [reflexivity |].
    split; [intros s; destruct s; reflexivity |].
    intros b.
    match goal with |- context [get_obj (log_event (put_obj ?x a ?o) ?e) b] =>
      change (get_obj (log_event (put_obj x a o) e) b) with (get_obj (put_obj x a o) b)
    end.
    change (get_obj (ht_delete c (obj_key (get_obj c a))) b) with (get_obj c b).
    destruct (decide (a = b)) as [<- | Hne].
    + rewrite get_put_eq. cbn [with_state with_ptr obj_state obj_key obj_size].
      unfold destroy_payload, ht_delete, set_hash, get_obj. cbn [arc_heap put_obj set_heap].
      rewrite lookup_insert_eq. cbn [default id with_refs obj_key obj_size].
      fold (get_obj c a). rewrite Hst. auto.
    + rewrite get_put_ne by assumption.
      unfold destroy_payload, ht_delete, set_hash, get_obj. cbn [arc_heap put_obj set_heap].
      rewrite lookup_insert_ne by assumption. auto.
  - split; [left | reflexivity].
    apply same_shape_put; reflexivity.
Qed.

(** The reference of an object that is in no list is given up: the cache
    stays coherent when the entry of the object's key is in no list. *)
Lemma coherent_release (c : arc_t) (a : Z) :
  coherent c -> obj_state (get_obj c a) = None ->
  (forall b, arc_hash c !! obj_key (get_obj c a) = Some b ->
             obj_state (get_obj c b) = None) ->
  coherent (release_ref c a).
Proof.
  intros Co Hst Hk. destruct (release_ref_shape c a Hst) as [[Hs | Hs] Ep].
  - apply (coherent_frame c); [exact Hs | rewrite Ep; apply (co_p c Co) | exact Co].
  - apply (coherent_frame (ht_delete c (obj_key (get_obj c a)))); [exact Hs | |].
    + rewrite Ep. apply (co_p c Co).
    + now apply coherent_ht_delete.
Qed.

Lemma release_ref_effect (c : arc_t) (a : Z) :
  obj_state (get_obj c a) = None ->
  let c' := release_ref c a in
  arc_c c' = arc_c c /\ arc_ops c' = arc_ops c /\ entries c' = entries c
  /\ obj_state (get_obj c' a) = None
  /\ (forall t, state_of c' t = state_of c t)
  /\ (forall k, arc_hash c !! k = None -> arc_hash c' !! k = None)
  /\ (forall b, obj_key (get_obj c' b) = obj_key (get_obj c b)).
Proof.
  intros Hst. cbv zeta.
  destruct (quiet_release_ref c a) as [_ Hq].
  destruct (release_ref_shape c a Hst) as [[Hs | Hs] _].
  - destruct Hs as (Eh & Ec & En & Eo & Es & Eb).
    split; [assumption |]. split; [assumption |].
    split; [apply entries_states; intros s; now rewrite Es |].
    split; [destruct (Eb a) as (-> & _); exact Hst |].
    split; [assumption |]. split; [assumption |].
    intros b. apply Eb.
  - destruct Hs as (Eh & Ec & En & Eo & Es & Eb).
    split; [assumption |]. split; [assumption |].
    split; [apply entries_states; intros s; now rewrite Es |].
    split; [destruct (Eb a) as (-> & _); exact Hst |].
    split; [intros t; rewrite Es; destruct t; reflexivity |].
    split; [assumption |].
    intros b. apply Eb.
Qed.

Lemma entries_one_more (c c' : arc_t) (st : arc_state_id) :
  length (st_list (state_of c' st)) = S (length (st_list (state_of c st))) ->
  (forall t, t <> st -> st_list (state_of c' t) = st_list (state_of c t)) ->
  entries c' = S (entries c).
Proof.
  intros E1 E2. unfold entries.
  destruct st; cbn [state_of] in E1.
  - pose proof (E2 MRU ltac:(congruence)) as A. pose proof (E2 MFU ltac:(congruence)) as B.
    pose proof (E2 MFUG ltac:(congruence)) as D. cbn [state_of] in A, B, D.
    rewrite A, B, D, E1. lia.
  - pose proof (E2 MRUG ltac:(congruence)) as A. pose proof (E2 MFU ltac:(congruence)) as B.
    pose proof (E2 MFUG ltac:(congruence)) as D. cbn [state_of] in A, B, D.
    rewrite A, B, D, E1. lia.
  - pose proof (E2 MRUG ltac:(congruence)) as A. pose proof (E2 MRU ltac:(congruence)) as B.
    pose proof (E2 MFUG ltac:(congruence)) as D. cbn [state_of] in A, B, D.
    rewrite A, B, D, E1. lia.
  - pose proof (E2 MRUG ltac:(congruence)) as A. pose proof (E2 MRU ltac:(congruence)) as B.
    pose proof (E2 MFU ltac:(congruence)) as D. cbn [state_of] in A, B, D.
    rewrite A, B, D, E1. lia.
Qed.

Lemma base_size_pos (o : arc_object_t) : 0 < ARC_OBJ_BASE_SIZE o.
Proof.
  unfold ARC_OBJ_BASE_SIZE, sizeof_arc_object_t.
  destruct (Z.of_nat (length (obj_key o)) <=? 32); lia.
Qed.

(** The fetch of an object that is in no list and that the index has under
    its key: whatever the backing store answers, the cache stays coherent;
    when the call fails the object is in no list and its key is out of the
    index. *)
Lemma fetch_in_coherent (c1 : arc_t) (a : Z) (st : arc_state_id) :
  coherent c1 -> obj_state (get_obj c1 a) = None ->
  arc_hash c1 !! obj_key (get_obj c1 a) = Some a ->
  (forall b k, 0 <= snd (op_fetch (arc_ops c1) b k)) ->
  sizes c1 + ARC_OBJ_BASE_SIZE (get_obj c1 a) + arc_c c1 <= 2 ^ 64 ->
  let r := fetch_in c1 a st in
  coherent (snd r) /\ arc_c (snd r) = arc_c c1 /\ arc_ops (snd r) = arc_ops c1
  /\ (entries (snd r) <= S (entries c1))%nat
  /\ obj_key (get_obj (snd r) a) = obj_key (get_obj c1 a)
  /\ (fst r <> 0 -> obj_state (get_obj (snd r) a) = None
                    /\ arc_hash (snd r) !! obj_key (get_obj c1 a) = None)
  /\ sizes (snd r) <= sizes c1 + ARC_OBJ_BASE_SIZE (get_obj c1 a) + arc_c c1
  /\ ((arc_needs_rebalance (snd r) <> 0 /\ obj_state (get_obj (snd r) a) = Some st)
      \/ (forall t, state_of (snd r) t = state_of c1 t)).
Proof.
  intros Co Hst Hidx Hops Hfit. cbv zeta. unfold fetch_in.
  pose proof (base_size_pos (get_obj c1 a)) as Hbase.
  pose proof (co_c c1 Co) as Hc0.
  assert (Hsame : forall c', (forall t, state_of c' t = state_of c1 t) ->
            sizes c' <= sizes c1 + ARC_OBJ_BASE_SIZE (get_obj c1 a) + arc_c c1
            /\ ((arc_needs_rebalance c' <> 0 /\ obj_state (get_obj c' a) = Some st)
                \/ (forall t, state_of c' t = state_of c1 t))).
  { intros c' H. split; [| now right].
    rewrite (sizes_states c1 c') by (intros t; now rewrite H). lia. }
  pose proof (Hops a (obj_key (get_obj c1 a))) as Hsize.
  destruct (op_fetch (arc_ops c1) a (obj_key (get_obj c1 a))) as [rc size].
  cbn [snd] in Hsize.
  set (c2 := log_event c1 (EvFetch a rc size)).
  assert (S2 : same_shape c1 c2) by (apply same_shape_fields; reflexivity).
  assert (Co2 : coherent c2)
    by (apply (coherent_frame c1); [exact S2 | apply (co_p c1 Co) | exact Co]).
  change (get_obj c2 a) with (get_obj c1 a).
  set (key := obj_key (get_obj c1 a)) in *.
  assert (Co3 : coherent (ht_delete c2 key)).
  { apply coherent_ht_delete; [exact Co2 |].
    intros b Hb. change (arc_hash c1 !! key = Some b) in Hb.
    rewrite Hidx in Hb. injection Hb as <-. exact Hst. }
  assert (Hgone : forall c', (forall k, arc_hash (ht_delete c2 key) !! k = None ->
                                         arc_hash c' !! k = None) ->
                             arc_hash c' !! key = None).
  { intros c' H. apply H. cbn [ht_delete set_hash arc_hash]. apply lookup_delete_eq. }
  assert (Hrel : coherent (release_ref (ht_delete c2 key) a)).
  { apply coherent_release; [exact Co3 | exact Hst |].
    intros b Hb. change (obj_key (get_obj (ht_delete c2 key) a)) with key in Hb.
    cbn [ht_delete set_hash arc_hash] in Hb. rewrite lookup_delete_eq in Hb. discriminate. }
  destruct (release_ref_effect (ht_delete c2 key) a Hst) as (Rc & Ro & Re & Rs & Rst0 & Rh & Rk).
  cbv zeta in Rc, Ro, Re, Rs, Rst0, Rh, Rk.
  destruct (Z.eqb_spec rc 1) as [-> | Hrc1].
  { cbn [fst snd]. split; [exact Hrel |]. split; [exact Rc |]. split; [exact Ro |].
    split; [rewrite Re; change (entries (ht_delete c2 key)) with (entries c1); lia |].
    split; [apply Rk |].
    split; [intros H; congruence |].
    apply Hsame. intros t. rewrite Rst0. reflexivity. }
  destruct (Z.eqb_spec rc (-1)) as [-> | Hrc2].
  { cbn [fst snd]. split; [exact Hrel |]. split; [exact Rc |]. split; [exact Ro |].
    split; [rewrite Re; change (entries (ht_delete c2 key)) with (entries c1); lia |].
    split; [apply Rk |].
    split; [intros _; split; [exact Rs | now apply Hgone] |].
    apply Hsame. intros t. rewrite Rst0. reflexivity. }
  clear Hrel Rc Ro Re Rs Rst0 Rh Rk Co3 Hgone.
  destruct (Z.geb_spec size (arc_c c2)) as [Hbig | Hsmall].
  { (* the payload does not fit: the object stays out of the lists *)
    destruct (release_ref_effect c2 a Hst) as (Rc & Ro & Re & Rs & Rst & Rh & Rk).
    cbv zeta in Rc, Ro, Re, Rs, Rh, Rst, Rk.
    cbn [fst snd]. split.
    - apply (coherent_frame (release_ref c2 a)).
      + apply same_shape_fields; reflexivity.
      + destruct (release_ref_shape c2 a Hst) as [_ Ep]. cbn [set_num_items arc_p].
        rewrite Ep. apply (co_p c1 Co).
      + apply coherent_release; [exact Co2 | exact Hst |].
        intros b Hb. change (arc_hash c1 !! key = Some b) in Hb.
        rewrite Hidx in Hb. injection Hb as <-. exact Hst.
    - split; [exact Rc |]. split; [exact Ro |].
      split; [change (entries (set_num_items (release_ref c2 a)
                                 (uint64_t (arc_num_items (release_ref c2 a) + 1))))
                with (entries (release_ref c2 a)); rewrite Re;
              change (entries c2) with (entries c1); lia |].
      split; [apply Rk |].
      split; [intros H; congruence |].
      apply Hsame. intros t.
      change (state_of (set_num_items (release_ref c2 a)
                          (uint64_t (arc_num_items (release_ref c2 a) + 1))) t)
        with (state_of (release_ref c2 a) t).
      rewrite Rst. reflexivity. }
  (* the payload fits: the object is linked with its new size *)
  change (arc_c c2) with (arc_c c1) in Hsmall.
  set (newsz := uint64_t (ARC_OBJ_BASE_SIZE (get_obj c1 a) + size)).
  set (c2' := put_obj c2 a (with_size (get_obj c1 a) newsz)).
  assert (S2' : same_shape c2 c2').
  { apply same_shape_put; try reflexivity.
    change (get_obj c2 a) with (get_obj c1 a). rewrite Hst. congruence. }
  assert (Co2' : coherent c2')
    by (apply (coherent_frame c2); [exact S2' | apply (co_p c1 Co) | exact Co2]).
  assert (Hobj : get_obj c2' a = with_size (get_obj c1 a) newsz)
    by (subst c2'; apply get_put_eq).
  assert (Hnew : 0 <= newsz <= ARC_OBJ_BASE_SIZE (get_obj c1 a) + size).
  { subst newsz. unfold uint64_t. split.
    - apply Z.mod_pos_bound. lia.
    - apply Z.mod_le; lia. }
  destruct (same_shape_sizes c1 c2 S2) as [Z2 N2].
  destruct (same_shape_sizes c2 c2' S2') as [Z2' N2'].
  destruct (coherent_link c2' a st Co2') as (Co3 & Lh & Lc & Lo & Ls & Lk & Lz & Ll & Lt).
  { rewrite Hobj. exact Hst. }
  { rewrite Hobj. exact Hidx. }
  { rewrite Hobj. cbn [with_size obj_size]. lia. }
  { rewrite Hobj. cbn [with_size obj_size]. lia. }
  cbv zeta in Co3, Lh, Lc, Lo, Ls, Lk, Lz, Ll, Lt.
  pose proof (entries_one_more c2' (link c2' a st) st Ll Lt) as Ee.
  rewrite Hobj in Lz. cbn [with_size obj_size] in Lz.
  specialize (Lk a). rewrite Hobj in Lk. cbn [with_size obj_key] in Lk.
  set (c3 := link c2' a st) in *. clearbody c3.
  set (c4 := set_num_items (mark_rebalance c3)
               (uint64_t (arc_num_items (mark_rebalance c3) + 1))).
  assert (S4 : same_shape c3 c4) by (apply same_shape_fields; reflexivity).
  assert (G4 : get_obj c4 a = get_obj c3 a) by reflexivity.
  assert (F4 : arc_needs_rebalance c4 <> 0).
  { subst c4. cbn [set_num_items mark_rebalance set_needs_rebalance arc_needs_rebalance].
    destruct (Z.eqb_spec (arc_needs_rebalance c3) 0); lia. }
  destruct (same_shape_sizes c3 c4 S4) as [Z4 N4].
  assert (Co4 : coherent c4)
    by (apply (coherent_frame c3); [exact S4 | apply (co_p _ Co3) | exact Co3]).
  destruct S4 as (Fh & Fc & Fn & Fo & Fst & Fb).
  clearbody c4. cbn [fst snd].
  split; [exact Co4 |]. split; [rewrite Fc; exact Lc |]. split; [rewrite Fo; exact Lo |].
  split; [lia |].
  split; [rewrite G4; exact Lk |].
  split; [intros H; congruence |].
  split; [lia |].
  left. split; [exact F4 | rewrite G4; exact Ls].
Qed.

Lemma base_size_key (o o' : arc_object_t) :
  obj_key o' = obj_key o -> ARC_OBJ_BASE_SIZE o' = ARC_OBJ_BASE_SIZE o.
Proof. intros E. unfold ARC_OBJ_BASE_SIZE. now rewrite E. Qed.

(** A move to MRU or MFU of an object that the index has under its key. *)
Lemma arc_move_in_coherent (c : arc_t) (a : Z) (st : arc_state_id) :
  coherent c -> is_ghost st = false ->
  arc_hash c !! obj_key (get_obj c a) = Some a ->
  (forall b k, 0 <= snd (op_fetch (arc_ops c) b k)) ->
  sizes c + ARC_OBJ_BASE_SIZE (get_obj c a) + arc_c c <= 2 ^ 64 ->
  let r := arc_move c a (Some st) in
  coherent (snd r) /\ arc_c (snd r) = arc_c c /\ arc_ops (snd r) = arc_ops c
  /\ (entries (snd r) <= S (entries c))%nat
  /\ obj_key (get_obj (snd r) a) = obj_key (get_obj c a)
  /\ (fst r <> 0 -> obj_state (get_obj (snd r) a) = None
                    /\ arc_hash (snd r) !! obj_key (get_obj c a) = None)
  /\ sizes (snd r) <= sizes c + ARC_OBJ_BASE_SIZE (get_obj c a) + arc_c c
  /\ ((arc_needs_rebalance (snd r) <> 0 /\ obj_state (get_obj (snd r) a) = Some st)
      \/ (forall t, is_resident (Some t) = true ->
             state_of (snd r) t = state_of c t)).
Proof.
  intros Co Hg Hidx Hops Hfit. cbv zeta. rewrite arc_move_unfold. cbv zeta. rewrite Hg.
  destruct (obj_state (get_obj c a)) as [s |] eqn:Hst.
  2:{ cbn [is_resident negb].
      destruct (fetch_in_coherent c a st Co Hst Hidx Hops Hfit)
        as (F1 & F2 & F3 & F4 & F5 & F6 & F7 & F8).
      cbv zeta in F1, F2, F3, F4, F5, F6, F7, F8.
      do 7 (split; [assumption |]).
      destruct F8 as [F8 | F8]; [now left | right; intros t _; apply F8]. }
  destruct (adjust_p_shape c s (co_p c Co) (co_c c Co)) as (Sa & Pa & Ha).
  set (c0 := adjust_p c s) in *.
  assert (Co0 : coherent c0) by (apply (coherent_frame c); assumption).
  assert (G0 : forall b, get_obj c0 b = get_obj c b)
    by (intros b; unfold get_obj; now rewrite Ha).
  destruct (same_shape_sizes c c0 Sa) as [Z0 N0].
  destruct Sa as (Sh & Sc & Sn & So & Sst & Sb).
  clearbody c0.
  destruct (coherent_unlink c0 a s Co0) as (Co1 & Uh & Uc & Uo & Us & Uz & Uk & Uz0 & Usum & Ulen & Uoth).
  { rewrite G0. exact Hst. }
  cbv zeta in Co1, Uh, Uc, Uo, Us, Uz, Uk, Uz0, Usum, Ulen, Uoth.
  assert (Ee : entries c0 = S (entries (unlink c0 a s))).
  { apply (entries_one_more (unlink c0 a s) c0 s); [now rewrite Ulen |].
    intros t Ht. now rewrite Uoth. }
  set (c1 := unlink c0 a s) in *. clearbody c1.
  assert (Hidx1 : arc_hash c1 !! obj_key (get_obj c1 a) = Some a)
    by (rewrite Uk, G0, Uh, Sh; exact Hidx).
  destruct (is_resident (Some s)) eqn:Hres; cbn [negb].
  - (* between the resident lists: the object is linked again *)
    destruct (coherent_link c1 a st Co1 Us Hidx1) as (Co2 & Lh & Lc & Lo & Ls & Lk & Lz & Ll & Lt).
    { rewrite Uz. exact Uz0. }
    { rewrite Uz, Usum. pose proof (wf_total c (co_wf c Co)) as Ht.
      fold (sizes c) in Ht. lia. }
    cbv zeta in Co2, Lh, Lc, Lo, Ls, Lk, Lz, Ll, Lt.
    pose proof (entries_one_more c1 (link c1 a st) st Ll Lt) as Ee2.
    cbn [fst snd].
    set (c2 := link c1 a st) in *. clearbody c2.
    assert (S3 : same_shape c2 (mark_rebalance c2))
      by (apply same_shape_fields; reflexivity).
    destruct (same_shape_sizes c2 (mark_rebalance c2) S3) as [_ Em].
    split; [apply (coherent_frame c2); [exact S3 | apply (co_p _ Co2) | exact Co2] |].
    assert (F3 : arc_needs_rebalance (mark_rebalance c2) <> 0).
    { cbn [mark_rebalance set_needs_rebalance arc_needs_rebalance].
      destruct (Z.eqb_spec (arc_needs_rebalance c2) 0); lia. }
    destruct (same_shape_sizes c2 (mark_rebalance c2) S3) as [Zm _].
    pose proof (base_size_pos (get_obj c a)) as Hbase.
    pose proof (co_c c Co) as Hc0.
    destruct S3 as (Fh & Fc & Fn & Fo & Fst & Fb).
    split; [congruence |]. split; [congruence |].
    split; [lia |].
    split; [destruct (Fb a) as (_ & -> & _); rewrite Lk, Uk, G0; reflexivity |].
    split; [intros H; congruence |].
    split; [rewrite Zm, Lz, Uz, Usum; lia |].
    left. split; [exact F3 |]. destruct (Fb a) as (-> & _). exact Ls.
  - (* from a ghost list: the payload is fetched *)
    destruct (fetch_in_coherent c1 a st Co1 Us Hidx1)
      as (Co2 & Fc & Fo & Fe & Fk & Ff & Fz & Fd).
    { intros b k. rewrite Uo, So. apply Hops. }
    { rewrite (base_size_key (get_obj c a) (get_obj c1 a)) by (rewrite Uk, G0; reflexivity).
      rewrite Usum, Uc, Sc. lia. }
    cbv zeta in Co2, Fc, Fo, Fe, Fk, Ff, Fz, Fd.
    rewrite (base_size_key (get_obj c a) (get_obj c1 a)) in Fz
      by (rewrite Uk, G0; reflexivity).
    split; [exact Co2 |]. split; [congruence |]. split; [congruence |].
    split; [lia |].
    split; [rewrite Fk, Uk, G0; reflexivity |].
    split.
    { intros H. destruct (Ff H) as [F1 F2]. split; [exact F1 |].
      rewrite Uk, G0 in F2. exact F2. }
    split; [rewrite Usum, Uc, Sc in Fz; lia |].
    destruct Fd as [Fd | Fd]; [now left | right].
    intros t Ht. rewrite Fd, Uoth, Sst; [reflexivity |].
    intros ->. rewrite Ht in Hres. discriminate.
Qed.

(** The move of a linked object to a ghost list. *)
Lemma arc_move_ghost_coherent (c : arc_t) (a : Z) (s g : arc_state_id) :
  coherent c -> obj_state (get_obj c a) = Some s -> is_ghost g = true -> s <> g ->
  let c' := snd (arc_move c a (Some g)) in
  coherent c' /\ arc_c c' = arc_c c /\ arc_ops c' = arc_ops c
  /\ S (length (st_list (state_of c' s))) = length (st_list (state_of c s))
  /\ length (st_list (state_of c' g)) = S (length (st_list (state_of c g)))
  /\ (forall t, t <> s -> t <> g -> st_list (state_of c' t) = st_list (state_of c t)).
Proof.
  intros Co Hst Hg Hsg. cbv zeta. rewrite arc_move_unfold. cbv zeta.
  rewrite Hg, Hst. cbn [snd].
  pose proof (wf_index c (co_wf c Co) s a (co_linked c Co a s Hst)) as Hidx.
  destruct (adjust_p_shape c s (co_p c Co) (co_c c Co)) as (Sa & Pa & Ha).
  set (c0 := adjust_p c s) in *.
  assert (Co0 : coherent c0) by (apply (coherent_frame c); assumption).
  assert (G0 : forall b, get_obj c0 b = get_obj c b)
    by (intros b; unfold get_obj; now rewrite Ha).
  destruct (same_shape_sizes c c0 Sa) as [Z0 N0].
  destruct Sa as (Sh & Sc & Sn & So & Sst & Sb).
  clearbody c0.
  destruct (coherent_unlink c0 a s Co0) as (Co1 & Uh & Uc & Uo & Us & Uz & Uk & Uz0 & Usum & Ulen & Uoth).
  { rewrite G0. exact Hst. }
  cbv zeta in Co1, Uh, Uc, Uo, Us, Uz, Uk, Uz0, Usum, Ulen, Uoth.
  set (c1 := unlink c0 a s) in *. clearbody c1.
  set (c1e := put_obj (evict_payload c1 a) a (with_async (get_obj (evict_payload c1 a) a) 0)).
  assert (Se : same_shape c1 c1e).
  { apply (same_shape_trans c1 (evict_payload c1 a)).
    - apply same_shape_fields; reflexivity.
    - apply same_shape_put; reflexivity. }
  assert (Ge : get_obj c1e a = with_async (get_obj c1 a) 0) by (subst c1e; apply get_put_eq).
  assert (Coe : coherent c1e)
    by (apply (coherent_frame c1); [exact Se | | exact Co1];
        subst c1e; apply (co_p c1 Co1)).
  destruct (same_shape_sizes c1 c1e Se) as [Ze Ne].
  destruct Se as (Eh & Ec & En & Eo & Est & Eb).
  clearbody c1e.
  destruct (coherent_link c1e a g Coe) as (Co2 & Lh & Lc & Lo & Ls & Lk & Lz & Ll & Lt).
  { rewrite Ge. exact Us. }
  { rewrite Ge. cbn [with_async obj_key]. rewrite Eh, Uk, G0, Uh, Sh. exact Hidx. }
  { rewrite Ge. cbn [with_async obj_size]. rewrite Uz. exact Uz0. }
  { rewrite Ge. cbn [with_async obj_size]. rewrite Ze, Uz, Usum.
    pose proof (wf_total c (co_wf c Co)) as Ht. fold (sizes c) in Ht. lia. }
  cbv zeta in Co2, Lh, Lc, Lo, Ls, Lk, Lz, Ll, Lt.
  set (c2 := link c1e a g) in *. clearbody c2.
  assert (Hfinal : forall c3, same_shape c2 c3 -> arc_p c3 = arc_p c2 ->
            coherent c3 /\ arc_c c3 = arc_c c /\ arc_ops c3 = arc_ops c
            /\ S (length (st_list (state_of c3 s))) = length (st_list (state_of c s))
            /\ length (st_list (state_of c3 g)) = S (length (st_list (state_of c g)))
            /\ (forall t, t <> s -> t <> g ->
                  st_list (state_of c3 t) = st_list (state_of c t))).
  { intros c3 S3 P3. split.
    - apply (coherent_frame c2); [exact S3 | rewrite P3; apply (co_p c2 Co2) | exact Co2].
    - destruct S3 as (Fh & Fc & Fn & Fo & Fst & Fb).
      split; [congruence |]. split; [congruence |].
      split; [rewrite Fst, Lt, Est by congruence; rewrite <- (Sst s); exact Ulen |].
      split; [rewrite Fst, Ll, Est, Uoth, Sst by congruence; reflexivity |].
      intros t H1 H2. rewrite Fst, Lt, Est, Uoth, Sst by congruence. reflexivity. }
  destruct (is_resident (Some s)).
  - apply Hfinal; [apply same_shape_fields; reflexivity | reflexivity].
  - apply Hfinal; [apply same_shape_refl | reflexivity].
Qed.

Lemma unlink_ht_delete (c : arc_t) (a : Z) (s : arc_state_id) (k : bytes) :
  unlink (ht_delete c k) a s = ht_delete (unlink c a s) k.
Proof. reflexivity. Qed.

Lemma ht_delete_missing (c : arc_t) (k : bytes) :
  arc_hash c !! k = None -> ht_delete c k = c.
Proof.
  intros H. unfold ht_delete, set_hash. rewrite delete_id by exact H.
  destruct c; reflexivity.
Qed.

(** [arc_remove] of a key whose object is in a list: the object leaves the
    list and the index, and its reference is given up. *)
Lemma arc_remove_linked (c : arc_t) (key : bytes) (a : Z) (s : arc_state_id) :
  coherent c -> arc_hash c !! key = Some a -> obj_state (get_obj c a) = Some s ->
  let c' := arc_remove c key in
  coherent c' /\ arc_c c' = arc_c c /\ arc_ops c' = arc_ops c
  /\ arc_p c' = arc_p c
  /\ arc_hash c' !! key = None
  /\ obj_state (get_obj c' a) = None
  /\ sizes c' = sizes c - obj_size (get_obj c a)
  /\ S (length (st_list (state_of c' s))) = length (st_list (state_of c s))
  /\ (forall t, t <> s -> st_list (state_of c' t) = st_list (state_of c t))
  /\ arc_num_items c'
     = if is_resident (Some s) then uint64_t (arc_num_items c - 1) else arc_num_items c.
Proof.
  intros Co Hidx Hst. cbv zeta. unfold arc_remove. rewrite Hidx.
  change (get_obj (ht_delete c key) a) with (get_obj c a). rewrite Hst.
  rewrite arc_move_unfold. cbv zeta.
  change (get_obj (ht_delete c key) a) with (get_obj c a). rewrite Hst.
  cbn [snd]. rewrite unlink_ht_delete.
  pose proof (co_keys c Co key a Hidx) as Hkey.
  destruct (coherent_unlink c a s Co Hst)
    as (Co1 & Uh & Uc & Uo & Us & Uz & Uk & Uz0 & Usum & Ulen & Uoth).
  cbv zeta in Co1, Uh, Uc, Uo, Us, Uz, Uk, Uz0, Usum, Ulen, Uoth.
  assert (Up : arc_p (unlink c a s) = arc_p c) by (destruct s; reflexivity).
  assert (Un : arc_num_items (unlink c a s) = arc_num_items c) by (destruct s; reflexivity).
  set (c1 := unlink c a s) in *. clearbody c1.
  assert (Cod : coherent (ht_delete c1 key)).
  { apply coherent_ht_delete; [exact Co1 |].
    intros b Hb. rewrite Uh, Hidx in Hb. injection Hb as <-. exact Us. }
  assert (Dst : forall t, state_of (ht_delete c1 key) t = state_of c1 t) by reflexivity.
  assert (Dsz : sizes (ht_delete c1 key) = sizes c1) by reflexivity.
  assert (Dc : arc_c (ht_delete c1 key) = arc_c c1) by reflexivity.
  assert (Do : arc_ops (ht_delete c1 key) = arc_ops c1) by reflexivity.
  assert (Dp : arc_p (ht_delete c1 key) = arc_p c1) by reflexivity.
  assert (Dn : arc_num_items (ht_delete c1 key) = arc_num_items c1) by reflexivity.
  assert (Dg : forall b, get_obj (ht_delete c1 key) b = get_obj c1 b) by reflexivity.
  assert (Dh : arc_hash (ht_delete c1 key) !! key = None)
    by (cbn [ht_delete set_hash arc_hash]; apply lookup_delete_eq).
  set (cd := ht_delete c1 key) in *. clearbody cd.
  assert (Hsd : obj_state (get_obj cd a) = None) by (rewrite Dg; exact Us).
  assert (Cor : coherent (release_ref cd a)).
  { apply coherent_release; [exact Cod | exact Hsd |].
    intros b Hb. rewrite Dg, Uk, Hkey, Dh in Hb. discriminate. }
  destruct (release_ref_effect cd a Hsd) as (Rc & Ro & Re & Rs & Rst & Rh & Rk).
  destruct (release_ref_shape cd a Hsd) as [_ Rp].
  cbv zeta in Rc, Ro, Re, Rs, Rst, Rh, Rk.
  assert (Rn : arc_num_items (release_ref cd a) = arc_num_items cd).
  { unfold release_ref, terminate_node_callback.
    destruct (obj_refs (get_obj cd a) - 1 =? 0); reflexivity. }
  assert (Rsz : sizes (release_ref cd a) = sizes cd)
    by (apply sizes_states; intros t; now rewrite Rst).
  set (c2 := release_ref cd a) in *. clearbody c2.
  assert (Hfinal : forall c3, same_shape c2 c3 -> arc_p c3 = arc_p c2 ->
            coherent c3 /\ arc_c c3 = arc_c c /\ arc_ops c3 = arc_ops c
            /\ arc_p c3 = arc_p c
            /\ arc_hash c3 !! key = None
            /\ obj_state (get_obj c3 a) = None
            /\ sizes c3 = sizes c - obj_size (get_obj c a)
            /\ S (length (st_list (state_of c3 s))) = length (st_list (state_of c s))
            /\ (forall t, t <> s -> st_list (state_of c3 t) = st_list (state_of c t))).
  { intros c3 S3 P3. split.
    - apply (coherent_frame c2); [exact S3 | rewrite P3; apply (co_p c2 Cor) | exact Cor].
    - destruct (same_shape_sizes c2 c3 S3) as [Z3 _].
      destruct S3 as (Fh & Fc & Fn & Fo & Fst & Fb).
      split; [congruence |]. split; [congruence |]. split; [congruence |].
      split; [rewrite Fh; now apply Rh |].
      split; [destruct (Fb a) as (-> & _); exact Rs |].
      split; [lia |].
      split; [rewrite Fst, Rst, Dst; exact Ulen |].
      intros t Ht. rewrite Fst, Rst, Dst, Uoth by assumption. reflexivity. }
  destruct (is_resident (Some s)).
  - destruct (Hfinal (set_num_items c2 (uint64_t (arc_num_items c2 - 1))))
      as (H1 & H2 & H3 & H4 & H5 & H6 & H7 & H8 & H9);
      [apply same_shape_fields; reflexivity | reflexivity |].
    repeat (split; [assumption |]).
    cbn [set_num_items arc_num_items]. congruence.
  - destruct (Hfinal c2) as (H1 & H2 & H3 & H4 & H5 & H6 & H7 & H8 & H9);
      [apply same_shape_refl | reflexivity |].
    repeat (split; [assumption |]). congruence.
Qed.

(** [arc_remove] keeps a coherent cache coherent and takes the key out of
    the index. *)
Lemma arc_remove_keeps (c : arc_t) (key : bytes) :
  coherent c ->
  let c' := arc_remove c key in
  coherent c' /\ arc_c c' = arc_c c /\ arc_ops c' = arc_ops c /\ arc_p c' = arc_p c
  /\ arc_hash c' !! key = None.
Proof.
  intros Co. cbv zeta.
  destruct (arc_hash c !! key) as [a |] eqn:Hidx.
  - destruct (obj_state (get_obj c a)) as [s |] eqn:Hst.
    + destruct (arc_remove_linked c key a s Co Hidx Hst) as (H1 & H2 & H3 & H4 & H5 & _).
      do 4 (split; [assumption |]). assumption.
    + unfold arc_remove. rewrite Hidx.
      change (get_obj (ht_delete c key) a) with (get_obj c a). rewrite Hst.
      split; [| split; [reflexivity |]; split; [reflexivity |]; split; [reflexivity |]].
      * apply coherent_ht_delete; [exact Co |].
        intros b Hb. rewrite Hidx in Hb. injection Hb as <-. exact Hst.
      * cbn [ht_delete set_hash arc_hash]. apply lookup_delete_eq.
  - unfold arc_remove. rewrite Hidx. rewrite ht_delete_missing by exact Hidx.
    split; [assumption |]. do 3 (split; [reflexivity |]). assumption.
Qed.

(** The first loop of the balancing on a coherent cache: with fuel above
    the number of resident objects it comes to its end, whatever the
    sizes. *)
Lemma balance_resident_coherent (fuel : nat) (c : arc_t) (size : Z) :
  coherent c ->
  (length (st_list (arc_mru c)) + length (st_list (arc_mfu c)) < fuel)%nat ->
  let r := balance_resident fuel c size in
  snd r = true /\ coherent (fst r) /\ arc_c (fst r) = arc_c c
  /\ arc_ops (fst r) = arc_ops c /\ entries (fst r) = entries c.
Proof.
  revert c. induction fuel as [| fuel IH]; intros c Co Hfuel; [lia |].
  cbv zeta. cbn [balance_resident].
  destruct (uint64_t (st_size (arc_mru c) + st_size (arc_mfu c) + size) >? arc_c c).
  2:{ cbn [fst snd]. split; [reflexivity |]. split; [exact Co |].
      do 2 (split; [reflexivity |]). reflexivity. }
  pose proof (co_wf c Co) as W. pose proof (co_p c Co) as Hp.
  destruct (Z.gtb_spec (st_size (arc_mru c)) (arc_p c)) as [Hmru | Hmru].
  - destruct (lru_of_nonempty c MRU (arc_p c) W Hp) as (a & Hl & Ha);
      [cbn [state_of]; lia |].
    cbn [state_of] in Hl. rewrite Hl.
    destruct (arc_move_ghost_coherent c a MRU MRUG Co (wf_state c W MRU a Ha) eq_refl)
      as (Co1 & Ec & Eo & Es & Eg & Eoth); [congruence |].
    cbv zeta in Co1, Ec, Eo, Es, Eg, Eoth.
    set (c1 := snd (arc_move c a (Some MRUG))) in *. clearbody c1.
    cbn [state_of] in Es, Eg.
    pose proof (Eoth MFU ltac:(congruence) ltac:(congruence)) as Emfu.
    pose proof (Eoth MFUG ltac:(congruence) ltac:(congruence)) as Emfug.
    cbn [state_of] in Emfu, Emfug.
    destruct (IH c1 Co1) as (Hok & Co2 & Ec2 & Eo2 & Ee2); [rewrite Emfu; lia |].
    cbv zeta in Hok, Co2, Ec2, Eo2, Ee2.
    split; [exact Hok |]. split; [exact Co2 |].
    split; [congruence |]. split; [congruence |].
    rewrite Ee2. unfold entries. rewrite Emfu, Emfug, Eg. lia.
  - destruct (Z.gtb_spec (st_size (arc_mfu c)) 0) as [Hmfu | Hmfu].
    + destruct (lru_of_nonempty c MFU 0 W ltac:(lia)) as (a & Hl & Ha);
        [cbn [state_of]; lia |].
      cbn [state_of] in Hl. rewrite Hl.
      destruct (arc_move_ghost_coherent c a MFU MFUG Co (wf_state c W MFU a Ha) eq_refl)
        as (Co1 & Ec & Eo & Es & Eg & Eoth); [congruence |].
      cbv zeta in Co1, Ec, Eo, Es, Eg, Eoth.
      set (c1 := snd (arc_move c a (Some MFUG))) in *. clearbody c1.
      cbn [state_of] in Es, Eg.
      pose proof (Eoth MRU ltac:(congruence) ltac:(congruence)) as Emru.
      pose proof (Eoth MRUG ltac:(congruence) ltac:(congruence)) as Emrug.
      cbn [state_of] in Emru, Emrug.
      destruct (IH c1 Co1) as (Hok & Co2 & Ec2 & Eo2 & Ee2); [rewrite Emru; lia |].
      cbv zeta in Hok, Co2, Ec2, Eo2, Ee2.
      split; [exact Hok |]. split; [exact Co2 |].
      split; [congruence |]. split; [congruence |].
      rewrite Ee2. unfold entries. rewrite Emru, Emrug, Eg. lia.
    + cbn [fst snd]. split; [reflexivity |]. split; [exact Co |].
      do 2 (split; [reflexivity |]). reflexivity.
Qed.

(** The second loop on a coherent cache. *)
Lemma balance_ghosts_coherent (fuel : nat) (c : arc_t) :
  coherent c ->
  (length (st_list (arc_mrug c)) + length (st_list (arc_mfug c)) < fuel)%nat ->
  let r := balance_ghosts fuel c in
  snd r = true /\ coherent (fst r) /\ arc_c (fst r) = arc_c c
  /\ arc_ops (fst r) = arc_ops c.
Proof.
  revert c. induction fuel as [| fuel IH]; intros c Co Hfuel; [lia |].
  cbv zeta. cbn [balance_ghosts].
  destruct (uint64_t (st_size (arc_mrug c) + st_size (arc_mfug c)) >? arc_c c).
  2:{ cbn [fst snd]. split; [reflexivity |]. split; [exact Co |].
      split; reflexivity. }
  pose proof (co_wf c Co) as W. pose proof (co_p c Co) as Hp.
  destruct (Z.gtb_spec (st_size (arc_mfug c)) (arc_p c)) as [Hmfug | Hmfug].
  - destruct (lru_of_nonempty c MFUG (arc_p c) W Hp) as (a & Hl & Ha);
      [cbn [state_of]; lia |].
    cbn [state_of] in Hl. rewrite Hl.
    destruct (arc_remove_linked c (obj_key (get_obj c a)) a MFUG Co
                (wf_index c W MFUG a Ha) (wf_state c W MFUG a Ha))
      as (Co1 & Ec & Eo & _ & _ & _ & _ & Es & Eoth & _).
    cbv zeta in Co1, Ec, Eo, Es, Eoth.
    set (c1 := arc_remove c (obj_key (get_obj c a))) in *. clearbody c1.
    cbn [state_of] in Es.
    pose proof (Eoth MRUG ltac:(congruence)) as Emrug. cbn [state_of] in Emrug.
    destruct (IH c1 Co1) as (Hok & Co2 & Ec2 & Eo2); [rewrite Emrug; lia |].
    cbv zeta in Hok, Co2, Ec2, Eo2.
    split; [exact Hok |]. split; [exact Co2 |]. split; congruence.
  - destruct (Z.gtb_spec (st_size (arc_mrug c)) 0) as [Hmrug | Hmrug].
    + destruct (lru_of_nonempty c MRUG 0 W ltac:(lia)) as (a & Hl & Ha);
        [cbn [state_of]; lia |].
      cbn [state_of] in Hl. rewrite Hl.
      destruct (arc_remove_linked c (obj_key (get_obj c a)) a MRUG Co
                  (wf_index c W MRUG a Ha) (wf_state c W MRUG a Ha))
        as (Co1 & Ec & Eo & _ & _ & _ & _ & Es & Eoth & _).
      cbv zeta in Co1, Ec, Eo, Es, Eoth.
      set (c1 := arc_remove c (obj_key (get_obj c a))) in *. clearbody c1.
      cbn [state_of] in Es.
      pose proof (Eoth MFUG ltac:(congruence)) as Emfug. cbn [state_of] in Emfug.
      destruct (IH c1 Co1) as (Hok & Co2 & Ec2 & Eo2); [rewrite Emfug; lia |].
      cbv zeta in Hok, Co2, Ec2, Eo2.
      split; [exact Hok |]. split; [exact Co2 |]. split; congruence.
    + cbn [fst snd]. split; [reflexivity |]. split; [exact Co |]. split; reflexivity.
Qed.

(** [arc_balance] on a coherent cache runs to completion, with fuel above
    the number of linked objects, and leaves the cache coherent. *)
Lemma arc_balance_coherent (fuel : nat) (c : arc_t) (size : Z) :
  coherent c -> (entries c < fuel)%nat ->
  let r := arc_balance fuel c size in
  snd r = true /\ coherent (fst r) /\ arc_c (fst r) = arc_c c
  /\ arc_ops (fst r) = arc_ops c.
Proof.
  intros Co Hfuel. cbv zeta. unfold arc_balance.
  destruct (arc_needs_rebalance c =? 0).
  { cbn [fst snd]. split; [reflexivity |]. split; [exact Co |]. split; reflexivity. }
  destruct (balance_resident_coherent fuel c size Co) as (Hok1 & Co1 & Ec1 & Eo1 & Ee1).
  { unfold entries in Hfuel. lia. }
  cbv zeta in Hok1, Co1, Ec1, Eo1, Ee1.
  destruct (balance_resident fuel c size) as [c1 ok1]. cbn [fst snd] in *. subst ok1.
  destruct (balance_ghosts_coherent fuel c1 Co1) as (Hok2 & Co2 & Ec2 & Eo2).
  { unfold entries in Hfuel, Ee1. lia. }
  cbv zeta in Hok2, Co2, Ec2, Eo2.
  destruct (balance_ghosts fuel c1) as [c2 ok2]. cbn [fst snd] in *. subst ok2.
  destruct (arc_needs_rebalance c2 =? 1); cbn [fst snd].
  - split; [reflexivity |]. split.
    + apply (coherent_frame c2); [apply same_shape_fields; reflexivity | | exact Co2].
      apply (co_p c2 Co2).
    + split; cbn [set_needs_rebalance arc_c arc_ops]; congruence.
  - split; [reflexivity |]. split; [exact Co2 |]. split; congruence.
Qed.

(** The two ways through [arc_lookup]: the key is in the index, or it is
    not and an object is made for it (no other thread can have set the key
    in between, so [ht_set_if_not_exists] returns 0). *)
Lemma arc_lookup_found (retries fuel : nat) (c : arc_t) (key : bytes) (async a : Z) :
  arc_hash c !! key = Some a ->
  arc_lookup retries fuel c key async
  = let c0 := retain_ref c a in
    if negb (async =? 0) && negb (obj_async (get_obj c0 a) =? 0)
    then (Some a, c0, true)
    else
      let '(rc, c1) := arc_move c0 a (Some MFU) in
      if negb (rc =? 0) then (None, release_ref c1 a, true)
      else
        let '(c2, ok) := arc_balance fuel c1 (obj_size (get_obj c1 a)) in
        (Some a, c2, ok).
Proof. intros H. destruct retries; cbn [arc_lookup]; rewrite H; reflexivity. Qed.

Lemma arc_lookup_new (retries fuel : nat) (c : arc_t) (key : bytes) (async : Z) :
  arc_hash c !! key = None ->
  arc_lookup retries fuel c key async
  = let a := arc_next c in
    let '(rc, c6) := arc_move (fresh_entry c key async) a (Some MRU) in
    if rc =? 0 then
      let '(c7, ok) := arc_balance fuel c6 (obj_size (get_obj c6 a)) in
      (Some a, c7, ok)
    else (None, release_ref (release_ref (ht_delete c6 key) a) a, true).
Proof.
  intros H. destruct retries; cbn [arc_lookup]; rewrite H.
  all: cbn [arc_object_create]; unfold ht_set_if_not_exists.
  all: cbn [retain_ref put_obj set_heap set_next log_event arc_hash].
  all: rewrite H; reflexivity.
Qed.

(** A new object, retained and set in the index under a key that was not
    there: the cache stays coherent. *)
Lemma coherent_fresh_entry (c : arc_t) (key : bytes) (async : Z) :
  coherent c -> arc_hash c !! key = None ->
  let c' := fresh_entry c key async in
  coherent c'
  /\ arc_hash c' !! key = Some (arc_next c)
  /\ obj_key (get_obj c' (arc_next c)) = key
  /\ obj_state (get_obj c' (arc_next c)) = None
  /\ sizes c' = sizes c /\ entries c' = entries c
  /\ arc_c c' = arc_c c /\ arc_ops c' = arc_ops c.
Proof.
  intros Co Hnew. cbv zeta.
  assert (Eh : arc_hash (fresh_entry c key async) = <[key := arc_next c]> (arc_hash c))
    by reflexivity.
  assert (Est : forall t, state_of (fresh_entry c key async) t = state_of c t)
    by (intros t; destruct t; reflexivity).
  assert (En : arc_next (fresh_entry c key async) = arc_next c + 1) by reflexivity.
  assert (Ec : arc_c (fresh_entry c key async) = arc_c c) by reflexivity.
  assert (Ep : arc_p (fresh_entry c key async) = arc_p c) by reflexivity.
  assert (Eo : arc_ops (fresh_entry c key async) = arc_ops c) by reflexivity.
  assert (Ea : obj_state (get_obj (fresh_entry c key async) (arc_next c)) = None
               /\ obj_key (get_obj (fresh_entry c key async) (arc_next c)) = key).
  { unfold fresh_entry, arc_object_create, retain_ref, get_obj.
    cbn [arc_heap set_hash put_obj set_heap log_event set_next].
    rewrite !lookup_insert_eq. split; reflexivity. }
  assert (Eoth : forall b, b <> arc_next c ->
            get_obj (fresh_entry c key async) b = get_obj c b).
  { intros b Hb. unfold fresh_entry, arc_object_create, retain_ref, get_obj.
    cbn [arc_heap set_hash put_obj set_heap log_event set_next].
    rewrite !lookup_insert_ne by congruence. reflexivity. }
  destruct Ea as [Ea1 Ea2].
  set (c' := fresh_entry c key async) in *. clearbody c'.
  pose proof Co as [W L K F P C].
  assert (Hold : forall t b, b ∈ st_list (state_of c t) -> b <> arc_next c).
  { intros t b Hb. pose proof (F _ _ (wf_index c W t b Hb)). lia. }
  split.
  { constructor.
    - constructor.
      + intros t b Hb. rewrite Est in Hb. rewrite Eoth by now apply (Hold t).
        now apply (wf_state c W).
      + intros t. rewrite Est. apply (wf_nodup c W).
      + intros t. rewrite Est.
        rewrite (total_size_ext c c')
          by (intros b Hb; rewrite (Eoth b (Hold t b Hb)); reflexivity).
        apply (wf_size c W).
      + intros t b Hb. rewrite Est in Hb. rewrite Eoth by now apply (Hold t).
        now apply (wf_nonneg c W t).
      + intros t b Hb. rewrite Est in Hb. rewrite Eoth by now apply (Hold t).
        pose proof (wf_index c W t b Hb) as Hi. rewrite Eh.
        rewrite lookup_insert_ne; [exact Hi |].
        intros E. rewrite <- E, Hnew in Hi. discriminate.
      + pose proof (wf_total c W) as Ht. fold (sizes c) in Ht. fold (sizes c').
        rewrite (sizes_states c c') by (intros t; now rewrite Est). exact Ht.
    - intros b t Hb. destruct (decide (b = arc_next c)) as [-> | Hne].
      + rewrite Ea1 in Hb. discriminate.
      + rewrite Eoth in Hb by assumption. rewrite Est. now apply L.
    - intros k b Hk. rewrite Eh in Hk.
      destruct (decide (key = k)) as [<- | Hne].
      + rewrite lookup_insert_eq in Hk. injection Hk as <-. exact Ea2.
      + rewrite lookup_insert_ne in Hk by assumption.
        pose proof (F k b Hk). rewrite Eoth by lia. now apply K.
    - intros k b Hk. rewrite Eh in Hk. rewrite En.
      destruct (decide (key = k)) as [<- | Hne].
      + rewrite lookup_insert_eq in Hk. injection Hk as <-. lia.
      + rewrite lookup_insert_ne in Hk by assumption. pose proof (F k b Hk). lia.
    - rewrite Ep. exact P.
    - rewrite Ec. exact C. }
  split; [rewrite Eh; apply lookup_insert_eq |].
  split; [exact Ea2 |]. split; [exact Ea1 |].
  split; [apply sizes_states; intros t; now rewrite Est |].
  split; [apply entries_states; intros t; now rewrite Est |].
  split; assumption.
Qed.

Lemma base_size_bound (o : arc_object_t) :
  ARC_OBJ_BASE_SIZE o <= sizeof_arc_object_t + Z.of_nat (length (obj_key o)).
Proof.
  unfold ARC_OBJ_BASE_SIZE. destruct (Z.of_nat (length (obj_key o)) <=? 32); lia.
Qed.

(** [arc_lookup] on a coherent cache: the balancing runs to completion and
    the cache is coherent afterwards. *)
Lemma arc_lookup_keeps (retries fuel : nat) (c : arc_t) (key : bytes) (async : Z) :
  coherent c ->
  (forall b k, 0 <= snd (op_fetch (arc_ops c) b k)) ->
  sizes c + sizeof_arc_object_t + Z.of_nat (length key) + arc_c c <= 2 ^ 64 ->
  (S (entries c) < fuel)%nat ->
  let r := arc_lookup retries fuel c key async in
  coherent (snd (fst r)) /\ snd r = true
  /\ arc_c (snd (fst r)) = arc_c c /\ arc_ops (snd (fst r)) = arc_ops c.
Proof.
  intros Co Hops Hfit Hfuel. cbv zeta.
  destruct (arc_hash c !! key) as [a |] eqn:Hidx.
  - (* the key is in the index *)
    rewrite (arc_lookup_found retries fuel c key async a Hidx). cbv zeta.
    pose proof (co_keys c Co key a Hidx) as Hkey.
    assert (S0 : same_shape c (retain_ref c a)) by (apply same_shape_put; reflexivity).
    assert (Co0 : coherent (retain_ref c a))
      by (apply (coherent_frame c); [exact S0 | apply (co_p c Co) | exact Co]).
    assert (G0 : obj_key (get_obj (retain_ref c a) a) = key).
    { destruct S0 as (_ & _ & _ & _ & _ & Eb). destruct (Eb a) as (_ & -> & _). exact Hkey. }
    destruct (same_shape_sizes c (retain_ref c a) S0) as [Z0 N0].
    destruct S0 as (Sh & Sc & Sn & So & Sst & Sb).
    set (c0 := retain_ref c a) in *. clearbody c0.
    destruct (negb (async =? 0) && negb (obj_async (get_obj c0 a) =? 0)).
    { cbn [fst snd]. split; [exact Co0 |]. split; [reflexivity |]. split; assumption. }
    destruct (arc_move_in_coherent c0 a MFU Co0 eq_refl)
      as (Co1 & Mc & Mo & Me & Mk & Mf & _).
    { rewrite G0, Sh. exact Hidx. }
    { intros b k. rewrite So. apply Hops. }
    { pose proof (base_size_bound (get_obj c0 a)) as Hb. rewrite G0 in Hb.
      rewrite Z0, Sc. lia. }
    cbv zeta in Co1, Mc, Mo, Me, Mk, Mf.
    destruct (arc_move c0 a (Some MFU)) as [rc c1]. cbn [fst snd] in *.
    destruct (Z.eqb_spec rc 0) as [-> | Hrc]; cbn [negb].
    + destruct (arc_balance_coherent fuel c1 (obj_size (get_obj c1 a)) Co1)
        as (Hok & Co2 & Bc & Bo); [lia |].
      cbv zeta in Hok, Co2, Bc, Bo.
      destruct (arc_balance fuel c1 (obj_size (get_obj c1 a))) as [c2 ok].
      cbn [fst snd] in *. split; [exact Co2 |]. split; [exact Hok |]. split; congruence.
    + destruct (Mf Hrc) as [F1 F2]. cbn [fst snd].
      destruct (release_ref_effect c1 a F1) as (Rc & Ro & _).
      cbv zeta in Rc, Ro.
      split; [| split; [reflexivity |]; split; congruence].
      apply coherent_release; [exact Co1 | exact F1 |].
      intros b Hb. rewrite Mk, F2 in Hb. discriminate.
  - (* the key is new *)
    rewrite (arc_lookup_new retries fuel c key async Hidx). cbv zeta.
    destruct (coherent_fresh_entry c key async Co Hidx)
      as (Co5 & Fh & Fk & Fs & Fz & Fe & Fc & Fo).
    cbv zeta in Co5, Fh, Fk, Fs, Fz, Fe, Fc, Fo.
    set (c5 := fresh_entry c key async) in *. clearbody c5.
    set (a := arc_next c) in *. clearbody a.
    destruct (arc_move_in_coherent c5 a MRU Co5 eq_refl)
      as (Co6 & Mc & Mo & Me & Mk & Mf & _).
    { rewrite Fk. exact Fh. }
    { intros b k. rewrite Fo. apply Hops. }
    { pose proof (base_size_bound (get_obj c5 a)) as Hb. rewrite Fk in Hb.
      rewrite Fz, Fc. lia. }
    cbv zeta in Co6, Mc, Mo, Me, Mk, Mf.
    destruct (arc_move c5 a (Some MRU)) as [rc c6]. cbn [fst snd] in *.
    destruct (Z.eqb_spec rc 0) as [-> | Hrc].
    + destruct (arc_balance_coherent fuel c6 (obj_size (get_obj c6 a)) Co6)
        as (Hok & Co7 & Bc & Bo); [lia |].
      cbv zeta in Hok, Co7, Bc, Bo.
      destruct (arc_balance fuel c6 (obj_size (get_obj c6 a))) as [c7 ok].
      cbn [fst snd] in *. split; [exact Co7 |]. split; [exact Hok |]. split; congruence.
    + destruct (Mf Hrc) as [F1 F2]. cbn [fst snd]. rewrite Fk in F2, Mk.
      assert (Cod : coherent (ht_delete c6 key)).
      { apply coherent_ht_delete; [exact Co6 |]. intros b Hb. rewrite F2 in Hb. discriminate. }
      assert (Dg : forall b, get_obj (ht_delete c6 key) b = get_obj c6 b) by reflexivity.
      assert (Dh : arc_hash (ht_delete c6 key) !! key = None)
        by (cbn [ht_delete set_hash arc_hash]; apply lookup_delete_eq).
      assert (Dc : arc_c (ht_delete c6 key) = arc_c c6) by reflexivity.
      assert (Do : arc_ops (ht_delete c6 key) = arc_ops c6) by reflexivity.
      set (cd := ht_delete c6 key) in *. clearbody cd.
      assert (Hsd : obj_state (get_obj cd a) = None) by (rewrite Dg; exact F1).
      destruct (release_ref_effect cd a Hsd) as (Rc & Ro & _ & Rs & _ & Rh & Rk).
      cbv zeta in Rc, Ro, Rs, Rh, Rk.
      assert (Cor : coherent (release_ref cd a)).
      { apply coherent_release; [exact Cod | exact Hsd |].
        intros b Hb. rewrite Dg, Mk, Dh in Hb. discriminate. }
      set (c8 := release_ref cd a) in *. clearbody c8.
      destruct (release_ref_effect c8 a Rs) as (Rc' & Ro' & _).
      cbv zeta in Rc', Ro'.
      split; [| split; [reflexivity |]; split; congruence].
      apply coherent_release; [exact Cor | exact Rs |].
      intros b Hb. rewrite Rk, Dg, Mk in Hb. rewrite (Rh key Dh) in Hb. discriminate.
Qed.

(** A cache as [arc_create] makes it is coherent. *)
Lemma arc_create_coherent (ops : arc_ops_t) (c cos : Z) :
  0 <= c -> coherent (arc_create ops c cos).
Proof.
  intros Hc.
  assert (Hl : forall t, st_list (state_of (arc_create ops c cos) t) = [])
    by (intros t; destruct t; reflexivity).
  constructor; [constructor | ..].
  - intros t a Ha. rewrite Hl in Ha. now apply elem_of_nil in Ha.
  - intros t. rewrite Hl. constructor.
  - intros t. rewrite Hl. destruct t; reflexivity.
  - intros t a Ha. rewrite Hl in Ha. now apply elem_of_nil in Ha.
  - intros t a Ha. rewrite Hl in Ha. now apply elem_of_nil in Ha.
  - cbn. lia.
  - intros a s Hs. unfold get_obj in Hs. cbn [arc_create arc_heap] in Hs.
    rewrite lookup_empty in Hs. discriminate.
  - intros k a Hk. cbn [arc_create arc_hash] in Hk. rewrite lookup_empty in Hk. discriminate.
  - intros k a Hk. cbn [arc_create arc_hash] in Hk. rewrite lookup_empty in Hk. discriminate.
  - apply arc_create_p. exact Hc.
  - exact Hc.
Qed.

(** [arc_lookup] keeps a coherent cache coherent.  On a coherent cache
    whose backing store reports sizes that are not negative, with the bytes
    accounted for, one object header, the key and the capacity together
    within [size_t], a lookup runs its balancing to completion (fuel above
    the number of linked objects plus one is enough), leaves the capacity as
    it was and the cache coherent: every list still sums up to its size,
    every linked object is in one list and in the index under its key.  A
    handle that is returned is the object the index had for the key, or
    else the object made by this call. *)
Theorem arc_lookup_coherent (retries fuel : nat) (c : arc_t) (key : bytes) (async : Z) :
  coherent c ->
  (forall b k, 0 <= snd (op_fetch (arc_ops c) b k)) ->
  sizes c + sizeof_arc_object_t + Z.of_nat (length key) + arc_c c <= 2 ^ 64 ->
  (S (entries c) < fuel)%nat ->
  let r := arc_lookup retries fuel c key async in
  coherent (snd (fst r)) /\ snd r = true /\ arc_c (snd (fst r)) = arc_c c
  /\ (forall h, fst (fst r) = Some h ->
        arc_hash c !! key = Some h
        \/ (arc_hash c !! key = None /\ h = arc_next c)).
Proof.
  intros Co Hops Hfit Hfuel.
  destruct (arc_lookup_keeps retries fuel c key async Co Hops Hfit Hfuel)
    as (H1 & H2 & H3 & _).
  cbv zeta in *. split; [exact H1 |]. split; [exact H2 |]. split; [exact H3 |].
  intros h. destruct (arc_hash c !! key) as [a |] eqn:Hidx.
  - rewrite (arc_lookup_found retries fuel c key async a Hidx). cbv zeta.
    destruct (negb (async =? 0) && negb (obj_async (get_obj (retain_ref c a) a) =? 0)).
    { cbn [fst]. intros [= <-]. now left. }
    destruct (arc_move (retain_ref c a) a (Some MFU)) as [rc c1].
    destruct (negb (rc =? 0)); [cbn [fst]; discriminate |].
    destruct (arc_balance fuel c1 (obj_size (get_obj c1 a))) as [c2 ok].
    cbn [fst]. intros [= <-]. now left.
  - rewrite (arc_lookup_new retries fuel c key async Hidx). cbv zeta.
    destruct (arc_move (fresh_entry c key async) (arc_next c) (Some MRU)) as [rc c6].
    destruct (rc =? 0); [| cbn [fst]; discriminate].
    destruct (arc_balance fuel c6 (obj_size (get_obj c6 (arc_next c)))) as [c7 ok].
    cbn [fst]. intros [= <-]. now right.
Qed.

(** [arc_remove] keeps a coherent cache coherent and takes the key out of
    the index.  A key that is not in the index leaves the cache as it was.
    The object of a key that is in a list leaves that list, which gets
    shorter by one and lighter by the object's size, the other lists stay as
    they are, and the count of items goes down by one when the list was MRU
    or MFU. *)
Theorem arc_remove_coherent (c : arc_t) (key : bytes) :
  coherent c ->
  let c' := arc_remove c key in
  coherent c'
  /\ arc_hash c' !! key = None
  /\ (arc_hash c !! key = None -> c' = c)
  /\ (forall a s, arc_hash c !! key = Some a -> obj_state (get_obj c a) = Some s ->
        (forall t, a ∉ st_list (state_of c' t))
        /\ sizes c' = sizes c - obj_size (get_obj c a)
        /\ S (length (st_list (state_of c' s))) = length (st_list (state_of c s))
        /\ (forall t, t <> s -> st_list (state_of c' t) = st_list (state_of c t))
        /\ arc_num_items c'
           = if is_resident (Some s) then uint64_t (arc_num_items c - 1)
             else arc_num_items c).
Proof.
  intros Co. destruct (arc_remove_keeps c key Co) as (H1 & _ & _ & _ & H2).
  cbv zeta in *. split; [exact H1 |]. split; [exact H2 |]. split.
  - intros Hn. unfold arc_remove. rewrite Hn. now apply ht_delete_missing.
  - intros a s Hidx Hst.
    destruct (arc_remove_linked c key a s Co Hidx Hst)
      as (Co' & _ & _ & _ & _ & Hs & Hz & Hl & Ho & Hn).
    cbv zeta in *.
    split; [now apply coherent_not_linked |].
    split; [exact Hz |]. split; [exact Hl |]. split; [exact Ho | exact Hn].
Qed.

Lemma total_size_resize (c c' : arc_t) (a : Z) (l : list Z) :
  NoDup l ->
  (forall b, b <> a -> obj_size (get_obj c' b) = obj_size (get_obj c b)) ->
  total_size c' l
  = total_size c l
    + (if decide (a ∈ l) then obj_size (get_obj c' a) - obj_size (get_obj c a) else 0).
Proof.
  intros Hnd Hoth. induction l as [| b l IH].
  - cbn. destruct (decide (a ∈ [])) as [H | _]; [now apply elem_of_nil in H | reflexivity].
  - apply NoDup_cons in Hnd as [Hb Hnd]. specialize (IH Hnd).
    cbn [total_size foldr]. fold (total_size c l). fold (total_size c' l). rewrite IH.
    destruct (decide (b = a)) as [-> | Hne].
    + destruct (decide (a ∈ l)); [contradiction |].
      destruct (decide (a ∈ a :: l)) as [_ | H]; [lia |].
      exfalso. apply H. apply list_elem_of_here.
    + rewrite Hoth by assumption.
      destruct (decide (a ∈ l)) as [Hin | Hin].
      * destruct (decide (a ∈ b :: l)) as [_ | H]; [lia |].
        exfalso. apply H. now apply list_elem_of_further.
      * destruct (decide (a ∈ b :: l)) as [H | _]; [| lia].
        apply elem_of_cons in H as [-> | H]; [congruence | contradiction].
Qed.

Lemma arc_size_sum (c : arc_t) :
  well_formed c -> arc_size c = st_size (arc_mru c) + st_size (arc_mfu c).
Proof.
  intros W. unfold arc_size, uint64_t. apply Z.mod_small.
  pose proof (wf_total c W).
  pose proof (sizes_nonneg c MRUG W). pose proof (sizes_nonneg c MRU W).
  pose proof (sizes_nonneg c MFU W). pose proof (sizes_nonneg c MFUG W).
  cbn [state_of] in *. lia.
Qed.

(** What [arc_update_size] does for an object in MRU or MFU. *)
Lemma arc_update_size_shape (c : arc_t) (key : bytes) (size : Z) (a : Z)
    (s : arc_state_id) :
  arc_hash c !! key = Some a -> obj_state (get_obj c a) = Some s ->
  is_resident (Some s) = true ->
  let c' := arc_update_size c key size in
  let new := uint64_t (ARC_OBJ_BASE_SIZE (get_obj c a) + size) in
  arc_hash c' = arc_hash c /\ arc_c c' = arc_c c /\ arc_p c' = arc_p c
  /\ arc_next c' = arc_next c
  /\ arc_needs_rebalance c' = (if arc_needs_rebalance c =? 0 then 1
                               else arc_needs_rebalance c)
  /\ get_obj c' a = with_size (get_obj c a) new
  /\ (forall b, b <> a -> get_obj c' b = get_obj c b)
  /\ (forall t, st_list (state_of c' t) = st_list (state_of c t))
  /\ (forall t, st_size (state_of c' t)
                = if decide (t = s)
                  then uint64_t (uint64_t (st_size (state_of c t) - obj_size (get_obj c a))
                                 + new)
                  else st_size (state_of c t)).
Proof.
  intros Hidx Hst Hres. cbv zeta. unfold arc_update_size. rewrite Hidx, Hst, Hres.
  assert (Hd : get_obj (decrease_size c s (obj_size (get_obj c a))) a = get_obj c a)
    by (destruct s; reflexivity).
  rewrite Hd, get_put_eq. cbn [with_size obj_size].
  do 5 (split; [destruct s; reflexivity |]).
  split.
  { destruct s; try discriminate Hres.
    all: unfold get_obj; cbn [mark_rebalance set_needs_rebalance increase_size set_state
                              arc_heap put_obj set_heap decrease_size].
    all: rewrite lookup_insert_eq; reflexivity. }
  split.
  { intros b Hb. destruct s; try discriminate Hres.
    all: unfold get_obj; cbn [mark_rebalance set_needs_rebalance increase_size set_state
                              arc_heap put_obj set_heap decrease_size].
    all: rewrite lookup_insert_ne by congruence; reflexivity. }
  split; intros t; destruct t, s; try discriminate Hres; arc_simpl;
    repeat case_decide; try congruence; reflexivity.
Qed.

(** [arc_update_size] keeps a coherent cache coherent.  For a key that is
    not in the index nothing changes.  For a key that is, the flag that asks
    for a balancing is set and no list changes its members; an object in
    MRU or MFU gets the size of its header and key plus the new size, and
    the resident bytes follow; an object in a ghost list or in no list keeps
    its size. *)
Theorem arc_update_size_coherent (c : arc_t) (key : bytes) (size : Z) :
  coherent c -> 0 <= size ->
  sizes c + sizeof_arc_object_t + Z.of_nat (length key) + size < 2 ^ 64 ->
  let c' := arc_update_size c key size in
  coherent c'
  /\ (arc_hash c !! key = None -> c' = c)
  /\ (forall a, arc_hash c !! key = Some a ->
        arc_needs_rebalance c' <> 0
        /\ (forall t, st_list (state_of c' t) = st_list (state_of c t))
        /\ (is_resident (obj_state (get_obj c a)) = true ->
            obj_size (get_obj c' a) = ARC_OBJ_BASE_SIZE (get_obj c a) + size
            /\ arc_size c'
               = arc_size c - obj_size (get_obj c a) + obj_size (get_obj c' a))
        /\ (is_resident (obj_state (get_obj c a)) = false ->
            obj_size (get_obj c' a) = obj_size (get_obj c a)
            /\ arc_size c' = arc_size c)).
Proof.
  intros Co Hsize Hfit. cbv zeta.
  destruct (arc_hash c !! key) as [a |] eqn:Hidx.
  2:{ unfold arc_update_size. rewrite Hidx.
      split; [exact Co |]. split; [reflexivity | discriminate]. }
  assert (Hflag : forall x, (if x =? 0 then 1 else x) <> 0)
    by (intros x; destruct (Z.eqb_spec x 0); lia).
  destruct (is_resident (obj_state (get_obj c a))) eqn:Hres.
  2:{ (* a ghost, or an object in no list: the flag only *)
      assert (E : arc_update_size c key size = mark_rebalance c)
        by (unfold arc_update_size; rewrite Hidx, Hres; reflexivity).
      rewrite E.
      assert (S1 : same_shape c (mark_rebalance c)) by (apply same_shape_fields; reflexivity).
      split; [apply (coherent_frame c); [exact S1 | apply (co_p c Co) | exact Co] |].
      split; [discriminate |].
      intros b [= <-]. split; [apply Hflag |].
      split; [reflexivity |]. split; [intros H; rewrite Hres in H; discriminate |].
      intros _. split; reflexivity. }
  destruct (obj_state (get_obj c a)) as [s |] eqn:Hst; [| discriminate Hres].
  destruct (arc_update_size_shape c key size a s Hidx Hst Hres)
    as (Eh & Ec & Ep & En & Ef & Ea & Eoth & Elist & Esize).
  cbv zeta in Eh, Ec, Ep, En, Ef, Ea, Eoth, Elist, Esize.
  set (c' := arc_update_size c key size) in *. clearbody c'.
  pose proof Co as [W L K F P C].
  pose proof (L a s Hst) as Ha.
  pose proof (K key a Hidx) as Hkey.
  set (old := obj_size (get_obj c a)) in *.
  pose proof (base_size_pos (get_obj c a)) as Hb0.
  pose proof (base_size_bound (get_obj c a)) as Hb1. rewrite Hkey in Hb1.
  pose proof (sizes_nonneg c MRUG W) as N1. pose proof (sizes_nonneg c MRU W) as N2.
  pose proof (sizes_nonneg c MFU W) as N3. pose proof (sizes_nonneg c MFUG W) as N4.
  cbn [state_of] in N1, N2, N3, N4.
  assert (Hold0 : 0 <= old) by (apply (wf_nonneg c W s a Ha)).
  assert (Holds : old <= st_size (state_of c s)).
  { rewrite (wf_size c W). apply total_size_elem; [| exact Ha].
    intros b Hb. now apply (wf_nonneg c W s). }
  assert (Hss : st_size (state_of c s) <= sizes c)
    by (unfold sizes; destruct s; cbn [state_of]; lia).
  assert (Enew : uint64_t (ARC_OBJ_BASE_SIZE (get_obj c a) + size)
                 = ARC_OBJ_BASE_SIZE (get_obj c a) + size)
    by (unfold uint64_t; apply Z.mod_small; lia).
  rewrite Enew in Ea, Esize.
  set (new := ARC_OBJ_BASE_SIZE (get_obj c a) + size) in *.
  assert (Ess : st_size (state_of c' s) = st_size (state_of c s) - old + new).
  { rewrite Esize. destruct (decide (s = s)); [| congruence].
    unfold uint64_t. rewrite (Z.mod_small (st_size (state_of c s) - old)) by lia.
    apply Z.mod_small. lia. }
  assert (Eso : forall t, t <> s -> st_size (state_of c' t) = st_size (state_of c t)).
  { intros t Ht. rewrite Esize. destruct (decide (t = s)); congruence. }
  assert (Esz : forall b, b <> a -> obj_size (get_obj c' b) = obj_size (get_obj c b))
    by (intros b Hb; now rewrite Eoth).
  assert (Eza : obj_size (get_obj c' a) = new) by (rewrite Ea; reflexivity).
  assert (Ek : forall b, obj_key (get_obj c' b) = obj_key (get_obj c b)).
  { intros b. destruct (decide (b = a)) as [-> | Hne]; [rewrite Ea | rewrite Eoth by assumption];
      reflexivity. }
  assert (Est : forall b, obj_state (get_obj c' b) = obj_state (get_obj c b)).
  { intros b. destruct (decide (b = a)) as [-> | Hne]; [rewrite Ea | rewrite Eoth by assumption];
      reflexivity. }
  assert (Esum : sizes c' = sizes c - old + new).
  { unfold sizes.
    change (st_size (state_of c' MRUG) + st_size (state_of c' MRU)
            + st_size (state_of c' MFU) + st_size (state_of c' MFUG)
            = st_size (state_of c MRUG) + st_size (state_of c MRU)
              + st_size (state_of c MFU) + st_size (state_of c MFUG) - old + new).
    destruct s; try discriminate Hres.
    - rewrite Ess, (Eso MRUG), (Eso MFU), (Eso MFUG) by congruence. lia.
    - rewrite Ess, (Eso MRUG), (Eso MRU), (Eso MFUG) by congruence. lia. }
  assert (W' : well_formed c').
  { constructor.
    - intros t b Hb. rewrite Elist in Hb. rewrite Est. now apply (wf_state c W).
    - intros t. rewrite Elist. apply (wf_nodup c W).
    - intros t. rewrite Elist.
      rewrite (total_size_resize c c' a _ (wf_nodup c W t) Esz), Eza.
      destruct (decide (t = s)) as [-> | Hts].
      + destruct (decide (a ∈ st_list (state_of c s))); [| contradiction].
        rewrite Ess, (wf_size c W s). fold old. lia.
      + destruct (decide (a ∈ st_list (state_of c t))) as [Hin | _].
        * exfalso. now apply (not_linked_elsewhere c a s t W Ha Hts).
        * rewrite (Eso t Hts), (wf_size c W t). lia.
    - intros t b Hb. rewrite Elist in Hb.
      destruct (decide (b = a)) as [-> | Hne]; [rewrite Eza; lia |].
      rewrite Esz by assumption. now apply (wf_nonneg c W t).
    - intros t b Hb. rewrite Elist in Hb. rewrite Ek, Eh. now apply (wf_index c W t).
    - fold (sizes c'). lia. }
  split.
  { constructor; [exact W' | | | | lia | lia].
    - intros b t Hb. rewrite Est in Hb. rewrite Elist. now apply L.
    - intros k b Hk. rewrite Eh in Hk. rewrite Ek. now apply K.
    - intros k b Hk. rewrite Eh in Hk. rewrite En. now apply (F k). }
  split; [discriminate |].
  intros b [= <-]. split; [rewrite Ef; apply Hflag |].
  split; [exact Elist |]. rewrite Hst, Hres. split; [| discriminate].
  intros _. split; [exact Eza |].
  rewrite (arc_size_sum c W), (arc_size_sum c' W'), Eza.
  change (st_size (state_of c' MRU) + st_size (state_of c' MFU)
          = st_size (state_of c MRU) + st_size (state_of c MFU) - old + new).
  destruct s; try discriminate Hres.
  - rewrite Ess, (Eso MFU) by congruence. lia.
  - rewrite Ess, (Eso MRU) by congruence. lia.
Qed.

(** The cache of the examples after the first lookup of [key_A]. *)
Lemma one_entry_coherent : coherent one_entry.
Proof.
  unfold one_entry. cbn [lookups foldl].
  apply (arc_lookup_keeps 1 8 small_cache key_A 0).
  - apply arc_create_coherent. lia.
  - intros b k. cbn. lia.
  - vm_compute. discriminate.
  - vm_compute. lia.
Qed.

Lemma arc_lookup_coherent_witness :
  coherent small_cache
  /\ (forall b k, 0 <= snd (op_fetch (arc_ops small_cache) b k))
  /\ sizes small_cache + sizeof_arc_object_t + Z.of_nat (length key_A)
     + arc_c small_cache <= 2 ^ 64
  /\ (S (entries small_cache) < 8)%nat
  /\ (let r := arc_lookup 1 8 small_cache key_A 0 in
      coherent (snd (fst r)) /\ snd r = true
      /\ arc_c (snd (fst r)) = arc_c small_cache
      /\ (forall h, fst (fst r) = Some h ->
            arc_hash small_cache !! key_A = Some h
            \/ (arc_hash small_cache !! key_A = None /\ h = arc_next small_cache))).
Proof.
  assert (H1 : coherent small_cache) by (apply arc_create_coherent; lia).
  assert (H2 : forall b k, 0 <= snd (op_fetch (arc_ops small_cache) b k))
    by (intros b k; cbn; lia).
  assert (H3 : sizes small_cache + sizeof_arc_object_t + Z.of_nat (length key_A)
               + arc_c small_cache <= 2 ^ 64) by (vm_compute; discriminate).
  assert (H4 : (S (entries small_cache) < 8)%nat) by (vm_compute; lia).
  split; [exact H1 |]. split; [exact H2 |]. split; [exact H3 |]. split; [exact H4 |].
  exact (arc_lookup_coherent 1 8 small_cache key_A 0 H1 H2 H3 H4).
Defined.

Lemma arc_remove_coherent_witness :
  coherent one_entry
  /\ (let c' := arc_remove one_entry key_A in
      coherent c'
      /\ arc_hash c' !! key_A = None
      /\ (arc_hash one_entry !! key_A = None -> c' = one_entry)
      /\ (forall a s, arc_hash one_entry !! key_A = Some a ->
            obj_state (get_obj one_entry a) = Some s ->
            (forall t, a ∉ st_list (state_of c' t))
            /\ sizes c' = sizes one_entry - obj_size (get_obj one_entry a)
            /\ S (length (st_list (state_of c' s)))
               = length (st_list (state_of one_entry s))
            /\ (forall t, t <> s ->
                  st_list (state_of c' t) = st_list (state_of one_entry t))
            /\ arc_num_items c'
               = if is_resident (Some s) then uint64_t (arc_num_items one_entry - 1)
                 else arc_num_items one_entry)).
Proof.
  split; [exact one_entry_coherent |].
  exact (arc_remove_coherent one_entry key_A one_entry_coherent).
Defined.

Lemma arc_update_size_coherent_witness :
  coherent one_entry /\ 0 <= 100
  /\ sizes one_entry + sizeof_arc_object_t + Z.of_nat (length key_A) + 100 < 2 ^ 64
  /\ (let c' := arc_update_size one_entry key_A 100 in
      coherent c'
      /\ (arc_hash one_entry !! key_A = None -> c' = one_entry)
      /\ (forall a, arc_hash one_entry !! key_A = Some a ->
            arc_needs_rebalance c' <> 0
            /\ (forall t, st_list (state_of c' t) = st_list (state_of one_entry t))
            /\ (is_resident (obj_state (get_obj one_entry a)) = true ->
                obj_size (get_obj c' a) = ARC_OBJ_BASE_SIZE (get_obj one_entry a) + 100
                /\ arc_size c'
                   = arc_size one_entry - obj_size (get_obj one_entry a)
                     + obj_size (get_obj c' a))
            /\ (is_resident (obj_state (get_obj one_entry a)) = false ->
                obj_size (get_obj c' a) = obj_size (get_obj one_entry a)
                /\ arc_size c' = arc_size one_entry))).
Proof.
  assert (H2 : 0 <= 100) by lia.
  assert (H3 : sizes one_entry + sizeof_arc_object_t + Z.of_nat (length key_A) + 100
               < 2 ^ 64) by (vm_compute; reflexivity).
  split; [exact one_entry_coherent |]. split; [exact H2 |]. split; [exact H3 |].
  exact (arc_update_size_coherent one_entry key_A 100 one_entry_coherent H2 H3).
Defined.

(** ** The capacity over a lookup *)

(** The first loop never adds to the resident bytes and leaves [p] alone. *)
Lemma balance_resident_shrinks (fuel : nat) (c : arc_t) (size : Z) :
  coherent c ->
  (length (st_list (arc_mru c)) + length (st_list (arc_mfu c)) < fuel)%nat ->
  let c' := fst (balance_resident fuel c size) in
  st_size (arc_mru c') + st_size (arc_mfu c') <= st_size (arc_mru c) + st_size (arc_mfu c)
  /\ arc_p c' = arc_p c.
Proof.
  revert c. induction fuel as [| fuel IH]; intros c Co Hfuel; [lia |].
  cbv zeta. cbn [balance_resident].
  destruct (uint64_t (st_size (arc_mru c) + st_size (arc_mfu c) + size) >? arc_c c).
  2:{ cbn [fst]. split; [lia | reflexivity]. }
  pose proof (co_wf c Co) as W. pose proof (co_p c Co) as Hp.
  destruct (Z.gtb_spec (st_size (arc_mru c)) (arc_p c)) as [Hmru | Hmru].
  - destruct (lru_of_nonempty c MRU (arc_p c) W Hp) as (a & Hl & Ha);
      [cbn [state_of]; lia |].
    cbn [state_of] in Hl. rewrite Hl.
    destruct (arc_move_ghost_coherent c a MRU MRUG Co (wf_state c W MRU a Ha) eq_refl)
      as (Co1 & _ & _ & Es & _ & Eoth); [congruence |].
    destruct (demote_step c a MRU MRUG W eq_refl eq_refl Ha)
      as (_ & _ & Ep & _ & Hsz & Ez & _ & _ & _ & Eo).
    cbv zeta in Co1, Es, Eoth, Ep, Hsz, Ez, Eo.
    set (c1 := snd (arc_move c a (Some MRUG))) in *. clearbody c1.
    cbn [state_of] in Es, Ez.
    pose proof (Eoth MFU ltac:(congruence) ltac:(congruence)) as Emfu.
    pose proof (Eo MFU ltac:(congruence) ltac:(congruence)) as Emfu'.
    cbn [state_of] in Emfu, Emfu'.
    destruct (IH c1 Co1) as (Hle & Ep1); [rewrite Emfu; lia |].
    cbv zeta in Hle, Ep1. rewrite Emfu' in Hle. split; [lia | congruence].
  - destruct (Z.gtb_spec (st_size (arc_mfu c)) 0) as [Hmfu | Hmfu].
    + destruct (lru_of_nonempty c MFU 0 W ltac:(lia)) as (a & Hl & Ha);
        [cbn [state_of]; lia |].
      cbn [state_of] in Hl. rewrite Hl.
      destruct (arc_move_ghost_coherent c a MFU MFUG Co (wf_state c W MFU a Ha) eq_refl)
        as (Co1 & _ & _ & Es & _ & Eoth); [congruence |].
      destruct (demote_step c a MFU MFUG W eq_refl eq_refl Ha)
        as (_ & _ & Ep & _ & Hsz & Ez & _ & _ & _ & Eo).
      cbv zeta in Co1, Es, Eoth, Ep, Hsz, Ez, Eo.
      set (c1 := snd (arc_move c a (Some MFUG))) in *. clearbody c1.
      cbn [state_of] in Es, Ez.
      pose proof (Eoth MRU ltac:(congruence) ltac:(congruence)) as Emru.
      pose proof (Eo MRU ltac:(congruence) ltac:(congruence)) as Emru'.
      cbn [state_of] in Emru, Emru'.
      destruct (IH c1 Co1) as (Hle & Ep1); [rewrite Emru; lia |].
      cbv zeta in Hle, Ep1. rewrite Emru' in Hle. split; [lia | congruence].
    + cbn [fst]. split; [lia | reflexivity].
Qed.

(** [arc_balance] leaves the resident bytes within the capacity, either
    because it makes room (the flag is set and the size asked for does not
    overflow) or because they were within it already. *)
Lemma arc_balance_bound (fuel : nat) (c : arc_t) (size : Z) :
  coherent c -> arc_p c <= arc_c c -> (entries c < fuel)%nat ->
  (arc_needs_rebalance c <> 0 /\ 0 <= size
   /\ st_size (arc_mru c) + st_size (arc_mfu c) + size < 2 ^ 64)
  \/ st_size (arc_mru c) + st_size (arc_mfu c) <= arc_c c ->
  let c' := fst (arc_balance fuel c size) in
  st_size (arc_mru c') + st_size (arc_mfu c') <= arc_c c /\ arc_p c' = arc_p c.
Proof.
  intros Co Hpc Hfuel Hcase. cbv zeta. unfold arc_balance.
  pose proof (co_wf c Co) as W. pose proof (co_p c Co) as Hp.
  destruct (Z.eqb_spec (arc_needs_rebalance c) 0) as [E | Hflag].
  { cbn [fst]. destruct Hcase as [(H & _) | H]; [contradiction | split; [exact H | reflexivity]]. }
  assert (Hf1 : (length (st_list (arc_mru c)) + length (st_list (arc_mfu c)) < fuel)%nat)
    by (unfold entries in Hfuel; lia).
  destruct (balance_resident_coherent fuel c size Co Hf1) as (Hok1 & Co1 & Ec1 & _ & Ee1).
  assert (Hres : st_size (arc_mru (fst (balance_resident fuel c size)))
                 + st_size (arc_mfu (fst (balance_resident fuel c size))) <= arc_c c
                 /\ arc_p (fst (balance_resident fuel c size)) = arc_p c).
  { destruct Hcase as [(_ & Hs0 & Hsum) | Hle].
    - destruct (balance_resident_fits fuel c size W Hp Hs0 Hsum Hf1)
        as (_ & _ & _ & Ep & _ & _ & Hexit).
      cbv zeta in Ep, Hexit. split; [destruct Hexit; lia | exact Ep].
    - destruct (balance_resident_shrinks fuel c size Co Hf1) as (Hs & Ep).
      cbv zeta in Hs, Ep. split; [lia | exact Ep]. }
  cbv zeta in Hok1, Co1, Ec1, Ee1.
  destruct (balance_resident fuel c size) as [c1 ok1]. cbn [fst snd] in *. subst ok1.
  destruct Hres as [Hle1 Ep1].
  destruct (balance_ghosts_keeps fuel c1 (co_wf c1 Co1) (co_p c1 Co1))
    as (Hok2 & _ & _ & Ep2 & _ & Em2 & Ef2).
  { unfold entries in Hfuel, Ee1. lia. }
  cbv zeta in Hok2, Ep2, Em2, Ef2.
  destruct (balance_ghosts fuel c1) as [c2 ok2]. cbn [fst snd] in *. subst ok2.
  destruct (arc_needs_rebalance c2 =? 1); cbn [fst set_needs_rebalance arc_mru arc_mfu arc_p];
    rewrite Em2, Ef2; split; (lia || congruence).
Qed.

(** The marker after the step of [arc_move]. *)
Lemma adjust_p_range (c : arc_t) (s : arc_state_id) :
  0 <= arc_p c <= arc_c c -> arc_c c < 2 ^ 64 ->
  (s = MFUG ->
   MAX (if st_size (arc_mfug c) =? 0
        then st_size (arc_mrug c) / 2
        else st_size (arc_mrug c) / st_size (arc_mfug c)) 1 <= arc_p c) ->
  0 <= arc_p (adjust_p c s) <= arc_c c.
Proof.
  intros Hp Hc Hstep. destruct s; cbn [adjust_p set_p arc_p]; try exact Hp.
  - unfold MIN.
    match goal with |- context [uint64_t ?x] =>
      pose proof (Z.mod_pos_bound x (2 ^ 64) ltac:(lia)) as Hu; fold (uint64_t x) in Hu;
      destruct (Z.ltb_spec (arc_c c) (uint64_t x)) end; lia.
  - specialize (Hstep eq_refl).
    assert (H1 : 1 <= MAX (if st_size (arc_mfug c) =? 0
                           then st_size (arc_mrug c) / 2
                           else st_size (arc_mrug c) / st_size (arc_mfug c)) 1).
    { unfold MAX. destruct (Z.gtb_spec (if st_size (arc_mfug c) =? 0
                                        then st_size (arc_mrug c) / 2
                                        else st_size (arc_mrug c) / st_size (arc_mfug c)) 1);
        lia. }
    set (d := MAX (if st_size (arc_mfug c) =? 0
                   then st_size (arc_mrug c) / 2
                   else st_size (arc_mrug c) / st_size (arc_mfug c)) 1) in *.
    unfold uint64_t. rewrite Z.mod_small by lia.
    unfold MAX. destruct (Z.gtb_spec 0 (arc_p c - d)); lia.
Qed.

(** [arc_lookup] keeps the resident bytes within the capacity.  On a
    coherent cache whose marker [p] is at most [C] and whose resident bytes
    are at most [C], with a backing store that reports sizes that are not
    negative and twice the bytes accounted for, one object header, the key
    and the capacity within [size_t], a lookup of any key leaves the cache
    coherent, the resident bytes at most [C], the marker within [0, C] and
    [C] as it was, provided that, when the key's object is in the MFU ghost
    list, the step the marker takes down is at most [p]. *)
Theorem arc_lookup_within_capacity (retries fuel : nat) (c : arc_t) (key : bytes)
    (async : Z) :
  coherent c ->
  arc_p c <= arc_c c ->
  arc_size c <= arc_c c ->
  (forall b k, 0 <= snd (op_fetch (arc_ops c) b k)) ->
  2 * (sizes c + sizeof_arc_object_t + Z.of_nat (length key) + arc_c c) < 2 ^ 64 ->
  (S (entries c) < fuel)%nat ->
  (forall a, arc_hash c !! key = Some a -> obj_state (get_obj c a) = Some MFUG ->
     MAX (if st_size (arc_mfug c) =? 0
          then st_size (arc_mrug c) / 2
          else st_size (arc_mrug c) / st_size (arc_mfug c)) 1 <= arc_p c) ->
  let c' := snd (fst (arc_lookup retries fuel c key async)) in
  coherent c' /\ arc_size c' <= arc_c c' /\ 0 <= arc_p c' <= arc_c c'
  /\ arc_c c' = arc_c c.
Proof.
  intros Co Hpc Hsz Hops Hfit Hfuel Hstep. cbv zeta.
  pose proof (co_wf c Co) as W. pose proof (co_p c Co) as Hp0.
  pose proof (co_c c Co) as Hc0.
  pose proof (sizes_nonneg c MRUG W) as N1. pose proof (sizes_nonneg c MRU W) as N2.
  pose proof (sizes_nonneg c MFU W) as N3. pose proof (sizes_nonneg c MFUG W) as N4.
  cbn [state_of] in N1, N2, N3, N4.
  assert (Hs0 : 0 <= sizes c) by (unfold sizes; lia).
  rewrite (arc_size_sum c W) in Hsz.
  destruct (arc_lookup_keeps retries fuel c key async Co Hops ltac:(unfold sizeof_arc_object_t in *; lia) Hfuel)
    as (Hco & _ & Hcc & _).
  cbv zeta in Hco, Hcc.
  cut (st_size (arc_mru (snd (fst (arc_lookup retries fuel c key async))))
       + st_size (arc_mfu (snd (fst (arc_lookup retries fuel c key async)))) <= arc_c c
       /\ 0 <= arc_p (snd (fst (arc_lookup retries fuel c key async))) <= arc_c c).
  { intros [H1 H2]. split; [exact Hco |].
    rewrite (arc_size_sum _ (co_wf _ Hco)), Hcc. split; [exact H1 |]. split; [exact H2 | reflexivity]. }
  clear Hco Hcc.
  (* what the lookup does to a cache [c0] of the same lists as [c], for an
     object that [arc_move] takes to a resident list *)
  assert (Hmove : forall c0 a st,
            coherent c0 -> is_ghost st = false ->
            arc_hash c0 !! obj_key (get_obj c0 a) = Some a ->
            obj_key (get_obj c0 a) = key ->
            arc_ops c0 = arc_ops c -> arc_c c0 = arc_c c -> arc_p c0 = arc_p c ->
            (forall t, state_of c0 t = state_of c t) ->
            (entries c0 = entries c) ->
            (obj_state (get_obj c0 a) = Some MFUG ->
             MAX (if st_size (arc_mfug c) =? 0
                  then st_size (arc_mrug c) / 2
                  else st_size (arc_mrug c) / st_size (arc_mfug c)) 1 <= arc_p c) ->
            let r := arc_move c0 a (Some st) in
            coherent (snd r) /\ arc_c (snd r) = arc_c c
            /\ 0 <= arc_p (snd r) <= arc_c c
            /\ (entries (snd r) < fuel)%nat
            /\ (fst r <> 0 -> obj_state (get_obj (snd r) a) = None
                              /\ arc_hash (snd r) !! key = None)
            /\ obj_key (get_obj (snd r) a) = key
            /\ ((fst r = 0 /\ arc_needs_rebalance (snd r) <> 0
                 /\ 0 <= obj_size (get_obj (snd r) a)
                 /\ st_size (arc_mru (snd r)) + st_size (arc_mfu (snd r))
                    + obj_size (get_obj (snd r) a) < 2 ^ 64)
                \/ st_size (arc_mru (snd r)) + st_size (arc_mfu (snd r)) <= arc_c c)).
  { intros c0 a st Co0 Hg Hidx Hk Eo Ec Ep Est Een Hst0. cbv zeta.
    pose proof (base_size_bound (get_obj c0 a)) as Hb. rewrite Hk in Hb.
    assert (Ez : sizes c0 = sizes c) by (apply sizes_states; intros t; now rewrite Est).
    destruct (arc_move_in_coherent c0 a st Co0 Hg Hidx)
      as (Co1 & Mc & Mo & Me & Mk & Mf & Mz & Md).
    { intros b k. rewrite Eo. apply Hops. }
    { rewrite Ez, Ec. unfold sizeof_arc_object_t in *. lia. }
    destruct (arc_move_p c0 a (Some st)) as [Mp _].
    cbv zeta in Co1, Mc, Mo, Me, Mk, Mf, Mz, Md.
    assert (Hp1 : 0 <= arc_p (snd (arc_move c0 a (Some st))) <= arc_c c).
    { rewrite Mp. destruct (obj_state (get_obj c0 a)) as [s |].
      - rewrite <- Ec. apply adjust_p_range.
        + rewrite Ep, Ec. lia.
        + rewrite Ec. unfold sizeof_arc_object_t in *. lia.
        + intros ->. pose proof (Est MFUG) as E1. pose proof (Est MRUG) as E2.
          cbn [state_of] in E1, E2. rewrite E1, E2, Ep. now apply Hst0.
      - rewrite Ep. lia. }
    destruct (arc_move c0 a (Some st)) as [rc c1]. cbn [fst snd] in *.
    split; [exact Co1 |]. split; [congruence |]. split; [exact Hp1 |].
    split; [lia |].
    split; [intros H; rewrite <- Hk; now apply Mf |].
    split; [congruence |].
    destruct Md as [[Mflag Mst] | Msame].
    - left.
      assert (Hrc : rc = 0).
      { destruct (Z.eq_dec rc 0) as [E | E]; [exact E |].
        destruct (Mf E) as [F _]. congruence. }
      pose proof (co_wf c1 Co1) as W1.
      pose proof (co_linked c1 Co1 a st Mst) as Hin.
      pose proof (wf_nonneg c1 W1 st a Hin) as Hn.
      assert (Hle : obj_size (get_obj c1 a) <= st_size (state_of c1 st)).
      { rewrite (wf_size c1 W1). apply total_size_elem; [| exact Hin].
        intros b Hb'. now apply (wf_nonneg c1 W1 st). }
      pose proof (sizes_nonneg c1 MRUG W1) as M1. pose proof (sizes_nonneg c1 MRU W1) as M2.
      pose proof (sizes_nonneg c1 MFU W1) as M3. pose proof (sizes_nonneg c1 MFUG W1) as M4.
      cbn [state_of] in M1, M2, M3, M4.
      assert (Hst_le : st_size (state_of c1 st) <= sizes c1)
        by (unfold sizes; destruct st; cbn [state_of]; lia).
      split; [exact Hrc |]. split; [exact Mflag |]. split; [exact Hn |].
      unfold sizes, sizeof_arc_object_t in *. lia.
    - right.
      pose proof (Msame MRU eq_refl) as E1. pose proof (Msame MFU eq_refl) as E2.
      pose proof (Est MRU) as E3. pose proof (Est MFU) as E4.
      cbn [state_of] in E1, E2, E3, E4. rewrite E1, E2, E3, E4. exact Hsz. }
  (* the balancing after a move that succeeded *)
  assert (Hbal : forall c1 a,
            coherent c1 -> arc_c c1 = arc_c c -> 0 <= arc_p c1 <= arc_c c ->
            (entries c1 < fuel)%nat ->
            (arc_needs_rebalance c1 <> 0 /\ 0 <= obj_size (get_obj c1 a)
             /\ st_size (arc_mru c1) + st_size (arc_mfu c1) + obj_size (get_obj c1 a) < 2 ^ 64)
            \/ st_size (arc_mru c1) + st_size (arc_mfu c1) <= arc_c c ->
            let c2 := fst (arc_balance fuel c1 (obj_size (get_obj c1 a))) in
            st_size (arc_mru c2) + st_size (arc_mfu c2) <= arc_c c
            /\ 0 <= arc_p c2 <= arc_c c).
  { intros c1 a Co1 Ec1 Hp1 He1 Hcase. cbv zeta.
    destruct (arc_balance_bound fuel c1 (obj_size (get_obj c1 a)) Co1) as [B1 B2];
      [lia | exact He1 | rewrite Ec1; exact Hcase |].
    cbv zeta in B1, B2. rewrite Ec1 in B1. rewrite B2. split; [exact B1 | exact Hp1]. }
  (* a reference given up after a move that failed *)
  assert (Hrel : forall c1 a,
            obj_state (get_obj c1 a) = None ->
            st_size (arc_mru (release_ref c1 a)) = st_size (arc_mru c1)
            /\ st_size (arc_mfu (release_ref c1 a)) = st_size (arc_mfu c1)
            /\ arc_p (release_ref c1 a) = arc_p c1
            /\ obj_state (get_obj (release_ref c1 a) a) = None).
  { intros c1 a Hn. destruct (release_ref_effect c1 a Hn) as (_ & _ & _ & Rs & Rst & _).
    destruct (release_ref_p c1 a) as [Rp _]. cbv zeta in Rs, Rst.
    pose proof (Rst MRU) as E1. pose proof (Rst MFU) as E2. cbn [state_of] in E1, E2.
    rewrite E1, E2. auto. }
  destruct (arc_hash c !! key) as [a |] eqn:Hidx.
  - (* the key is in the index *)
    rewrite (arc_lookup_found retries fuel c key async a Hidx). cbv zeta.
    pose proof (co_keys c Co key a Hidx) as Hkey.
    assert (S0 : same_shape c (retain_ref c a)) by (apply same_shape_put; reflexivity).
    assert (Co0 : coherent (retain_ref c a))
      by (apply (coherent_frame c); [exact S0 | apply (co_p c Co) | exact Co]).
    assert (Ep0 : arc_p (retain_ref c a) = arc_p c) by reflexivity.
    destruct (same_shape_sizes c (retain_ref c a) S0) as [Z0 E0].
    destruct S0 as (Sh & Sc & Sn & So & Sst & Sb).
    destruct (Sb a) as (Sb1 & Sb2 & _).
    set (c0 := retain_ref c a) in *. clearbody c0.
    destruct (negb (async =? 0) && negb (obj_async (get_obj c0 a) =? 0)).
    { cbn [fst snd]. pose proof (Sst MRU) as E1. pose proof (Sst MFU) as E2.
      cbn [state_of] in E1, E2. rewrite E1, E2, Ep0. split; [exact Hsz | lia]. }
    destruct (Hmove c0 a MFU Co0 eq_refl) as (Co1 & Mc & Mp & Me & Mf & Mk & Md);
      try assumption.
    { rewrite Sb2, Hkey, Sh. exact Hidx. }
    { congruence. }
    { rewrite Sb1. now apply Hstep. }
    cbv zeta in Co1, Mc, Mp, Me, Mf, Mk, Md.
    destruct (arc_move c0 a (Some MFU)) as [rc c1]. cbn [fst snd] in *.
    destruct (Z.eqb_spec rc 0) as [-> | Hrc]; cbn [negb].
    + pose proof (Hbal c1 a Co1 Mc Mp Me) as Hb. cbv zeta in Hb.
      destruct (arc_balance fuel c1 (obj_size (get_obj c1 a))) as [c2 ok].
      cbn [fst snd] in *. apply Hb.
      destruct Md as [(_ & M1 & M2 & M3) | M]; [left | right]; auto.
    + cbn [fst snd]. destruct (Mf Hrc) as [F1 _].
      destruct (Hrel c1 a F1) as (R1 & R2 & R3 & _). rewrite R1, R2, R3.
      split; [| exact Mp].
      destruct Md as [(M0 & _) | M]; [contradiction | exact M].
  - (* the key is new *)
    rewrite (arc_lookup_new retries fuel c key async Hidx). cbv zeta.
    destruct (coherent_fresh_entry c key async Co Hidx)
      as (Co5 & Fh & Fk & Fs & Fz & Fe & Fc & Fo).
    cbv zeta in Co5, Fh, Fk, Fs, Fz, Fe, Fc, Fo.
    assert (Est : forall t, state_of (fresh_entry c key async) t = state_of c t)
      by (intros t; destruct t; reflexivity).
    assert (Ep5 : arc_p (fresh_entry c key async) = arc_p c) by reflexivity.
    set (c5 := fresh_entry c key async) in *. clearbody c5.
    set (a := arc_next c) in *. clearbody a.
    destruct (Hmove c5 a MRU Co5 eq_refl) as (Co6 & Mc & Mp & Me & Mf & Mk & Md);
      try assumption.
    { rewrite Fk. exact Fh. }
    { intros H. congruence. }
    cbv zeta in Co6, Mc, Mp, Me, Mf, Mk, Md.
    destruct (arc_move c5 a (Some MRU)) as [rc c6]. cbn [fst snd] in *.
    destruct (Z.eqb_spec rc 0) as [-> | Hrc].
    + pose proof (Hbal c6 a Co6 Mc Mp Me) as Hb. cbv zeta in Hb.
      destruct (arc_balance fuel c6 (obj_size (get_obj c6 a))) as [c7 ok].
      cbn [fst snd] in *. apply Hb.
      destruct Md as [(_ & M1 & M2 & M3) | M]; [left | right]; auto.
    + cbn [fst snd]. destruct (Mf Hrc) as [F1 _].
      assert (Dm : st_size (arc_mru (ht_delete c6 key)) = st_size (arc_mru c6)) by reflexivity.
      assert (Df : st_size (arc_mfu (ht_delete c6 key)) = st_size (arc_mfu c6)) by reflexivity.
      assert (Dp : arc_p (ht_delete c6 key) = arc_p c6) by reflexivity.
      assert (Dg : obj_state (get_obj (ht_delete c6 key) a) = None) by exact F1.
      set (cd := ht_delete c6 key) in *. clearbody cd.
      destruct (Hrel cd a Dg) as (R1 & R2 & R3 & R4).
      destruct (Hrel (release_ref cd a) a R4) as (R1' & R2' & R3' & _).
      rewrite R1', R2', R3', R1, R2, R3, Dm, Df, Dp.
      split; [| exact Mp].
      destruct Md as [(M0 & _) | M]; [contradiction | exact M].
Qed.

Lemma arc_lookup_within_capacity_witness :
  coherent one_entry
  /\ arc_p one_entry <= arc_c one_entry
  /\ arc_size one_entry <= arc_c one_entry
  /\ (forall b k, 0 <= snd (op_fetch (arc_ops one_entry) b k))
  /\ 2 * (sizes one_entry + sizeof_arc_object_t + Z.of_nat (length key_B)
          + arc_c one_entry) < 2 ^ 64
  /\ (S (entries one_entry) < 8)%nat
  /\ (forall a, arc_hash one_entry !! key_B = Some a ->
        obj_state (get_obj one_entry a) = Some MFUG ->
        MAX (if st_size (arc_mfug one_entry) =? 0
             then st_size (arc_mrug one_entry) / 2
             else st_size (arc_mrug one_entry) / st_size (arc_mfug one_entry)) 1
        <= arc_p one_entry)
  /\ (let c' := snd (fst (arc_lookup 1 8 one_entry key_B 0)) in
      coherent c' /\ arc_size c' <= arc_c c' /\ 0 <= arc_p c' <= arc_c c'
      /\ arc_c c' = arc_c one_entry).
Proof.
  assert (H2 : arc_p one_entry <= arc_c one_entry) by (vm_compute; discriminate).
  assert (H3 : arc_size one_entry <= arc_c one_entry) by (vm_compute; discriminate).
  assert (H4 : forall b k, 0 <= snd (op_fetch (arc_ops one_entry) b k))
    by (intros b k; vm_compute; discriminate).
  assert (H5 : 2 * (sizes one_entry + sizeof_arc_object_t + Z.of_nat (length key_B)
                    + arc_c one_entry) < 2 ^ 64) by (vm_compute; reflexivity).
  assert (H6 : (S (entries one_entry) < 8)%nat) by (vm_compute; lia).
  assert (H7 : forall a, arc_hash one_entry !! key_B = Some a ->
            obj_state (get_obj one_entry a) = Some MFUG ->
            MAX (if st_size (arc_mfug one_entry) =? 0
                 then st_size (arc_mrug one_entry) / 2
                 else st_size (arc_mrug one_entry) / st_size (arc_mfug one_entry)) 1
            <= arc_p one_entry) by (intros a _ _; vm_compute; discriminate).
  split; [exact one_entry_coherent |].
  split; [exact H2 |]. split; [exact H3 |]. split; [exact H4 |]. split; [exact H5 |].
  split; [exact H6 |]. split; [exact H7 |].
  exact (arc_lookup_within_capacity 1 8 one_entry key_B 0 one_entry_coherent
           H2 H3 H4 H5 H6 H7).
Defined.

End ArcFacts.

Module LogFacts.
Import Log.

(** ** Escaping *)

Lemma escape_loop_spec (ch esc : Z) (p : bytes) :
  forall (newbuf : bytes) (buflen cnt : Z),
  0 <= buflen -> 0 <= cnt ->
  buflen + Z.of_nat (length p) < 2 ^ 64 -> cnt + Z.of_nat (length p) < 2 ^ 64 ->
  escape_loop ch esc p newbuf buflen cnt
  = (newbuf ++ escaped ch esc p,
     buflen + Z.of_nat (length (filter (fun b => b = ch \/ b = esc) p)),
     cnt + Z.of_nat (length (filter (fun b => b = ch) p))).
Proof.
  induction p as [| b p IH]; intros newbuf buflen cnt Hb Hc Hbl Hcl.
  - cbn. now rewrite app_nil_r, !Z.add_0_r.
  - cbn [escape_loop]. cbn [length] in Hbl, Hcl.
    assert (Hf1 : Z.of_nat (length (filter (fun b => b = ch \/ b = esc) p))
                  <= Z.of_nat (length p)).
    { apply inj_le. apply length_filter. }
    destruct (Z.eqb_spec b ch) as [Ech | Ech]; cbn [orb].
    + rewrite IH.
      * cbn [escaped flat_map]. rewrite Ech, Z.eqb_refl. cbn [orb].
        rewrite !filter_cons_True by auto. cbn [length].
        unfold uint64_t. rewrite !Z.mod_small by lia.
        rewrite <- !app_assoc. cbn [app].
           rewrite !pair_equal_spec. split; [split; [reflexivity | lia] | lia].
      * unfold uint64_t. rewrite Z.mod_small; lia.
      * unfold uint64_t. rewrite Z.mod_small; lia.
      * unfold uint64_t. rewrite Z.mod_small; lia.
      * unfold uint64_t. rewrite Z.mod_small; lia.
    + destruct (Z.eqb_spec b esc) as [Eesc | Eesc].
      * rewrite IH; try lia.
        -- cbn [escaped flat_map].
           destruct (Z.eqb_spec b ch); [congruence |]. rewrite Eesc, Z.eqb_refl. cbn [orb].
           rewrite (filter_cons_True (fun b => b = ch \/ b = esc)) by auto.
           rewrite (filter_cons_False (fun b => b = ch)) by congruence.
           cbn [length]. unfold uint64_t. rewrite !Z.mod_small by lia.
           rewrite <- !app_assoc. cbn [app].
           rewrite !pair_equal_spec. split; [split; [reflexivity | lia] | lia].
        -- unfold uint64_t. rewrite Z.mod_small; lia.
        -- unfold uint64_t. rewrite Z.mod_small; lia.
      * rewrite IH; try lia.
        cbn [escaped flat_map].
        destruct (Z.eqb_spec b ch); [congruence |].
        destruct (Z.eqb_spec b esc); [congruence |]. cbn [orb].
        rewrite (filter_cons_False (fun b => b = ch \/ b = esc)) by tauto.
        rewrite (filter_cons_False (fun b => b = ch)) by congruence.
        rewrite <- !app_assoc. cbn [app]. reflexivity.
Qed.


Lemma unescape_escaped (ch esc : Z) (l : bytes) :
  unescape esc (escaped ch esc l) = l.
Proof.
  induction l as [| b l IH]; [reflexivity |].
  cbn [escaped flat_map]. fold (escaped ch esc l).
  destruct (Z.eqb_spec b ch) as [E1 | E1]; cbn [orb].
  - cbn [app unescape]. rewrite Z.eqb_refl. now rewrite IH.
  - destruct (Z.eqb_spec b esc) as [E2 | E2].
    + cbn [app unescape]. rewrite Z.eqb_refl. now rewrite IH.
    + cbn [app unescape]. destruct (Z.eqb_spec b esc); [congruence |]. now rewrite IH.
Qed.

(** The call on a buffer that is not empty, in closed form. *)
Lemma shardcache_byte_escape_eq (ch esc : Z) (buffer : bytes) :
  buffer <> [] ->
  2 * Z.of_nat (length buffer) < 2 ^ 64 ->
  shardcache_byte_escape ch esc buffer (Z.of_nat (length buffer))
  = (Z.of_nat (length (filter (fun b => b = ch) buffer)),
     Some (escaped ch esc buffer,
           Z.of_nat (length buffer)
           + Z.of_nat (length (filter (fun b => b = ch \/ b = esc) buffer)))).
Proof.
  intros Hne Hlen. unfold shardcache_byte_escape.
  destruct (Z.eqb_spec (Z.of_nat (length buffer)) 0) as [E | _].
  { destruct buffer; [congruence | cbn [length] in E; lia]. }
  rewrite Nat2Z.id, firstn_all.
  assert (Hf : Z.of_nat (length (filter (fun b => b = ch) buffer))
               <= Z.of_nat (length buffer)) by (apply inj_le, length_filter).
  rewrite escape_loop_spec by lia. reflexivity.
Qed.



(** Two buffers that [shardcache_byte_escape] turns into the same output
    are the same buffer: escaping loses nothing. *)
Theorem shardcache_byte_escape_injective (ch esc : Z) (a b : bytes) :
  a <> [] -> b <> [] ->
  2 * Z.of_nat (length a) < 2 ^ 64 -> 2 * Z.of_nat (length b) < 2 ^ 64 ->
  snd (shardcache_byte_escape ch esc a (Z.of_nat (length a)))
  = snd (shardcache_byte_escape ch esc b (Z.of_nat (length b))) ->
  a = b.
Proof.
  intros Ha Hb La Lb Heq.
  rewrite !shardcache_byte_escape_eq in Heq by assumption.
  cbn [snd] in Heq. injection Heq as Hd _.
  rewrite <- (unescape_escaped ch esc a), <- (unescape_escaped ch esc b), Hd.
  reflexivity.
Qed.

Lemma shardcache_byte_escape_injective_witness :
  sample_buffer <> []
  /\ 2 * Z.of_nat (length sample_buffer) < 2 ^ 64
  /\ snd (shardcache_byte_escape 44 92 sample_buffer (Z.of_nat (length sample_buffer)))
     = snd (shardcache_byte_escape 44 92 [97; 44; 92; 98] 4)
  /\ sample_buffer = [97; 44; 92; 98].
Proof.
  assert (Hne : sample_buffer <> []) by discriminate.
  assert (Hl : 2 * Z.of_nat (length sample_buffer) < 2 ^ 64) by (vm_compute; reflexivity).
  assert (He : snd (shardcache_byte_escape 44 92 sample_buffer
                      (Z.of_nat (length sample_buffer)))
               = snd (shardcache_byte_escape 44 92 [97; 44; 92; 98] 4))
    by reflexivity.
  split; [exact Hne |]. split; [exact Hl |]. split; [exact He |].
  exact (shardcache_byte_escape_injective 44 92 sample_buffer [97; 44; 92; 98]
           Hne Hne Hl Hl He).
Defined.

(** ** Hexadecimal dumps *)

Lemma hex_digit_nonzero (n : Z) : 0 <= n -> hex_digit n <> 0.
Proof. intros Hn. unfold hex_digit. destruct (n <? 10); lia. Qed.

Lemma hex_digits_nonzero (l : bytes) :
  Forall (fun b => 0 <= b < 256) l -> Forall (fun b => b <> 0) (hex_digits l).
Proof.
  induction 1 as [| b l Hb _ IH]; [constructor |].
  cbn [hex_digits flat_map app]. fold (hex_digits l).
  constructor; [apply hex_digit_nonzero, Z.shiftr_nonneg; lia |].
  constructor; [| exact IH].
  apply hex_digit_nonzero. apply Z.land_nonneg. lia.
Qed.

Lemma length_hex_digits (l : bytes) : length (hex_digits l) = (2 * length l)%nat.
Proof.
  induction l as [| b l IH]; [reflexivity |].
  cbn [hex_digits flat_map app length]. fold (hex_digits l). rewrite IH. lia.
Qed.

Lemma write_at_split (pre tail src : bytes) :
  (length src <= length tail)%nat ->
  write_at (pre ++ tail) (Z.of_nat (length pre)) src
  = pre ++ src ++ skipn (length src) tail.
Proof.
  intros Hl. unfold write_at. rewrite Nat2Z.id.
  rewrite firstn_app, firstn_all, Nat.sub_diag. cbn [firstn]. rewrite app_nil_r.
  rewrite skipn_app.
  replace (length pre + length src - length pre)%nat with (length src) by lia.
  rewrite skipn_all2 by lia. reflexivity.
Qed.

(** The loop writes two digits for each byte after what the buffer held up
    to [p] and ends the string there; the buffer keeps its length as long as
    the digits and the terminator fit. *)
Lemma hex_loop_spec (buf : bytes) :
  forall (pre tail : bytes),
  buf <> [] ->
  (2 * length buf + 1 <= length tail)%nat ->
  exists tail',
    hex_loop buf (pre ++ tail) (Z.of_nat (length pre))
    = (pre ++ hex_digits buf) ++ 0 :: tail'
    /\ length (hex_loop buf (pre ++ tail) (Z.of_nat (length pre)))
       = length (pre ++ tail).
Proof.
  induction buf as [| b rest IH]; intros pre tail Hne Hroom; [congruence |].
  cbn [hex_loop]. cbn [length] in Hroom.
  rewrite write_at_split by (cbn [sprintf_02x length]; lia).
  cbn [sprintf_02x length app].
  set (d1 := hex_digit (Z.shiftr b 4)). set (d2 := hex_digit (Z.land b 15)).
  destruct rest as [| b2 rest].
  - cbn [hex_loop hex_digits flat_map app]. exists (skipn 3 tail). split.
    + rewrite <- app_assoc. reflexivity.
    + rewrite !length_app. cbn [length]. rewrite length_skipn. lia.
  - replace (pre ++ d1 :: d2 :: 0 :: skipn 3 tail)
      with ((pre ++ [d1; d2]) ++ 0 :: skipn 3 tail)
      by (rewrite <- app_assoc; reflexivity).
    replace (Z.of_nat (length pre) + 2) with (Z.of_nat (length (pre ++ [d1; d2])))
      by (rewrite length_app; cbn [length]; lia).
    destruct (IH (pre ++ [d1; d2]) (0 :: skipn 3 tail)) as (tail' & E & El).
    + discriminate.
    + cbn [length] in *. rewrite length_skipn. lia.
    + exists tail'. split.
      * rewrite E. cbn [hex_digits flat_map]. fold (hex_digits (b2 :: rest)).
        rewrite <- !app_assoc. reflexivity.
      * rewrite El. rewrite !length_app. cbn [length]. rewrite length_skipn. lia.
Qed.

(** [shardcache_hex_escape] never writes outside its static buffer, which
    keeps its [2^16 + 6] bytes.  It prints at most [2^15] bytes, or [limit]
    of them when that is positive and below [len]: the string returned is
    ["0x"] when a prefix is asked for, two lower-case digits for each byte
    printed, and ["..."] when bytes were left out.  With no prefix and
    nothing to print the buffer is returned as the previous call left it. *)
Theorem shardcache_hex_escape_spec (str buf : bytes) (limit include_prefix : Z) :
  Z.of_nat (length str) = str_size ->
  Forall (fun b => 0 <= b < 256) buf ->
  let len := Z.of_nat (length buf) in
  let olen := hex_olen len limit in
  let out := shardcache_hex_escape str buf len limit include_prefix in
  Z.of_nat (length out) = str_size
  /\ 0 <= olen <= len /\ olen <= SHC_ESCAPE_BUFFER_SIZE_MAX / 2
  /\ (include_prefix <> 0 \/ 0 < olen ->
      Kepaxos.cstring out
      = (if include_prefix =? 0 then [] else [48; 120])
        ++ hex_digits (firstn (Z.to_nat olen) buf)
        ++ (if olen <? len then [46; 46; 46] else []))
  /\ (include_prefix = 0 -> olen = 0 -> out = str).
Proof.
  intros Hstr Hbuf len olen out. subst out.
  unfold str_size, SHC_ESCAPE_BUFFER_SIZE_MAX in *. change (Z.shiftl 1 16) with 65536 in *.
  change (65536 / 2) with 32768 in *.
  assert (Holen : 0 <= olen <= len /\ olen <= 32768).
  { subst olen. unfold hex_olen, SHC_ESCAPE_BUFFER_SIZE_MAX.
    change (Z.shiftl 1 16 / 2) with 32768. subst len.
    destruct (Z.gtb_spec limit 0); destruct (Z.ltb_spec limit (Z.of_nat (length buf)));
      cbn [andb]; lia. }
  unfold shardcache_hex_escape. cbv zeta.
  unfold SHC_ESCAPE_BUFFER_SIZE_MAX. change (Z.shiftl 1 16 / 2) with 32768.
  assert (Ecode : (if (if (limit >? 0) && (limit <? len) then limit else len) >? 32768
                   then 32768
                   else if (limit >? 0) && (limit <? len) then limit else len) = olen).
  { subst olen. unfold hex_olen, SHC_ESCAPE_BUFFER_SIZE_MAX.
    change (Z.shiftl 1 16 / 2) with 32768.
    destruct (Z.gtb_spec (if (limit >? 0) && (limit <? len) then limit else len) 32768); lia. }
  rewrite Ecode.
  assert (Hpos : olen < len -> 0 < olen).
  { subst olen. unfold hex_olen, SHC_ESCAPE_BUFFER_SIZE_MAX.
    change (Z.shiftl 1 16 / 2) with 32768. subst len.
    destruct (Z.gtb_spec limit 0); destruct (Z.ltb_spec limit (Z.of_nat (length buf)));
      cbn [andb]; lia. }
  clearbody olen.
  set (body := firstn (Z.to_nat olen) buf).
  assert (Hbody : length body = Z.to_nat olen).
  { subst body. rewrite length_firstn. subst len. lia. }
  assert (Hbb : Forall (fun b => 0 <= b < 256) body).
  { subst body. apply Forall_take. exact Hbuf. }
  pose proof (hex_digits_nonzero body Hbb) as Hnz.
  pose proof (length_hex_digits body) as Hld.
  (* the buffer after the prefix and the loop *)
  set (pfx := if include_prefix =? 0 then [] else [48; 120]).
  assert (Hmid : exists after,
            after = hex_loop body
                      (fst (if include_prefix =? 0 then (str, 0)
                            else (write_at str 0 [48; 120; 0], 2)))
                      (snd (if include_prefix =? 0 then (str, 0)
                            else (write_at str 0 [48; 120; 0], 2)))
            /\ length after = length str
            /\ (include_prefix = 0 -> olen = 0 -> after = str)
            /\ (include_prefix <> 0 \/ 0 < olen ->
                exists tail', after = (pfx ++ hex_digits body) ++ 0 :: tail')).
  { eexists. split; [reflexivity |].
    destruct (Z.eqb_spec include_prefix 0) as [E0 | E0]; cbn [fst snd]; subst pfx.
    - destruct body as [| b0 body'] eqn:Eb.
      + cbn [hex_loop]. split; [reflexivity |]. split; [reflexivity |].
        intros [Hc | Hc]; [congruence | cbn [length] in Hbody; lia].
      + destruct (hex_loop_spec (b0 :: body') [] str) as (tail' & E & El).
        * discriminate.
        * cbn [length] in Hbody |- *. lia.
        * cbn [app length] in E, El. change (Z.of_nat 0) with 0 in E, El.
          split; [exact El |]. split; [intros _ H0; cbn [length] in Hbody; lia |].
          intros _. exists tail'. exact E.
    - assert (Ew : write_at str 0 [48; 120; 0] = [48; 120] ++ 0 :: skipn 3 str).
      { change 0 with (Z.of_nat (@length Z [])) at 1.
        rewrite (write_at_split [] str) by (cbn [length]; lia). reflexivity. }
      rewrite Ew.
      destruct body as [| b0 body'] eqn:Eb.
      + cbn [hex_loop hex_digits flat_map app].
        split; [cbn [length]; rewrite length_skipn; lia |].
        split; [intros; congruence |].
        intros _. exists (skipn 3 str). reflexivity.
      + change 2 with (Z.of_nat (length [48; 120])).
        destruct (hex_loop_spec (b0 :: body') [48; 120] (0 :: skipn 3 str))
          as (tail' & E & El).
        * discriminate.
        * cbn [length] in Hbody |- *. rewrite length_skipn. lia.
        * split; [rewrite El; cbn [length app]; rewrite length_skipn; lia |].
          split; [intros; congruence |].
          intros _. exists tail'. exact E. }
  destruct Hmid as (after & Eafter & Hlen & Hstale & Hshape).
  assert (Eres : (let '(str0, p) := if include_prefix =? 0 then (str, 0)
                                    else (write_at str 0 [48; 120; 0], 2) in
                  if olen <? len then strcat (hex_loop body str0 p) [46; 46; 46]
                  else hex_loop body str0 p)
                 = if olen <? len then strcat after [46; 46; 46] else after).
  { rewrite Eafter. destruct (include_prefix =? 0); reflexivity. }
  rewrite Eres. clear Eres Eafter.
  assert (Hsnz : Forall (fun b => b <> 0) (pfx ++ hex_digits body)).
  { apply Forall_app. split; [| exact Hnz].
    subst pfx. destruct (include_prefix =? 0); repeat constructor; discriminate. }
  assert (Hpl : (length pfx <= 2)%nat).
  { subst pfx. destruct (include_prefix =? 0); cbn [length]; lia. }
  destruct (Z.ltb_spec olen len) as [Hcut | Hall].
  - (* bytes are left out: the dots go after the digits *)
    destruct Hshape as (tail' & Eshape); [right; now apply Hpos |].
    assert (Hroom : (4 <= length (0%Z :: tail'))%nat).
    { rewrite Eshape, !length_app, Hld in Hlen. cbn [length] in Hlen |- *. lia. }
    assert (Eout : strcat after [46; 46; 46]
                   = ((pfx ++ hex_digits body) ++ [46; 46; 46])
                     ++ 0 :: skipn 4 (0 :: tail')).
    { unfold strcat. rewrite Eshape.
      rewrite (KepaxosFacts.cstring_terminated _ tail' Hsnz).
      rewrite write_at_split by exact Hroom.
      cbn [length app]. rewrite <- !app_assoc. reflexivity. }
    rewrite Eout.
    split.
    { rewrite <- Hstr, <- Hlen, Eshape. rewrite !length_app. cbn [length].
      rewrite length_skipn. cbn [length] in Hroom |- *. lia. }
    split; [apply Holen |]. split; [apply Holen |]. split.
    + intros _. rewrite KepaxosFacts.cstring_terminated.
      * subst pfx. rewrite <- !app_assoc. reflexivity.
      * apply Forall_app. split; [exact Hsnz | repeat constructor; discriminate].
    + intros H0 Hz. specialize (Hpos Hcut). lia.
  - split; [rewrite <- Hstr; now rewrite Hlen |].
    split; [apply Holen |]. split; [apply Holen |]. split.
    + intros Hsome. destruct (Hshape Hsome) as (tail' & Eshape).
      rewrite Eshape, (KepaxosFacts.cstring_terminated _ tail' Hsnz).
      subst pfx. now rewrite app_nil_r.
    + exact Hstale.
Qed.

Lemma shardcache_hex_escape_spec_witness :
  Z.of_nat (length fresh_str) = str_size
  /\ Forall (fun b => 0 <= b < 256) sample_dump
  /\ (let len := Z.of_nat (length sample_dump) in
      let olen := hex_olen len 2 in
      let out := shardcache_hex_escape fresh_str sample_dump len 2 1 in
      Z.of_nat (length out) = str_size
      /\ 0 <= olen <= len /\ olen <= SHC_ESCAPE_BUFFER_SIZE_MAX / 2
      /\ (1 <> 0 \/ 0 < olen ->
          Kepaxos.cstring out
          = (if 1 =? 0 then [] else [48; 120])
            ++ hex_digits (firstn (Z.to_nat olen) sample_dump)
            ++ (if olen <? len then [46; 46; 46] else []))
      /\ (1 = 0 -> olen = 0 -> out = fresh_str)).
Proof.
  assert (H1 : Z.of_nat (length fresh_str) = str_size) by (vm_compute; reflexivity).
  assert (H2 : Forall (fun b => 0 <= b < 256) sample_dump)
    by (repeat constructor; lia).
  split; [exact H1 |]. split; [exact H2 |].
  exact (shardcache_hex_escape_spec fresh_str sample_dump 2 1 H1 H2).
Defined.

End LogFacts.
